(* ===== verification/_CoqProject ===== *)
-Q . S2P
Prelude.v
Dict.v
Text.v
PyFloat.v
Crypto.v
Sha3.v
Wots.v
Merkle.v
ParallelMerkle.v
TemporalAuth.v
Transaction.v
Ledger.v
Sharded.v
Pipeline.v
Throughput.v
TxValidation.v
Mempool.v
Consensus.v
Agreement.v
Slashing.v
Storage.v
StorageLaws.v
StorageSchema.v
Blocks.v
Recovery.v
Zones.v
KeyManager.v
Wallet.v
WalletProtocol.v
LiveDemo.v
Peers.v
P2P.v
P2PTrace.v
Measurement.v
Epoch.v
Detection.v
NodeCodec.v
Validator.v
Cluster.v
Network.v
NetworkEpoch.v
NetworkRun.v
Testnet.v
Node.v
NodeEpoch.v
NodeLone.v
NodeMessages.v
