(* ===== verification/Prelude.v ===== *)
(** * QRTB: a verification library for the Python node

    QRTB is a block chain node with hash-based signatures, whose validators agree on one block
    per epoch by three-phase voting weighted by stake, and watch each other by measured
    round-trip times.  This library models the Python program of [src/src/] and proves what
    its parts do, alone and together.  This file is the prelude: bytes, exceptions, [struct]
    integers, list and map lemmas, orders, tactics and hint databases that all files share.

    ** The program and its parts

    Bottom up, with the files that model each part:
    - Python itself: [Dict.v] (dictionaries in insertion order), [Text.v] (UTF-8, decimal
      text), [PyFloat.v] (binary64 floats), and the machine integers of [struct] below.
    - [crypto.py]: [Crypto.v] (hashing, [concat]; the interface [Hashlib]), [Sha3.v] (FIPS 202 as
      an instance of it), [Wots.v] (WOTS+ signatures), [Merkle.v] (trees and paths),
      [TemporalAuth.v] (epoch keys and batches of one-time keys).
    - [transaction.py]: [Transaction.v] (types, encodings, structural check), [Ledger.v] (UTXO
      set, registry of authentication roots), [TxValidation.v] (checking and applying),
      [Mempool.v].
    - [performance.py]: [ParallelMerkle.v] (chunked Merkle roots), [Sharded.v] (the UTXO set
      behind 256 locks), [Pipeline.v] (batch verification and the four-stage pipeline),
      [Throughput.v] (the benchmark and the statistics).
    - [consensus.py]: [Consensus.v] (the three-phase vote of one node), [Agreement.v] (many nodes
      under any interleaving), [Slashing.v].
    - [storage.py]: [Storage.v] (the three databases and their manager), [StorageLaws.v] and
      [StorageSchema.v] (theorems).
    - [block_producer.py]: [Blocks.v] (templates, producers, coordinators, distribution,
      finalizer), [Zones.v] (production over zones, statistics, the finalizer on its storage);
      [Recovery.v] relates what a producer applies to what the storage recovers.
    - [wallet.py]: [KeyManager.v], [Wallet.v], and [WalletProtocol.v] (the wallet against a node);
      [run_live.py]: [LiveDemo.v] (the script that runs wallets and a node together).
    - [p2p.py]: [Peers.v] (frames, peer table, payloads), [P2P.v] (connections, read loop,
      heartbeat, broadcast), [P2PTrace.v] (facts about its runs).
    - [measurement.py], [epoch.py], [detection.py]: [Measurement.v], [Epoch.v], [Detection.v].
    - [validator.py]: [Validator.v], which composes the last four and the consensus, and
      [Cluster.v] (many validators that exchange messages through their queues).
    - [network.py]: [Network.v], with [NetworkEpoch.v] and [NetworkRun.v] (theorems);
      [run_testnet.py]: [Testnet.v] (the runner, with the helpers at the end of [network.py]).
    - [node.py]: [NodeCodec.v] (wire formats), [Node.v] (the node itself), and [NodeEpoch.v],
      [NodeLone.v], [NodeMessages.v] (theorems).

    A node ([Node.v]) owns a TCP layer ([P2P.v]) whose callback it is (the class [AppHandler])
    and a validator ([Validator.v]); messages decoded by [NodeCodec.v] become calls of the
    validator, whose answers are written to the connections.  The simulation ([Network.v])
    instead holds many validators in one process and calls them directly.  The storage side
    ([Mempool.v], [TxValidation.v], [Blocks.v], [Zones.v], [Storage.v]) is a pipeline of its own:
    the node constructs its parts and never uses them.

    ** How Python is modelled

    - A method is a function from the object's record to the new record and its result; an
      operation that can raise returns [res], and one that can raise after it has changed the
      object returns the new object next to the [res].  A handler that catches exceptions does so
      in the model.
    - A dictionary whose order is not observed is a [gmap]; one whose order is, a [dict] of
      [Dict.v]; iterating over a Python set goes through an arbitrary order ([SetOrder]), so a
      theorem holds for every order the interpreter may choose.
    - Integers are unbounded, as in Python; [struct.pack], [to_bytes] and the columns of SQLite
      raise outside their width, and so do [pack_uint], [int_to_bytes] and [db_int].
    - Floats are exact binary64 ([spec_float]); where the code compares a quotient of stakes with
      0.67, the theorems say which rational test that is.
    - The clock, nonces, random draws and what a socket delivers are arguments or streams that the
      model reads in the order of the code.  [hashlib], the C library's trigonometry and Python's
      seeded shuffle are the interfaces [Hashlib], [Libm] and [PyRandom].
    - Coroutines are cut at their awaits and threads at their critical sections; theorems about
      them quantify over every interleaving of the pieces.  Tasks of a thread pool share nothing
      but what the model shows, and the order in which they complete is an argument.
    - Fuel occurs in six loops only, each bounded by the length of what it consumes: the levels
      of a tree ([Merkle.build_levels], [ParallelMerkle.sequential_levels] and
      [ParallelMerkle.parallel_levels], with the number of leaves), the path in a rotation
      ([TxValidation.parse_rotation_proof]), the entries of a peer list ([Peers.decode_peers],
      with the bytes of the payload) and the messages of a stream ([P2P.read_loop]).  That it is
      enough is proved: [merkle_proof_complete] and [parallel_root_sequential] return roots,
      [parse_rotation_proof_ends] and [decode_peer_list_ends] exclude [OutOfFuel], and
      [read_loop_ends] ends the loop on every finite stream.

    ** What the theorems show

    - Signatures and trees: signing then verifying succeeds, forging inverts a hash chain, paths
      are complete and sound, no one-time key is used twice ([wots_sign_verify],
      [wots_forgery_inverts_chain], [merkle_proof_complete], [merkle_proof_sound],
      [auth_run_spec]); parallel and sequential roots agree ([parallel_root_sequential]).
    - Money: invariants of UTXO set and mempool under every history ([utxo_inv_reachable],
      [mempool_inv_reachable]); accepted transactions create no value
      ([accepted_apply_conserves]) and a block mints at most its reward ([block_mints_reward]);
      the sharded set refines the plain one, also under threads ([sharded_refines_ledger],
      [sharded_concurrent]).
    - Authentication roots: the registry follows its specification ([registry_run_spec]), the
      table on disk follows the registry ([auth_table_refines_registry]), and wallet and node stay
      in step through transfer and rotation ([key_manager_sound], [transfer_accepted],
      [rotation_protocol]); the demonstration script ends with all its assertions met
      ([live_demo_verifies]).
    - Agreement: the float threshold is exact ([pre_commit_threshold_exact]), a finalized block has
      its quorum ([finalized_block_sound]), also in a node under arbitrary traffic
      ([run_epoch_sound]), and nodes that count authentic pre-commits finalize blocks with the
      same proposal hash against any adversary below 34% of the stake ([nodes_agree]), a bound
      that is exact ([disagreement_at_34]); whole validators with their queues refine those
      nodes, so they agree too, and barring collisions on all that the hash covers
      ([validators_agree]), which the detection results are not ([detection_results_unbound]).
    - Progress: a quorum vote finalizes ([quorum_vote_finalizes]), a lone node finalizes every
      epoch ([lone_node_finalizes]), a simulated network too, unless the detection raises
      ([network_epoch_finalizes], [network_run_finalizes]), and the runner reports success
      ([runner_passes]); the benchmark checks what it signs and finds what it stores
      ([benchmark_sound]).
    - Epochs and measurements: the epoch table over every history, with the records that grace
      checks replace ([epoch_lifecycle], [grace_check_erases_epoch]); commitments bind the
      measurements but for their theoretical times ([commitment_binding]).
    - Storage: well-typed after any calls ([storage_well_typed]), a chain stored is linked, and
      recovery restores the UTXO set in memory but for data, creation epochs and stakes
      ([stored_chain_linked], [rebuild_replays]); the finalizer stores what it is given
      ([finalizer_stores_chain]).
    - Wire: commitments and votes are decoded to what was encoded, proposals with exactly what
      they lose ([wire_roundtrip]); the peer table stays
      within its limits ([peer_table_invariant]), read loops end ([read_loop_ends]), queued
      messages are neither lost nor duplicated ([messages_delivered_in_order]).
    - Theorems that record a defect say exactly what the code does instead:
      [forged_votes_finalize], [proposal_answered] (two votes for one),
      [pre_commits_stay_local], [pipeline_accepts_coinbase_only], and, beside them in their
      files, [duplicate_input_accepted], [empty_roots_change_hash], [reveal_never_decoded],
      [stored_block_may_be_lost], [restore_resets_spent] and others.

    ** Not modelled

    - The scripts [bench_*.py] and the tests: random load, timing and printing.
    - The C and Rust ports under [src/native]: another language than the program's.
    - Logging, printed reports and the [get_status] methods that only format text; database
      connections, [close] and [export_snapshot]; starting and stopping thread pools.
    - The four detectors are modelled as written, but no theorem says how often they are right:
      that is a question of statistics. *)

From stdpp Require Import prelude list gmap strings pretty sorting.
From Stdlib Require Import Strings.Byte ZArith Lia.

Set Default Goal Selector "!".

(** ** Python bytes *)

(** A Python [bytes] object is a list of 8-bit values. *)
Abbreviation bytes := (list byte).

#[export] Instance byte_eq_dec : EqDecision byte := Byte.byte_eq_dec.

#[export] Program Instance byte_countable : Countable byte :=
  inj_countable Byte.to_N Byte.of_N _.
Next Obligation. intros x. apply Byte.of_to_N. Qed.

Declare Scope py_scope.
Delimit Scope py_scope with py.

(** The literal [b"..."]. *)
Notation "'b:' s" := (String.list_byte_of_string s) (at level 1, only parsing) : py_scope.
Open Scope py_scope.

Definition byte_val (b : byte) : Z := Z.of_N (Byte.to_N b).

(** [bytes([z])] for [0 <= z < 256]; out of range it is reduced modulo 256 and the
    callers that can be out of range check first. *)
Definition byte_of_Z (z : Z) : byte :=
  default Byte.x00 (Byte.of_N (Z.to_N (z mod 256)%Z)).

(** [data[i:j]] for [0 <= i], [0 <= j]: Python clamps both ends to the length. *)
Definition slice (i j : nat) (data : bytes) : bytes := take (j - i) (drop i data).

(** [b'\x00' * 32]. *)
Definition zero32 : bytes := replicate 32 Byte.x00.

(** ** Exceptions *)

(** The exception classes the modelled code raises or lets escape. *)
Inductive exn :=
  | StructError                      (* struct.error *)
  | ValueError (msg : string)
  | IndexError (msg : string)
  | KeyError
  | TypeError
  | AttributeError
  | AssertionError (msg : string)
  | OverflowError
  | ZeroDivisionError
  | UnicodeDecodeError
  | IncompleteReadError              (* asyncio.IncompleteReadError *)
  | ConnectionError (msg : string)
  | TimeoutError                     (* asyncio.TimeoutError *)
  | OSError
  | IntegrityError                   (* sqlite3.IntegrityError *)
  | OperationalError                 (* sqlite3.OperationalError *)
  | OutOfFuel.                       (* a loop's fuel ran out: shown not to happen *)

#[export] Instance exn_eq_dec : EqDecision exn.
Proof. solve_decision. Defined.

(** A Python expression either returns or raises. *)
Inductive res (A : Type) :=
  | Ok (a : A)
  | Err (e : exn).
Arguments Ok {_} _.
Arguments Err {_} _.

#[export] Instance res_eq_dec `{EqDecision A} : EqDecision (res A).
Proof. solve_decision. Defined.

#[export] Instance res_ret : MRet res := @Ok.
#[export] Instance res_bind : MBind res := fun A B k x =>
  match x with Ok a => k a | Err e => Err e end.
#[export] Instance res_fmap : FMap res := fun A B f x =>
  match x with Ok a => Ok (f a) | Err e => Err e end.

Definition is_Ok {A} (x : res A) : Prop := exists a, x = Ok a.

Definition guard_or (b : bool) (e : exn) : res unit := if b then Ok tt else Err e.

(** [[f(x) for x in l]]: left to right, the first exception escapes. *)
Fixpoint res_map {A B} (f : A -> res B) (l : list A) : res (list B) :=
  match l with
  | [] => Ok []
  | x :: l => y ← f x; ys ← res_map f l; Ok (y :: ys)
  end.

(** ** Fixed-width big-endian integers ([struct.pack] / [struct.unpack]) *)

Fixpoint be_encode (n : nat) (z : Z) : bytes :=
  match n with
  | O => []
  | S n => byte_of_Z (z / 256 ^ Z.of_nat n)%Z :: be_encode n z
  end.

(** [int.from_bytes(l, 'big')]. *)
Definition be_decode (l : bytes) : Z :=
  foldl (fun acc b => acc * 256 + byte_val b)%Z 0%Z l.

(** [struct.pack] with an unsigned [n]-byte big-endian format ([>H], [>I], [>Q]). *)
Definition pack_uint (n : nat) (z : Z) : res bytes :=
  if (0 <=? z)%Z && (z <? 256 ^ Z.of_nat n)%Z then Ok (be_encode n z) else Err StructError.

(** [struct.unpack]: the buffer must have exactly the format's size. *)
Definition unpack_uint (n : nat) (data : bytes) : res Z :=
  if length data =? n then Ok (be_decode data) else Err StructError.

(** [struct.pack] and [struct.unpack] with a signed [n]-byte format ([>i]): two's
    complement. *)
Definition pack_sint (n : nat) (z : Z) : res bytes :=
  let half := (256 ^ Z.of_nat n / 2)%Z in
  if (- half <=? z)%Z && (z <? half)%Z then Ok (be_encode n (z mod 256 ^ Z.of_nat n)%Z)
  else Err StructError.

Definition unpack_sint (n : nat) (data : bytes) : res Z :=
  u ← (if length data =? n then Ok (be_decode data) else Err StructError);
  Ok (if (u <? 256 ^ Z.of_nat n / 2)%Z then u else u - 256 ^ Z.of_nat n)%Z.

(** ** Tactics *)

(** Split every [match]/[if] in the goal or the context, keeping the equations. *)
Ltac split_match :=
  match goal with
  | |- context [match ?x with _ => _ end] => destruct x eqn:?
  | H : context [match ?x with _ => _ end] |- _ => destruct x eqn:?
  end.

(** Turn boolean arithmetic tests in the context into propositions. *)
Ltac bool_to_prop :=
  repeat match goal with
  | H : (_ && _) = true |- _ => apply andb_true_iff in H; destruct H
  | H : (_ || _) = false |- _ => apply orb_false_iff in H; destruct H
  | H : negb _ = true |- _ => apply negb_true_iff in H
  | H : negb _ = false |- _ => apply negb_false_iff in H
  | H : (_ <=? _)%Z = true |- _ => apply Z.leb_le in H
  | H : (_ <=? _)%Z = false |- _ => apply Z.leb_gt in H
  | H : (_ <? _)%Z = true |- _ => apply Z.ltb_lt in H
  | H : (_ <? _)%Z = false |- _ => apply Z.ltb_ge in H
  | H : (_ =? _)%Z = true |- _ => apply Z.eqb_eq in H
  | H : (_ =? _)%Z = false |- _ => apply Z.eqb_neq in H
  | H : (_ <=? _)%nat = true |- _ => apply Nat.leb_le in H
  | H : (_ <=? _)%nat = false |- _ => apply Nat.leb_gt in H
  | H : (_ <? _)%nat = true |- _ => apply Nat.ltb_lt in H
  | H : (_ <? _)%nat = false |- _ => apply Nat.ltb_ge in H
  | H : (_ =? _)%nat = true |- _ => apply Nat.eqb_eq in H
  | H : (_ =? _)%nat = false |- _ => apply Nat.eqb_neq in H
  | H : bool_decide _ = true |- _ => apply bool_decide_eq_true in H
  | H : bool_decide _ = false |- _ => apply bool_decide_eq_false in H
  end.

Lemma bind_Ok_inv {A B} (k : A -> res B) x b :
  mbind k x = Ok b -> exists a, x = Ok a /\ k a = Ok b.
Proof. destruct x; simpl; eauto. done. Qed.

Lemma Ok_inj {A} (x y : A) : Ok x = Ok y -> x = y.
Proof. congruence. Qed.

Lemma bind_Ok {A B} (k : A -> res B) a : mbind k (Ok a) = k a.
Proof. reflexivity. Qed.

(** Invert the binds of an [Ok] result in the context. *)
Ltac inv_res :=
  repeat match goal with
  | H : mbind _ _ = Ok _ |- _ =>
      let a := fresh "a" in let E := fresh "E" in
      apply bind_Ok_inv in H as (a & E & H); cbv beta in H
  | H : Ok _ = Ok _ |- _ => injection H; clear H; intros; subst
  | H : Err _ = Ok _ |- _ => discriminate H
  | H : mret _ = Ok _ |- _ => injection H; clear H; intros; subst
  end.

Create HintDb qrtb discriminated.

(** ** Bytes and integers *)

Lemma byte_val_range b : (0 <= byte_val b < 256)%Z.
Proof. unfold byte_val. pose proof (Byte.to_N_bounded b). lia. Qed.

Lemma byte_val_inj b c : byte_val b = byte_val c -> b = c.
Proof.
  unfold byte_val. intros E%N2Z.inj.
  pose proof (Byte.of_to_N b) as Hb. rewrite E, Byte.of_to_N in Hb. congruence.
Qed.

Lemma byte_val_of_Z z : byte_val (byte_of_Z z) = (z mod 256)%Z.
Proof.
  unfold byte_of_Z, byte_val. pose proof (Z.mod_pos_bound z 256 ltac:(lia)).
  destruct (Byte.of_N (Z.to_N (z mod 256))) eqn:E; simpl.
  - apply Byte.to_of_N in E. rewrite E. lia.
  - apply Byte.of_N_None_iff in E. lia.
Qed.

Lemma byte_of_Z_val b : byte_of_Z (byte_val b) = b.
Proof.
  apply byte_val_inj. rewrite byte_val_of_Z. apply Z.mod_small, byte_val_range.
Qed.

Lemma be_encode_length n z : length (be_encode n z) = n.
Proof. revert z. induction n; simpl; auto. Qed.

Lemma be_decode_app l1 l2 :
  be_decode (l1 ++ l2) = (be_decode l1 * 256 ^ Z.of_nat (length l2) + be_decode l2)%Z.
Proof.
  unfold be_decode. rewrite foldl_app. generalize (foldl (fun acc b => acc * 256 + byte_val b)%Z 0%Z l1).
  induction l2 as [|b l2 IH] using rev_ind; intros a; simpl; [lia|].
  rewrite !foldl_app, length_app. simpl. rewrite IH.
  replace (Z.of_nat (length l2 + 1)) with (Z.of_nat (length l2) + 1)%Z by lia.
  rewrite Z.pow_add_r by lia. lia.
Qed.

Lemma be_decode_cons b l :
  be_decode (b :: l) = (byte_val b * 256 ^ Z.of_nat (length l) + be_decode l)%Z.
Proof. change (b :: l) with ([b] ++ l). rewrite be_decode_app. reflexivity. Qed.

Lemma be_decode_range l : (0 <= be_decode l < 256 ^ Z.of_nat (length l))%Z.
Proof.
  induction l as [|b l IH]; [simpl; unfold be_decode; simpl; lia|].
  rewrite be_decode_cons. cbn [length].
  rewrite Nat2Z.inj_succ, Z.pow_succ_r by lia. pose proof (byte_val_range b). nia.
Qed.

(** Decoding inverts encoding up to truncation to [n] bytes. *)
Lemma be_decode_encode n z : be_decode (be_encode n z) = (z mod 256 ^ Z.of_nat n)%Z.
Proof.
  induction n as [|n IH]; [rewrite Z.mod_1_r; reflexivity|].
  cbn [be_encode]. rewrite be_decode_cons, be_encode_length, IH, byte_val_of_Z.
  rewrite Nat2Z.inj_succ, Z.pow_succ_r by lia.
  rewrite (Z.mul_comm 256), Z.rem_mul_r by lia. lia.
Qed.

Lemma be_decode_encode_small n z :
  (0 <= z < 256 ^ Z.of_nat n)%Z -> be_decode (be_encode n z) = z.
Proof. intros. rewrite be_decode_encode. by apply Z.mod_small. Qed.

Lemma be_decode_inj l1 l2 :
  length l1 = length l2 -> be_decode l1 = be_decode l2 -> l1 = l2.
Proof.
  revert l2. induction l1 as [|b l1 IH]; intros [|c l2] L E; try discriminate; [done|].
  injection L as L. rewrite !be_decode_cons, L in E.
  pose proof (be_decode_range l1). pose proof (be_decode_range l2). rewrite L in *.
  assert (byte_val b = byte_val c) as Hbc by nia.
  f_equal; [by apply byte_val_inj | apply IH; [done | rewrite Hbc in E; lia]].
Qed.

Lemma be_encode_decode l : be_encode (length l) (be_decode l) = l.
Proof.
  apply be_decode_inj; [apply be_encode_length|].
  apply be_decode_encode_small, be_decode_range.
Qed.

(** The high bytes first, then the low ones. *)
Lemma be_encode_split n m z :
  be_encode (n + m) z = be_encode n (z / 256 ^ Z.of_nat m) ++ be_encode m z.
Proof.
  induction n as [|n IH]; [done|]. cbn [be_encode Nat.add app]. rewrite IH. f_equal. f_equal.
  rewrite Z.div_div by (try apply Z.pow_nonzero; try apply Z.pow_pos_nonneg; lia).
  rewrite <- Z.pow_add_r by lia. f_equal. f_equal. lia.
Qed.

Lemma pack_uint_ok n z : (0 <= z < 256 ^ Z.of_nat n)%Z -> pack_uint n z = Ok (be_encode n z).
Proof.
  intros. unfold pack_uint.
  by rewrite (proj2 (Z.leb_le _ _)), (proj2 (Z.ltb_lt _ _)) by lia.
Qed.

Lemma pack_uint_inv n z l :
  pack_uint n z = Ok l -> (0 <= z < 256 ^ Z.of_nat n)%Z /\ l = be_encode n z.
Proof.
  unfold pack_uint. destruct (_ && _) eqn:E; [|done].
  intros [= <-]. bool_to_prop. split; [lia|done].
Qed.

Lemma pack_uint_length n z l : pack_uint n z = Ok l -> length l = n.
Proof. intros [_ ->]%pack_uint_inv. apply be_encode_length. Qed.

(** Two integers that pack to the same bytes are equal. *)
Lemma pack_uint_inj n z1 z2 l : pack_uint n z1 = Ok l -> pack_uint n z2 = Ok l -> z1 = z2.
Proof.
  intros [? ->]%pack_uint_inv [? E]%pack_uint_inv.
  apply (f_equal be_decode) in E. rewrite !be_decode_encode_small in E by lia. done.
Qed.

Lemma unpack_pack_uint n z l : pack_uint n z = Ok l -> unpack_uint n l = Ok z.
Proof.
  intros [? ->]%pack_uint_inv. unfold unpack_uint.
  by rewrite be_encode_length, Nat.eqb_refl, be_decode_encode_small.
Qed.

Lemma unpack_pack_sint n z l : 0 < n -> pack_sint n z = Ok l -> length l = n /\ unpack_sint n l = Ok z.
Proof.
  unfold pack_sint, unpack_sint. intros Hn. destruct (_ && _) eqn:E; [|done]. intros [= <-].
  bool_to_prop. split; [apply be_encode_length|].
  rewrite be_encode_length, Nat.eqb_refl, be_decode_encode, Z.mod_mod by (apply Z.pow_nonzero; lia).
  assert (Hb : (256 ^ Z.of_nat n = 2 * (256 ^ Z.of_nat n / 2))%Z).
  { apply Z_div_exact_full_2; [lia|]. destruct n; [lia|]. rewrite Nat2Z.inj_succ, Z.pow_succ_r by lia.
    change 256%Z with (2 * 128)%Z at 1. rewrite <- Z.mul_assoc, Z.mul_comm. apply Z.mod_mul. lia. }
  set (h := (256 ^ Z.of_nat n / 2)%Z) in *. rewrite Hb.
  unfold mbind, res_bind. f_equal. destruct (Z.leb_spec 0 z).
  - rewrite Z.mod_small by lia. destruct (Z.ltb_spec z h); lia.
  - rewrite <- (Z.mod_add z 1), Z.mod_small by lia. destruct (Z.ltb_spec (z + 1 * (2 * h)) h); lia.
Qed.

(** ** Slices *)

Lemma slice_length i j l : length (slice i j l) = (j - i) `min` (length l - i).
Proof. unfold slice. by rewrite length_take, length_drop. Qed.

Lemma slice_length_in i j l : i <= j -> j <= length l -> length (slice i j l) = j - i.
Proof. intros. rewrite slice_length. lia. Qed.

(** Reading past a prefix of known length. *)
Lemma slice_app_r i j n l1 l2 :
  length l1 = n -> n <= i -> slice i j (l1 ++ l2) = slice (i - n) (j - n) l2.
Proof.
  intros <- Hi. unfold slice. rewrite drop_app_ge by done. f_equal. lia.
Qed.

Lemma slice_prefix n l1 l2 : length l1 = n -> slice 0 n (l1 ++ l2) = l1.
Proof. intros <-. unfold slice. rewrite drop_0, Nat.sub_0_r. apply take_app_length. Qed.

(** The slice that is exactly one component of a concatenation. *)
Lemma slice_mid i j l1 m l2 :
  i = length l1 -> j = i + length m -> slice i j (l1 ++ m ++ l2) = m.
Proof.
  intros -> ->. rewrite (slice_app_r _ _ (length l1)) by done.
  replace (length l1 - length l1) with 0 by lia.
  apply slice_prefix. lia.
Qed.

Lemma slice_at l1 m l2 data i j :
  data = l1 ++ m ++ l2 -> i = length l1 -> j = i + length m -> slice i j data = m.
Proof. intros -> ? ?. by apply slice_mid. Qed.

Create Rewrite HintDb qlen.
#[export] Hint Rewrite be_encode_length slice_length @length_app : qlen.

(** ** Sums of integers over lists *)

Definition sumZ (l : list Z) : Z := foldr Z.add 0%Z l.

Lemma sumZ_app l1 l2 : sumZ (l1 ++ l2) = (sumZ l1 + sumZ l2)%Z.
Proof. induction l1; simpl; lia. Qed.

#[export] Instance sumZ_Permutation : Proper ((≡ₚ) ==> (=)) sumZ.
Proof. intros l1 l2 P. induction P; simpl; lia. Qed.

Lemma sumZ_nonneg l : Forall (fun z => 0 <= z)%Z l -> (0 <= sumZ l)%Z.
Proof. induction 1; simpl; lia. Qed.

(** ** The error monad *)

Lemma res_map_Ok {A B} (f : A -> res B) l ys :
  res_map f l = Ok ys <-> Forall2 (fun x y => f x = Ok y) l ys.
Proof.
  revert ys. induction l as [|x l IH]; intros ys; simpl.
  - split; [intros [= <-]; constructor | by intros ->%Forall2_nil_inv_l].
  - split.
    + destruct (f x) eqn:E; simpl; [|done]. destruct (res_map f l) eqn:E2; simpl; [|done].
      intros [= <-]. constructor; [done | by apply IH].
    + intros (y & ys' & Hy & Hys & ->)%Forall2_cons_inv_l. rewrite Hy. simpl.
      apply IH in Hys. by rewrite Hys.
Qed.

Lemma res_map_total {A B} (f : A -> res B) (g : A -> B) l :
  (forall x, x ∈ l -> f x = Ok (g x)) -> res_map f l = Ok (map g l).
Proof.
  intros H. apply res_map_Ok. induction l; simpl; constructor; [apply H; set_solver|].
  apply IHl. set_solver.
Qed.

(** ** Lists *)

Lemma concat_length_same {A} n (ls : list (list A)) :
  Forall (fun l => length l = n) ls -> length (concat ls) = n * length ls.
Proof. induction 1; simpl; rewrite ?length_app; lia. Qed.

(** The [i]-th block of a concatenation of blocks of equal length. *)
Lemma slice_concat n (ls : list bytes) i l :
  Forall (fun l => length l = n) ls -> ls !! i = Some l ->
  slice (i * n) ((i + 1) * n) (concat ls) = l.
Proof.
  intros Hn. revert i. induction Hn as [|l0 ls H0 Hn IH]; intros [|i] Hi; try discriminate.
  - injection Hi as ->. simpl. apply slice_prefix. lia.
  - simpl in Hi. simpl concat. rewrite (slice_app_r _ _ n) by (done || lia).
    rewrite <- (IH i Hi). f_equal; lia.
Qed.

Lemma imap_lookup_Some {A B} (f : nat -> A -> B) l i y :
  imap f l !! i = Some y <-> exists x, l !! i = Some x /\ y = f i x.
Proof. rewrite list_lookup_imap. destruct (l !! i); naive_solver. Qed.

(** [fmap] on lists is [map]; stdpp's lookup lemma for the latter spelling. *)
Lemma lookup_map {A B} (f : A -> B) l i : map f l !! i = f <$> (l !! i).
Proof. exact (list_lookup_fmap f l i). Qed.

(** ** Iteration over sets and dictionaries *)

(** Python iterates over a set in an order that depends on its hash table (and, for [bytes],
    on a per-process seed), so a result that depends on it is stated for every order. *)
Class SetOrder (A : Type) `{Countable A} : Type := {
  set_order : gset A -> list A;
  set_order_perm : forall s, set_order s ≡ₚ elements s;
}.

(** One such order, for concrete runs. *)
Definition elements_order {A} `{Countable A} : SetOrder A :=
  {| set_order := elements; set_order_perm := fun s => reflexivity (elements s) |}.

(** [d[k]] on a [defaultdict]: the value, or the default for a missing key. *)
Definition lookup_default {K V} `{Countable K} (d : V) (m : gmap K V) (k : K) : V :=
  default d (m !! k).

Lemma lookup_default_insert_eq {K V} `{Countable K} (d : V) (m : gmap K V) k v :
  lookup_default d (<[k := v]> m) k = v.
Proof. unfold lookup_default. by rewrite lookup_insert_eq. Qed.

Lemma lookup_default_insert_ne {K V} `{Countable K} (d : V) (m : gmap K V) k k' v :
  k <> k' -> lookup_default d (<[k := v]> m) k' = lookup_default d m k'.
Proof. intros. unfold lookup_default. by rewrite lookup_insert_ne. Qed.

Section MapSums.
Context {K V : Type} `{Countable K}.

(** Sum of [f] over the values of a map. *)
Definition map_sum (f : V -> Z) (m : gmap K V) : Z :=
  sumZ (map (fun kv => f kv.2) (map_to_list m)).

Lemma map_sum_empty f : map_sum f ∅ = 0%Z.
Proof. unfold map_sum. by rewrite map_to_list_empty. Qed.

Lemma map_sum_insert f m k v :
  m !! k = None -> map_sum f (<[k := v]> m) = (f v + map_sum f m)%Z.
Proof. intros Hk. unfold map_sum. by rewrite map_to_list_insert. Qed.

Lemma map_sum_delete f m k v :
  m !! k = Some v -> map_sum f m = (f v + map_sum f (delete k m))%Z.
Proof.
  intros Hk. rewrite <- (insert_delete_id m k v Hk) at 1.
  apply map_sum_insert, lookup_delete_eq.
Qed.

(** Overwriting an entry moves the sum by the difference. *)
Lemma map_sum_update f m k v w :
  m !! k = Some v -> map_sum f (<[k := w]> m) = (map_sum f m - f v + f w)%Z.
Proof.
  intros Hk. rewrite (map_sum_delete f m k v Hk), <- insert_delete_eq, map_sum_insert;
    [lia | apply lookup_delete_eq].
Qed.

(** A sum over a duplicate-free list of exactly the keys that satisfy [P]. *)
Lemma map_sum_keys (P : K -> V -> bool) (g : option V -> Z) m ks :
  NoDup ks -> (forall k, k ∈ ks <-> exists v, m !! k = Some v /\ P k v = true) ->
  sumZ (map (fun k => g (m !! k)) ks) =
  sumZ (map (fun kv => if P kv.1 kv.2 then g (Some kv.2) else 0%Z) (map_to_list m)).
Proof.
  intros Hnd Hks.
  assert (ks ≡ₚ map fst (List.filter (fun kv => P kv.1 kv.2) (map_to_list m))) as Hp.
  { apply NoDup_Permutation; [done| |].
    - pose proof (NoDup_fst_map_to_list m) as Hm.
      induction (map_to_list m) as [|[k v] l IH]; [constructor|].
      inversion Hm; subst. simpl. destruct (P k v); simpl; [|by apply IH].
      constructor; [|by apply IH]. intros ([k' v'] & ? & Hin)%list_elem_of_fmap.
      simpl in *. subst. apply list_elem_of_In, filter_In in Hin as [Hin _].
      match goal with Hn : _ ∉ _ |- _ => apply Hn end.
      apply list_elem_of_fmap. exists (k', v'). split; [done|]. by apply list_elem_of_In.
    - intros k. rewrite Hks, list_elem_of_fmap. split.
      + intros (v & Hv & HP). exists (k, v). split; [done|].
        apply list_elem_of_In, filter_In. split; [|done].
        by apply list_elem_of_In, elem_of_map_to_list.
      + intros ([k' v] & -> & Hin). apply list_elem_of_In, filter_In in Hin as [Hin HP].
        exists v. split; [|done]. by apply elem_of_map_to_list, list_elem_of_In. }
  rewrite Hp. assert (Forall (fun kv => m !! kv.1 = Some kv.2) (map_to_list m)) as Hf.
  { apply Forall_forall. intros [k v] Hin. by apply elem_of_map_to_list. }
  clear Hp Hks. induction Hf as [|[k v] l Hkv Hf IH]; [done|]. simpl.
  destruct (P k v); simpl; [simpl in Hkv; rewrite Hkv|]; lia.
Qed.

End MapSums.

(** ** Text *)

Definition hex_digit (z : Z) : string :=
  match z with
  | 0 => "0" | 1 => "1" | 2 => "2" | 3 => "3" | 4 => "4" | 5 => "5" | 6 => "6" | 7 => "7"
  | 8 => "8" | 9 => "9" | 10 => "a" | 11 => "b" | 12 => "c" | 13 => "d" | 14 => "e" | _ => "f"
  end%Z.

(** [data.hex()]. *)
Fixpoint hex (data : bytes) : string :=
  match data with
  | [] => ""
  | c :: data => hex_digit (byte_val c / 16) +:+ hex_digit (byte_val c mod 16) +:+ hex data
  end.

(** [data.hex()[:n]]. *)
Definition hex_prefix (n : nat) (data : bytes) : string := String.substring 0 n (hex data).

(** ** Three-way comparisons *)

(** What a comparison function has to satisfy for sorting with it to make sense. *)
Class LawfulCmp {A : Type} (cmp : A -> A -> comparison) : Prop := {
  cmp_sym x y : cmp y x = CompOpp (cmp x y);
  cmp_lt_trans x y z : cmp x y = Lt -> cmp y z = Lt -> cmp x z = Lt;
  cmp_eq_compat x y z : cmp x y = Eq -> cmp x z = cmp y z;
}.

(** Compare first by one, then by the other. *)
Definition cmp_then (c1 c2 : comparison) : comparison :=
  match c1 with Eq => c2 | _ => c1 end.

#[export] Instance Z_compare_lawful : LawfulCmp Z.compare.
Proof.
  split.
  - intros. apply Z.compare_antisym.
  - intros x y z. rewrite !Z.compare_lt_iff. lia.
  - intros x y z ->%Z.compare_eq_iff. done.
Qed.

Section Comparisons.
Context {A B : Type}.

(** Comparing images. *)
Lemma cmp_on_lawful (f : A -> B) cmp :
  LawfulCmp cmp -> LawfulCmp (fun x y => cmp (f x) (f y)).
Proof.
  intros []. split; eauto.
Qed.

Lemma cmp_then_lawful (c1 c2 : A -> A -> comparison) :
  LawfulCmp c1 -> LawfulCmp c2 -> LawfulCmp (fun x y => cmp_then (c1 x y) (c2 x y)).
Proof.
  intros H1 H2. split; unfold cmp_then.
  - intros x y. rewrite (cmp_sym (cmp := c1) x y), (cmp_sym (cmp := c2) x y).
    by destruct (c1 x y).
  - intros x y z Hxy Hyz. destruct (c1 x y) eqn:E1; [|clear Hxy|done].
    + rewrite (cmp_eq_compat _ _ z E1). destruct (c1 y z); [by eapply cmp_lt_trans|done|done].
    + destruct (c1 y z) eqn:E2; [|by rewrite (cmp_lt_trans _ _ _ E1 E2)|done].
      pose proof (cmp_sym (cmp := c1) y z) as Es. rewrite E2 in Es. simpl in Es.
      rewrite (cmp_sym (cmp := c1) z x), (cmp_eq_compat _ _ x Es), <- (cmp_sym (cmp := c1)).
      by rewrite E1.
  - intros x y z Hxy. destruct (c1 x y) eqn:E1; try done.
    rewrite (cmp_eq_compat _ _ z E1). destruct (c1 y z); try done. by apply cmp_eq_compat.
Qed.

(** "Sorts before or equal" in descending order is a total preorder. *)
Definition cmp_ge (cmp : A -> A -> comparison) (x y : A) : Prop := cmp x y <> Lt.

#[export] Instance cmp_ge_dec cmp : RelDecision (cmp_ge cmp).
Proof. intros x y. unfold cmp_ge. destruct (cmp x y); [by left | right; intros Hn; by apply Hn | by left]. Defined.

Lemma cmp_ge_total cmp : LawfulCmp cmp -> Total (cmp_ge cmp).
Proof.
  intros Hc x y. unfold cmp_ge. rewrite (cmp_sym (cmp := cmp) x y). destruct (cmp x y); simpl; auto.
Qed.

Lemma cmp_ge_trans cmp : LawfulCmp cmp -> Transitive (cmp_ge cmp).
Proof.
  intros Hc x y z. unfold cmp_ge. intros Hxy Hyz Hxz. destruct (cmp x y) eqn:E; try done.
  - rewrite (cmp_eq_compat _ _ z E) in Hxz. done.
  - pose proof (cmp_sym (cmp := cmp) x y) as Es. rewrite E in Es. simpl in Es.
    by rewrite (cmp_lt_trans _ _ _ Es Hxz) in Hyz.
Qed.

End Comparisons.

(** Comparison of [bytes]: lexicographic, a proper prefix first. *)
Fixpoint bytes_cmp (x y : bytes) : comparison :=
  match x, y with
  | [], [] => Eq
  | [], _ :: _ => Lt
  | _ :: _, [] => Gt
  | a :: x, c :: y => cmp_then (Z.compare (byte_val a) (byte_val c)) (bytes_cmp x y)
  end.

#[export] Instance bytes_cmp_lawful : LawfulCmp bytes_cmp.
Proof.
  split.
  - induction x as [|a x IH]; intros [|c y]; try done. simpl. rewrite IH.
    rewrite (Z.compare_antisym (byte_val a) (byte_val c)). by destruct (byte_val a ?= byte_val c)%Z.
  - induction x as [|a x IH]; intros [|c y] [|d z]; try done. simpl. unfold cmp_then.
    destruct (Z.compare_spec (byte_val a) (byte_val c)) as [->|Hac|]; [| |done].
    + destruct (byte_val c ?= byte_val d)%Z; [apply IH|done|done].
    + intros _. destruct (Z.compare_spec (byte_val c) (byte_val d)) as [<-|Hcd|]; [| |done];
        intros _; by rewrite (proj2 (Z.compare_lt_iff _ _)) by lia.
  - induction x as [|a x IH]; intros [|c y] [|d z]; try done; simpl; unfold cmp_then.
    destruct (Z.compare_spec (byte_val a) (byte_val c)) as [->|Hac|]; try done.
    intros E. by rewrite (IH y z E).
Qed.

Lemma bytes_cmp_eq x y : bytes_cmp x y = Eq -> x = y.
Proof.
  revert y. induction x as [|a x IH]; intros [|c y]; try done. simpl. unfold cmp_then.
  destruct (Z.compare_spec (byte_val a) (byte_val c)) as [E%byte_val_inj| |]; try done.
  intros ->%IH. by subst.
Qed.

(** ** Sums over sets *)

Section SetSums.
Context {K : Type} `{Countable K}.

Definition set_sum (f : K -> Z) (s : gset K) : Z := sumZ (map f (elements s)).

Lemma set_sum_disj_union f (a b : gset K) :
  a ## b -> set_sum f (a ∪ b) = (set_sum f a + set_sum f b)%Z.
Proof.
  intros Hd. unfold set_sum. rewrite (elements_disj_union a b Hd), map_app. apply sumZ_app.
Qed.

Lemma set_sum_union_inter f (a b : gset K) :
  (set_sum f (a ∪ b) + set_sum f (a ∩ b) = set_sum f a + set_sum f b)%Z.
Proof.
  assert (a ∪ b = a ∪ (b ∖ a)) as -> by (apply set_eq; intros x; destruct (decide (x ∈ a)); set_solver).
  assert (set_sum f b = set_sum f ((a ∩ b) ∪ (b ∖ a))) as ->.
  { f_equal. apply set_eq. intros x. destruct (decide (x ∈ a)); set_solver. }
  rewrite !set_sum_disj_union by set_solver. lia.
Qed.

Lemma sumZ_map_nonneg {A} (f : A -> Z) l :
  (forall x, x ∈ l -> (0 <= f x)%Z) -> (0 <= sumZ (map f l))%Z.
Proof. intros Hf. apply sumZ_nonneg, Forall_fmap, Forall_forall. by apply Hf. Qed.

Lemma set_sum_nonneg f s : (forall x, (0 <= f x)%Z) -> (0 <= set_sum f s)%Z.
Proof. intros Hf. by apply sumZ_map_nonneg. Qed.

Lemma set_sum_mono f (a b : gset K) :
  (forall x, (0 <= f x)%Z) -> a ⊆ b -> (set_sum f a <= set_sum f b)%Z.
Proof.
  intros Hf Hab. rewrite (union_difference_L a b Hab), set_sum_disj_union by set_solver.
  pose proof (set_sum_nonneg f (b ∖ a) Hf). lia.
Qed.

Lemma set_sum_singleton f k : set_sum f {[k]} = f k.
Proof. unfold set_sum. rewrite elements_singleton. simpl. lia. Qed.

(** The values of a map that is [f] on a set. *)
Lemma map_sum_set (f : K -> Z) (m : gmap K Z) (s : gset K) :
  (forall k, m !! k = if decide (k ∈ s) then Some (f k) else None) ->
  map_sum id m = set_sum f s.
Proof.
  intros Hm. unfold map_sum, set_sum.
  assert (map_to_list m ≡ₚ map (fun k => (k, f k)) (elements s)) as ->.
  { apply NoDup_Permutation.
    - apply NoDup_map_to_list.
    - apply NoDup_fmap_2; [|apply NoDup_elements]. by intros x y [= ->].
    - intros [k v]. rewrite elem_of_map_to_list, Hm, list_elem_of_fmap. split.
      + case_decide; [|done]. intros [= <-]. exists k. by rewrite elem_of_elements.
      + intros (k' & [= -> ->] & Hk). rewrite elem_of_elements in Hk. by rewrite decide_True. }
  by rewrite map_map.
Qed.

End SetSums.
