(* ===== verification/Dict.v ===== *)
(** * Insertion-ordered dictionaries

    A Python [dict] (or [OrderedDict]) whose iteration order the program observes: an
    association list with distinct keys in the order of first insertion.  Overwriting a key
    keeps its place. *)

From stdpp Require Import prelude list.
From Stdlib Require Import ZArith Lia.
From S2P Require Import Prelude.

Set Default Goal Selector "!".

Abbreviation dict K V := (list (K * V)).

Section Dict.
Context {K V : Type} `{EqDecision K}.

(** [d.get(k)]. *)
Fixpoint dict_get (k : K) (d : dict K V) : option V :=
  match d with
  | [] => None
  | (k', v) :: d => if decide (k = k') then Some v else dict_get k d
  end.

(** [d[k] = v]. *)
Fixpoint dict_set (k : K) (v : V) (d : dict K V) : dict K V :=
  match d with
  | [] => [(k, v)]
  | (k', v') :: d => if decide (k = k') then (k', v) :: d else (k', v') :: dict_set k v d
  end.

(** [del d[k]]; nothing happens for a missing key, which the callers exclude. *)
Fixpoint dict_del (k : K) (d : dict K V) : dict K V :=
  match d with
  | [] => []
  | (k', v) :: d => if decide (k = k') then d else (k', v) :: dict_del k d
  end.

Definition dict_keys (d : dict K V) : list K := map fst d.

Definition dict_wf (d : dict K V) : Prop := NoDup (dict_keys d).

Lemma dict_get_set_eq k v d : dict_get k (dict_set k v d) = Some v.
Proof.
  induction d as [|[k' v'] d IH]; simpl; [by rewrite decide_True|].
  case_decide; simpl; [by rewrite decide_True|by rewrite decide_False].
Qed.

Lemma dict_get_set_ne k k' v d : k <> k' -> dict_get k' (dict_set k v d) = dict_get k' d.
Proof.
  intros Hne. induction d as [|[k0 v0] d IH]; simpl; [by rewrite decide_False|].
  case_decide; simpl; [subst; by rewrite !decide_False by congruence|]. by rewrite IH.
Qed.

(** Storing what is there already. *)
Lemma dict_set_same k v d : dict_get k d = Some v -> dict_set k v d = d.
Proof.
  induction d as [|[k' v'] d IH]; simpl; [done|]. case_decide; [by intros [= ->]|]. intros E. by rewrite IH.
Qed.

Lemma dict_get_None k d : dict_get k d = None <-> k ∉ dict_keys d.
Proof.
  induction d as [|[k' v] d IH]; simpl; [split; [by intros _ ?%not_elem_of_nil|done]|].
  rewrite not_elem_of_cons. case_decide; [naive_solver|]. rewrite IH. naive_solver.
Qed.

Lemma dict_get_elem k v d : dict_wf d -> dict_get k d = Some v <-> (k, v) ∈ d.
Proof.
  unfold dict_wf. induction d as [|[k' v'] d IH]; simpl.
  { intros _. split; [done|by intros ?%not_elem_of_nil]. }
  intros [Hni Hnd]%NoDup_cons. rewrite elem_of_cons. case_decide as Hk.
  - subst. split; [intros [= ->]; by left|]. intros [[= ->]|Hin]; [done|].
    destruct Hni. by apply (list_elem_of_fmap_2 fst) in Hin.
  - rewrite (IH Hnd). split; [by right|]. by intros [[= -> ->]|?].
Qed.

Lemma dict_set_keys k v d :
  dict_keys (dict_set k v d) = if decide (k ∈ dict_keys d) then dict_keys d else dict_keys d ++ [k].
Proof.
  unfold dict_keys. induction d as [|[k' v'] d IH]; simpl.
  { done. }
  destruct (decide (k = k')) as [->|Hk]; simpl.
  - by rewrite decide_True by (by left).
  - rewrite IH. destruct (decide (k ∈ map fst d)) as [Hin|Hin].
    + by rewrite decide_True by (by right).
    + rewrite decide_False; [done|]. by rewrite not_elem_of_cons.
Qed.

Lemma dict_set_wf k v d : dict_wf d -> dict_wf (dict_set k v d).
Proof.
  unfold dict_wf. intros Hd. rewrite dict_set_keys. case_decide as Hin; [done|].
  apply NoDup_app. split; [done|]. split; [|apply NoDup_singleton].
  intros x Hx ->%list_elem_of_singleton. done.
Qed.

(** Overwriting an entry in place. *)
Lemma dict_set_map k v d :
  dict_wf d -> k ∈ dict_keys d ->
  dict_set k v d = map (fun kv => if decide (k = kv.1) then (kv.1, v) else kv) d.
Proof.
  unfold dict_wf. induction d as [|[k' v'] d IH]; simpl; [by intros _ ?%not_elem_of_nil|].
  intros [Hni Hnd]%NoDup_cons Hin. case_decide as Hk; simpl.
  - subst. f_equal. clear -Hni. induction d as [|[k0 v0] d IH]; [done|]. simpl in *.
    apply not_elem_of_cons in Hni as [? ?]. rewrite decide_False by done. f_equal. auto.
  - f_equal. apply elem_of_cons in Hin as [?|?]; [done|auto].
Qed.

Lemma dict_set_new k v d : k ∉ dict_keys d -> dict_set k v d = d ++ [(k, v)].
Proof.
  induction d as [|[k' v'] d IH]; simpl; [done|]. intros [? ?]%not_elem_of_cons.
  rewrite decide_False by done. f_equal. auto.
Qed.

Lemma dict_del_keys k d : dict_keys (dict_del k d) ⊆ dict_keys d.
Proof.
  unfold dict_keys. induction d as [|[k' v] d IH]; simpl; [done|]. case_decide; simpl; set_solver.
Qed.

Lemma dict_del_wf k d : dict_wf d -> dict_wf (dict_del k d).
Proof.
  unfold dict_wf. induction d as [|[k' v] d IH]; simpl; [done|]. intros [Hni Hnd]%NoDup_cons.
  case_decide; [done|]. simpl. apply NoDup_cons. split; [|by apply IH].
  intros Hin. by apply Hni, (dict_del_keys k).
Qed.

Lemma dict_get_del k k' d :
  dict_wf d -> dict_get k' (dict_del k d) = if decide (k = k') then None else dict_get k' d.
Proof.
  unfold dict_wf. induction d as [|[k0 v] d IH]; simpl; [by case_decide|].
  intros [Hni Hnd]%NoDup_cons. destruct (decide (k = k0)) as [->|Hk].
  - destruct (decide (k0 = k')) as [->|Hk']; [by apply dict_get_None|].
    by rewrite decide_False by congruence.
  - simpl. rewrite (IH Hnd). repeat case_decide; subst; done.
Qed.

Lemma dict_del_length k d : length (dict_del k d) <= length d.
Proof. induction d as [|[k' v] d IH]; simpl; [done|]. case_decide; simpl; lia. Qed.

Lemma dict_set_length k v d :
  length (dict_set k v d) = if decide (k ∈ dict_keys d) then length d else S (length d).
Proof.
  pose proof (f_equal length (dict_set_keys k v d)) as E.
  rewrite <- (length_map fst), <- (length_map fst d). fold (dict_keys (dict_set k v d)) (dict_keys d).
  rewrite E. case_decide; [done|]. rewrite length_app. simpl. lia.
Qed.

Lemma dict_get_keys k v d : dict_get k d = Some v -> k ∈ dict_keys d.
Proof.
  intros E. destruct (decide (k ∈ dict_keys d)) as [?|Hn]; [done|].
  apply dict_get_None in Hn. congruence.
Qed.

Lemma dict_get_in k v d : dict_get k d = Some v -> (k, v) ∈ d.
Proof.
  induction d as [|[k' v'] d IH]; simpl; [done|]. case_decide; [|by right; apply IH].
  intros [= ->]. subst. by left.
Qed.

(** A property of all values, through updates and removals. *)
Lemma dict_set_Forall (P : V -> Prop) k v d :
  Forall (fun kv => P kv.2) d -> P v -> Forall (fun kv => P kv.2) (dict_set k v d).
Proof.
  intros Hd Hv. induction Hd as [|[k' v'] d Hk Hd IH]; simpl; [by repeat constructor|].
  case_decide; by constructor.
Qed.

Lemma dict_del_Forall (P : V -> Prop) k d :
  Forall (fun kv => P kv.2) d -> Forall (fun kv => P kv.2) (dict_del k d).
Proof.
  intros Hd. induction Hd as [|[k' v'] d Hk Hd IH]; simpl; [done|]. case_decide; [done|by constructor].
Qed.

End Dict.
