(* ===== verification/Text.v ===== *)
(** * Text as UTF-8

    The few operations on [str] that the wire codecs use.  A [str] is represented by its UTF-8
    encoding, so [encode] is the identity and [decode] a validity test.  Decimal printing and
    [int(...)] are modelled on ASCII text and shown to be inverse ([py_int_dec]). *)

From stdpp Require Import prelude list strings.
From Stdlib Require Import Strings.Byte ZArith Lia.
From S2P Require Import Prelude.

Set Default Goal Selector "!".

(** ** UTF-8 *)

Definition in_range (lo hi : Z) (c : byte) : bool := (lo <=? byte_val c)%Z && (byte_val c <=? hi)%Z.

Definition continuation (c : byte) : bool := in_range 128 191 c.

(** The strict decoder of Python: no overlong forms, no surrogates, nothing above U+10FFFF. *)
Fixpoint utf8_valid (l : bytes) : bool :=
  match l with
  | [] => true
  | a :: l =>
      if (byte_val a <? 128)%Z then utf8_valid l
      else match l with
      | [] => false
      | b :: l =>
          if in_range 194 223 a then continuation b && utf8_valid l
          else match l with
          | [] => false
          | c :: l =>
              if in_range 224 239 a then
                (if (byte_val a =? 224)%Z then in_range 160 191 b
                 else if (byte_val a =? 237)%Z then in_range 128 159 b else continuation b)
                && continuation c && utf8_valid l
              else match l with
              | [] => false
              | d :: l =>
                  in_range 240 244 a &&
                  (if (byte_val a =? 240)%Z then in_range 144 191 b
                   else if (byte_val a =? 244)%Z then in_range 128 143 b else continuation b)
                  && continuation c && continuation d && utf8_valid l
              end
          end
      end
  end.

(** [data.decode("utf-8")]. *)
Definition utf8_decode (data : bytes) : res bytes :=
  if utf8_valid data then Ok data else Err UnicodeDecodeError.

(** ** Decimal numbers *)

Definition digit_byte (d : Z) : byte := byte_of_Z (48 + d).

Fixpoint dec_go (fuel : nat) (n : Z) : bytes :=
  match fuel with
  | O => []
  | S fuel => if (n <? 10)%Z then [digit_byte n] else dec_go fuel (n / 10) ++ [digit_byte (n mod 10)]
  end.

(** The digits of [n >= 0]: at most one per binary digit. *)
Definition dec_nat (n : Z) : bytes := dec_go (S (S (Z.to_nat (Z.log2 n)))) n.

(** [str(z)]. *)
Definition dec_text (z : Z) : bytes :=
  if (z <? 0)%Z then byte_of_Z 45 :: dec_nat (- z) else dec_nat z.

Definition is_digit (c : byte) : bool := in_range 48 57 c.

Definition is_space (c : byte) : bool := in_range 9 13 c || in_range 28 32 c.

(** Digits with single underscores between them. *)
Fixpoint parse_digits (acc : Z) (after_digit : bool) (l : bytes) : option Z :=
  match l with
  | [] => if after_digit then Some acc else None
  | c :: l =>
      if is_digit c then parse_digits (acc * 10 + (byte_val c - 48))%Z true l
      else if (byte_val c =? 95)%Z && after_digit then parse_digits acc false l
      else None
  end.

Fixpoint drop_spaces (l : bytes) : bytes :=
  match l with
  | c :: l' => if is_space c then drop_spaces l' else l
  | [] => []
  end.

Definition strip (l : bytes) : bytes := rev (drop_spaces (rev (drop_spaces l))).

(** [int(s)] for ASCII text. *)
Definition py_int (s : bytes) : res Z :=
  let '(neg, digits) :=
    match strip s with
    | c :: l => if (byte_val c =? 45)%Z then (true, l)
                else if (byte_val c =? 43)%Z then (false, l) else (false, c :: l)
    | [] => (false, [])
    end in
  match parse_digits 0 false digits with
  | Some n => Ok (if neg then - n else n)%Z
  | None => Err (ValueError "invalid literal for int() with base 10")
  end.

(** [s.rsplit(":", 1)] unpacked into two names. *)
Fixpoint rsplit_colon (l : bytes) : option (bytes * bytes) :=
  match l with
  | [] => None
  | c :: l =>
      match rsplit_colon l with
      | Some (h, t) => Some (c :: h, t)
      | None => if (byte_val c =? 58)%Z then Some ([], l) else None
      end
  end.

(** [data.hex()]. *)
Definition hex_digit (d : Z) : byte := byte_of_Z (if d <? 10 then 48 + d else 87 + d)%Z.

Definition hex_text (data : bytes) : bytes :=
  concat (map (fun c => [hex_digit (byte_val c / 16); hex_digit (byte_val c mod 16)]) data).

(** ** Lemmas *)

Lemma digit_byte_val d : (0 <= d <= 9)%Z -> byte_val (digit_byte d) = (48 + d)%Z.
Proof. intros. unfold digit_byte. rewrite byte_val_of_Z. apply Z.mod_small. lia. Qed.

Lemma digit_byte_digit d : (0 <= d <= 9)%Z -> is_digit (digit_byte d) = true.
Proof.
  intros Hd. unfold is_digit, in_range. rewrite digit_byte_val by done.
  rewrite !(proj2 (Z.leb_le _ _)) by lia. done.
Qed.

Lemma dec_go_digits fuel n : (0 <= n)%Z -> Forall (fun c => is_digit c = true) (dec_go fuel n).
Proof.
  revert n. induction fuel as [|fuel IH]; intros n Hn; cbn [dec_go]; [constructor|].
  destruct (Z.ltb_spec n 10); [repeat constructor; apply digit_byte_digit; lia|].
  apply Forall_app_2; [apply IH, Z.div_pos; lia|].
  pose proof (Z.mod_pos_bound n 10). repeat constructor. apply digit_byte_digit. lia.
Qed.

Lemma parse_digits_app acc b l1 l2 :
  Forall (fun c => is_digit c = true) l1 -> l1 <> [] ->
  exists n, parse_digits acc b l1 = Some n /\ parse_digits acc b (l1 ++ l2) = parse_digits n true l2.
Proof.
  intros Hd. revert acc b. induction Hd as [|c l1 Hc Hd IH]; intros acc b Hne; [done|].
  cbn [parse_digits app]. rewrite Hc. destruct l1 as [|c' l1].
  - by eexists.
  - by apply IH.
Qed.

Lemma dec_go_parse fuel n b :
  (0 <= n < 2 ^ Z.of_nat fuel)%Z -> parse_digits 0 b (dec_go (S fuel) n) = Some n.
Proof.
  revert n b. induction fuel as [|fuel IH]; intros n b Hn.
  - assert (n = 0%Z) as -> by (simpl in Hn; lia). destruct b; reflexivity.
  - set (f := S fuel) in *. cbn [dec_go]. destruct (Z.ltb_spec n 10) as [Hlt|Hge].
    + cbn [parse_digits]. rewrite digit_byte_digit, digit_byte_val by lia. f_equal. lia.
    + assert (Hd : (0 <= n / 10 < 2 ^ Z.of_nat fuel)%Z).
      { split; [apply Z.div_pos; lia|]. unfold f in Hn. rewrite Nat2Z.inj_succ, Z.pow_succ_r in Hn by lia.
        apply Z.div_lt_upper_bound; lia. }
      specialize (IH (n / 10)%Z b Hd). fold f in IH.
      destruct (parse_digits_app 0 b (dec_go f (n / 10)) [digit_byte (n mod 10)]) as (m & E & ->).
      { apply dec_go_digits. lia. }
      { unfold f. cbn [dec_go]. destruct (_ <? _)%Z; [done|]. by intros [_ ?]%app_eq_nil. }
      rewrite IH in E. injection E as <-. pose proof (Z.mod_pos_bound n 10 ltac:(lia)).
      cbn [parse_digits]. rewrite digit_byte_digit, digit_byte_val by lia. f_equal.
      pose proof (Z.div_mod n 10 ltac:(lia)). lia.
Qed.

Lemma dec_nat_parse n b : (0 <= n)%Z -> parse_digits 0 b (dec_nat n) = Some n.
Proof.
  intros Hn. apply dec_go_parse. split; [done|].
  destruct (Z.eq_dec n 0) as [->|Hne]; [done|].
  pose proof (Z.log2_nonneg n). pose proof (Z.log2_spec n ltac:(lia)).
  rewrite Nat2Z.inj_succ, Z2Nat.id by lia. lia.
Qed.

Lemma dec_nat_shape n :
  (0 <= n)%Z -> Forall (fun c => is_digit c = true) (dec_nat n) /\ dec_nat n <> [].
Proof.
  intros Hn. split; [by apply dec_go_digits|]. unfold dec_nat. cbn [dec_go].
  destruct (_ <? _)%Z; [done|]. by intros [_ ?]%app_eq_nil.
Qed.

(** Text whose first and last characters are not blank is its own [strip]. *)
Lemma strip_id l : Forall (fun c => is_space c = false) l -> strip l = l.
Proof.
  assert (Hd : forall k, Forall (fun c => is_space c = false) k -> drop_spaces k = k).
  { intros k [|c k' Hc _]; [done|]. simpl. by rewrite Hc. }
  intros H. unfold strip. rewrite (Hd l H), Hd, rev_involutive; [done|].
  by apply Forall_rev.
Qed.

Lemma digit_not_space c : is_digit c = true -> is_space c = false.
Proof. unfold is_digit, is_space, in_range. lia. Qed.

Lemma digit_not_colon c : is_digit c = true -> byte_val c <> 58%Z.
Proof. unfold is_digit, in_range. lia. Qed.

(** [int(str(z)) == z]. *)
Lemma py_int_dec z : py_int (dec_text z) = Ok z.
Proof.
  assert (Hns : forall n, (0 <= n)%Z -> Forall (fun c => is_space c = false) (dec_nat n)).
  { intros n Hn. eapply Forall_impl; [by apply dec_nat_shape|]. by apply digit_not_space. }
  unfold py_int, dec_text. destruct (Z.ltb_spec z 0) as [Hz|Hz].
  - rewrite strip_id by (constructor; [reflexivity|apply Hns; lia]).
    change (byte_val (byte_of_Z 45) =? 45)%Z with true. cbv iota.
    rewrite dec_nat_parse by lia. f_equal. lia.
  - rewrite strip_id by (apply Hns; lia). destruct (dec_nat_shape z Hz) as [Hd Hne].
    pose proof (dec_nat_parse z false Hz) as Hp.
    destruct (dec_nat z) as [|c l] eqn:E; [done|].
    pose proof (Forall_inv Hd) as Hc. simpl in Hc. unfold is_digit, in_range in Hc.
    rewrite (proj2 (Z.eqb_neq _ 45)), (proj2 (Z.eqb_neq _ 43)) by lia. by rewrite Hp.
Qed.

Lemma dec_text_no_colon z : Forall (fun c => byte_val c <> 58%Z) (dec_text z).
Proof.
  assert (Hn : forall n, (0 <= n)%Z -> Forall (fun c => byte_val c <> 58%Z) (dec_nat n)).
  { intros n Hn. eapply Forall_impl; [by apply dec_nat_shape|]. by apply digit_not_colon. }
  unfold dec_text. destruct (Z.ltb_spec z 0); [|by apply Hn].
  constructor; [done|apply Hn; lia].
Qed.

(** [rsplit] finds the last colon. *)
Lemma rsplit_no_colon l : Forall (fun c => byte_val c <> 58%Z) l -> rsplit_colon l = None.
Proof.
  induction 1 as [|c l Hc _ IH]; [done|]. simpl. rewrite IH. by rewrite (proj2 (Z.eqb_neq _ _)) by done.
Qed.

Lemma rsplit_colon_app h t :
  Forall (fun c => byte_val c <> 58%Z) t -> rsplit_colon (h ++ byte_of_Z 58 :: t) = Some (h, t).
Proof.
  intros Ht. induction h as [|c h IH]; simpl; [by rewrite rsplit_no_colon|by rewrite IH].
Qed.

(** ASCII text is valid UTF-8, and validity is preserved by concatenation. *)
Lemma utf8_ascii l : Forall (fun c => (byte_val c < 128)%Z) l -> utf8_valid l = true.
Proof.
  induction 1 as [|c l Hc _ IH]; [done|]. cbn [utf8_valid]. by rewrite (proj2 (Z.ltb_lt _ _)).
Qed.

Lemma dec_text_ascii z : Forall (fun c => (byte_val c < 128)%Z) (dec_text z).
Proof.
  assert (Hn : forall n, (0 <= n)%Z -> Forall (fun c => (byte_val c < 128)%Z) (dec_nat n)).
  { intros n Hn. eapply Forall_impl; [by apply dec_nat_shape|].
    intros c. simpl. unfold is_digit, in_range. lia. }
  unfold dec_text. destruct (Z.ltb_spec z 0); [|by apply Hn].
  constructor; [done|apply Hn; lia].
Qed.

Lemma utf8_valid_app l1 l2 :
  utf8_valid l1 = true -> utf8_valid l2 = true -> utf8_valid (l1 ++ l2) = true.
Proof.
  intros H1 H2. induction l1 as [l1 IH] using (induction_ltof1 _ (@length byte)).
  unfold ltof in IH. destruct l1 as [|a l1]; [done|]. cbn [utf8_valid app] in *.
  destruct (_ <? 128)%Z; [apply IH; [simpl; lia|done]|].
  destruct l1 as [|b l1]; [done|]. cbn [app].
  destruct (in_range 194 223 a).
  { apply andb_true_iff in H1 as [-> H1]. apply IH; [simpl; lia|done]. }
  destruct l1 as [|c l1]; [done|]. cbn [app].
  destruct (in_range 224 239 a).
  { apply andb_true_iff in H1 as [-> H1]. apply IH; [simpl; lia|done]. }
  destruct l1 as [|d l1]; [done|]. cbn [app].
  apply andb_true_iff in H1 as [-> H1]. apply IH; [simpl; lia|done].
Qed.
