(* ===== verification/PyFloat.v ===== *)
(** * Python floats

    A Python [float] is an IEEE 754 binary64 value, represented by the Standard Library's
    [spec_float] (mantissa and exponent, without axioms).  What the node needs of them is the
    true division of two integers (stake ratios, fee rates), the comparison operators and
    [struct.pack('>d', x)].  The main result, [ge_067_ratio], says when the float test
    [s / t >= 0.67] agrees with the rational test [67 t <= 100 s]. *)

From stdpp Require Import prelude strings.
From Stdlib Require Import ZArith Lia SpecFloat.
From S2P Require Import Prelude.

Set Default Goal Selector "!".
#[local] Open Scope Z_scope.

Abbreviation float64 := spec_float.

(** Quotient [n / d] rounded to the nearest integer, ties to even. *)
Definition rne_div (n d : Z) : Z :=
  let q := n / d in
  let r := n mod d in
  if 2 * r <? d then q
  else if d <? 2 * r then q + 1
  else if Z.even q then q else q + 1.

(** [floor (log2 (n / d))] for positive [n] and [d]. *)
Definition quot_log2 (n d : Z) : Z :=
  let k := Z.log2 n - Z.log2 d in
  if d * 2 ^ Z.max 0 k <=? n * 2 ^ Z.max 0 (- k) then k else k - 1.

(** The exponent of the last mantissa bit of [n / d] in binary64. *)
Definition quot_exp (n d : Z) : Z := Z.max (quot_log2 n d - 52) (-1074).

(** [n / d] for [0 <= n], [0 < d], rounded once to binary64 with sign [s]. *)
Definition round_quot (s : bool) (n d : Z) : res float64 :=
  if n =? 0 then Ok (S754_zero s)
  else
    let e := quot_exp n d in
    let m := rne_div (n * 2 ^ Z.max 0 (- e)) (d * 2 ^ Z.max 0 e) in
    let '(m, e) := if m =? 2 ^ 53 then (2 ^ 52, e + 1) else (m, e) in
    if 971 <? e then Err OverflowError
    else match m with
         | Zpos p => Ok (S754_finite s p e)
         | _ => Ok (S754_zero s)
         end.

(** [a / b] on Python integers. *)
Definition truediv (a b : Z) : res float64 :=
  if b =? 0 then Err ZeroDivisionError
  else round_quot (xorb (a <? 0) (b <? 0)) (Z.abs a) (Z.abs b).

(** The literal [0.67]: the double nearest to 67/100. *)
Definition float_067 : float64 := S754_finite false 6034823500676465 (-53).

(** [struct.pack('>d', x)]: sign, 11-bit biased exponent, 52-bit fraction. *)
Definition float_bits (x : float64) : Z :=
  let sgn (s : bool) := if s then 2 ^ 63 else 0 in
  match x with
  | S754_zero s => sgn s
  | S754_infinity s => sgn s + 2047 * 2 ^ 52
  | S754_nan => 2047 * 2 ^ 52 + 2 ^ 51
  | S754_finite s m e =>
      if Zpos m <? 2 ^ 52 then sgn s + Zpos m
      else sgn s + (e + 1075) * 2 ^ 52 + (Zpos m - 2 ^ 52)
  end.

Definition pack_double (x : float64) : bytes := be_encode 8 (float_bits x).

(** The rounding agrees with the Standard Library's specification of binary64 division on
    integers that a double represents exactly. *)
Definition SFdiv_int (a b : Z) : spec_float :=
  SFdiv 53 1024 (binary_normalize 53 1024 a 0 false) (binary_normalize 53 1024 b 0 false).

Example truediv_agrees_SFdiv :
  map (fun '(a, b) => truediv a b)
      [(67, 100); (1, 3); (2, 3); (201, 300); (-7, 9); (9007199254740991, 3); (1, 1024);
       (4503599627370497, 9007199254740991); (5, -2); (0, 7)]
  = map (fun '(a, b) => Ok (SFdiv_int a b))
      [(67, 100); (1, 3); (2, 3); (201, 300); (-7, 9); (9007199254740991, 3); (1, 1024);
       (4503599627370497, 9007199254740991); (5, -2); (0, 7)].
Proof. vm_compute. reflexivity. Qed.

(** ** Rounding *)

Lemma rne_div_bounds n d :
  0 < d -> 2 * n - d <= 2 * (rne_div n d * d) <= 2 * n + d.
Proof.
  intros Hd. unfold rne_div.
  pose proof (Z.div_mod n d ltac:(lia)). pose proof (Z.mod_pos_bound n d Hd).
  repeat split_match; bool_to_prop; nia.
Qed.

(** Rounding to nearest never crosses an integer. *)
Lemma rne_div_lower n d m : 0 < d -> m * d <= n -> m <= rne_div n d.
Proof.
  intros Hd H. unfold rne_div. assert (m <= n / d) by (apply Z.div_le_lower_bound; lia).
  repeat split_match; lia.
Qed.

Lemma rne_div_upper n d m : 0 < d -> n <= m * d -> rne_div n d <= m.
Proof.
  intros Hd H. unfold rne_div.
  pose proof (Z.div_mod n d ltac:(lia)). pose proof (Z.mod_pos_bound n d Hd).
  repeat split_match; bool_to_prop; nia.
Qed.

(** [quot_log2] is the floor of the binary logarithm. *)
Lemma quot_log2_spec n d :
  0 < n -> 0 < d ->
  let k := quot_log2 n d in
  d * 2 ^ Z.max 0 k <= n * 2 ^ Z.max 0 (- k) /\
  n * 2 ^ Z.max 0 (- (k + 1)) < d * 2 ^ Z.max 0 (k + 1).
Proof.
  intros Hn Hd. unfold quot_log2.
  pose proof (Z.log2_spec n Hn) as [Hn1 Hn2]. pose proof (Z.log2_spec d Hd) as [Hd1 Hd2].
  pose proof (Z.log2_nonneg n). pose proof (Z.log2_nonneg d).
  rewrite Z.pow_succ_r in Hn2, Hd2 by lia.
  set (ln := Z.log2 n) in *. set (ld := Z.log2 d) in *.
  assert (Hk : 2 ^ ln * 2 ^ Z.max 0 (- (ln - ld)) = 2 ^ ld * 2 ^ Z.max 0 (ln - ld)).
  { rewrite <- !Z.pow_add_r by lia. f_equal. lia. }
  assert (0 < 2 ^ Z.max 0 (ln - ld)) by (apply Z.pow_pos_nonneg; lia).
  assert (0 < 2 ^ Z.max 0 (- (ln - ld))) by (apply Z.pow_pos_nonneg; lia).
  destruct (_ <=? _) eqn:E; bool_to_prop; split; try done.
  - (* n/d < 2^(k+1) *)
    destruct (Z.le_gt_cases 0 (ln - ld)).
    + rewrite !Z.max_l in * by lia. rewrite !Z.max_r in * by lia.
      rewrite Z.pow_add_r by lia. rewrite ?Z.pow_0_r in *. nia.
    + rewrite (Z.max_r 0 (-(ln - ld))) in * by lia.
      rewrite (Z.max_l 0 (ln - ld)) in * by lia.
      rewrite (Z.max_l 0 (ln - ld + 1)) by lia.
      replace (- (ln - ld)) with (- (ln - ld + 1) + 1) in * by lia.
      rewrite (Z.max_r 0 (-(ln - ld + 1))) by lia.
      rewrite Z.pow_add_r in * by lia. nia.
  - destruct (Z.le_gt_cases 1 (ln - ld)).
    + rewrite !Z.max_l in * by lia. rewrite !Z.max_r in * by lia.
      replace (ln - ld) with (ln - ld - 1 + 1) in * by lia.
      rewrite Z.pow_add_r in * by lia. rewrite ?Z.pow_0_r in *.
      replace (ln - ld - 1 + 1 - 1) with (ln - ld - 1) by lia. nia.
    + rewrite (Z.max_r 0 (-(ln - ld - 1))) by lia.
      rewrite (Z.max_l 0 (ln - ld - 1)) by lia.
      rewrite (Z.max_r 0 (-(ln - ld))) in * by lia.
      rewrite (Z.max_l 0 (ln - ld)) in * by lia.
      replace (- (ln - ld - 1)) with (- (ln - ld) + 1) by lia.
      rewrite Z.pow_add_r by lia. nia.
  - by replace (ln - ld - 1 + 1) with (ln - ld) by lia.
Qed.

(** [x >= 0.67] on floats. *)
Definition ge_067 (x : float64) : bool := SFleb float_067 x.

Lemma SFleb_finite p f m e :
  SFleb (S754_finite false p f) (S754_finite false m e) =
  if f <? e then true else if e <? f then false else Zpos p <=? Zpos m.
Proof.
  unfold SFleb. cbn [SFcompare]. change (Pos.compare_cont Eq) with Pos.compare.
  destruct (Z.compare_spec f e); subst.
  - rewrite !Z.ltb_irrefl. unfold Z.leb. simpl. by destruct (_ ?= _)%positive.
  - by rewrite (proj2 (Z.ltb_lt _ _)) by lia.
  - rewrite (proj2 (Z.ltb_ge f e)) by lia. by rewrite (proj2 (Z.ltb_lt e f)) by lia.
Qed.

Lemma ge_067_finite m e :
  ge_067 (S754_finite false m e) =
  if -53 <? e then true else if e <? -53 then false else 6034823500676465 <=? Zpos m.
Proof. apply SFleb_finite. Qed.

Lemma ge_067_big m e : -52 <= e -> ge_067 (S754_finite false m e) = true.
Proof. intros. rewrite ge_067_finite. by rewrite (proj2 (Z.ltb_lt _ _)) by lia. Qed.

Lemma ge_067_small m e :
  (e < -53 \/ e = -53 /\ Zpos m < 6034823500676465) ->
  ge_067 (S754_finite false m e) = false.
Proof.
  intros H. rewrite ge_067_finite. rewrite (proj2 (Z.ltb_ge _ _)) by lia.
  destruct H as [H|[-> H]].
  - by rewrite (proj2 (Z.ltb_lt _ _)) by lia.
  - rewrite Z.ltb_irrefl. by apply Z.leb_gt.
Qed.

Lemma quot_log2_upper n d k :
  0 < n -> 0 < d -> n < d * 2 ^ k -> 0 <= k -> quot_log2 n d < k.
Proof.
  intros Hn Hd H Hk. destruct (Z.lt_ge_cases (quot_log2 n d) k) as [?|Hge]; [done|exfalso].
  destruct (quot_log2_spec n d Hn Hd) as [H1 _].
  rewrite Z.max_r in H1 by lia. rewrite Z.max_l in H1 by lia.
  pose proof (Z.pow_le_mono_r 2 k (quot_log2 n d) ltac:(lia) Hge). nia.
Qed.

(** Below one half: the rounded quotient stays below the threshold. *)
Lemma round_quot_low n d :
  0 < n -> 0 < d -> 2 * n < d ->
  exists x, round_quot false n d = Ok x /\ ge_067 x = false.
Proof.
  intros Hn Hd H. unfold round_quot. rewrite (proj2 (Z.eqb_neq n 0)) by lia.
  destruct (quot_log2_spec n d Hn Hd) as [H1 H2].
  assert (Hk : quot_log2 n d <= -2).
  { destruct (Z.lt_ge_cases (quot_log2 n d) (-1)) as [?|Hge]; [lia|exfalso].
    destruct (Z.eq_dec (quot_log2 n d) (-1)) as [E|E].
    - rewrite E in H1. change (Z.max 0 (-1)) with 0 in H1.
      change (Z.max 0 (- -1)) with 1 in H1. lia.
    - rewrite Z.max_r in H1 by lia. rewrite Z.max_l in H1 by lia.
      pose proof (Z.pow_pos_nonneg 2 (quot_log2 n d) ltac:(lia) ltac:(lia)). nia. }
  set (e := quot_exp n d) in *. assert (He : e <= -54) by (unfold e, quot_exp; lia).
  assert (Hq : quot_log2 n d - 52 <= e) by (unfold e, quot_exp; lia).
  set (k := quot_log2 n d) in *.
  assert (Hm : rne_div (n * 2 ^ Z.max 0 (- e)) (d * 2 ^ Z.max 0 e) <= 2 ^ 53).
  { apply rne_div_upper; [rewrite Z.max_l by lia; lia|].
    rewrite (Z.max_l 0 e), Z.max_r by lia. rewrite Z.pow_0_r, Z.mul_1_r.
    rewrite (Z.max_r 0 (- (k + 1))), (Z.max_l 0 (k + 1)) in H2 by lia.
    rewrite Z.pow_0_r, Z.mul_1_r in H2.
    pose proof (Z.pow_le_mono_r 2 (- e) (- (k + 1) + 53) ltac:(lia) ltac:(lia)) as Hp.
    rewrite Z.pow_add_r in Hp by lia. nia. }
  destruct (Z.eqb_spec (rne_div (n * 2 ^ Z.max 0 (- e)) (d * 2 ^ Z.max 0 e)) (2 ^ 53)) as [E|E].
  - rewrite (proj2 (Z.ltb_ge _ _)) by lia. eexists; split; [reflexivity|].
    apply ge_067_small. simpl. lia.
  - rewrite (proj2 (Z.ltb_ge _ _)) by lia.
    destruct (rne_div _ _) eqn:Em; eexists; (split; [reflexivity|]); try done.
    apply ge_067_small. lia.
Qed.

(** From one half on: the rounded quotient is at least the threshold exactly when the
    rounded 53-bit mantissa is. *)
Lemma round_quot_mid n d :
  0 < n -> 0 < d -> d <= 2 * n -> n < d ->
  exists x, round_quot false n d = Ok x /\
            ge_067 x = (6034823500676465 <=? rne_div (n * 2 ^ 53) d).
Proof.
  intros Hn Hd H1 H2. unfold round_quot. rewrite (proj2 (Z.eqb_neq n 0)) by lia.
  assert (Hk : quot_log2 n d = -1).
  { destruct (quot_log2_spec n d Hn Hd) as [Ha Hb].
    pose proof (quot_log2_upper n d 0 Hn Hd ltac:(lia) ltac:(lia)).
    destruct (Z.eq_dec (quot_log2 n d) (-1)) as [?|Hne]; [done|exfalso].
    set (k := quot_log2 n d) in *.
    rewrite (Z.max_r 0 (- (k + 1))), (Z.max_l 0 (k + 1)) in Hb by lia.
    pose proof (Z.pow_le_mono_r 2 1 (- (k + 1)) ltac:(lia) ltac:(lia)). nia. }
  unfold quot_exp. rewrite Hk. simpl Z.max. change (Z.max (-1 - 52) (-1074)) with (-53).
  rewrite Z.pow_0_r, Z.mul_1_r. change (- -53) with 53. change (Z.max 0 53) with 53.
  pose proof (rne_div_lower (n * 2 ^ 53) d (2 ^ 52) Hd ltac:(lia)) as Hlo.
  pose proof (rne_div_upper (n * 2 ^ 53) d (2 ^ 53) Hd ltac:(lia)) as Hhi.
  destruct (Z.eqb_spec (rne_div (n * 2 ^ 53) d) (2 ^ 53)) as [E|E].
  - rewrite E. eexists; split; [reflexivity|]. by rewrite ge_067_big by lia.
  - change (971 <? -53) with false. cbv iota.
    destruct (rne_div (n * 2 ^ 53) d) as [|m|m] eqn:Em; try lia.
    eexists; split; [reflexivity|].
    by rewrite ge_067_finite, Z.ltb_irrefl.
Qed.

(** At one or more the test succeeds, while the quotient does not overflow. *)
Lemma round_quot_high n d :
  0 < d -> d <= n -> n < 2 ^ 1023 ->
  exists x, round_quot false n d = Ok x /\ ge_067 x = true.
Proof.
  intros Hd H1 H2. unfold round_quot. rewrite (proj2 (Z.eqb_neq n 0)) by lia.
  destruct (quot_log2_spec n d ltac:(lia) Hd) as [Ha Hb].
  pose proof (quot_log2_upper n d 1023 ltac:(lia) Hd ltac:(nia) ltac:(lia)) as Hu.
  set (k := quot_log2 n d) in *.
  assert (Hk : 0 <= k).
  { destruct (Z.lt_ge_cases k 0); [exfalso|lia].
    rewrite (Z.max_r 0 (- (k + 1))), (Z.max_l 0 (k + 1)) in Hb by lia.
    pose proof (Z.pow_pos_nonneg 2 (- (k + 1)) ltac:(lia) ltac:(lia)). nia. }
  assert (He : quot_exp n d = k - 52) by (unfold quot_exp; fold k; lia).
  rewrite He. set (e := k - 52) in *.
  set (m := rne_div _ _).
  assert (Hm : 2 ^ 52 <= m).
  { apply rne_div_lower.
    - pose proof (Z.pow_pos_nonneg 2 (Z.max 0 e) ltac:(lia) ltac:(lia)). nia.
    - rewrite (Z.max_r 0 k), (Z.max_l 0 (- k)), Z.pow_0_r, Z.mul_1_r in Ha by lia.
      assert (Hp : 2 ^ 52 * 2 ^ Z.max 0 e = 2 ^ k * 2 ^ Z.max 0 (- e)).
      { rewrite <- !Z.pow_add_r by lia. f_equal. lia. }
      pose proof (Z.pow_pos_nonneg 2 (Z.max 0 (- e)) ltac:(lia) ltac:(lia)).
      pose proof (Z.mul_le_mono_nonneg_r _ _ (2 ^ Z.max 0 (- e)) ltac:(lia) Ha). nia. }
  destruct (Z.eqb_spec m (2 ^ 53)) as [E|E].
  - rewrite (proj2 (Z.ltb_ge _ _)) by lia. eexists; split; [reflexivity|].
    apply ge_067_big. lia.
  - rewrite (proj2 (Z.ltb_ge _ _)) by lia. destruct m as [|p|p]; try lia.
    eexists; split; [reflexivity|]. apply ge_067_big. lia.
Qed.

(** The 53-bit mantissa test is the rational test while the total is below [2^49]. *)
Lemma mantissa_067 n d :
  0 < d < 2 ^ 49 ->
  6034823500676465 <= rne_div (n * 2 ^ 53) d <-> 67 * d <= 100 * n.
Proof.
  intros Hd. pose proof (rne_div_bounds (n * 2 ^ 53) d ltac:(lia)) as [H1 H2]. split; intros H.
  - nia.
  - nia.
Qed.

Lemma ge_067_ratio s t :
  0 <= s < 2 ^ 1023 -> 0 < t < 2 ^ 49 ->
  exists x, truediv s t = Ok x /\ ge_067 x = (67 * t <=? 100 * s).
Proof.
  intros Hs Ht. unfold truediv. rewrite (proj2 (Z.eqb_neq t 0)) by lia.
  rewrite (proj2 (Z.ltb_ge s 0)), (proj2 (Z.ltb_ge t 0)) by lia. simpl xorb.
  rewrite !Z.abs_eq by lia.
  destruct (Z.eq_dec s 0) as [->|Hs0].
  { exists (S754_zero false). split; [done|]. by rewrite (proj2 (Z.leb_gt _ _)) by lia. }
  destruct (Z.lt_ge_cases (2 * s) t).
  { rewrite (proj2 (Z.leb_gt _ _)) by lia. apply round_quot_low; lia. }
  destruct (Z.lt_ge_cases s t).
  - destruct (round_quot_mid s t) as (x & E1 & E2); [lia..|]. exists x. split; [done|].
    rewrite E2. apply Bool.eq_iff_eq_true. rewrite !Z.leb_le. by apply mantissa_067.
  - rewrite (proj2 (Z.leb_le _ _)) by lia. apply round_quot_high; lia.
Qed.

(** ** Totality and order *)

(** Division of integers below 2^1023 by positive ones never raises. *)
Lemma truediv_ok a b : 0 <= a < 2 ^ 1023 -> 0 < b -> exists x, truediv a b = Ok x.
Proof.
  intros Ha Hb. unfold truediv. rewrite (proj2 (Z.eqb_neq b 0)) by lia.
  rewrite (proj2 (Z.ltb_ge a 0)), (proj2 (Z.ltb_ge b 0)), !Z.abs_eq by lia. simpl.
  destruct (Z.eq_dec a 0) as [->|]; [by eexists|].
  destruct (Z.lt_ge_cases (2 * a) b); [destruct (round_quot_low a b) as (x & -> & _); eauto; lia|].
  destruct (Z.lt_ge_cases a b); [destruct (round_quot_mid a b) as (x & -> & _); eauto; lia|].
  destruct (round_quot_high a b) as (x & -> & _); eauto; lia.
Qed.

(** Finite floats in canonical form are ordered by sign, exponent and mantissa. *)
Definition float_key (x : float64) : Z * Z * Z :=
  match x with
  | S754_zero _ => (0, 0, 0)
  | S754_infinity s => (if s then -2 else 2, 0, 0)
  | S754_nan => (0, 0, 0)
  | S754_finite s m e => if s then (-1, - e, Zneg m) else (1, e, Zpos m)
  end.

Definition key_cmp (x y : Z * Z * Z) : comparison :=
  cmp_then (Z.compare x.1.1 y.1.1) (cmp_then (Z.compare x.1.2 y.1.2) (Z.compare x.2 y.2)).

(** Comparison of floats other than NaN, which no operation modelled here produces: it agrees
    with the Standard Library's [SFcompare] ([float_cmp_SFcompare]). *)
Definition float_cmp (x y : float64) : comparison := key_cmp (float_key x) (float_key y).

Lemma float_cmp_SFcompare x y :
  x <> S754_nan -> y <> S754_nan -> SFcompare x y = Some (float_cmp x y).
Proof.
  unfold float_cmp, key_cmp. intros Hx Hy.
  destruct x as [[]|[]| |[] m e], y as [[]|[]| |[] m' e']; try done; simpl; unfold cmp_then.
  - rewrite Z.compare_opp. rewrite (Z.compare_antisym e e').
    by destruct (e ?= e')%Z.
  - by destruct (e ?= e')%Z.
Qed.

#[export] Instance key_cmp_lawful : LawfulCmp key_cmp.
Proof.
  apply (cmp_then_lawful (fun x y => Z.compare x.1.1 y.1.1)).
  - apply cmp_on_lawful, _.
  - apply (cmp_then_lawful (fun x y => Z.compare x.1.2 y.1.2)); apply cmp_on_lawful, _.
Qed.

#[export] Instance float_cmp_lawful : LawfulCmp float_cmp.
Proof. apply (cmp_on_lawful float_key key_cmp), key_cmp_lawful. Qed.

(** [n / n] is the float 1. *)
Lemma truediv_self n : (0 < n) -> truediv n n = Ok (S754_finite false 4503599627370496 (-52)).
Proof.
  intros Hn. unfold truediv. rewrite (proj2 (Z.eqb_neq _ _)), (proj2 (Z.ltb_ge _ _)), Z.abs_eq by lia. cbn [xorb].
  unfold round_quot. rewrite (proj2 (Z.eqb_neq _ _)) by lia.
  assert (quot_exp n n = -52) as ->.
  { unfold quot_exp, quot_log2. rewrite Z.sub_diag, Z.leb_refl. reflexivity. }
  change (2 ^ Z.max 0 (- -52)) with 4503599627370496. change (2 ^ Z.max 0 (-52)) with 1.
  assert (rne_div (n * 4503599627370496) (n * 1) = 4503599627370496) as ->; [|reflexivity].
  unfold rne_div. rewrite Z.mul_1_r, (Z.mul_comm n), Z.div_mul, Z.mod_mul, (proj2 (Z.ltb_lt _ _)) by lia. done.
Qed.

Lemma truediv_not_nan a b x : truediv a b = Ok x -> x <> S754_nan.
Proof.
  unfold truediv, round_quot. intros E ->. repeat (case_match; try done).
Qed.

(** ** Conversions *)

(** The double 1000.0. *)
Definition float_1000 : float64 := S754_finite false 8796093022208000 (-43).

(** [x * y]. *)
Definition float_mul (x y : float64) : float64 := SFmul 53 1024 x y.

Definition float_add (x y : float64) : float64 := SFadd 53 1024 x y.
Definition float_sub (x y : float64) : float64 := SFsub 53 1024 x y.
Definition float_div (x y : float64) : float64 := SFdiv 53 1024 x y.

(** A small integer as a double. *)
Definition float_of_Z (z : Z) : float64 := binary_normalize 53 1024 z 0 false.

(** [x < y] and [x <= y], false on NaN. *)
Definition float_lt (x y : float64) : bool := SFltb x y.
Definition float_le (x y : float64) : bool := SFleb x y.

(** [int(x)]: truncation towards zero. *)
Definition int_of_float (x : float64) : res Z :=
  match x with
  | S754_zero _ => Ok 0
  | S754_finite s m e =>
      let a := if 0 <=? e then Zpos m * 2 ^ e else Zpos m / 2 ^ (- e) in
      Ok (if s then - a else a)
  | S754_infinity _ => Err OverflowError
  | S754_nan => Err (ValueError "cannot convert float NaN to integer")
  end.

(** [int(x * 1000)]: seconds to whole milliseconds. *)
Definition to_ms (x : float64) : res Z := int_of_float (float_mul x float_1000).

Example to_ms_runs :
  to_ms (S754_finite false 4503599627370497 (-52)) = Ok 1000 /\
  to_ms (S754_finite true 6755399441055744 (-52)) = Ok (-1500).
Proof. split; vm_compute; reflexivity. Qed.
