(* ===== verification/Crypto.v ===== *)
(** * Hashing and byte concatenation ([src/src/crypto.py], lines 18-58)

    SHA3-256 and SHA3-512 come from Python's [hashlib].  The client files are written against
    the interface [Hashlib]: the two functions and the lengths of their digests, which is all
    that the code relies on.  [Sha3.v] discharges the interface with FIPS 202; [toy_hashlib]
    is a cheap instance on which concrete runs are evaluated.  Properties that need collision
    resistance are stated for the finite set of strings that the run hashes
    ([collision_free]). *)

From stdpp Require Import prelude list strings.
From Stdlib Require Import Strings.Byte ZArith Lia.
From S2P Require Import Prelude.
From S2P Require Import PyFloat.

Set Default Goal Selector "!".

(** ** The hash interface *)

Class Hashlib : Type := {
  hashlib_sha3_256 : bytes -> bytes;
  hashlib_sha3_512 : bytes -> bytes;
  hashlib_sha3_256_length : forall x, length (hashlib_sha3_256 x) = 32;
  hashlib_sha3_512_length : forall x, length (hashlib_sha3_512 x) = 64;
}.

(** No two of the listed strings collide under [f]. *)
Definition collision_free (f : bytes -> bytes) (qs : list bytes) : Prop :=
  forall x y, x ∈ qs -> y ∈ qs -> f x = f y -> x = y.

(** Its decision procedure, which hashes each string once. *)
Definition collision_free_b (f : bytes -> bytes) (qs : list bytes) : bool :=
  let hs := map (fun x => (f x, x)) qs in
  forallb (fun '(hx, x) =>
    forallb (fun '(hy, y) => negb (bool_decide (hx = hy)) || bool_decide (x = y)) hs) hs.

Lemma collision_free_b_sound f qs : collision_free_b f qs = true -> collision_free f qs.
Proof.
  unfold collision_free_b. intros Hb x y Hx Hy E.
  rewrite forallb_forall in Hb.
  specialize (Hb (f x, x)). rewrite forallb_forall in Hb.
  specialize (Hb ltac:(apply in_map_iff; exists x; by rewrite <- list_elem_of_In) (f y, y)).
  specialize (Hb ltac:(apply in_map_iff; exists y; by rewrite <- list_elem_of_In)).
  apply orb_true_iff in Hb as [Hb|Hb].
  - apply negb_true_iff, bool_decide_eq_false in Hb. done.
  - by apply bool_decide_eq_true in Hb.
Qed.

(** A 32-bit multiplicative hash, zero-padded to [n + 4] bytes: not collision resistant, but
    fast to evaluate. *)
Definition toy_digest (n : nat) (x : bytes) : bytes :=
  be_encode 4 (foldl (fun a b => Z.land ((a + byte_val b + 1) * 16777619) 4294967295) 7 x)%Z
  ++ replicate n Byte.x00.

Lemma toy_digest_length n x : length (toy_digest n x) = 4 + n.
Proof. unfold toy_digest. by rewrite length_app, length_replicate, be_encode_length. Qed.

Definition toy_hashlib : Hashlib := {|
  hashlib_sha3_256 := toy_digest 28;
  hashlib_sha3_512 := toy_digest 60;
  hashlib_sha3_256_length := toy_digest_length 28;
  hashlib_sha3_512_length := toy_digest_length 60;
|}.

(** A hash that adds one to the first [n] bytes of its input, read as a little-endian
    integer: it is injective on strings of [n] bytes, so hash chains never collide. *)
Fixpoint incr_bytes (n : nat) (carry : bool) (x : bytes) : bytes :=
  match n with
  | O => []
  | S n =>
      let b := match x with [] => Byte.x00 | b :: _ => b end in
      let b' := if carry then byte_of_Z (byte_val b + 1) else b in
      b' :: incr_bytes n (carry && bool_decide (b = Byte.xff)) (tail x)
  end.

Lemma incr_bytes_length n c x : length (incr_bytes n c x) = n.
Proof. revert c x. induction n; intros; simpl; auto. Qed.

Lemma incr_bytes_inj n c x y :
  length x = n -> length y = n -> incr_bytes n c x = incr_bytes n c y -> x = y.
Proof.
  revert c x y. induction n as [|n IH]; intros c [|a x] [|b y] Lx Ly E; try done.
  injection Lx as Lx. injection Ly as Ly. cbn [incr_bytes tail] in E. injection E as E1 E2.
  assert (a = b) as ->.
  { destruct c; [|done]. apply (f_equal byte_val) in E1. rewrite !byte_val_of_Z in E1.
    pose proof (byte_val_range a). pose proof (byte_val_range b). apply byte_val_inj.
    destruct (decide (byte_val a = 255)%Z) as [Ea|?], (decide (byte_val b = 255)%Z) as [Eb|?];
      rewrite ?Ea, ?Eb in *; try done.
    - rewrite (Z.mod_small (byte_val b + 1)) in E1 by lia. change (256 mod 256)%Z with 0%Z in *.
      change ((255 + 1) mod 256)%Z with 0%Z in E1. lia.
    - rewrite (Z.mod_small (byte_val a + 1)) in E1 by lia.
      change ((255 + 1) mod 256)%Z with 0%Z in E1. lia.
    - rewrite !Z.mod_small in E1 by lia. lia. }
  f_equal. by eapply IH.
Qed.

Definition counter_hashlib : Hashlib := {|
  hashlib_sha3_256 := incr_bytes 32 true;
  hashlib_sha3_512 := incr_bytes 64 true;
  hashlib_sha3_256_length := incr_bytes_length 32 true;
  hashlib_sha3_512_length := incr_bytes_length 64 true;
|}.

Lemma counter_collision_free qs :
  forallb (fun q => length q =? 32) qs = true ->
  collision_free (@hashlib_sha3_256 counter_hashlib) qs.
Proof.
  rewrite forallb_forall. intros Hq x y Hx Hy. apply list_elem_of_In in Hx, Hy.
  apply incr_bytes_inj; by apply Nat.eqb_eq, Hq.
Qed.

(** ** Definitions *)

Section Crypto.
Context `{Hashlib}.

Definition sha3_256 (data : bytes) : bytes := hashlib_sha3_256 data.

Definition sha3_512 (data : bytes) : bytes := hashlib_sha3_512 data.

End Crypto.

(** The argument types that [concat] tells apart; a [str] is given by its UTF-8 bytes, and an
    object of any other type ([None], a list) contributes nothing. *)
Inductive pyarg :=
  | PBytes (b : bytes)
  | PStr (s : string)
  | PInt (z : Z)
  | PFloat (x : float64)
  | POther.

Definition concat_arg (arg : pyarg) : res bytes :=
  match arg with
  | PBytes b => Ok b
  | PStr s => Ok (String.list_byte_of_string s)
  | PInt z => pack_uint 8 z
  | PFloat x => Ok (pack_double x)
  | POther => Ok []
  end.

(** [concat]: the arguments in order; an integer outside [0, 2^64) raises. *)
Definition py_concat (args : list pyarg) : res bytes :=
  foldl (fun result arg => r ← result; a ← concat_arg arg; Ok (r ++ a)) (Ok []) args.

(** [_secure_wipe]: the buffer is overwritten in place, so every reference to the object sees
    zeros of the same length. *)
Definition secure_wipe (data : bytes) : bytes :=
  match data with
  | [] => []
  | _ => replicate (length data) Byte.x00
  end.

(** ** Lemmas *)

Section CryptoLemmas.
Context `{Hashlib}.

Lemma sha3_256_length x : length (sha3_256 x) = 32.
Proof. apply hashlib_sha3_256_length. Qed.

Lemma sha3_512_length x : length (sha3_512 x) = 64.
Proof. apply hashlib_sha3_512_length. Qed.

End CryptoLemmas.

#[export] Hint Rewrite @sha3_256_length @sha3_512_length : qlen.

Lemma py_concat_foldl args acc :
  foldl (fun result arg => r ← result; a ← concat_arg arg; Ok (r ++ a)) acc args =
  r ← acc; a ← py_concat args; Ok (r ++ a).
Proof.
  unfold py_concat. revert acc.
  induction args as [|arg args IH]; intros acc; simpl.
  - destruct acc; simpl; [by rewrite app_nil_r | done].
  - rewrite IH. rewrite (IH (mbind _ (concat_arg arg))).
    destruct acc as [r|]; simpl; [|done].
    destruct (concat_arg arg); simpl; [|done].
    destruct (foldl _ _ args); simpl; [by rewrite app_assoc | done].
Qed.

(** [concat] is the concatenation of its arguments' encodings. *)
Lemma py_concat_cons arg args :
  py_concat (arg :: args) = a ← concat_arg arg; r ← py_concat args; Ok (a ++ r).
Proof.
  unfold py_concat at 1. simpl. rewrite py_concat_foldl. by destruct (concat_arg arg).
Qed.

Lemma py_concat_app args1 args2 :
  py_concat (args1 ++ args2) = a ← py_concat args1; b ← py_concat args2; Ok (a ++ b).
Proof. unfold py_concat at 1. by rewrite foldl_app, py_concat_foldl. Qed.

Lemma py_concat_nil : py_concat [] = Ok [].
Proof. done. Qed.

Lemma py_concat_bytes ls : py_concat (map PBytes ls) = Ok (concat ls).
Proof.
  induction ls as [|l ls IH]; [done|]. simpl map. rewrite py_concat_cons. simpl.
  by rewrite IH.
Qed.

Lemma py_concat_2 x y : py_concat [PBytes x; PBytes y] = Ok (x ++ y).
Proof. pose proof (py_concat_bytes [x; y]) as E. cbn [map concat] in E. by rewrite E, app_nil_r. Qed.

Lemma concat_arg_int z : (0 <= z < 2 ^ 64)%Z -> concat_arg (PInt z) = Ok (be_encode 8 z).
Proof. intros. simpl. apply pack_uint_ok. done. Qed.

(** Arguments that convert concatenate. *)
Lemma py_concat_total args :
  Forall (fun a => exists x, concat_arg a = Ok x) args -> exists r, py_concat args = Ok r.
Proof.
  induction 1 as [|a args (x & Ex) _ (r & IH)]; [by eexists|].
  rewrite py_concat_cons, Ex, bind_Ok, IH. by eexists.
Qed.

Lemma py_concat_inv arg args r :
  py_concat (arg :: args) = Ok r ->
  exists a b, concat_arg arg = Ok a /\ py_concat args = Ok b /\ r = a ++ b.
Proof. rewrite py_concat_cons. intros. inv_res. eauto. Qed.

(** Concatenations that start with equally long encodings of the same kind of argument agree
    component by component. *)
Lemma py_concat_cons_inj a1 a2 l1 l2 r b1 b2 :
  py_concat (a1 :: l1) = Ok r -> py_concat (a2 :: l2) = Ok r ->
  concat_arg a1 = Ok b1 -> concat_arg a2 = Ok b2 -> length b1 = length b2 ->
  b1 = b2 /\ py_concat l1 = py_concat l2.
Proof.
  intros (x1 & y1 & E1 & Y1 & ->)%py_concat_inv (x2 & y2 & E2 & Y2 & Hr)%py_concat_inv E3 E4 L.
  rewrite E1 in E3. rewrite E2 in E4. injection E3 as ->. injection E4 as ->.
  apply app_inj_1 in Hr as [-> ->]; [|done]. by rewrite Y1, Y2.
Qed.

Lemma secure_wipe_zero data : secure_wipe data = replicate (length data) Byte.x00.
Proof. by destruct data. Qed.
