(* ===== verification/Sha3.v ===== *)
(** * SHA3-256 and SHA3-512 (FIPS 202)

    The functions that Python's [hashlib] computes for [src/src/crypto.py], as an instance of
    the interface [Hashlib]: the sponge over Keccak-f[1600], with the padding and the two
    rates of the standard.  Test vectors close the file.  The rest of the development is proved for every instance of the interface. *)

From stdpp Require Import prelude list strings.
From Stdlib Require Import Strings.Byte ZArith Lia.
From S2P Require Import Prelude.
From S2P Require Import Crypto.

Set Default Goal Selector "!".

(** ** Keccak-f[1600] *)

Section Keccak.
Open Scope Z_scope.

(** A state is 25 lanes of 64 bits; lane [(x, y)] is at [x + 5 * y]. *)
Definition lane (A : list Z) (x y : nat) : Z := nth (x mod 5 + 5 * (y mod 5)) A 0.

Definition lanes (f : nat -> nat -> Z) : list Z :=
  map (fun i => f (i mod 5)%nat (i / 5)%nat) (seq 0 25).

Definition rotl (z n : Z) : Z :=
  Z.lor (Z.land (Z.shiftl z n) (Z.ones 64)) (Z.shiftr z (64 - n)).

Definition theta (A : list Z) : list Z :=
  let C := map (fun x => Z.lxor (lane A x 0) (Z.lxor (lane A x 1) (Z.lxor (lane A x 2)
             (Z.lxor (lane A x 3) (lane A x 4))))) (seq 0 5) in
  let c x := nth (x mod 5) C 0 in
  let D := map (fun x => Z.lxor (c (x + 4)%nat) (rotl (c (x + 1)%nat) 1)) (seq 0 5) in
  lanes (fun x y => Z.lxor (lane A x y) (nth x D 0)).

(** The rotation offsets, lane by lane. *)
Definition rho_offsets : list Z :=
  [0; 1; 62; 28; 27; 36; 44; 6; 55; 20; 3; 10; 43; 25; 39; 41; 45; 15; 21; 8; 18; 2; 61; 56; 14].

Definition rho (A : list Z) : list Z := lanes (fun x y => rotl (lane A x y) (lane rho_offsets x y)).

Definition pi (A : list Z) : list Z := lanes (fun x y => lane A (x + 3 * y)%nat x).

Definition chi (A : list Z) : list Z :=
  lanes (fun x y => Z.lxor (lane A x y)
    (Z.land (Z.lxor (lane A (x + 1) y) (Z.ones 64)) (lane A (x + 2) y))).

Definition round_constants : list Z :=
  [0x0000000000000001; 0x0000000000008082; 0x800000000000808A; 0x8000000080008000;
   0x000000000000808B; 0x0000000080000001; 0x8000000080008081; 0x8000000000008009;
   0x000000000000008A; 0x0000000000000088; 0x0000000080008009; 0x000000008000000A;
   0x000000008000808B; 0x800000000000008B; 0x8000000000008089; 0x8000000000008003;
   0x8000000000008002; 0x8000000000000080; 0x000000000000800A; 0x800000008000000A;
   0x8000000080008081; 0x8000000000008080; 0x0000000080000001; 0x8000000080008008].

Definition keccak_iota (rc : Z) (A : list Z) : list Z :=
  match A with [] => [] | a :: A => Z.lxor a rc :: A end.

Definition keccak_round (A : list Z) (rc : Z) : list Z := keccak_iota rc (chi (pi (rho (theta A)))).

Definition keccak_f (A : list Z) : list Z := foldl keccak_round A round_constants.

(** ** The sponge *)

Definition le_lane (bs : bytes) : Z := be_decode (rev bs).

Definition lane_bytes (z : Z) : bytes := rev (be_encode 8 z).

(** Exclusive or of a block of [rate] bytes into the first lanes. *)
Definition xor_block (A : list Z) (block : bytes) : list Z :=
  lanes (fun x y => Z.lxor (lane A x y) (le_lane (take 8 (drop (8 * (x + 5 * y))%nat block)))).

Fixpoint absorb (blocks rate : nat) (A : list Z) (data : bytes) : list Z :=
  match blocks with
  | O => A
  | S blocks => absorb blocks rate (keccak_f (xor_block A (take rate data))) (drop rate data)
  end.

(** [01 || pad10*1]: the suffix of SHA-3 and the padding, on whole bytes. *)
Definition sha3_pad (rate : nat) (data : bytes) : bytes :=
  match (rate - length data mod rate)%nat with
  | 1%nat => data ++ [Byte.x86]
  | q => data ++ [Byte.x06] ++ replicate (q - 2) Byte.x00 ++ [Byte.x80]
  end.

(** The digest: at most [rate] bytes are needed, so one squeeze is enough. *)
Definition sha3 (rate digest : nat) (data : bytes) : bytes :=
  let padded := sha3_pad rate data in
  let A := absorb (length padded / rate) rate (replicate 25 0) padded in
  take digest (concat (map (fun i => lane_bytes (nth i A 0)) (seq 0 25))).

End Keccak.

Lemma sha3_pad_length rate data :
  1 < rate -> length (sha3_pad rate data) = rate * S (length data / rate).
Proof.
  intros Hr. unfold sha3_pad. pose proof (Nat.div_mod_eq (length data) rate) as E.
  pose proof (Nat.mod_upper_bound (length data) rate ltac:(lia)) as Hb.
  destruct (rate - length data mod rate) as [|[|q]] eqn:Eq; [lia|rewrite length_app; simpl; lia|].
  rewrite !length_app, length_replicate. simpl. lia.
Qed.

Lemma suffix_zeros_snoc q (u : bytes) :
  u ++ [Byte.x06] ++ replicate (S q) Byte.x00 = (u ++ [Byte.x06] ++ replicate q Byte.x00) ++ [Byte.x00].
Proof. by rewrite replicate_S_end, <- !app_assoc. Qed.

Lemma suffix_zeros_inj q1 q2 (u v : bytes) :
  u ++ [Byte.x06] ++ replicate q1 Byte.x00 = v ++ [Byte.x06] ++ replicate q2 Byte.x00 -> u = v.
Proof.
  revert q2. induction q1 as [|q1 IH]; intros [|q2] E; rewrite ?suffix_zeros_snoc in E;
    cbn [replicate] in E; rewrite ?app_nil_r in E; apply app_inj_tail in E as [E E']; try done.
  by eapply IH.
Qed.

(** Different messages are padded differently, so no collision comes from the padding. *)
Lemma sha3_pad_inj rate x y : 1 < rate -> sha3_pad rate x = sha3_pad rate y -> x = y.
Proof.
  intros Hr.
  assert (Hpad : forall d, exists q, sha3_pad rate d = d ++ [Byte.x86] /\ q = 0 \/
    sha3_pad rate d = d ++ [Byte.x06] ++ replicate q Byte.x00 ++ [Byte.x80]).
  { intros d. unfold sha3_pad. destruct (rate - length d mod rate) as [|[|q]]; [by exists 0; right|by exists 0; left|].
    exists q. right. by rewrite Nat.sub_succ, Nat.sub_succ, Nat.sub_0_r. }
  destruct (Hpad x) as (q1 & [[-> _]| ->]), (Hpad y) as (q2 & [[-> _]| ->]); intros E.
  - by apply app_inj_tail in E as [-> _].
  - rewrite !app_assoc in E. apply app_inj_tail in E as [_ E]. done.
  - rewrite !app_assoc in E. apply app_inj_tail in E as [_ E]. done.
  - rewrite !app_assoc in E. apply app_inj_tail in E as [E _]. rewrite <- !app_assoc in E. by eapply suffix_zeros_inj.
Qed.

Lemma sha3_length rate digest data : digest <= 200 -> length (sha3 rate digest data) = digest.
Proof.
  intros Hd. unfold sha3. rewrite length_take.
  assert (Hl : forall l : list nat, length (concat (map (fun i => lane_bytes (nth i
    (absorb (length (sha3_pad rate data) / rate) rate (replicate 25 0%Z) (sha3_pad rate data)) 0%Z)) l)) = 8 * length l).
  { induction l as [|i l IH]; [done|]. cbn [map concat]. rewrite length_app, IH. unfold lane_bytes.
    rewrite length_rev, be_encode_length. simpl. lia. }
  rewrite Hl, length_seq. lia.
Qed.

(** [hashlib.sha3_256] and [hashlib.sha3_512]. *)
Definition sha3_hashlib : Hashlib := {|
  hashlib_sha3_256 := sha3 136 32;
  hashlib_sha3_512 := sha3 72 64;
  hashlib_sha3_256_length := fun x => sha3_length 136 32 x ltac:(lia);
  hashlib_sha3_512_length := fun x => sha3_length 72 64 x ltac:(lia);
|}.

(** ** Test vectors *)

Definition hex_value (bs : bytes) : Z := be_decode bs.

Example sha3_256_empty : hex_value (sha3 136 32 []) =
  0xa7ffc6f8bf1ed76651c14756a061d662f580ff4de43b49fa82d80a4b80f8434a%Z.
Proof. vm_compute. reflexivity. Qed.

Example sha3_256_abc : hex_value (sha3 136 32 (b: "abc")) =
  0x3a985da74fe225b2045c172d6bd390bd855f086e3e9d525b46bfe24511431532%Z.
Proof. vm_compute. reflexivity. Qed.

Example sha3_256_two_blocks : hex_value (sha3 136 32 (replicate 200 Byte.x61)) =
  0xcce34485baf2bf2aca99b94833892a4f52896d3d153f7b840cc4f9fe695f1387%Z.
Proof. vm_compute. reflexivity. Qed.

Example sha3_512_abc : hex_value (sha3 72 64 (b: "abc")) =
  0xb751850b1a57168a5693cd924b6b096e08f621827444f70d884f5d0240d2712e10e116e9192af3c91a7ec57647e3934057340b4cf408d5a56592f8274eec53f0%Z.
Proof. vm_compute. reflexivity. Qed.
