(* ===== verification/Wots.v ===== *)
(** * WOTS+ one-time signatures ([src/src/crypto.py], class [WOTSPlus])

    Definitions of key generation, signing and verification, then: a signature made with a
    generated key verifies ([wots_sign_verify]); the checksum makes chunk vectors of different
    digests incomparable ([hash_chunks_antichain]), so a second valid signature on another
    digest inverts a hash chain ([wots_forgery_inverts_chain]); signatures are unique up to
    trailing bytes ([wots_signature_unique], [wots_verify_ignores_suffix]). *)

From stdpp Require Import prelude list strings.
From Stdlib Require Import Strings.Byte ZArith Lia.
From S2P Require Import Prelude.
From S2P Require Import PyFloat.
From S2P Require Import Crypto.

Set Default Goal Selector "!".

(** ** Parameters ([WOTSPlus.__init__]) *)

Definition wots_n : nat := 32.
Definition wots_w : Z := 16.
Definition wots_len1 : nat := 64.
Definition wots_len2 : nat := 3.
Definition wots_len_total : nat := 67.

(** ** Chunks *)

(** Each digest byte gives its high and its low nibble. *)
Definition nibbles (msg_hash : bytes) : list Z :=
  flat_map (fun b => [Z.shiftr (byte_val b) 4; Z.land (byte_val b) 15]) msg_hash.

Definition wots_checksum (chunks : list Z) : Z :=
  sumZ (map (fun c => wots_w - 1 - c)%Z chunks).

Definition checksum_chunks (checksum : Z) : list Z :=
  [Z.land (Z.shiftr checksum 8) 15; Z.land (Z.shiftr checksum 4) 15; Z.land checksum 15].

(** The 64 message chunks followed by the 3 checksum chunks. *)
Definition hash_chunks (msg_hash : bytes) : list Z :=
  let chunks := nibbles msg_hash in
  chunks ++ checksum_chunks (wots_checksum chunks).

(** ** The scheme *)

Section WOTSPlus.
Context `{Hashlib}.

Definition hash_chain (start : bytes) (iterations : Z) : bytes :=
  Nat.iter (Z.to_nat iterations) sha3_256 start.

Definition wots_chain_seed (seed : bytes) (i : nat) : res bytes :=
  d ← py_concat [PBytes seed; PBytes (b: "wots_chain"); PInt (Z.of_nat i)];
  Ok (sha3_256 d).

Definition keygen (seed : bytes) : res (bytes * bytes) :=
  private_chains ← res_map (wots_chain_seed seed) (seq 0 wots_len_total);
  let public_chains := map (fun chain => hash_chain chain (wots_w - 1)) private_chains in
  Ok (concat private_chains, concat public_chains).

(** The [i]-th 32-byte field of a key or a signature. *)
Definition chain_at (i : nat) (data : bytes) : bytes :=
  slice (i * wots_n) ((i + 1) * wots_n) data.

Definition all_chunks (message : bytes) : list Z := hash_chunks (sha3_256 message).

Definition wots_sign (message private_key : bytes) : bytes :=
  concat (imap (fun i chunk_val => hash_chain (chain_at i private_key) chunk_val)
               (all_chunks message)).

(** The loop returns [False] at the first chain that does not reach the public key. *)
Definition wots_verify (message signature public_key : bytes) : bool :=
  forallb id
    (imap (fun i chunk_val =>
             let remaining := (wots_w - 1 - chunk_val)%Z in
             bool_decide (hash_chain (chain_at i signature) remaining = chain_at i public_key))
          (all_chunks message)).

(** The strings that [wots_verify] hashes along the chains of [signature]. *)
Definition chain_iterates (start : bytes) (k : Z) : list bytes :=
  map (fun j => hash_chain start (Z.of_nat j)) (seq 0 (Z.to_nat k)).

Definition chain_queries (message signature : bytes) : list bytes :=
  concat (imap (fun i c => chain_iterates (chain_at i signature) (wots_w - 1 - c))
               (all_chunks message)).

End WOTSPlus.

(** ** Chunks: ranges, injectivity, incomparability *)

Lemma nibbles_cons b l :
  nibbles (b :: l) = Z.shiftr (byte_val b) 4 :: Z.land (byte_val b) 15 :: nibbles l.
Proof. done. Qed.

Lemma shiftr_nibble b : Z.shiftr (byte_val b) 4 = (byte_val b / 16)%Z.
Proof. rewrite Z.shiftr_div_pow2 by lia. done. Qed.

Lemma land_15 z : Z.land z 15 = (z mod 16)%Z.
Proof. change 15%Z with (Z.ones 4). rewrite Z.land_ones by lia. done. Qed.

Lemma nibbles_length l : length (nibbles l) = 2 * length l.
Proof. induction l; [done|]. rewrite nibbles_cons. simpl. lia. Qed.

Lemma nibbles_range l : Forall (fun c => 0 <= c <= 15)%Z (nibbles l).
Proof.
  induction l as [|b l IH]; [constructor|]. rewrite nibbles_cons, shiftr_nibble, land_15.
  pose proof (byte_val_range b).
  repeat constructor; try done.
  - apply Z.div_pos; lia.
  - pose proof (Z.div_lt_upper_bound (byte_val b) 16 16 ltac:(lia) ltac:(lia)). lia.
  - apply Z.mod_pos_bound; lia.
  - pose proof (Z.mod_pos_bound (byte_val b) 16 ltac:(lia)). lia.
Qed.

Lemma nibbles_inj l1 l2 : nibbles l1 = nibbles l2 -> l1 = l2.
Proof.
  revert l2. induction l1 as [|b l1 IH]; intros [|c l2]; rewrite ?nibbles_cons; try done.
  rewrite !shiftr_nibble, !land_15. intros [= E1 E2 E3]. f_equal; [|by apply IH].
  apply byte_val_inj.
  rewrite (Z.div_mod (byte_val b) 16), (Z.div_mod (byte_val c) 16) by lia. congruence.
Qed.

Lemma checksum_spec l : wots_checksum l = (15 * Z.of_nat (length l) - sumZ l)%Z.
Proof.
  unfold wots_checksum, wots_w. induction l as [|c l IH]; [done|].
  cbn [map sumZ foldr length] in *. unfold sumZ in *. lia.
Qed.

Lemma sumZ_le l1 l2 : Forall2 Z.le l1 l2 -> (sumZ l1 <= sumZ l2)%Z.
Proof. induction 1; simpl; lia. Qed.

Lemma sumZ_le_eq l1 l2 : Forall2 Z.le l1 l2 -> sumZ l1 = sumZ l2 -> l1 = l2.
Proof.
  induction 1 as [|x y l1 l2 Hxy Hl IH]; [done|]. simpl. intros E.
  pose proof (sumZ_le _ _ Hl). assert (x = y) by lia. subst. f_equal. apply IH. lia.
Qed.

Lemma nibbles_checksum_range l :
  (0 <= wots_checksum (nibbles l) <= 30 * Z.of_nat (length l))%Z.
Proof.
  rewrite checksum_spec, nibbles_length.
  assert (0 <= sumZ (nibbles l) <= 15 * Z.of_nat (length (nibbles l)))%Z as Hs.
  { generalize (nibbles_range l). induction 1; cbn [sumZ foldr length]; [lia|].
    unfold sumZ in *. lia. }
  rewrite nibbles_length in Hs. lia.
Qed.

(** The three checksum chunks are the base-16 digits of the checksum. *)
Lemma checksum_chunks_value c :
  (0 <= c < 4096)%Z ->
  exists x y z, checksum_chunks c = [x; y; z] /\ c = (256 * x + 16 * y + z)%Z /\
                (0 <= x <= 15 /\ 0 <= y <= 15 /\ 0 <= z <= 15)%Z.
Proof.
  intros Hc. unfold checksum_chunks. rewrite !land_15, !Z.shiftr_div_pow2 by lia.
  change (2 ^ 8)%Z with 256%Z. change (2 ^ 4)%Z with 16%Z.
  eexists _, _, _; split; [reflexivity|].
  pose proof (Z.mod_pos_bound (c / 256) 16 ltac:(lia)).
  pose proof (Z.mod_pos_bound (c / 16) 16 ltac:(lia)).
  pose proof (Z.mod_pos_bound c 16 ltac:(lia)).
  pose proof (Z.div_mod c 16 ltac:(lia)). pose proof (Z.div_mod (c / 16) 16 ltac:(lia)) as E2.
  rewrite Z.div_div in E2 by lia. change (16 * 16)%Z with 256%Z in E2.
  assert (0 <= c / 256 < 16)%Z
    by (split; [apply Z.div_pos | apply Z.div_lt_upper_bound]; lia).
  rewrite (Z.mod_small (c / 256) 16) by lia. lia.
Qed.

Lemma hash_chunks_length h : length h = 32 -> length (hash_chunks h) = wots_len_total.
Proof.
  intros. unfold hash_chunks. rewrite length_app, nibbles_length.
  cbn [length checksum_chunks]. unfold wots_len_total. lia.
Qed.

Lemma hash_chunks_range h :
  length h = 32 -> Forall (fun c => 0 <= c <= 15)%Z (hash_chunks h).
Proof.
  intros L. unfold hash_chunks. apply Forall_app_2; [apply nibbles_range|].
  pose proof (nibbles_checksum_range h) as Hr. rewrite L in Hr.
  destruct (checksum_chunks_value (wots_checksum (nibbles h))) as (x & y & z & -> & _ & Hb);
    [lia|]. repeat constructor; lia.
Qed.

(** No chunk vector is pointwise below the chunk vector of a different digest. *)
Lemma hash_chunks_antichain h1 h2 :
  length h1 = 32 -> length h2 = 32 ->
  Forall2 Z.le (hash_chunks h1) (hash_chunks h2) -> h1 = h2.
Proof.
  intros L1 L2 Hle. unfold hash_chunks in Hle.
  apply Forall2_app_inv in Hle as [Hn Hc]; [|by rewrite !nibbles_length, L1, L2].
  pose proof (nibbles_checksum_range h1) as R1. pose proof (nibbles_checksum_range h2) as R2.
  rewrite L1 in R1. rewrite L2 in R2.
  destruct (checksum_chunks_value (wots_checksum (nibbles h1)))
    as (x1 & y1 & z1 & E1 & V1 & B1); [lia|].
  destruct (checksum_chunks_value (wots_checksum (nibbles h2)))
    as (x2 & y2 & z2 & E2 & V2 & B2); [lia|].
  rewrite E1, E2 in Hc.
  rewrite !Forall2_cons in Hc. destruct Hc as (Hx & Hy & Hz & _).
  rewrite !checksum_spec, !nibbles_length, L1, L2 in *.
  apply nibbles_inj, sumZ_le_eq; [done|]. pose proof (sumZ_le _ _ Hn). lia.
Qed.

Lemma Forall2_le_or l1 l2 :
  length l1 = length l2 ->
  Forall2 Z.le l1 l2 \/ exists i x y, l1 !! i = Some x /\ l2 !! i = Some y /\ (y < x)%Z.
Proof.
  revert l2. induction l1 as [|x l1 IH]; intros [|y l2] L; try discriminate; [left; constructor|].
  destruct (Z.le_gt_cases x y) as [Hxy|Hxy]; [|right; exists 0, x, y; simpl; auto].
  destruct (IH l2) as [?|(i & x' & y' & ?)]; [simpl in L; lia | left; by constructor |].
  right. exists (S i), x', y'. done.
Qed.

(** ** Hash chains *)

Section WotsLemmas.
Context `{Hashlib}.

Lemma hash_chain_add s a b :
  (0 <= a)%Z -> (0 <= b)%Z -> hash_chain (hash_chain s a) b = hash_chain s (a + b).
Proof.
  intros. unfold hash_chain. rewrite <- Nat.iter_add. f_equal. lia.
Qed.

Lemma hash_chain_succ s k :
  (0 <= k)%Z -> hash_chain s (k + 1) = hash_chain (sha3_256 s) k.
Proof.
  intros. rewrite Z.add_comm, <- hash_chain_add by lia. done.
Qed.

Lemma hash_chain_length s k : length s = 32 -> length (hash_chain s k) = 32.
Proof.
  intros L. unfold hash_chain. induction (Z.to_nat k); simpl; [done|].
  apply sha3_256_length.
Qed.

(** Without collisions among the hashed iterates, equal ends come from equal starts. *)
Lemma hash_chain_inj a b k qs :
  collision_free sha3_256 qs ->
  (forall x, x ∈ chain_iterates a k -> x ∈ qs) ->
  (forall x, x ∈ chain_iterates b k -> x ∈ qs) ->
  hash_chain a k = hash_chain b k -> a = b.
Proof.
  intros Hcf. unfold chain_iterates, hash_chain.
  generalize (Z.to_nat k). intros n. clear k. induction n as [|n IH]; [done|].
  rewrite seq_S, !map_app. simpl. intros Ha Hb E. apply IH.
  - intros. apply Ha, elem_of_app. by left.
  - intros. apply Hb, elem_of_app. by left.
  - apply Hcf; [apply Ha | apply Hb | done]; rewrite Nat2Z.id;
      apply elem_of_app; right; by apply list_elem_of_singleton.
Qed.

(** The iterates of a later point of a chain are iterates of its start. *)
Lemma chain_iterates_suffix s a k x :
  (0 <= a)%Z -> (0 <= k)%Z ->
  x ∈ chain_iterates (hash_chain s a) k -> x ∈ chain_iterates s (a + k).
Proof.
  intros Ha Hk. unfold chain_iterates. rewrite !list_elem_of_fmap.
  intros (j & -> & Hj). apply elem_of_seq in Hj. exists (Z.to_nat a + j)%nat.
  split; [|apply elem_of_seq; lia].
  rewrite hash_chain_add by lia. f_equal. lia.
Qed.

(** ** Key generation *)

Definition private_chain (seed : bytes) (i : nat) : bytes :=
  sha3_256 (seed ++ b: "wots_chain" ++ be_encode 8 (Z.of_nat i)).

Lemma wots_chain_seed_ok seed i :
  i < wots_len_total -> wots_chain_seed seed i = Ok (private_chain seed i).
Proof.
  intros Hi. unfold wots_chain_seed, private_chain, wots_len_total in *.
  rewrite !py_concat_cons, concat_arg_int by lia. cbn -[be_encode]. by rewrite app_nil_r.
Qed.

(** The two keys in closed form. *)
Definition wots_sk (seed : bytes) : bytes :=
  concat (map (private_chain seed) (seq 0 wots_len_total)).

Definition wots_pk (seed : bytes) : bytes :=
  concat (map (fun i => hash_chain (private_chain seed i) 15) (seq 0 wots_len_total)).

Lemma keygen_spec seed : keygen seed = Ok (wots_sk seed, wots_pk seed).
Proof.
  unfold keygen. rewrite (res_map_total _ (private_chain seed)).
  - unfold mbind, res_bind. by rewrite map_map.
  - intros i Hi%elem_of_seq. apply wots_chain_seed_ok. lia.
Qed.

Lemma keygen_inv seed sk pk : keygen seed = Ok (sk, pk) -> sk = wots_sk seed /\ pk = wots_pk seed.
Proof. rewrite keygen_spec. intros E. by inversion E. Qed.

Lemma chain_at_concat {A} (f : A -> bytes) (l : list A) i x :
  (forall x, length (f x) = 32) -> l !! i = Some x -> chain_at i (concat (map f l)) = f x.
Proof.
  intros Hf Hi. apply slice_concat.
  - apply Forall_fmap, Forall_true. intros. apply Hf.
  - by rewrite lookup_map, Hi.
Qed.

Lemma keygen_chains seed sk pk i :
  keygen seed = Ok (sk, pk) -> i < wots_len_total ->
  chain_at i sk = private_chain seed i /\ chain_at i pk = hash_chain (chain_at i sk) 15.
Proof.
  intros [-> ->]%keygen_inv Hi. unfold wots_sk, wots_pk.
  assert (Hl : seq 0 wots_len_total !! i = Some i) by (by apply lookup_seq_lt).
  split.
  - apply (chain_at_concat _ _ _ i); [intros; apply sha3_256_length | done].
  - rewrite !(chain_at_concat _ _ _ i); try done.
    + intros. apply sha3_256_length.
    + intros. apply hash_chain_length, sha3_256_length.
Qed.

Lemma concat_map_length {A} (f : A -> bytes) (l : list A) :
  (forall x, length (f x) = 32) -> length (concat (map f l)) = 32 * length l.
Proof.
  intros Hf. rewrite (concat_length_same 32); [by rewrite length_map|].
  apply Forall_fmap, Forall_true. intros. apply Hf.
Qed.

Lemma keygen_length seed sk pk :
  keygen seed = Ok (sk, pk) -> length sk = 2144 /\ length pk = 2144.
Proof.
  intros [-> ->]%keygen_inv. unfold wots_sk, wots_pk. rewrite !concat_map_length.
  - done.
  - intros. apply hash_chain_length, sha3_256_length.
  - intros. apply sha3_256_length.
Qed.

(** ** Verification *)

Lemma all_chunks_length m : length (all_chunks m) = wots_len_total.
Proof. apply hash_chunks_length, sha3_256_length. Qed.

Lemma all_chunks_lookup m i :
  i < wots_len_total -> exists c, all_chunks m !! i = Some c /\ (0 <= c <= 15)%Z.
Proof.
  intros Hi. destruct (lookup_lt_is_Some_2 (all_chunks m) i) as [c Hc].
  { by rewrite all_chunks_length. }
  exists c. split; [done|].
  pose proof (hash_chunks_range (sha3_256 m) (sha3_256_length m)) as Hr.
  rewrite Forall_lookup in Hr. exact (Hr _ _ Hc).
Qed.

Lemma wots_verify_spec m s pk :
  wots_verify m s pk = true <->
  forall i c, all_chunks m !! i = Some c ->
              hash_chain (chain_at i s) (15 - c) = chain_at i pk.
Proof.
  unfold wots_verify. rewrite <- Is_true_true, forallb_True, Forall_lookup. split; intros Hv i c Hi.
  - specialize (Hv i). rewrite list_lookup_imap, Hi in Hv.
    specialize (Hv _ eq_refl). simpl in Hv. by apply bool_decide_unpack in Hv.
  - apply imap_lookup_Some in Hi as (c' & Hc & ->). apply bool_decide_pack. by apply Hv.
Qed.

Lemma wots_sign_chain m sk i c :
  length sk = 2144 -> all_chunks m !! i = Some c ->
  chain_at i (wots_sign m sk) = hash_chain (chain_at i sk) c.
Proof.
  intros L Hi. unfold wots_sign. apply slice_concat.
  - rewrite Forall_lookup. intros j l (c' & Hc & ->)%imap_lookup_Some.
    apply hash_chain_length. apply lookup_lt_Some in Hc. rewrite all_chunks_length in Hc.
    unfold chain_at, wots_n, wots_len_total in *. rewrite slice_length_in; lia.
  - rewrite list_lookup_imap, Hi. done.
Qed.

Lemma wots_sign_length m sk : length sk = 2144 -> length (wots_sign m sk) = 2144.
Proof.
  intros L. unfold wots_sign. rewrite (concat_length_same 32).
  - rewrite length_imap, all_chunks_length. done.
  - rewrite Forall_lookup. intros j l (c' & Hc & ->)%imap_lookup_Some.
    apply hash_chain_length. apply lookup_lt_Some in Hc. rewrite all_chunks_length in Hc.
    unfold chain_at, wots_n, wots_len_total in *. rewrite slice_length_in; lia.
Qed.

Lemma wots_correct m seed sk pk :
  keygen seed = Ok (sk, pk) -> wots_verify m (wots_sign m sk) pk = true.
Proof.
  intros Hk. apply wots_verify_spec. intros i c Hi.
  pose proof (lookup_lt_Some _ _ _ Hi) as Hlt. rewrite all_chunks_length in Hlt.
  destruct (all_chunks_lookup m i Hlt) as (c' & Hc & Hr). rewrite Hi in Hc.
  injection Hc as <-. destruct (keygen_length _ _ _ Hk) as [L _].
  rewrite (wots_sign_chain _ _ _ c) by done.
  destruct (keygen_chains _ _ _ i Hk Hlt) as [_ ->].
  rewrite hash_chain_add by lia. f_equal. lia.
Qed.

Lemma chain_queries_elem m s i c x :
  all_chunks m !! i = Some c -> x ∈ chain_iterates (chain_at i s) (15 - c) ->
  x ∈ chain_queries m s.
Proof.
  intros Hi Hx. unfold chain_queries. apply list_elem_of_In, in_concat.
  exists (chain_iterates (chain_at i s) (15 - c)). split; [|by apply list_elem_of_In].
  apply list_elem_of_In, list_elem_of_lookup. exists i. by rewrite list_lookup_imap, Hi.
Qed.

Lemma chain_at_app i s1 s2 :
  i < wots_len_total -> 2144 <= length s1 -> chain_at i (s1 ++ s2) = chain_at i s1.
Proof.
  intros Hi L. unfold chain_at, slice, wots_n, wots_len_total in *.
  rewrite drop_app_le by lia. rewrite take_app_le; [done|]. rewrite length_drop. lia.
Qed.

(** A buffer is determined, up to its first 2144 bytes, by its 67 fields. *)
Lemma take_chains_eq n s1 s2 :
  (forall i, i < n -> chain_at i s1 = chain_at i s2) ->
  take (n * wots_n) s1 = take (n * wots_n) s2.
Proof.
  induction n as [|n IH]; intros Hc; [done|].
  replace (S n * wots_n) with (n * wots_n + wots_n) by lia.
  rewrite <- (take_drop (n * wots_n) (take (n * wots_n + wots_n) s1)).
  rewrite <- (take_drop (n * wots_n) (take (n * wots_n + wots_n) s2)).
  rewrite !take_take, !Nat.min_l by lia. f_equal; [apply IH; auto|].
  specialize (Hc n ltac:(lia)). unfold chain_at, slice in Hc.
  rewrite !skipn_firstn_comm.
  replace ((n + 1) * wots_n - n * wots_n) with wots_n in Hc by lia.
  by replace (n * wots_n + wots_n - n * wots_n) with wots_n by lia.
Qed.

End WotsLemmas.

(** ** Properties *)

Section WotsProperties.
Context `{Hashlib}.

(** C1. Key generation never fails, its keys have 2144 bytes, and every signature made with
    the private key has 2144 bytes and verifies under the public key. *)
Theorem wots_sign_verify (seed : bytes) :
  exists sk pk, keygen seed = Ok (sk, pk) /\ length sk = 2144 /\ length pk = 2144 /\
    forall message, length (wots_sign message sk) = 2144 /\
                    wots_verify message (wots_sign message sk) pk = true.
Proof.
  exists (wots_sk seed), (wots_pk seed).
  destruct (keygen_length _ _ _ (keygen_spec seed)) as [L1 L2].
  repeat (split; [done || apply keygen_spec|]). intros message. split.
  - by apply wots_sign_length.
  - by apply (wots_correct _ seed), keygen_spec.
Qed.

(** C33. A signature that verifies on a message with another digest under the same public key
    inverts a hash chain: on some chain it gives a value strictly below the one that the
    first signature revealed and that hashes up to it.  Only collisions among the strings
    hashed by the two verifications are excluded. *)
Theorem wots_forgery_inverts_chain (message message' signature signature' pk : bytes)
    (Hcf : collision_free sha3_256
             (chain_queries message signature ++ chain_queries message' signature'))
    (Hne : sha3_256 message <> sha3_256 message')
    (Hv : wots_verify message signature pk = true)
    (Hv' : wots_verify message' signature' pk = true) :
  exists i c c',
    all_chunks message !! i = Some c /\ all_chunks message' !! i = Some c' /\ (c' < c)%Z /\
    hash_chain (chain_at i signature') (c - c') = chain_at i signature.
Proof.
  destruct (Forall2_le_or (all_chunks message) (all_chunks message'))
    as [Hle|(i & c & c' & Hc & Hc' & Hlt)].
  { by rewrite !all_chunks_length. }
  { apply hash_chunks_antichain in Hle; [done | apply sha3_256_length..]. }
  exists i, c, c'. repeat (split; [done|]).
  pose proof (lookup_lt_Some _ _ _ Hc) as Hi. rewrite all_chunks_length in Hi.
  destruct (all_chunks_lookup message i Hi) as (c1 & E1 & R1).
  destruct (all_chunks_lookup message' i Hi) as (c2 & E2 & R2).
  rewrite Hc in E1. rewrite Hc' in E2. injection E1 as <-. injection E2 as <-.
  apply (hash_chain_inj _ _ (15 - c) _ Hcf).
  - intros x Hx. apply elem_of_app. right. apply (chain_queries_elem _ _ i c'); [done|].
    apply chain_iterates_suffix in Hx; [|lia..]. by replace (15 - c')%Z with (c - c' + (15 - c))%Z by lia.
  - intros x Hx. apply elem_of_app. left. by apply (chain_queries_elem _ _ i c).
  - rewrite wots_verify_spec in Hv, Hv'. rewrite (Hv i c Hc), <- (Hv' i c' Hc').
    rewrite hash_chain_add by lia. f_equal. lia.
Qed.

(** Two signatures that verify on the same message under the same key agree on the 2144
    bytes that are read. *)
Theorem wots_signature_unique (message signature signature' pk : bytes)
    (Hcf : collision_free sha3_256
             (chain_queries message signature ++ chain_queries message signature'))
    (Hv : wots_verify message signature pk = true)
    (Hv' : wots_verify message signature' pk = true) :
  take 2144 signature = take 2144 signature'.
Proof.
  apply (take_chains_eq wots_len_total). intros i Hi.
  destruct (all_chunks_lookup message i Hi) as (c & Hc & R).
  apply (hash_chain_inj _ _ (15 - c) _ Hcf).
  - intros x Hx. apply elem_of_app. left. by apply (chain_queries_elem _ _ i c).
  - intros x Hx. apply elem_of_app. right. by apply (chain_queries_elem _ _ i c).
  - rewrite wots_verify_spec in Hv, Hv'. by rewrite (Hv i c Hc), (Hv' i c Hc).
Qed.

(** Verification reads 2144 bytes of the signature and ignores what follows. *)
Lemma wots_verify_ignores_suffix (message signature junk pk : bytes) :
  2144 <= length signature ->
  wots_verify message (signature ++ junk) pk = wots_verify message signature pk.
Proof.
  intros L. apply Bool.eq_iff_eq_true. rewrite !wots_verify_spec.
  split; intros Hv i c Hc; rewrite <- (Hv i c Hc);
    pose proof (lookup_lt_Some _ _ _ Hc) as Hi; rewrite all_chunks_length in Hi;
    by rewrite chain_at_app.
Qed.

End WotsProperties.

(** ** Concrete runs *)

(** The private key whose 67 chains all start at zero, and its public key under
    [counter_hashlib]. *)
Definition zero_sk : bytes := replicate 2144 Byte.x00.

Definition zero_pk : bytes :=
  concat (replicate wots_len_total (Byte.x0f :: replicate 31 Byte.x00)).

Lemma wots_forgery_inverts_chain_witness :
  exists i c c',
    @all_chunks counter_hashlib (b: "m1") !! i = Some c /\
    @all_chunks counter_hashlib (b: "m2") !! i = Some c' /\ (c' < c)%Z /\
    @hash_chain counter_hashlib (chain_at i (@wots_sign counter_hashlib (b: "m2") zero_sk)) (c - c')
    = chain_at i (@wots_sign counter_hashlib (b: "m1") zero_sk).
Proof.
  apply (@wots_forgery_inverts_chain counter_hashlib _ _ _ _ zero_pk).
  - apply counter_collision_free. by vm_compute.
  - by vm_compute.
  - by vm_compute.
  - by vm_compute.
Defined.

Lemma wots_signature_unique_witness :
  let s := @wots_sign counter_hashlib (b: "m1") zero_sk in
  take 2144 s = take 2144 (s ++ b: "junk").
Proof.
  apply (@wots_signature_unique counter_hashlib (b: "m1") _ _ zero_pk).
  - apply counter_collision_free. by vm_compute.
  - by vm_compute.
  - by vm_compute.
Defined.
