(* ===== verification/Merkle.v ===== *)
(** * Merkle trees ([src/src/crypto.py], class [MerkleTree])

    The tree is the list of its levels, leaves first.  Main results: construction never
    raises; every authentication path that the tree hands out verifies against its root
    ([merkle_proof_complete]); and, with no collision among the hashed nodes, a path of full
    depth that verifies proves membership at the index its directions spell
    ([merkle_proof_sound]). *)

From stdpp Require Import prelude list strings.
From Stdlib Require Import Strings.Byte ZArith Lia.
From S2P Require Import Prelude.
From S2P Require Import PyFloat.
From S2P Require Import Crypto.

Set Default Goal Selector "!".

(** ** Data *)

(** [self.tree]: the list of levels; for no leaves it is the one-element list holding the
    digest of [b"empty"] itself, not a level that contains it. *)
Inductive tree_levels :=
  | EmptyTree (digest : bytes)
  | Levels (levels : list (list bytes)).

Record MerkleTree := mkMerkleTree {
  mt_leaves : list bytes;
  mt_tree : tree_levels;
}.

(** An authentication path: sibling and direction (non-zero: the sibling is on the left). *)
Abbreviation merkle_proof := (list (bytes * Z)).

(** [int.bit_length]. *)
Definition bit_length (n : nat) : nat := if n =? 0 then 0 else S (Nat.log2 n).

(** ** Operations *)

Section MerkleTree.
Context `{Hashlib}.

(** One pass of the inner [for] loop: hash adjacent pairs. *)
Fixpoint hash_pairs (current : list bytes) : res (list bytes) :=
  match current with
  | [] => Ok []
  | [_] => Err (IndexError "list index out of range")
  | a :: b :: rest => next ← hash_pairs rest; Ok (sha3_256 (a ++ b) :: next)
  end.

(** The [while len(current) > 1] loop: the levels above [current]. *)
Fixpoint build_levels (fuel : nat) (current : list bytes) : res (list (list bytes)) :=
  if length current <=? 1 then Ok []
  else match fuel with
       | O => Err OutOfFuel
       | S fuel =>
           next_level ← hash_pairs current;
           above ← build_levels fuel next_level;
           Ok (next_level :: above)
       end.

Definition pad_leaves (leaves : list bytes) : list bytes :=
  let n := length leaves in
  let next_pow2 := 2 ^ bit_length (n - 1) in
  leaves ++ replicate (next_pow2 - n) (sha3_256 (b: "pad")).

Definition build_tree (leaves : list bytes) : res tree_levels :=
  match leaves with
  | [] => Ok (EmptyTree (sha3_256 (b: "empty")))
  | _ =>
      let padded := pad_leaves leaves in
      above ← build_levels (length padded) padded;
      Ok (Levels (padded :: above))
  end.

(** [MerkleTree(leaves)]: every leaf is hashed first. *)
Definition merkle_new (leaves : list bytes) : res MerkleTree :=
  let hashed := map sha3_256 leaves in
  tree ← build_tree hashed;
  Ok (mkMerkleTree hashed tree).

(** [self.tree[-1][0]]: indexing the digest of the empty tree gives its first byte, an
    [int]. *)
Definition merkle_root (t : MerkleTree) : res pyarg :=
  match mt_tree t with
  | EmptyTree digest =>
      match digest with
      | c :: _ => Ok (PInt (byte_val c))
      | [] => Err (IndexError "index out of range")
      end
  | Levels levels =>
      match last levels with
      | Some (r :: _) => Ok (PBytes r)
      | _ => Err (IndexError "list index out of range")
      end
  end.

(** The loop of [get_proof] over [self.tree[:-1]]. *)
Fixpoint proof_walk (levels : list (list bytes)) (idx : nat) : merkle_proof :=
  match levels with
  | [] => []
  | level :: rest =>
      let sibling_idx := Nat.lxor idx 1 in
      match level !! sibling_idx with
      | Some sibling => (sibling, Z.of_nat (idx mod 2)) :: proof_walk rest (idx / 2)
      | None => proof_walk rest (idx / 2)
      end
  end.

Definition get_proof (t : MerkleTree) (index : nat) : res merkle_proof :=
  if length (mt_leaves t) <=? index then Err (IndexError "Leaf index out of range")
  else match mt_tree t with
       | EmptyTree _ => Ok []
       | Levels levels => Ok (proof_walk (removelast levels) index)
       end.

Definition proof_step (current : bytes) (step : bytes * Z) : bytes :=
  let '(sibling, is_right) := step in
  if negb (is_right =? 0)%Z then sha3_256 (sibling ++ current)
  else sha3_256 (current ++ sibling).

Definition verify_proof (leaf : bytes) (proof : merkle_proof) (root : bytes) : bool :=
  let current := if length leaf =? 32 then leaf else sha3_256 leaf in
  bool_decide (foldl proof_step current proof = root).

(** ** The strings hashed by a verification and by a tree *)

Definition step_input (current : bytes) (step : bytes * Z) : bytes :=
  let '(sibling, is_right) := step in
  if negb (is_right =? 0)%Z then sibling ++ current else current ++ sibling.

Fixpoint proof_queries (current : bytes) (proof : merkle_proof) : list bytes :=
  match proof with
  | [] => []
  | step :: proof => step_input current step :: proof_queries (proof_step current step) proof
  end.

Fixpoint pair_inputs (level : list bytes) : list bytes :=
  match level with
  | a :: b :: rest => (a ++ b) :: pair_inputs rest
  | _ => []
  end.

Definition tree_queries (t : MerkleTree) : list bytes := 
  match mt_tree t with
  | EmptyTree _ => []
  | Levels levels => concat (map pair_inputs levels)
  end.

End MerkleTree.

(** The leaf position that the directions of a path spell, lowest bit first. *)
Fixpoint proof_index (proof : merkle_proof) : nat :=
  match proof with
  | [] => 0
  | (_, is_right) :: proof => (if (is_right =? 0)%Z then 0 else 1) + 2 * proof_index proof
  end.

(** ** Levels *)

Section MerkleLemmas.
Context `{Hashlib}.

(** A stack of levels from [l] to a single root. *)
Inductive level_chain : list bytes -> list (list bytes) -> Prop :=
  | level_chain_root x : level_chain [x] []
  | level_chain_up l l' above :
      hash_pairs l = Ok l' -> length l = 2 * length l' -> level_chain l' above ->
      level_chain l (l' :: above).

Lemma hash_pairs_even n l :
  length l = 2 * n -> exists l', hash_pairs l = Ok l' /\ length l' = n.
Proof.
  revert l. induction n as [|n IH]; intros l L.
  - destruct l; [by exists [] | done].
  - destruct l as [|a [|b l]]; simpl in L; try lia.
    destruct (IH l ltac:(lia)) as (l' & E & L'). exists (sha3_256 (a ++ b) :: l').
    simpl. rewrite E. simpl. auto.
Qed.

Lemma hash_pairs_cons_inv l x l' :
  hash_pairs l = Ok (x :: l') ->
  exists a b rest, l = a :: b :: rest /\ hash_pairs rest = Ok l' /\ x = sha3_256 (a ++ b).
Proof.
  destruct l as [|a [|b rest]]; simpl; try done. intros. inv_res.
  eexists _, _, _; eauto.
Qed.

Lemma hash_pairs_lookup i l l' :
  hash_pairs l = Ok l' -> i < length l' ->
  exists a b, l !! (2 * i) = Some a /\ l !! (2 * i + 1) = Some b /\
              l' !! i = Some (sha3_256 (a ++ b)) /\ (a ++ b) ∈ pair_inputs l.
Proof.
  revert l l'. induction i as [|i IH]; intros l [|x l'] E L; try (simpl in L; lia);
    apply hash_pairs_cons_inv in E as (a & b & rest & -> & E & ->).
  - exists a, b. repeat split; try done. simpl. by left.
  - simpl in L. destruct (IH rest l' E ltac:(lia)) as (a' & b' & E1 & E2 & E3 & Hin).
    exists a', b'. replace (2 * S i) with (S (S (2 * i))) by lia.
    repeat split; try done. simpl. by right.
Qed.

Lemma level_chain_nonempty l above : level_chain l above -> l <> [].
Proof. induction 1; [done|]. intros ->. destruct l'; simpl in *; [done|lia]. Qed.

(** Enough fuel builds all levels of a list whose length is a power of two. *)
Lemma build_levels_ok h fuel l :
  length l = 2 ^ h -> h <= fuel -> exists above, build_levels fuel l = Ok above /\
                                          level_chain l above /\ length above = h.
Proof.
  revert fuel l. induction h as [|h IH]; intros fuel l L Hf.
  - destruct l as [|x [|? ?]]; simpl in L; try lia. exists [].
    repeat split; try constructor. by destruct fuel.
  - destruct fuel as [|fuel]; [lia|].
    destruct (hash_pairs_even (2 ^ h) l) as (l' & E & L').
    { rewrite L. simpl. lia. }
    destruct (IH fuel l' L' ltac:(lia)) as (above & Eb & Hc & Ha).
    exists (l' :: above). cbn [build_levels].
    assert (1 < length l) by (rewrite L; simpl; pose proof (Nat.pow_nonzero 2 h ltac:(lia)); lia).
    rewrite (proj2 (Nat.leb_gt _ _)) by lia. rewrite E. simpl. rewrite Eb. simpl.
    repeat split; [|simpl; lia]. constructor; [done | rewrite L, L'; simpl; lia | done].
Qed.

Lemma bit_length_bound n : n < 2 ^ bit_length n.
Proof.
  unfold bit_length. destruct (Nat.eqb_spec n 0) as [->|Hn]; [simpl; lia|].
  apply Nat.log2_spec. lia.
Qed.

Lemma pad_leaves_length l :
  l <> [] -> length (pad_leaves l) = 2 ^ bit_length (length l - 1).
Proof.
  intros Hl. unfold pad_leaves. rewrite length_app, length_replicate.
  pose proof (bit_length_bound (length l - 1)). destruct l; [done|]. simpl length in *. lia.
Qed.

Lemma pow2_fuel h : h <= 2 ^ h.
Proof. pose proof (Nat.pow_gt_lin_r 2 h). lia. Qed.

Definition tree_height (n : nat) : nat := bit_length (n - 1).

(** Construction never raises, and the levels are complete. *)
Lemma merkle_new_ok leaves :
  leaves <> [] ->
  exists above,
    merkle_new leaves = Ok (mkMerkleTree (map sha3_256 leaves)
                              (Levels (pad_leaves (map sha3_256 leaves) :: above))) /\
    level_chain (pad_leaves (map sha3_256 leaves)) above /\
    length above = tree_height (length leaves).
Proof.
  intros Hl. set (hs := map sha3_256 leaves).
  assert (Hh : hs <> []) by (subst hs; by destruct leaves).
  assert (Hlen : length hs = length leaves) by apply length_map.
  destruct (build_levels_ok (tree_height (length leaves)) (length (pad_leaves hs)) (pad_leaves hs))
    as (above & Eb & Hc & Ha).
  { rewrite pad_leaves_length, Hlen by done. done. }
  { rewrite pad_leaves_length, Hlen by done. apply pow2_fuel. }
  exists above. split; [|done]. unfold merkle_new. fold hs. unfold build_tree.
  destruct hs; [done|]. by rewrite Eb.
Qed.

Lemma merkle_new_total leaves : exists t, merkle_new leaves = Ok t.
Proof.
  destruct leaves as [|x l]; [by eexists|].
  destruct (merkle_new_ok (x :: l)) as (above & E & _); [done|]. eauto.
Qed.

(** ** The root and the walk up *)

Lemma level_chain_root_last l above :
  level_chain l above -> exists r, last (l :: above) = Some [r].
Proof.
  induction 1 as [x|l l' above E L Hc [r IH]]; [by exists x|]. exists r. done.
Qed.

Lemma removelast_cons2 {A} (x y : A) l : removelast (x :: y :: l) = x :: removelast (y :: l).
Proof. done. Qed.

Lemma lxor_1 i : Nat.lxor i 1 = if Nat.even i then i + 1 else i - 1.
Proof.
  destruct (Nat.even i) eqn:E.
  - apply Nat.even_spec in E as [k ->].
    apply Nat.bits_inj. intros j. rewrite Nat.lxor_spec.
    destruct j; [rewrite Nat.testbit_even_0, Nat.testbit_odd_0; done|].
    rewrite Nat.testbit_even_succ, Nat.testbit_odd_succ by lia.
    change 1 with (2 * 0 + 1). rewrite Nat.testbit_odd_succ by lia.
    rewrite Nat.bits_0. by destruct (Nat.testbit k j).
  - assert (Nat.odd i = true) as Ho by (unfold Nat.odd; by rewrite E).
    apply Nat.odd_spec in Ho as [k ->].
    replace (2 * k + 1 - 1) with (2 * k) by lia.
    apply Nat.bits_inj. intros j. rewrite Nat.lxor_spec.
    destruct j; [rewrite Nat.testbit_even_0, Nat.testbit_odd_0; done|].
    rewrite Nat.testbit_even_succ, Nat.testbit_odd_succ by lia.
    change 1 with (2 * 0 + 1). rewrite Nat.testbit_odd_succ by lia.
    rewrite Nat.bits_0. by destruct (Nat.testbit k j).
Qed.

(** The sibling pair of position [i] in a level and its parent. *)
Lemma pair_step l l' i x :
  hash_pairs l = Ok l' -> length l = 2 * length l' -> l !! i = Some x ->
  exists s, l !! (Nat.lxor i 1) = Some s /\
            l' !! (i / 2) = Some (proof_step x (s, Z.of_nat (i mod 2))).
Proof.
  intros E L Hx. pose proof (lookup_lt_Some _ _ _ Hx) as Hi.
  assert (i / 2 < length l') by (apply Nat.Div0.div_lt_upper_bound; lia).
  destruct (hash_pairs_lookup (i / 2) l l' E ltac:(done)) as (a & b & Ea & Eb & Ep & _).
  pose proof (Nat.div_mod_eq i 2) as Hdm. rewrite lxor_1.
  destruct (Nat.even i) eqn:Ev.
  - apply Nat.even_spec in Ev as [k ->].
    assert (2 * k / 2 = k) as Ek by (symmetry; apply (Nat.div_unique _ _ _ 0); lia).
    assert ((2 * k) mod 2 = 0) as Em by (symmetry; apply (Nat.mod_unique _ _ k 0); lia).
    rewrite Ek, Em in *. rewrite Hx in Ea. injection Ea as <-. by exists b.
  - assert (Nat.odd i = true) as Ho by (unfold Nat.odd; by rewrite Ev).
    apply Nat.odd_spec in Ho as [k ->].
    assert ((2 * k + 1) / 2 = k) as Ek by (symmetry; apply (Nat.div_unique _ _ _ 1); lia).
    assert ((2 * k + 1) mod 2 = 1) as Em by (symmetry; apply (Nat.mod_unique _ _ k 1); lia).
    rewrite Ek, Em in *. rewrite Hx in Eb. injection Eb as <-.
    exists a. by replace (2 * k + 1 - 1) with (2 * k) by lia.
Qed.

(** The path from any node of any level recomputes the root. *)
Lemma proof_walk_root l above i x r :
  level_chain l above -> last (l :: above) = Some [r] -> l !! i = Some x ->
  foldl proof_step x (proof_walk (removelast (l :: above)) i) = r.
Proof.
  intros Hc. revert i x. induction Hc as [y|l l' above E L Hc IH]; intros i x Hr Hx.
  - injection Hr as ->. destruct i; [by injection Hx as ->|done].
  - rewrite removelast_cons2. simpl proof_walk.
    destruct (pair_step l l' i x E L Hx) as (s & -> & Hp). simpl foldl.
    by apply IH.
Qed.

Lemma proof_walk_length l above i x :
  level_chain l above -> l !! i = Some x ->
  length (proof_walk (removelast (l :: above)) i) = length above.
Proof.
  intros Hc. revert i x. induction Hc as [y|l l' above E L Hc IH]; intros i x Hx; [done|].
  rewrite removelast_cons2. simpl proof_walk.
  destruct (pair_step l l' i x E L Hx) as (s & -> & Hp). simpl. f_equal. by eapply IH.
Qed.

Lemma proof_walk_index l above i x :
  level_chain l above -> l !! i = Some x ->
  proof_index (proof_walk (removelast (l :: above)) i) = i.
Proof.
  intros Hc. revert i x. induction Hc as [y|l l' above E L Hc IH]; intros i x Hx.
  - destruct i; [done|]. apply lookup_lt_Some in Hx. simpl in Hx. lia.
  - rewrite removelast_cons2. cbn [proof_walk].
    destruct (pair_step l l' i x E L Hx) as (s & -> & Hp). cbn [proof_index].
    rewrite (IH _ _ Hp).
    pose proof (Nat.div_mod_eq i 2) as Hdm. pose proof (Nat.mod_upper_bound i 2 ltac:(lia)).
    destruct (i mod 2) as [|[|?]]; [change (Z.of_nat 0 =? 0)%Z with true|change (Z.of_nat 1 =? 0)%Z with false|]; cbv iota; lia.
Qed.

(** Siblings come from the tree's levels, so they have digest length. *)
Lemma hash_pairs_length32 l l' :
  hash_pairs l = Ok l' -> Forall (fun x => length x = 32) l'.
Proof.
  revert l. induction l' as [|x l' IH]; intros l E; [constructor|].
  apply hash_pairs_cons_inv in E as (a & b & rest & -> & E & ->).
  constructor; [apply sha3_256_length | by eapply IH].
Qed.

(** ** Soundness *)

(** A path of full height that recomputes the root starts at the leaf whose index its
    directions spell. *)
Lemma proof_fold_sound l above proof x r qs :
  level_chain l above -> last (l :: above) = Some [r] ->
  length proof = length above ->
  Forall (fun y => length y = 32) l ->
  Forall (fun s => length s.1 = 32) proof -> length x = 32 ->
  collision_free sha3_256 qs ->
  (forall q, q ∈ proof_queries x proof -> q ∈ qs) ->
  (forall q, q ∈ concat (map pair_inputs (l :: above)) -> q ∈ qs) ->
  foldl proof_step x proof = r ->
  l !! proof_index proof = Some x.
Proof.
  intros Hc. revert proof x.
  induction Hc as [y|l l' above E L Hc IH]; intros proof x Hr Lp Hl Hs Hx Hcf Hq1 Hq2 Hf.
  { destruct proof; [|done]. simpl in *. congruence. }
  destruct proof as [|[s d] proof]; [done|]. simpl in Lp.
  inversion Hs as [|? ? Hs1 Hs2]; subst. simpl in Hs1.
  assert (Hn : l' !! proof_index proof = Some (proof_step x (s, d))).
  { apply IH; try done.
    - lia.
    - by eapply hash_pairs_length32.
    - simpl. destruct (negb _); apply sha3_256_length.
    - intros q Hq. apply Hq1. simpl. by right.
    - intros q Hq. apply Hq2. simpl. apply elem_of_app. by right. }
  destruct (hash_pairs_lookup (proof_index proof) l l' E) as (a & b & Ea & Eb & Ep & Hin).
  { by eapply lookup_lt_Some. }
  rewrite Hn in Ep. injection Ep as Ep.
  assert (La : length a = 32) by (eapply Forall_lookup_1 in Ea; [|exact Hl]; done).
  assert (step_input x (s, d) = a ++ b) as Hin2.
  { apply Hcf.
    - apply Hq1. simpl. by left.
    - apply Hq2. simpl. apply elem_of_app. by left.
    - rewrite <- Ep. simpl. by destruct (negb _). }
  simpl in Hin2. simpl proof_index. destruct (Z.eqb_spec d 0); simpl in Hin2.
  - apply app_inj_1 in Hin2 as [-> ->]; [|lia]. done.
  - apply app_inj_1 in Hin2 as [-> ->]; [|lia].
    rewrite <- Eb. f_equal. lia.
Qed.

Lemma pad_leaves_length32 leaves :
  Forall (fun y => length y = 32) (pad_leaves (map sha3_256 leaves)).
Proof.
  unfold pad_leaves. apply Forall_app_2.
  - apply Forall_fmap, Forall_true. intros. apply sha3_256_length.
  - apply Forall_replicate, sha3_256_length.
Qed.

Lemma verify_proof_digest x proof root :
  length x = 32 -> verify_proof x proof root = bool_decide (foldl proof_step x proof = root).
Proof. intros L. unfold verify_proof. by rewrite L. Qed.

(** A path entry: a digest and a direction bit. *)
Definition step_wf (step : bytes * Z) : Prop :=
  length step.1 = 32 /\ (step.2 = 0 \/ step.2 = 1)%Z.

Lemma proof_walk_wf levels i :
  Forall (Forall (fun y => length y = 32)) levels -> Forall step_wf (proof_walk levels i).
Proof.
  intros Hl. revert i. induction Hl as [|level rest Hlv Hl IH]; intros i; [constructor|].
  cbn [proof_walk]. destruct (level !! Nat.lxor i 1) as [s|] eqn:Es; [|apply IH].
  constructor; [|apply IH]. split; [exact (Forall_lookup_1 _ _ _ _ Hlv Es)|]. cbn [snd].
  pose proof (Nat.mod_upper_bound i 2 ltac:(lia)). lia.
Qed.

Lemma level_chain_length32 l above :
  level_chain l above -> Forall (fun y => length y = 32) l ->
  Forall (Forall (fun y => length y = 32)) (l :: above).
Proof.
  induction 1 as [y|l l' above E L Hc IH]; intros Hl; (constructor; [exact Hl|]); [constructor|].
  apply IH. by eapply hash_pairs_length32.
Qed.

(** What a non-empty tree hands out: a root, and for each leaf a path of full height that
    leads from the leaf's digest to it. *)
Lemma merkle_new_paths leaves :
  leaves <> [] ->
  exists t root, merkle_new leaves = Ok t /\ merkle_root t = Ok (PBytes root) /\
    forall i leaf, leaves !! i = Some leaf ->
      exists proof, get_proof t i = Ok proof /\
        length proof = tree_height (length leaves) /\ proof_index proof = i /\
        foldl proof_step (sha3_256 leaf) proof = root /\ Forall step_wf proof.
Proof.
  intros Hne. destruct (merkle_new_ok leaves) as (above & E & Hc & Ha); [done|].
  destruct (level_chain_root_last _ _ Hc) as [r Hr].
  eexists _, r. split; [exact E|].
  split; [unfold merkle_root; cbn [mt_tree]; by rewrite Hr|].
  intros i leaf Hi. set (hs := pad_leaves (map sha3_256 leaves)) in *.
  pose proof (lookup_lt_Some _ _ _ Hi) as Hlt.
  assert (Hx : hs !! i = Some (sha3_256 leaf)).
  { unfold hs, pad_leaves. rewrite lookup_app_l; [by rewrite lookup_map, Hi|].
    by rewrite length_map. }
  exists (proof_walk (removelast (hs :: above)) i). repeat split.
  - unfold get_proof. cbn [mt_leaves mt_tree]. rewrite length_map.
    by rewrite (proj2 (Nat.leb_gt _ _)).
  - by erewrite proof_walk_length.
  - by eapply proof_walk_index.
  - by eapply proof_walk_root.
  - apply proof_walk_wf. pose proof (level_chain_length32 _ _ Hc (pad_leaves_length32 leaves)) as H32.
    rewrite (List.app_removelast_last [] (l := hs :: above)) in H32 by done.
    by apply Forall_app in H32 as [H32 _].
Qed.

(** A verified path of full height starts at the leaf at its index, or past the leaves at the
    padding. *)
Lemma merkle_path_sound (leaves : list bytes) (t : MerkleTree) (root x : bytes)
    (proof : merkle_proof)
    (Hne : leaves <> [])
    (Ht : merkle_new leaves = Ok t) (Hroot : merkle_root t = Ok (PBytes root))
    (Hx : length x = 32) (Hsib : Forall (fun s => length s.1 = 32) proof)
    (Hlen : length proof = tree_height (length leaves))
    (Hcf : collision_free sha3_256 (proof_queries x proof ++ tree_queries t))
    (Hv : verify_proof x proof root = true) :
  match leaves !! proof_index proof with
  | Some leaf => x = sha3_256 leaf
  | None => x = sha3_256 (b: "pad")
  end.
Proof.
  destruct (merkle_new_ok leaves Hne) as (above & E & Hc & Ha).
  rewrite E in Ht. injection Ht as <-.
  destruct (level_chain_root_last _ _ Hc) as [r Hr].
  unfold merkle_root in Hroot. cbn [mt_tree] in Hroot. rewrite Hr in Hroot. injection Hroot as ->.
  rewrite verify_proof_digest in Hv by done. apply bool_decide_eq_true in Hv.
  pose proof (proof_fold_sound _ _ proof x root _ Hc Hr ltac:(congruence)
                (pad_leaves_length32 leaves) Hsib Hx Hcf) as Hs.
  assert (pad_leaves (map sha3_256 leaves) !! proof_index proof = Some x) as Hl.
  { apply Hs; [intros; apply elem_of_app; by left | intros; apply elem_of_app; by right | done]. }
  unfold pad_leaves in Hl. destruct (leaves !! proof_index proof) as [leaf|] eqn:El.
  - rewrite lookup_app_l in Hl by (rewrite length_map; by eapply lookup_lt_Some).
    rewrite lookup_map, El in Hl. by injection Hl.
  - apply lookup_ge_None in El. rewrite lookup_app_r in Hl by (by rewrite length_map).
    by apply lookup_replicate in Hl as [-> _].
Qed.

End MerkleLemmas.

(** ** Properties *)

Section MerkleProperties.
Context `{Hashlib}.

(** C14. For every non-empty list of leaves the tree is built, has a root, hands out an
    authentication path of the tree's height for each leaf, and that path verifies for the
    leaf's hash; for a leaf that is not itself 32 bytes long it verifies for the raw leaf. *)
Theorem merkle_proof_complete (leaf0 : bytes) (leaves : list bytes) :
  exists t root, merkle_new (leaf0 :: leaves) = Ok t /\ merkle_root t = Ok (PBytes root) /\
    forall i leaf, (leaf0 :: leaves) !! i = Some leaf ->
      exists proof, get_proof t i = Ok proof /\
        length proof = tree_height (S (length leaves)) /\ proof_index proof = i /\
        verify_proof (sha3_256 leaf) proof root = true /\
        (length leaf <> 32 -> verify_proof leaf proof root = true).
Proof.
  destruct (merkle_new_paths (leaf0 :: leaves)) as (t & root & Et & Er & Hp); [done|].
  exists t, root. split; [done|]. split; [done|]. intros i leaf Hi.
  destruct (Hp i leaf Hi) as (proof & E & L & Hidx & Hf & _). exists proof.
  assert (Hv : verify_proof (sha3_256 leaf) proof root = true).
  { rewrite verify_proof_digest by apply sha3_256_length. by apply bool_decide_eq_true. }
  repeat split; try done.
  intros Hne. unfold verify_proof in *. rewrite sha3_256_length in Hv. simpl in Hv.
  rewrite (proj2 (Nat.eqb_neq _ _)); done.
Qed.

(** C21. With no collision among the strings hashed by the tree and by the check, a path of
    the tree's height whose value and siblings are 32 bytes long verifies at the index its
    directions spell only for the hash of the leaf with this index, or, if the index is past
    the leaves, for the hash of the padding. *)
Theorem merkle_proof_sound (leaves : list bytes) (t : MerkleTree) (root x : bytes)
    (proof : merkle_proof)
    (Hne : leaves <> [])
    (Ht : merkle_new leaves = Ok t) (Hroot : merkle_root t = Ok (PBytes root))
    (Hx : length x = 32) (Hsib : Forall (fun s => length s.1 = 32) proof)
    (Hlen : length proof = tree_height (length leaves))
    (Hcf : collision_free sha3_256 (proof_queries x proof ++ tree_queries t))
    (Hv : verify_proof x proof root = true) :
  match leaves !! proof_index proof with
  | Some leaf => x = sha3_256 leaf
  | None => x = sha3_256 (b: "pad")
  end.
Proof. by apply (merkle_path_sound leaves t root). Qed.

End MerkleProperties.

(** ** Concrete runs *)

(** Three leaves padded to four; the path of leaf 2 has the padding as its first sibling. *)
Definition demo_leaves : list bytes := [b: "k0"; b: "k1"; b: "k2"].

Definition demo_tree : MerkleTree :=
  match @merkle_new toy_hashlib demo_leaves with Ok t => t | Err _ => mkMerkleTree [] (Levels []) end.

Lemma merkle_proof_sound_witness :
  match demo_leaves !! 2 with
  | Some leaf => @sha3_256 toy_hashlib (b: "k2") = @sha3_256 toy_hashlib leaf
  | None => False
  end.
Proof.
  apply (@merkle_proof_sound toy_hashlib demo_leaves demo_tree
              (match merkle_root demo_tree with Ok (PBytes r) => r | _ => [] end)
              (@sha3_256 toy_hashlib (b: "k2"))
              (match get_proof demo_tree 2 with Ok p => p | Err _ => [] end)).
  - done.
  - by vm_compute.
  - by vm_compute.
  - by vm_compute.
  - by repeat constructor.
  - by vm_compute.
  - apply collision_free_b_sound. by vm_compute.
  - by vm_compute.
Defined.
