(* ===== verification/ParallelMerkle.v ===== *)
(** * Parallel Merkle roots ([src/src/performance.py], lines 324-420)

    [ParallelMerkleTree] computes the root of a list of leaves by repeated pairing, the last
    node of an odd level being paired with itself; above [MERKLE_BATCH_SIZE] leaves it cuts
    each level into chunks that a thread pool hashes.  The pool's tasks are pure and their
    results are taken in the order of submission, so a chunk is a function call.  Main results:
    the chunked computation gives the root of the sequential one for every number of workers
    ([parallel_root_sequential]); on lists of one length the root binds the leaves
    ([parallel_root_binds]); repeating the last leaf of an odd list leaves the root unchanged
    ([repeated_leaf_same_root]). *)

From stdpp Require Import prelude list strings.
From Stdlib Require Import Strings.Byte ZArith Lia.
From S2P Require Import Prelude.
From S2P Require Import Crypto.
From S2P Require Import Merkle.

Set Default Goal Selector "!".

Definition MERKLE_BATCH_SIZE : Z := 10000.

Record ParallelMerkleTree := mkParallelMerkleTree { pmt_num_workers : nat }.

(** [ThreadPoolExecutor] refuses an empty pool. *)
Definition parallel_tree_new (num_workers : nat) : res ParallelMerkleTree :=
  match num_workers with
  | O => Err (ValueError "max_workers must be greater than 0")
  | _ => Ok (mkParallelMerkleTree num_workers)
  end.

(** ** Definitions *)

Section Roots.
Context `{Hashlib}.

(** [current.append(current[-1])] on an odd level. *)
Definition even_level (current : list bytes) : list bytes :=
  if Nat.odd (length current) then current ++ [List.last current []] else current.

Fixpoint sequential_levels (fuel : nat) (current : list bytes) : res (list bytes) :=
  if length current <=? 1 then Ok current
  else match fuel with
  | O => Err OutOfFuel
  | S fuel => next_level ← hash_pairs (even_level current); sequential_levels fuel next_level
  end.

Definition compute_root_sequential (leaves : list bytes) : res bytes :=
  current ← sequential_levels (length leaves) leaves;
  match current with
  | root :: _ => Ok root
  | [] => Err (IndexError "list index out of range")
  end.

Fixpoint hash_chunk (pairs : list bytes) : list bytes :=
  match pairs with
  | [] => []
  | [a] => [sha3_256 (a ++ a)]
  | a :: b :: pairs => sha3_256 (a ++ b) :: hash_chunk pairs
  end.

(** [range(0, n, step)]. *)
Definition range_step (n step : nat) : list nat := map (fun j => j * step) (seq 0 ((n + step - 1) / step)).

(** [current[i:i + k]] for these [i]. *)
Definition chunks (k : nat) (current : list bytes) : list (list bytes) :=
  map (fun i => take k (drop i current)) (range_step (length current) k).

Definition chunk_size (num_workers n : nat) : nat := 1000 `max` (n / (num_workers * 2)).

Fixpoint parallel_levels (fuel num_workers : nat) (current : list bytes) : res (list bytes) :=
  if length current <=? 1 then Ok current
  else match fuel with
  | O => Err OutOfFuel
  | S fuel =>
      let current := even_level current in
      let k := chunk_size num_workers (length current) in
      parallel_levels fuel num_workers (concat (map hash_chunk (chunks (k * 2) current)))
  end.

Definition compute_root_parallel (t : ParallelMerkleTree) (leaves : list bytes) : res bytes :=
  current ← parallel_levels (length leaves) (pmt_num_workers t) leaves;
  match current with
  | root :: _ => Ok root
  | [] => Ok zero32
  end.

Definition compute_root (t : ParallelMerkleTree) (leaves : list bytes) : res bytes :=
  match leaves with
  | [] => Ok zero32
  | [leaf] => Ok leaf
  | _ =>
      if (Z.of_nat (length leaves) <=? MERKLE_BATCH_SIZE)%Z then compute_root_sequential leaves
      else compute_root_parallel t leaves
  end.

(** ** Levels *)

Lemma even_level_even l : Nat.even (length (even_level l)) = true.
Proof.
  unfold even_level. rewrite <- Nat.negb_even. destruct (Nat.even (length l)) eqn:E; [done|].
  cbn [negb]. rewrite length_app. cbn [length]. by rewrite Nat.add_1_r, Nat.even_succ, <- Nat.negb_even, E.
Qed.

Lemma even_level_length l : length l <= length (even_level l) <= S (length l).
Proof. unfold even_level. case_match; rewrite ?length_app; simpl; lia. Qed.

(** The induction that follows the pairs of a list of even length. *)
Lemma even_ind (P : list bytes -> Prop) :
  P [] -> (forall a b l, P l -> P (a :: b :: l)) -> forall l, Nat.even (length l) = true -> P l.
Proof.
  intros H0 H2. fix IH 1. intros [|a [|b l]] Hl; [done|done|]. apply H2, IH. exact Hl.
Qed.

Lemma hash_pairs_chunk l : Nat.even (length l) = true -> hash_pairs l = Ok (hash_chunk l).
Proof. revert l. apply even_ind; [done|]. intros a b l IH. simpl. by rewrite IH. Qed.

Lemma hash_chunk_length l : Nat.even (length l) = true -> 2 * length (hash_chunk l) = length l.
Proof. revert l. apply even_ind; [done|]. intros a b l IH. simpl in *. lia. Qed.

Lemma hash_chunk_app l l' :
  Nat.even (length l) = true -> hash_chunk (l ++ l') = hash_chunk l ++ hash_chunk l'.
Proof. intros Hl. revert l Hl. apply even_ind; [done|]. intros a b l IH. simpl. by rewrite IH. Qed.

(** One level up: shorter, as long as there are two nodes. *)
Definition level_up (l : list bytes) : list bytes := hash_chunk (even_level l).

Lemma level_up_length l : 1 < length l -> 1 <= length (level_up l) < length l.
Proof.
  intros Hl. pose proof (hash_chunk_length _ (even_level_even l)). pose proof (even_level_length l).
  unfold level_up. lia.
Qed.

(** ** Chunks *)

Lemma chunks_nil k : 0 < k -> chunks k [] = [].
Proof. intros Hk. unfold chunks, range_step. simpl. by rewrite Nat.div_small by lia. Qed.

Lemma chunks_cons k l : 0 < k -> l <> [] -> chunks k l = take k l :: chunks k (drop k l).
Proof.
  intros Hk Hl. unfold chunks, range_step. rewrite length_drop.
  assert (Hn : (length l + k - 1) / k = S ((length l - k + k - 1) / k)).
  { assert (0 < length l) by (destruct l; [done|simpl; lia]).
    replace (length l + k - 1) with (1 * k + (length l - 1)) by lia. rewrite Nat.div_add_l by lia.
    f_equal. destruct (decide (k <= length l)); [f_equal; lia|].
    by rewrite !Nat.div_small by lia. }
  rewrite Hn. cbn [seq map]. f_equal. rewrite <- seq_shift, !map_map. apply map_ext. intros j.
  rewrite drop_drop. by do 2 f_equal.
Qed.

(** Chunks of even size never part a pair. *)
Lemma hash_chunks k l : 0 < k -> concat (map hash_chunk (chunks (k * 2) l)) = hash_chunk l.
Proof.
  intros Hk. remember (length l) as n eqn:Hn. revert l Hn.
  induction n as [n IH] using lt_wf_ind. intros l ->.
  destruct l as [|a l]; [by rewrite chunks_nil by lia|]. set (l0 := a :: l) in *.
  assert (0 < length l0) by (simpl; lia).
  rewrite chunks_cons by (lia || done). cbn [map concat].
  rewrite (IH (length (drop (k * 2) l0))) by (rewrite ?length_drop; done || lia).
  destruct (decide (k * 2 <= length l0)) as [Hle|Hgt].
  - rewrite <- hash_chunk_app, take_drop; [done|]. rewrite length_take_le by done.
    by rewrite Nat.mul_comm, Nat.even_mul.
  - rewrite take_ge, drop_ge by lia. by rewrite app_nil_r.
Qed.

Lemma chunk_size_pos w n : 0 < chunk_size w n.
Proof. unfold chunk_size. lia. Qed.

(** ** The loops *)

(** The level that the loops end with. *)
Fixpoint top (fuel : nat) (l : list bytes) : list bytes :=
  match fuel with
  | O => l
  | S fuel => if length l <=? 1 then l else top fuel (level_up l)
  end.

Lemma top_length fuel l : 1 <= length l -> length l <= S fuel -> length (top fuel l) = 1.
Proof.
  revert l. induction fuel as [|fuel IH]; intros l H1 H2; simpl; [lia|].
  destruct (Nat.leb_spec (length l) 1); [lia|]. pose proof (level_up_length l). apply IH; lia.
Qed.

Lemma sequential_levels_top fuel l : length l <= S fuel -> sequential_levels fuel l = Ok (top fuel l).
Proof.
  revert l. induction fuel as [|fuel IH]; intros l Hl; simpl;
    (destruct (Nat.leb_spec (length l) 1); [done|]); [lia|].
  rewrite hash_pairs_chunk by apply even_level_even. cbn [mbind res_bind].
  pose proof (level_up_length l). apply IH. unfold level_up in *. lia.
Qed.

Lemma parallel_levels_top fuel w l : length l <= S fuel -> parallel_levels fuel w l = Ok (top fuel l).
Proof.
  revert l. induction fuel as [|fuel IH]; intros l Hl; simpl;
    (destruct (Nat.leb_spec (length l) 1); [done|]); [lia|].
  rewrite hash_chunks by apply chunk_size_pos. pose proof (level_up_length l). apply IH.
  unfold level_up in *. lia.
Qed.

(** Both computations end on every list that is not empty. *)
Lemma compute_roots l :
  l <> [] -> exists root, top (length l) l = [root] /\ compute_root_sequential l = Ok root /\
    forall t, compute_root_parallel t l = Ok root.
Proof.
  intros Hl. assert (1 <= length l) by (destruct l; [done|simpl; lia]).
  pose proof (top_length (length l) l ltac:(lia) ltac:(lia)) as Ht.
  destruct (top (length l) l) as [|root [|]] eqn:E; [done| |done]. exists root. split; [done|].
  unfold compute_root_sequential, compute_root_parallel.
  rewrite sequential_levels_top, E by lia. split; [done|]. intros t.
  by rewrite parallel_levels_top, E by lia.
Qed.

Lemma top_fuel n m l : length l <= S n -> n <= m -> top m l = top n l.
Proof.
  revert m l. induction n as [|n IH]; intros m l Hl Hm.
  - destruct m as [|m]; [done|]. simpl. by rewrite (proj2 (Nat.leb_le (length l) 1) Hl).
  - destruct m as [|m]; [lia|]. simpl. destruct (Nat.leb_spec (length l) 1); [done|].
    pose proof (level_up_length l). apply IH; lia.
Qed.

(** ** Injectivity *)

Lemma even_level_inj l1 l2 : length l1 = length l2 -> even_level l1 = even_level l2 -> l1 = l2.
Proof.
  intros Hl. unfold even_level. rewrite <- Hl. case_match; [|done]. intros E.
  by apply app_inj_1 in E as [-> _]; [|done].
Qed.

Lemma even_level_32 l : Forall (fun x => length x = 32) l -> Forall (fun x => length x = 32) (even_level l).
Proof.
  intros Hl. unfold even_level. case_match eqn:Ho; [|done]. apply Forall_app. split; [done|].
  constructor; [|done]. destruct l as [|a l] using rev_ind; [done|]. rewrite last_last.
  by apply Forall_app in Hl as [_ Hl%Forall_inv].
Qed.

Lemma hash_chunk_32 l : Forall (fun x => length x = 32) (hash_chunk l).
Proof.
  assert (Hn : forall n l, length l <= n -> Forall (fun x => length x = 32) (hash_chunk l)); [|by eapply Hn].
  induction n as [|n IH]; intros [|a [|b l']] Hn; simpl in *; try constructor; try apply hashlib_sha3_256_length;
    try constructor; try lia. apply IH. lia.
Qed.

(** The strings that the computation hashes. *)
Fixpoint pair_inputs (pairs : list bytes) : list bytes :=
  match pairs with a :: b :: pairs => (a ++ b) :: pair_inputs pairs | _ => [] end.

Fixpoint root_inputs (fuel : nat) (l : list bytes) : list bytes :=
  match fuel with
  | O => []
  | S fuel =>
      if length l <=? 1 then []
      else pair_inputs (even_level l) ++ root_inputs fuel (level_up l)
  end.

Lemma collision_free_sub f qs qs' : (forall x, x ∈ qs' -> x ∈ qs) -> collision_free f qs -> collision_free f qs'.
Proof. intros Hsub Hcf x y Hx Hy. apply Hcf; by apply Hsub. Qed.

Lemma hash_chunk_inj l1 l2 :
  Nat.even (length l1) = true -> length l1 = length l2 ->
  Forall (fun x => length x = 32) l1 -> Forall (fun x => length x = 32) l2 ->
  collision_free sha3_256 (pair_inputs l1 ++ pair_inputs l2) -> hash_chunk l1 = hash_chunk l2 -> l1 = l2.
Proof.
  intros He. revert l2. pattern l1. revert l1 He. apply even_ind; [by intros []|].
  intros a b l1 IH [|a' [|b' l2]] Hl H1 H2 Hcf E; try done. cbn [pair_inputs hash_chunk] in *.
  injection E as E0 E. apply Forall_cons in H1 as [Ha [Hb H1]%Forall_cons].
  apply Forall_cons in H2 as [Ha' [Hb' H2]%Forall_cons].
  assert (Eab : a ++ b = a' ++ b') by (apply Hcf; [set_solver..|done]).
  apply app_inj_1 in Eab as [-> ->]; [|congruence].
  rewrite (IH l2); [done|by injection Hl|done|done| |done].
  eapply collision_free_sub; [|exact Hcf]. set_solver.
Qed.

Lemma top_inj fuel l1 l2 :
  length l1 = length l2 ->
  Forall (fun x => length x = 32) l1 -> Forall (fun x => length x = 32) l2 ->
  collision_free sha3_256 (root_inputs fuel l1 ++ root_inputs fuel l2) ->
  top fuel l1 = top fuel l2 -> l1 = l2.
Proof.
  revert l1 l2. induction fuel as [|fuel IH]; intros l1 l2 Hl H1 H2 Hcf E; [done|]. simpl in *.
  rewrite <- Hl in E, Hcf. destruct (Nat.leb_spec (length l1) 1); [done|].
  assert (He : length (even_level l1) = length (even_level l2)).
  { unfold even_level. rewrite <- Hl. case_match; rewrite ?length_app; simpl; lia. }
  apply even_level_inj; [done|]. apply hash_chunk_inj.
  - apply even_level_even.
  - done.
  - by apply even_level_32.
  - by apply even_level_32.
  - eapply collision_free_sub; [|exact Hcf]. set_solver.
  - apply IH.
    + unfold level_up. pose proof (hash_chunk_length _ (even_level_even l1)).
      pose proof (hash_chunk_length _ (even_level_even l2)). lia.
    + apply hash_chunk_32.
    + apply hash_chunk_32.
    + eapply collision_free_sub; [|exact Hcf]. set_solver.
    + done.
Qed.

(** What [compute_root] returns, whichever way it computes it. *)
Definition root_of (l : list bytes) : bytes := List.hd zero32 (top (length l) l).

Lemma compute_root_of t l : compute_root t l = Ok (root_of l).
Proof.
  destruct l as [|a [|b l]]; [done|done|]. set (l0 := a :: b :: l).
  destruct (compute_roots l0 ltac:(done)) as (root & E & Es & Ep). unfold compute_root, root_of.
  change (match l0 with [] => Ok zero32 | [leaf] => Ok leaf | _ => _ end) with
    (if (Z.of_nat (length l0) <=? MERKLE_BATCH_SIZE)%Z then compute_root_sequential l0 else compute_root_parallel t l0).
  rewrite E, Es, Ep. by case_match.
Qed.

(** ** Theorems *)

(** C19. Chunking changes nothing.  For every number of workers the chunked computation of the root
    of a non-empty list ends and gives the root that the sequential loop gives, and
    [compute_root] gives that root whichever of the two it chooses. *)
Theorem parallel_root_sequential (t : ParallelMerkleTree) (leaves : list bytes) (Hl : leaves <> []) :
  exists root, compute_root_sequential leaves = Ok root /\ compute_root_parallel t leaves = Ok root /\
    compute_root t leaves = Ok root.
Proof.
  destruct (compute_roots leaves Hl) as (root & E & Es & Ep). exists root. split; [done|].
  split; [done|]. rewrite compute_root_of. unfold root_of. by rewrite E.
Qed.

(** A repeated leaf goes unnoticed.  The last leaf of a list of odd length, three at least, may
    be repeated without changing the root. *)
Theorem repeated_leaf_same_root (t : ParallelMerkleTree) (leaves : list bytes) (leaf : bytes)
    (Hl : leaves <> []) (Heven : Nat.even (length leaves) = true) :
  compute_root t (leaves ++ [leaf]) = compute_root t (leaves ++ [leaf; leaf]).
Proof.
  rewrite !compute_root_of. f_equal. unfold root_of. f_equal.
  assert (H1 : 1 <= length leaves) by (destruct leaves; [done|simpl; lia]).
  assert (Ho : Nat.even (length (leaves ++ [leaf])) = false).
  { rewrite length_app. cbn [length]. by rewrite Nat.add_1_r, Nat.even_succ, <- Nat.negb_even, Heven. }
  assert (E : level_up (leaves ++ [leaf; leaf]) = level_up (leaves ++ [leaf])).
  { unfold level_up. f_equal. unfold even_level at 1.
    rewrite <- Nat.negb_even, length_app, Nat.even_add, Heven. cbn [length Nat.even negb eqb].
    unfold even_level. rewrite <- Nat.negb_even, Ho. cbn [negb].
    cbn. by rewrite last_last, <- app_assoc. }
  assert (Hlen : forall l, length (leaves ++ l) = length leaves + length l) by (intros; apply length_app).
  assert (Hstep : forall l, l <> [] -> top (length (leaves ++ l)) (leaves ++ l) =
    top (length leaves + length l - 1) (level_up (leaves ++ l))).
  { intros [|y l] Hy; [done|]. rewrite Hlen. cbn [length]. rewrite Nat.add_succ_r. cbn [top].
    rewrite Hlen. cbn [length]. destruct (Nat.leb_spec (length leaves + S (length l)) 1); [lia|].
    f_equal. lia. }
  rewrite !Hstep, E by done. pose proof (level_up_length (leaves ++ [leaf])) as Hup.
  rewrite Hlen in Hup. cbn [length] in *. symmetry. apply top_fuel; lia.
Qed.

(** The root binds the leaves.  Two lists of the same number of 32-byte leaves with the same root
    are equal, unless SHA3-256 collides on strings that the two computations hash. *)
Theorem parallel_root_binds (t : ParallelMerkleTree) (l1 l2 : list bytes) (root : bytes)
    (Hlen : length l1 = length l2)
    (H32 : Forall (fun x => length x = 32) (l1 ++ l2))
    (Hcf : collision_free sha3_256 (root_inputs (length l1) l1 ++ root_inputs (length l2) l2))
    (Hr1 : compute_root t l1 = Ok root) (Hr2 : compute_root t l2 = Ok root) :
  l1 = l2.
Proof.
  rewrite compute_root_of in Hr1, Hr2. apply Forall_app in H32 as [H1 H2].
  destruct l1 as [|a1 l1]; [by destruct l2|]. destruct l2 as [|a2 l2]; [done|].
  destruct (compute_roots (a1 :: l1) ltac:(done)) as (r1 & E1 & _).
  destruct (compute_roots (a2 :: l2) ltac:(done)) as (r2 & E2 & _).
  unfold root_of in Hr1, Hr2. rewrite E1 in Hr1. rewrite E2 in Hr2. injection Hr1 as ->. injection Hr2 as ->.
  rewrite <- Hlen in E2, Hcf. by apply (top_inj (length (a1 :: l1))); [..|congruence].
Qed.

End Roots.

(** ** Sample runs *)

Definition sample_leaves : list bytes := map (fun b => replicate 32 b) [Byte.x01; Byte.x02; Byte.x03].

Lemma parallel_root_sequential_witness :
  exists root, compute_root_sequential (H := toy_hashlib) sample_leaves = Ok root /\
    compute_root_parallel (H := toy_hashlib) (mkParallelMerkleTree 4) sample_leaves = Ok root /\
    compute_root (H := toy_hashlib) (mkParallelMerkleTree 4) sample_leaves = Ok root.
Proof. apply (@parallel_root_sequential toy_hashlib (mkParallelMerkleTree 4) sample_leaves). discriminate. Defined.

Lemma repeated_leaf_same_root_witness :
  compute_root (H := toy_hashlib) (mkParallelMerkleTree 4) ([replicate 32 Byte.x01; replicate 32 Byte.x02] ++ [replicate 32 Byte.x03]) =
  compute_root (H := toy_hashlib) (mkParallelMerkleTree 4)
    ([replicate 32 Byte.x01; replicate 32 Byte.x02] ++ [replicate 32 Byte.x03; replicate 32 Byte.x03]).
Proof. apply (@repeated_leaf_same_root toy_hashlib); [discriminate|reflexivity]. Defined.

Lemma parallel_root_binds_witness :
  exists root, compute_root (H := toy_hashlib) (mkParallelMerkleTree 4) sample_leaves = Ok root /\
    sample_leaves = map (fun b => replicate 32 b) [Byte.x01; Byte.x02; Byte.x03].
Proof.
  eexists. split; [vm_compute; reflexivity|].
  apply (@parallel_root_binds toy_hashlib (mkParallelMerkleTree 4) _ _
    (root_of (H := toy_hashlib) sample_leaves)).
  - reflexivity.
  - repeat constructor.
  - apply collision_free_b_sound. vm_compute. reflexivity.
  - vm_compute. reflexivity.
  - vm_compute. reflexivity.
Defined.

(** Many workers: four levels, in chunks. *)
Example parallel_root_runs :
  exists root, parallel_levels (H := toy_hashlib) 5 1 (map (fun n => be_encode 32 (Z.of_nat n)) (seq 0 11)) = Ok [root].
Proof. eexists. vm_compute. reflexivity. Qed.
