(* ===== verification/TemporalAuth.v ===== *)
(** * Temporal keys and authentication trees ([src/src/crypto.py])

    [TemporalKey] is the per-epoch validator key, [TemporalAuthTree] the batch of 1024 WOTS+
    keys under one Merkle root.  An operation that can raise after it has changed the object
    returns the new object next to its result.  Main results: the exact behaviour of every
    sequence of calls on a fresh tree ([auth_run_spec]), and no one-time key is ever used
    twice ([auth_run_no_reuse]). *)

From stdpp Require Import prelude list strings.
From Stdlib Require Import Strings.Byte ZArith Lia.
From S2P Require Import Prelude.
From S2P Require Import PyFloat.
From S2P Require Import Crypto.
From S2P Require Import Wots.
From S2P Require Import Merkle.

Set Default Goal Selector "!".

Definition TOTAL_KEYS_PER_BATCH : nat := 1024.
Definition RESERVED_ROTATION : nat := 2.
Definition USABLE_KEYS : nat := TOTAL_KEYS_PER_BATCH - RESERVED_ROTATION.

(** ** Temporal keys *)

Record TemporalKey := mkTemporalKey {
  tk_current_key : bytes;
  tk_epoch : Z;
  tk_address : bytes;
}.

Section TemporalKey.
Context `{Hashlib}.

(** [TemporalKey.create(seed)]; without a seed the code draws 64 random bytes and goes on in
    the same way. *)
Definition create (seed : bytes) : res TemporalKey :=
  i ← py_concat [PBytes (b: "address_inner"); PBytes seed];
  let inner := sha3_512 i in
  o ← py_concat [PBytes (b: "address_outer"); PBytes inner];
  Ok (mkTemporalKey seed 0 (sha3_512 o)).

Definition evolve (k : TemporalKey) (epoch_entropy : bytes) : res TemporalKey :=
  d ← py_concat [PBytes (tk_current_key k); PBytes epoch_entropy];
  Ok (mkTemporalKey (sha3_512 d) (tk_epoch k + 1) (tk_address k)).

Definition get_signing_keypair (k : TemporalKey) : res (bytes * bytes) :=
  keygen (tk_current_key k).

(** The wipe hits the buffer that [current_key] refers to. *)
Definition destroy_previous (k : TemporalKey) : TemporalKey :=
  mkTemporalKey (secure_wipe (tk_current_key k)) (tk_epoch k) (tk_address k).

(** ** Batch seeds *)

Definition derive_initial_batch_seed (master_seed : bytes) : res bytes :=
  d ← py_concat [PBytes (b: "batch_initial"); PBytes master_seed]; Ok (sha3_512 d).

Definition derive_next_batch_seed (current_batch_seed : bytes) : res bytes :=
  d ← py_concat [PBytes (b: "batch_next"); PBytes current_batch_seed]; Ok (sha3_512 d).

End TemporalKey.

(** ** The authentication tree *)

(** [_auth_tree] is [None] after [destroy]. *)
Record TemporalAuthTree := mkTemporalAuthTree {
  ta_batch_seed : bytes;
  ta_key_index : nat;
  ta_rotation_index : nat;
  ta_auth_tree : option MerkleTree;
}.

(** What [sign] and [sign_rotation] return. *)
Record auth_sig := mkAuthSig {
  as_signature : bytes;
  as_public_key : bytes;
  as_proof : merkle_proof;
  as_key_index : nat;
}.

Section TemporalAuthTree.
Context `{Hashlib}.

Definition derive_key_seed (batch_seed : bytes) (index : nat) : res bytes :=
  d ← py_concat [PBytes (b: "key_seed"); PBytes batch_seed; PInt (Z.of_nat index)];
  Ok (sha3_512 d).

(** [TemporalAuthTree(batch_seed)]. *)
Definition temporal_auth_new (batch_seed : bytes) : res TemporalAuthTree :=
  pub_keys ← res_map (fun i =>
      key_seed ← derive_key_seed batch_seed i;
      '(_, pub) ← keygen key_seed;
      Ok pub) (seq 0 TOTAL_KEYS_PER_BATCH);
  tree ← merkle_new pub_keys;
  Ok (mkTemporalAuthTree batch_seed 0 0 (Some tree)).

Definition auth_root (t : TemporalAuthTree) : res pyarg :=
  match ta_auth_tree t with
  | Some tree => merkle_root tree
  | None => Err AttributeError
  end.

Definition remaining_keys (t : TemporalAuthTree) : Z :=
  (Z.of_nat USABLE_KEYS - Z.of_nat (ta_key_index t))%Z.

Definition remaining_rotation_keys (t : TemporalAuthTree) : Z :=
  (Z.of_nat RESERVED_ROTATION - Z.of_nat (ta_rotation_index t))%Z.

(** The common body of the two signing methods once the index is taken. *)
Definition sign_with_index (t : TemporalAuthTree) (message : bytes) (idx : nat)
    : res auth_sig :=
  key_seed ← derive_key_seed (ta_batch_seed t) idx;
  '(priv, pub) ← keygen key_seed;
  let signature := wots_sign message priv in
  proof ← match ta_auth_tree t with
          | Some tree => get_proof tree idx
          | None => Err AttributeError
          end;
  Ok (mkAuthSig signature pub proof idx).

Definition sign (t : TemporalAuthTree) (message : bytes) : TemporalAuthTree * res auth_sig :=
  if USABLE_KEYS <=? ta_key_index t then
    (t, Err (ValueError "All usable keys exhausted. Must rotate batch before signing."))
  else
    let idx := ta_key_index t in
    let t := mkTemporalAuthTree (ta_batch_seed t) (ta_key_index t + 1)
               (ta_rotation_index t) (ta_auth_tree t) in
    (t, sign_with_index t message idx).

Definition sign_rotation (t : TemporalAuthTree) (message : bytes)
    : TemporalAuthTree * res auth_sig :=
  if RESERVED_ROTATION <=? ta_rotation_index t then
    (t, Err (ValueError "All rotation keys exhausted for this batch."))
  else
    let idx := USABLE_KEYS + ta_rotation_index t in
    let t := mkTemporalAuthTree (ta_batch_seed t) (ta_key_index t)
               (ta_rotation_index t + 1) (ta_auth_tree t) in
    (t, sign_with_index t message idx).

(** The static check used by validators. *)
Definition verify_against_root (message signature public_key : bytes) (proof : merkle_proof)
    (root : bytes) : bool :=
  if negb (wots_verify message signature public_key) then false
  else verify_proof (sha3_256 public_key) proof root.

(** [key_index] is accepted and ignored; comparing with the [int] root of an empty tree is
    [False]. *)
Definition verify_auth (t : TemporalAuthTree) (message signature public_key : bytes)
    (proof : merkle_proof) (key_index : Z) : res bool :=
  if negb (wots_verify message signature public_key) then Ok false
  else
    root ← auth_root t;
    Ok (match root with
        | PBytes root => verify_proof (sha3_256 public_key) proof root
        | _ => false
        end).

Definition destroy (t : TemporalAuthTree) : TemporalAuthTree :=
  mkTemporalAuthTree
    (match ta_batch_seed t with [] => [] | _ => replicate 64 Byte.x00 end)
    (ta_key_index t) (ta_rotation_index t) None.

(** ** Sequences of calls *)

Inductive auth_op :=
  | OpSign (message : bytes)
  | OpSignRotation (message : bytes)
  | OpDestroy.

(** The observable result of a call: [destroy] returns nothing. *)
Definition auth_step (t : TemporalAuthTree) (op : auth_op)
    : TemporalAuthTree * option (res auth_sig) :=
  match op with
  | OpSign m => let '(t, r) := sign t m in (t, Some r)
  | OpSignRotation m => let '(t, r) := sign_rotation t m in (t, Some r)
  | OpDestroy => (destroy t, None)
  end.

Fixpoint auth_run (t : TemporalAuthTree) (ops : list auth_op)
    : TemporalAuthTree * list (option (res auth_sig)) :=
  match ops with
  | [] => (t, [])
  | op :: ops =>
      let '(t, r) := auth_step t op in
      let '(t, rs) := auth_run t ops in (t, r :: rs)
  end.

End TemporalAuthTree.

(** ** What a fresh tree signs *)

Section TemporalAuthLemmas.
Context `{Hashlib}.

(** The seed and the public key of the [i]-th key of a batch, in closed form. *)
Definition key_seed (batch_seed : bytes) (i : nat) : bytes :=
  sha3_512 (b: "key_seed" ++ batch_seed ++ be_encode 8 (Z.of_nat i)).

Definition key_pub (batch_seed : bytes) (i : nat) : bytes := wots_pk (key_seed batch_seed i).

Lemma derive_key_seed_ok batch_seed i :
  i < TOTAL_KEYS_PER_BATCH -> derive_key_seed batch_seed i = Ok (key_seed batch_seed i).
Proof.
  intros Hi. unfold derive_key_seed, key_seed, TOTAL_KEYS_PER_BATCH in *.
  rewrite !py_concat_cons, concat_arg_int by lia. cbn -[be_encode]. by rewrite app_nil_r.
Qed.

(** The sizes of a signature, its key and its path. *)
Definition sig_wf (s : auth_sig) : Prop :=
  length (as_signature s) = 2144 /\ length (as_public_key s) = 2144 /\
  length (as_proof s) = 10 /\ Forall step_wf (as_proof s) /\
  as_key_index s < TOTAL_KEYS_PER_BATCH.

(** The fresh tree commits to the 1024 public keys; signing at any index below 1024 gives a
    signature that verifies against its root. *)
Lemma temporal_auth_new_ok batch_seed :
  exists tree root,
    temporal_auth_new batch_seed = Ok (mkTemporalAuthTree batch_seed 0 0 (Some tree)) /\
    merkle_root tree = Ok (PBytes root) /\
    forall k r m i, i < TOTAL_KEYS_PER_BATCH ->
      exists s, sign_with_index (mkTemporalAuthTree batch_seed k r (Some tree)) m i = Ok s /\
        as_key_index s = i /\ as_public_key s = key_pub batch_seed i /\
        verify_against_root m (as_signature s) (as_public_key s) (as_proof s) root = true /\
        sig_wf s.
Proof.
  set (pubs := map (key_pub batch_seed) (seq 0 TOTAL_KEYS_PER_BATCH)).
  assert (Hne : pubs <> []) by (unfold pubs, TOTAL_KEYS_PER_BATCH; by destruct (seq 0 _) eqn:?).
  destruct (merkle_new_paths pubs Hne) as (tree & root & Et & Er & Hp).
  exists tree, root. split; [|split; [done|]].
  - unfold temporal_auth_new. rewrite (res_map_total _ (key_pub batch_seed)).
    + unfold mbind at 1, res_bind at 1. fold pubs. by rewrite Et.
    + intros i Hi%elem_of_seq. rewrite derive_key_seed_ok by lia.
      unfold mbind at 1, res_bind at 1. by rewrite keygen_spec.
  - intros k r m i Hi. destruct (Hp i (key_pub batch_seed i)) as (proof & Eg & Hlen & _ & Hf & Hwf).
    { unfold pubs. rewrite lookup_map, (lookup_seq_lt 0 _ i) by done. done. }
    unfold sign_with_index. cbn [ta_batch_seed ta_auth_tree].
    rewrite derive_key_seed_ok by done. unfold mbind, res_bind.
    rewrite keygen_spec, Eg. eexists. split; [reflexivity|].
    unfold sig_wf. cbn [as_key_index as_public_key as_signature as_proof].
    destruct (keygen_length (key_seed batch_seed i) _ _ (keygen_spec _)) as [Hsk Hpk].
    split; [reflexivity|]. split; [reflexivity|]. split.
    2:{ split; [by apply wots_sign_length|]. split; [exact Hpk|]. split; [|by split].
        rewrite Hlen. unfold pubs. by rewrite length_map, length_seq. }
    unfold verify_against_root. rewrite (wots_correct _ (key_seed batch_seed i)).
    + simpl. rewrite verify_proof_digest by apply sha3_256_length.
      by apply bool_decide_eq_true.
    + apply keygen_spec.
Qed.

(** Without its Merkle tree the object signs nothing. *)
Lemma sign_with_index_destroyed bs k r m i :
  i < TOTAL_KEYS_PER_BATCH ->
  sign_with_index (mkTemporalAuthTree bs k r None) m i = Err AttributeError.
Proof.
  intros Hi. unfold sign_with_index. cbn [ta_batch_seed ta_auth_tree].
  rewrite derive_key_seed_ok by done. unfold mbind, res_bind. by rewrite keygen_spec.
Qed.

Lemma sign_with_index_key t m i s : sign_with_index t m i = Ok s -> as_key_index s = i.
Proof.
  unfold sign_with_index, mbind, res_bind. intros Hs.
  destruct (derive_key_seed _ _) as [ks|]; [|done]. rewrite keygen_spec in Hs.
  destruct (match ta_auth_tree t with Some _ => _ | None => _ end); [|done].
  by injection Hs as <-.
Qed.

(** ** Runs *)

Definition is_sign (op : auth_op) : bool := match op with OpSign _ => true | _ => false end.

Definition is_rotation (op : auth_op) : bool :=
  match op with OpSignRotation _ => true | _ => false end.

Definition is_destroy (op : auth_op) : bool := match op with OpDestroy => true | _ => false end.

Definition count_signs (ops : list auth_op) : nat := length (List.filter is_sign ops).

Definition count_rotations (ops : list auth_op) : nat := length (List.filter is_rotation ops).

Definition destroyed (ops : list auth_op) : bool := existsb is_destroy ops.

Lemma auth_run_app t ops1 ops2 :
  auth_run t (ops1 ++ ops2) =
  let '(t1, r1) := auth_run t ops1 in
  let '(t2, r2) := auth_run t1 ops2 in (t2, r1 ++ r2).
Proof.
  revert t. induction ops1 as [|op ops1 IH]; intros t; simpl.
  - by destruct (auth_run t ops2).
  - destruct (auth_step t op) as [t' r]. rewrite IH.
    destruct (auth_run t' ops1) as [t1 r1]. by destruct (auth_run t1 ops2).
Qed.

Lemma auth_run_length t ops : length (auth_run t ops).2 = length ops.
Proof.
  revert t. induction ops as [|op ops IH]; intros t; simpl; [done|].
  destruct (auth_step t op) as [t' r]. specialize (IH t').
  destruct (auth_run t' ops). simpl in *. lia.
Qed.

(** The result of the call after a prefix. *)
Lemma auth_run_lookup t pre op post :
  (auth_run t (pre ++ op :: post)).2 !! length pre =
  Some (auth_step (auth_run t pre).1 op).2.
Proof.
  rewrite auth_run_app. pose proof (auth_run_length t pre) as L.
  destruct (auth_run t pre) as [t1 r1]. simpl in L |- *.
  destruct (auth_step t1 op) as [t2 r] eqn:E. destruct (auth_run t2 post) as [t3 rs]. simpl.
  by rewrite <- L, list_lookup_middle.
Qed.

(** The state after any sequence of calls: counters stop at the limits, the tree is lost at
    the first [destroy]. *)
Lemma auth_run_state bs tree ops :
  exists bs', (auth_run (mkTemporalAuthTree bs 0 0 (Some tree)) ops).1 =
    mkTemporalAuthTree bs' (count_signs ops `min` USABLE_KEYS)
      (count_rotations ops `min` RESERVED_ROTATION)
      (if destroyed ops then None else Some tree) /\
    (destroyed ops = false -> bs' = bs).
Proof.
  induction ops as [|op ops IH] using rev_ind; [by exists bs|].
  destruct IH as (bs' & E & Hbs). rewrite auth_run_app.
  destruct (auth_run _ ops) as [t1 r1]. simpl in E. subst t1.
  unfold count_signs, count_rotations, destroyed in *.
  rewrite !List.filter_app, !length_app, existsb_app.
  set (c := length (List.filter is_sign ops)) in *.
  set (d := length (List.filter is_rotation ops)) in *.
  destruct op as [m|m|]; cbn -[USABLE_KEYS RESERVED_ROTATION Nat.min Nat.leb].
  - unfold sign. cbn [ta_key_index ta_batch_seed ta_rotation_index ta_auth_tree].
    rewrite orb_false_r. exists bs'. split; [|done].
    destruct (Nat.leb_spec USABLE_KEYS (c `min` USABLE_KEYS)); cbn [fst]; f_equal; lia.
  - unfold sign_rotation. cbn [ta_key_index ta_batch_seed ta_rotation_index ta_auth_tree].
    rewrite orb_false_r. exists bs'. split; [|done].
    destruct (Nat.leb_spec RESERVED_ROTATION (d `min` RESERVED_ROTATION)); cbn [fst]; f_equal; lia.
  - rewrite orb_true_r. unfold destroy. cbn [fst].
    eexists. split; [f_equal; cbn [ta_key_index ta_rotation_index]; lia | done].
Qed.

(** The key indices of the signatures that a run returned. *)
Definition used_keys (rs : list (option (res auth_sig))) : list nat :=
  omap (fun r => match r with Some (Ok s) => Some (as_key_index s) | _ => None end) rs.

Lemma auth_step_keys t op :
  let '(t', r) := auth_step t op in
  ta_key_index t <= ta_key_index t' /\ ta_rotation_index t <= ta_rotation_index t' /\
  forall s, r = Some (Ok s) ->
    (as_key_index s = ta_key_index t /\ ta_key_index t < USABLE_KEYS /\
       ta_key_index t < ta_key_index t') \/
    (as_key_index s = USABLE_KEYS + ta_rotation_index t /\
       ta_rotation_index t < RESERVED_ROTATION /\ ta_rotation_index t < ta_rotation_index t').
Proof.
  destruct op as [m|m|]; simpl.
  - unfold sign. destruct (Nat.leb_spec USABLE_KEYS (ta_key_index t)); [done|].
    cbn [ta_key_index ta_rotation_index].
    split; [lia|]. split; [lia|]. intros s [= E]. apply sign_with_index_key in E. left. lia.
  - unfold sign_rotation.
    destruct (Nat.leb_spec RESERVED_ROTATION (ta_rotation_index t)); [done|].
    cbn [ta_key_index ta_rotation_index].
    split; [lia|]. split; [lia|]. intros s [= E]. apply sign_with_index_key in E. right. lia.
  - done.
Qed.

Lemma auth_run_keys t ops :
  NoDup (used_keys (auth_run t ops).2) /\
  forall i, i ∈ used_keys (auth_run t ops).2 ->
    ta_key_index t <= i < USABLE_KEYS \/
    USABLE_KEYS + ta_rotation_index t <= i < TOTAL_KEYS_PER_BATCH.
Proof.
  assert (HT : TOTAL_KEYS_PER_BATCH = USABLE_KEYS + RESERVED_ROTATION) by done.
  revert t. induction ops as [|op ops IH]; intros t.
  { split; [constructor|]. simpl. by intros i ?%not_elem_of_nil. }
  cbn [auth_run]. pose proof (auth_step_keys t op) as Hs.
  destruct (auth_step t op) as [t' r]. destruct Hs as (Hk & Hr & Hs).
  specialize (IH t') as [IH1 IH2]. destruct (auth_run t' ops) as [t'' rs]. simpl snd in *.
  unfold used_keys in *. cbn [omap list_omap].
  destruct r as [[s|e]|]; cbv beta iota.
  - specialize (Hs s eq_refl). split.
    + apply NoDup_cons. split; [|done]. intros Hin%IH2. lia.
    + intros i [->|Hi%IH2]%elem_of_cons; lia.
  - split; [done|]. intros i Hi%IH2. lia.
  - split; [done|]. intros i Hi%IH2. lia.
Qed.

End TemporalAuthLemmas.

(** ** Properties *)

Section TemporalAuthProperties.
Context `{Hashlib}.

(** C6. A batch tree can always be built and has a root; after any sequence of calls, the next
    [sign] returns the signature of key number "earlier [sign] calls", the next
    [sign_rotation] that of key 1022 plus "earlier rotations", each with a proof that verifies
    against the root; past the limits they raise [ValueError], and after [destroy] they sign
    nothing. *)
Theorem auth_run_spec (batch_seed : bytes) :
  exists t root, temporal_auth_new batch_seed = Ok t /\ auth_root t = Ok (PBytes root) /\
  forall pre op post,
    let r := (auth_run t (pre ++ op :: post)).2 !! length pre in
    let signed m idx := exists s, r = Some (Some (Ok s)) /\ as_key_index s = idx /\
      as_public_key s = key_pub batch_seed idx /\
      verify_against_root m (as_signature s) (as_public_key s) (as_proof s) root = true in
    match op with
    | OpSign m =>
        if 1022 <=? count_signs pre then
          r = Some (Some (Err (ValueError
            "All usable keys exhausted. Must rotate batch before signing.")))
        else if destroyed pre then r = Some (Some (Err AttributeError))
        else signed m (count_signs pre)
    | OpSignRotation m =>
        if 2 <=? count_rotations pre then
          r = Some (Some (Err (ValueError "All rotation keys exhausted for this batch.")))
        else if destroyed pre then r = Some (Some (Err AttributeError))
        else signed m (1022 + count_rotations pre)
    | OpDestroy => r = Some None
    end.
Proof.
  destruct (temporal_auth_new_ok batch_seed) as (tree & root & Et & Er & Hs).
  exists (mkTemporalAuthTree batch_seed 0 0 (Some tree)), root.
  split; [done|]. split; [done|]. intros pre op post. rewrite auth_run_lookup.
  destruct (auth_run_state batch_seed tree pre) as (bs' & -> & Hbs).
  change 1022 with USABLE_KEYS. change 2 with RESERVED_ROTATION.
  assert (HT : TOTAL_KEYS_PER_BATCH = USABLE_KEYS + RESERVED_ROTATION) by done.
  destruct op as [m|m|]; cbn [auth_step]; [| |done].
  - unfold sign. cbn [ta_key_index ta_batch_seed ta_rotation_index ta_auth_tree].
    destruct (Nat.leb_spec USABLE_KEYS (count_signs pre));
      destruct (Nat.leb_spec USABLE_KEYS (count_signs pre `min` USABLE_KEYS)); try lia; [done|].
    rewrite Nat.min_l by lia. destruct (destroyed pre) eqn:Ed; cbn [snd].
    + by rewrite sign_with_index_destroyed by lia.
    + rewrite Hbs by done. destruct (Hs (count_signs pre + 1)
        (count_rotations pre `min` RESERVED_ROTATION) m (count_signs pre)) as (s & -> & Hidx & Hpk & Hver & _); [lia|].
      exists s. split; [reflexivity|]. split; [exact Hidx|]. split; [exact Hpk|exact Hver].
  - unfold sign_rotation. cbn [ta_key_index ta_batch_seed ta_rotation_index ta_auth_tree].
    destruct (Nat.leb_spec RESERVED_ROTATION (count_rotations pre));
      destruct (Nat.leb_spec RESERVED_ROTATION (count_rotations pre `min` RESERVED_ROTATION));
      try lia; [done|].
    rewrite (Nat.min_l (count_rotations pre)) by lia. destruct (destroyed pre) eqn:Ed; cbn [snd].
    + by rewrite sign_with_index_destroyed by lia.
    + rewrite Hbs by done. destruct (Hs (count_signs pre `min` USABLE_KEYS)
        (count_rotations pre + 1) m (USABLE_KEYS + count_rotations pre)) as (s & -> & Hidx & Hpk & Hver & _); [lia|].
      exists s. split; [reflexivity|]. split; [exact Hidx|]. split; [exact Hpk|exact Hver].
Qed.

(** No sequence of signing, rotation-signing and destroy calls on a batch tree ever uses a
    one-time key twice, and only the batch's 1024 keys are used. *)
Theorem auth_run_no_reuse (t : TemporalAuthTree) (ops : list auth_op) :
  NoDup (used_keys (auth_run t ops).2) /\
  Forall (fun i => i < 1024) (used_keys (auth_run t ops).2).
Proof.
  destruct (auth_run_keys t ops) as [Hnd Hr]. split; [done|].
  apply Forall_forall. intros i Hi%list_elem_of_In. change 1024 with TOTAL_KEYS_PER_BATCH.
  assert (TOTAL_KEYS_PER_BATCH = USABLE_KEYS + RESERVED_ROTATION) by done.
  rewrite <- list_elem_of_In in Hi. apply Hr in Hi. lia.
Qed.

End TemporalAuthProperties.
