(* ===== verification/Transaction.v ===== *)
(** * Transactions ([src/src/transaction.py], lines 21-233)

    Inputs, outputs and transactions with their encodings, the hash that is signed, and the
    structural check.  Main results: outputs round-trip through their encoding
    ([tx_output_roundtrip]) and inputs do not ([tx_input_roundtrip_broken]); the signed hash
    commits to everything but the signatures ([signing_hash_binding]); the structural check
    ([is_valid_structure_spec]) and the bound on inputs that it really enforces
    ([wots_inputs_bound]). *)

From stdpp Require Import prelude list strings pretty.
From Stdlib Require Import Strings.Byte ZArith Lia.
From S2P Require Import Prelude.
From S2P Require Import PyFloat.
From S2P Require Import Crypto.
From S2P Require Import Wots.
From S2P Require Import Merkle.

Set Default Goal Selector "!".

(** ** Constants *)

Definition TX_VERSION : Z := 1.
Definition MAX_TX_SIZE : Z := 65536.
Definition MAX_INPUTS : Z := 16.
Definition MAX_OUTPUTS : Z := 16.
Definition MIN_FEE_PER_BYTE : Z := 1.
Definition DUST_THRESHOLD : Z := 546.

(** ** Data *)

Inductive TxType :=
  | TRANSFER
  | STAKE
  | UNSTAKE
  | SLASH
  | COINBASE
  | DATA
  | REGISTER
  | ROTATE_AUTH.

#[export] Instance TxType_eq_dec : EqDecision TxType.
Proof. solve_decision. Defined.

Definition tx_type_value (t : TxType) : Z :=
  match t with
  | TRANSFER => 0 | STAKE => 1 | UNSTAKE => 2 | SLASH => 3
  | COINBASE => 4 | DATA => 5 | REGISTER => 6 | ROTATE_AUTH => 7
  end.

(** [TxType(value)]. *)
Definition tx_type_of_value (v : Z) : res TxType :=
  match v with
  | 0 => Ok TRANSFER | 1 => Ok STAKE | 2 => Ok UNSTAKE | 3 => Ok SLASH
  | 4 => Ok COINBASE | 5 => Ok DATA | 6 => Ok REGISTER | 7 => Ok ROTATE_AUTH
  | _ => Err (ValueError "not a valid TxType")
  end%Z.

Record TxInput := mkTxInput {
  ti_prev_tx_hash : bytes;
  ti_output_index : Z;
  ti_signature : bytes;
  ti_public_key : bytes;
  ti_auth_proof : option merkle_proof;
  ti_auth_key_index : Z;
}.

Record TxOutput := mkTxOutput {
  to_value : Z;
  to_address : bytes;
  to_lock_epoch : Z;
  to_data : bytes;
}.

(** [tx_cached] is the memo field [_hash]. *)
Record Transaction := mkTransaction {
  tx_version : Z;
  tx_type : TxType;
  tx_inputs : list TxInput;
  tx_outputs : list TxOutput;
  tx_epoch : Z;
  tx_timestamp : Z;
  tx_fee : Z;
  tx_nonce : bytes;
  tx_cached : option bytes;
}.

#[export] Instance TxInput_eq_dec : EqDecision TxInput.
Proof. solve_decision. Defined.

#[export] Instance TxOutput_eq_dec : EqDecision TxOutput.
Proof. solve_decision. Defined.

#[export] Instance Transaction_eq_dec : EqDecision Transaction.
Proof. solve_decision. Defined.

Definition zlen {A} (l : list A) : Z := Z.of_nat (length l).

(** [n.to_bytes(k, 'big')]. *)
Definition int_to_bytes (k : nat) (z : Z) : res bytes :=
  if (0 <=? z)%Z && (z <? 256 ^ Z.of_nat k)%Z then Ok (be_encode k z) else Err OverflowError.

(** ** Inputs *)

(** [len(h)] of a proof step, which is a pair, is 2. *)
Definition ti_size (i : TxInput) : Z :=
  let proof_size :=
    match ti_auth_proof i with
    | Some proof => sumZ (map (fun _ => 2%Z) proof)
    | None => 0%Z
    end in
  (32 + 4 + zlen (ti_signature i) + zlen (ti_public_key i) + proof_size + 4)%Z.

Definition ti_to_bytes (i : TxInput) : res bytes :=
  sig_len ← int_to_bytes 2 (zlen (ti_signature i));
  pk_len ← int_to_bytes 2 (zlen (ti_public_key i));
  py_concat [PBytes (ti_prev_tx_hash i); PInt (ti_output_index i);
             PBytes sig_len; PBytes (ti_signature i);
             PBytes pk_len; PBytes (ti_public_key i)].

Definition ti_from_bytes (data : bytes) (offset : nat) : res (TxInput * nat) :=
  let prev_tx_hash := slice offset (offset + 32) data in
  output_index ← unpack_uint 4 (slice (offset + 32) (offset + 36) data);
  sig_len ← unpack_uint 2 (slice (offset + 36) (offset + 38) data);
  let signature := slice (offset + 38) (offset + 38 + Z.to_nat sig_len) data in
  let pk_offset := offset + 38 + Z.to_nat sig_len in
  pk_len ← unpack_uint 2 (slice pk_offset (pk_offset + 2) data);
  let public_key := slice (pk_offset + 2) (pk_offset + 2 + Z.to_nat pk_len) data in
  Ok (mkTxInput prev_tx_hash output_index signature public_key None (-1),
      pk_offset + 2 + Z.to_nat pk_len).

(** ** Outputs *)

Definition to_size (o : TxOutput) : Z := (8 + 64 + 8 + 2 + zlen (to_data o))%Z.

Definition to_to_bytes (o : TxOutput) : res bytes :=
  value ← pack_uint 8 (to_value o);
  lock_epoch ← pack_uint 8 (to_lock_epoch o);
  data_len ← pack_uint 2 (zlen (to_data o));
  py_concat [PBytes value; PBytes (to_address o); PBytes lock_epoch; PBytes data_len;
             PBytes (to_data o)].

Definition to_from_bytes (data : bytes) (offset : nat) : res (TxOutput * nat) :=
  value ← unpack_uint 8 (slice offset (offset + 8) data);
  let address := slice (offset + 8) (offset + 72) data in
  lock_epoch ← unpack_uint 8 (slice (offset + 72) (offset + 80) data);
  data_len ← unpack_uint 2 (slice (offset + 80) (offset + 82) data);
  let payload := slice (offset + 82) (offset + 82 + Z.to_nat data_len) data in
  Ok (mkTxOutput value address lock_epoch payload, offset + 82 + Z.to_nat data_len).

(** ** Transactions *)

(** One byte of [bytes([z])]. *)
Definition one_byte (z : Z) : res bytes :=
  if (0 <=? z)%Z && (z <? 256)%Z then Ok [byte_of_Z z]
  else Err (ValueError "bytes must be in range(0, 256)").

Section Transaction.
Context `{Hashlib}.

Definition ti_outpoint_bytes (i : TxInput) : res bytes :=
  py_concat [PBytes (ti_prev_tx_hash i); PInt (ti_output_index i)].

(** What [tx_hash] and [signing_hash] hash: every field except the signatures, public keys
    and proofs. *)
Definition signing_preimage (tx : Transaction) : res bytes :=
  ins ← res_map ti_outpoint_bytes (tx_inputs tx);
  outs ← res_map to_to_bytes (tx_outputs tx);
  py_concat ([PInt (tx_version tx); PInt (tx_type_value (tx_type tx)); PInt (zlen (tx_inputs tx))]
    ++ map PBytes ins ++ [PInt (zlen (tx_outputs tx))] ++ map PBytes outs
    ++ [PInt (tx_epoch tx); PInt (tx_timestamp tx); PInt (tx_fee tx); PBytes (tx_nonce tx)]).

Definition signing_hash (tx : Transaction) : res bytes :=
  data ← signing_preimage tx; Ok (sha3_256 data).

(** The property [tx_hash]: the memo if it is set. *)
Definition tx_hash (tx : Transaction) : res bytes :=
  match tx_cached tx with
  | Some h => Ok h
  | None => signing_hash tx
  end.

Definition tx_size (tx : Transaction) : Z :=
  let base_size := (1 + 1 + 1 + 1 + 8 + 8 + 8 + 8)%Z in
  let input_size := sumZ (map ti_size (tx_inputs tx)) in
  let output_size := sumZ (map to_size (tx_outputs tx)) in
  (base_size + input_size + output_size)%Z.

Definition total_input (tx : Transaction) : Z := 0.

Definition total_output (tx : Transaction) : Z := sumZ (map to_value (tx_outputs tx)).

Definition tx_to_bytes (tx : Transaction) : res bytes :=
  version ← one_byte (tx_version tx);
  ty ← one_byte (tx_type_value (tx_type tx));
  n_in ← one_byte (zlen (tx_inputs tx));
  ins ← res_map ti_to_bytes (tx_inputs tx);
  n_out ← one_byte (zlen (tx_outputs tx));
  outs ← res_map to_to_bytes (tx_outputs tx);
  epoch ← pack_uint 8 (tx_epoch tx);
  timestamp ← pack_uint 8 (tx_timestamp tx);
  fee ← pack_uint 8 (tx_fee tx);
  Ok (version ++ ty ++ n_in ++ concat ins ++ n_out ++ concat outs
        ++ epoch ++ timestamp ++ fee ++ tx_nonce tx).

(** The first output below the dust threshold that is not zero, with its position. *)
Fixpoint find_dust (i : Z) (outs : list TxOutput) : option (Z * Z) :=
  match outs with
  | [] => None
  | out :: outs =>
      if (to_value out <? DUST_THRESHOLD)%Z && negb (to_value out =? 0)%Z
      then Some (i, to_value out)
      else find_dust (i + 1)%Z outs
  end.

Definition is_valid_structure (tx : Transaction) : bool * string :=
  if negb (tx_version tx =? TX_VERSION)%Z then
    (false, "invalid version: " +:+ pretty (tx_version tx))
  else if (zlen (tx_inputs tx) =? 0)%Z && negb (bool_decide (tx_type tx = COINBASE)) then
    (false, "no inputs")
  else if (MAX_INPUTS <? zlen (tx_inputs tx))%Z then
    (false, "too many inputs: " +:+ pretty (zlen (tx_inputs tx)))
  else if (zlen (tx_outputs tx) =? 0)%Z then (false, "no outputs")
  else if (MAX_OUTPUTS <? zlen (tx_outputs tx))%Z then
    (false, "too many outputs: " +:+ pretty (zlen (tx_outputs tx)))
  else if (MAX_TX_SIZE <? tx_size tx)%Z then
    (false, "transaction too large: " +:+ pretty (tx_size tx))
  else match find_dust 0 (tx_outputs tx) with
  | Some (i, v) => (false, "dust output at index " +:+ pretty i +:+ ": " +:+ pretty v)
  | None =>
      let min_fee := (tx_size tx * MIN_FEE_PER_BYTE)%Z in
      if (tx_fee tx <? min_fee)%Z && negb (bool_decide (tx_type tx = COINBASE)) then
        (false, "fee too low: " +:+ pretty (tx_fee tx) +:+ " < " +:+ pretty min_fee)
      else (true, "valid")
  end.

End Transaction.

(** ** Encodings in closed form *)

Lemma zlen_nonneg {A} (l : list A) : (0 <= zlen l)%Z.
Proof. unfold zlen. lia. Qed.

Lemma int_to_bytes_inv k z l :
  int_to_bytes k z = Ok l -> (0 <= z < 256 ^ Z.of_nat k)%Z /\ l = be_encode k z.
Proof.
  unfold int_to_bytes. destruct (_ && _) eqn:E; [|done]. intros [= <-]. bool_to_prop. done.
Qed.

Lemma py_concat_bytes_cons b args :
  py_concat (PBytes b :: args) = r ← py_concat args; Ok (b ++ r).
Proof. by rewrite py_concat_cons. Qed.

(** A [concat] that starts with an integer that fits. *)
Lemma py_concat_int_inv z args r :
  py_concat (PInt z :: args) = Ok r ->
  (0 <= z < 2 ^ 64)%Z /\ exists r', py_concat args = Ok r' /\ r = be_encode 8 z ++ r'.
Proof.
  intros (a & b & Ea & Eb & ->)%py_concat_inv.
  apply pack_uint_inv in Ea as [Hz ->]. split; [done|]. eauto.
Qed.

Lemma py_concat_bytes_inv l args r :
  py_concat (PBytes l :: args) = Ok r -> exists r', py_concat args = Ok r' /\ r = l ++ r'.
Proof. intros (a & b & [= <-] & Eb & ->)%py_concat_inv. eauto. Qed.

Lemma to_to_bytes_inv o bs :
  to_to_bytes o = Ok bs ->
  (0 <= to_value o < 2 ^ 64)%Z /\ (0 <= to_lock_epoch o < 2 ^ 64)%Z /\
  (zlen (to_data o) < 65536)%Z /\
  bs = be_encode 8 (to_value o) ++ to_address o ++ be_encode 8 (to_lock_epoch o)
         ++ be_encode 2 (zlen (to_data o)) ++ to_data o.
Proof.
  unfold to_to_bytes. intros Hb. inv_res.
  apply pack_uint_inv in E as [? ->], E0 as [? ->], E1 as [? ->].
  do 5 apply py_concat_bytes_inv in Hb as (? & Hb & ->).
  injection Hb as <-. rewrite app_nil_r. repeat split; try done; lia.
Qed.

Lemma to_to_bytes_ok o :
  (0 <= to_value o < 2 ^ 64)%Z -> (0 <= to_lock_epoch o < 2 ^ 64)%Z ->
  (zlen (to_data o) < 65536)%Z -> exists bs, to_to_bytes o = Ok bs.
Proof.
  intros Hv Hl Hd. unfold to_to_bytes. pose proof (zlen_nonneg (to_data o)).
  rewrite (pack_uint_ok 8 _ Hv), (pack_uint_ok 8 _ Hl), (pack_uint_ok 2) by lia.
  eexists. unfold mbind, res_bind. apply (py_concat_bytes [_; _; _; _; _]).
Qed.

Lemma ti_outpoint_bytes_inv i bs :
  ti_outpoint_bytes i = Ok bs ->
  (0 <= ti_output_index i < 2 ^ 64)%Z /\ bs = ti_prev_tx_hash i ++ be_encode 8 (ti_output_index i).
Proof.
  unfold ti_outpoint_bytes. intros (r & Hb & ->)%py_concat_bytes_inv.
  apply py_concat_int_inv in Hb as (Hz & r' & [= <-] & ->).
  by rewrite app_nil_r.
Qed.

(** The integers of a transaction fit their fields. *)
Record fields_fit (tx : Transaction) : Prop := {
  ff_version : (0 <= tx_version tx < 2 ^ 64)%Z;
  ff_inputs : Forall (fun i => 0 <= ti_output_index i < 2 ^ 64)%Z (tx_inputs tx);
  ff_outputs : Forall (fun o => 0 <= to_value o < 2 ^ 64 /\ 0 <= to_lock_epoch o < 2 ^ 64 /\
                                zlen (to_data o) < 65536)%Z (tx_outputs tx);
  ff_counts : (zlen (tx_inputs tx) < 2 ^ 64 /\ zlen (tx_outputs tx) < 2 ^ 64)%Z;
  ff_epoch : (0 <= tx_epoch tx < 2 ^ 64)%Z;
  ff_timestamp : (0 <= tx_timestamp tx < 2 ^ 64)%Z;
  ff_fee : (0 <= tx_fee tx < 2 ^ 64)%Z;
}.

Lemma res_map_exists {A B} (f : A -> res B) l :
  Forall (fun x => exists y, f x = Ok y) l -> exists ys, res_map f l = Ok ys.
Proof.
  induction 1 as [|x l (y & Ey) _ (ys & IH)]; [by eexists|]. simpl. rewrite Ey, bind_Ok, IH.
  by eexists.
Qed.

(** Such a transaction can be hashed. *)
Lemma signing_hash_ok `{Hashlib} tx : fields_fit tx -> exists sh, signing_hash tx = Ok sh.
Proof.
  intros [Hv Hi Ho [Hni Hno] He Ht Hf]. unfold signing_hash, signing_preimage.
  pose proof (zlen_nonneg (tx_inputs tx)). pose proof (zlen_nonneg (tx_outputs tx)).
  assert (0 <= tx_type_value (tx_type tx) < 2 ^ 64)%Z by (destruct (tx_type tx); simpl; lia).
  assert (Hint : forall z, (0 <= z < 2 ^ 64)%Z -> exists x, concat_arg (PInt z) = Ok x)
    by (intros z Hz; rewrite concat_arg_int by done; by eexists).
  assert (Hbytes : forall ls, Forall (fun a => exists x, concat_arg a = Ok x) (map PBytes ls))
    by (intros ls; apply Forall_fmap, Forall_true; by eexists).
  destruct (res_map_exists ti_outpoint_bytes (tx_inputs tx)) as [ins ->].
  { eapply Forall_impl; [exact Hi|]. intros i Hz. unfold ti_outpoint_bytes.
    apply py_concat_total. repeat constructor; [by eexists|by apply Hint]. }
  destruct (res_map_exists to_to_bytes (tx_outputs tx)) as [outs ->].
  { eapply Forall_impl; [exact Ho|]. intros o (? & ? & ?). by apply to_to_bytes_ok. }
  rewrite !bind_Ok. edestruct py_concat_total as [d ->]; [|by eexists].
  repeat first [apply Forall_app_2 | apply Hbytes | constructor]; auto; by eexists.
Qed.

(** Signatures, keys and paths do not change the hash. *)
Lemma signing_hash_inputs `{Hashlib} tx tx' :
  Forall2 (fun i i' => ti_prev_tx_hash i' = ti_prev_tx_hash i /\
                       ti_output_index i' = ti_output_index i) (tx_inputs tx) (tx_inputs tx') ->
  tx_version tx' = tx_version tx -> tx_type tx' = tx_type tx ->
  tx_outputs tx' = tx_outputs tx -> tx_epoch tx' = tx_epoch tx ->
  tx_timestamp tx' = tx_timestamp tx -> tx_fee tx' = tx_fee tx -> tx_nonce tx' = tx_nonce tx ->
  signing_hash tx' = signing_hash tx.
Proof.
  intros Hf E1 E2 E3 E4 E5 E6 E7. unfold signing_hash, signing_preimage.
  rewrite E1, E2, E3, E4, E5, E6, E7. unfold zlen. rewrite <- (Forall2_length _ _ _ Hf).
  assert (res_map ti_outpoint_bytes (tx_inputs tx') = res_map ti_outpoint_bytes (tx_inputs tx)) as ->.
  { induction Hf as [|i i' l l' [Ha Hb] _ IH]; [done|]. simpl. rewrite IH.
    unfold ti_outpoint_bytes. by rewrite Ha, Hb. }
  done.
Qed.

(** Reading an integer field in the middle of a buffer. *)
Lemma unpack_field n i j z l1 l2 :
  i = length l1 -> j = i + n -> (0 <= z < 256 ^ Z.of_nat n)%Z ->
  unpack_uint n (slice i j (l1 ++ be_encode n z ++ l2)) = Ok z.
Proof.
  intros -> -> Hz. rewrite slice_mid by (rewrite ?be_encode_length; done).
  apply unpack_pack_uint. by apply pack_uint_ok.
Qed.

(** The output encoding is self-delimiting for 64-byte addresses. *)
Lemma to_to_bytes_app_inj o1 o2 b1 b2 l1 l2 :
  to_to_bytes o1 = Ok b1 -> to_to_bytes o2 = Ok b2 ->
  length (to_address o1) = 64 -> length (to_address o2) = 64 ->
  b1 ++ l1 = b2 ++ l2 -> o1 = o2 /\ l1 = l2.
Proof.
  intros (V1 & K1 & D1 & ->)%to_to_bytes_inv (V2 & K2 & D2 & ->)%to_to_bytes_inv A1 A2 E.
  destruct o1 as [v1 a1 k1 d1], o2 as [v2 a2 k2 d2]; cbn -[be_encode] in *.
  rewrite <- !app_assoc in E.
  apply app_inj_1 in E as [Ev E]; [|by rewrite !be_encode_length].
  apply app_inj_1 in E as [-> E]; [|congruence].
  apply app_inj_1 in E as [Ek E]; [|by rewrite !be_encode_length].
  apply app_inj_1 in E as [Ed E]; [|by rewrite !be_encode_length].
  apply (f_equal be_decode) in Ev, Ek, Ed.
  pose proof (zlen_nonneg d1). pose proof (zlen_nonneg d2).
  rewrite !be_decode_encode_small in Ev, Ek, Ed by lia. subst.
  unfold zlen in Ed. apply app_inj_1 in E as [-> ->]; [done|lia].
Qed.

(** Lists of equally many self-delimiting encodings. *)
Lemma res_map_app_inj {A} (f : A -> res bytes) (P : A -> Prop) :
  (forall x y bx b_y lx ly, P x -> P y -> f x = Ok bx -> f y = Ok b_y ->
     bx ++ lx = b_y ++ ly -> x = y /\ lx = ly) ->
  forall xs ys bxs bys lx ly, Forall P xs -> Forall P ys -> length xs = length ys ->
    res_map f xs = Ok bxs -> res_map f ys = Ok bys ->
    concat bxs ++ lx = concat bys ++ ly -> xs = ys /\ lx = ly.
Proof.
  intros Hf xs. induction xs as [|x xs IH];
    intros [|y ys] bxs bys lx ly Px Py L Ex Ey E; try done; simpl in *.
  - by injection Ex as <-; injection Ey as <-.
  - inversion Px; inversion Py; subst. inv_res. simpl in E. rewrite <- !app_assoc in E.
    eapply Hf in E as [-> E]; try done. apply (IH ys) in E as [-> ->]; auto.
Qed.

(** ** The signed hash *)

Section TransactionLemmas.
Context `{Hashlib}.

(** Hashes are 32 bytes and addresses 64. *)
Record tx_wf (tx : Transaction) : Prop := {
  wf_inputs : Forall (fun i => length (ti_prev_tx_hash i) = 32) (tx_inputs tx);
  wf_outputs : Forall (fun o => length (to_address o) = 64) (tx_outputs tx);
}.

Definition outpoints (tx : Transaction) : list (bytes * Z) :=
  map (fun i => (ti_prev_tx_hash i, ti_output_index i)) (tx_inputs tx).

Lemma py_concat_map_bytes_inv ls args r :
  py_concat (map PBytes ls ++ args) = Ok r ->
  exists r', py_concat args = Ok r' /\ r = concat ls ++ r'.
Proof.
  rewrite py_concat_app, py_concat_bytes. simpl. intros. inv_res. eauto.
Qed.

(** The preimage in closed form. *)
Lemma signing_preimage_inv tx data :
  signing_preimage tx = Ok data ->
  exists ins outs,
    res_map ti_outpoint_bytes (tx_inputs tx) = Ok ins /\
    res_map to_to_bytes (tx_outputs tx) = Ok outs /\
    Forall (fun z => 0 <= z < 2 ^ 64)%Z [tx_version tx; tx_epoch tx; tx_timestamp tx; tx_fee tx;
      zlen (tx_inputs tx); zlen (tx_outputs tx)] /\
    data = be_encode 8 (tx_version tx) ++ be_encode 8 (tx_type_value (tx_type tx))
      ++ be_encode 8 (zlen (tx_inputs tx)) ++ concat ins
      ++ be_encode 8 (zlen (tx_outputs tx)) ++ concat outs
      ++ be_encode 8 (tx_epoch tx) ++ be_encode 8 (tx_timestamp tx)
      ++ be_encode 8 (tx_fee tx) ++ tx_nonce tx.
Proof.
  unfold signing_preimage. intros Hd. inv_res. exists a, a0.
  apply py_concat_int_inv in Hd as (? & ? & Hd & ->).
  apply py_concat_int_inv in Hd as (? & ? & Hd & ->).
  apply py_concat_int_inv in Hd as (? & ? & Hd & ->).
  apply py_concat_map_bytes_inv in Hd as (? & Hd & ->).
  apply py_concat_int_inv in Hd as (? & ? & Hd & ->).
  apply py_concat_map_bytes_inv in Hd as (? & Hd & ->).
  apply py_concat_int_inv in Hd as (? & ? & Hd & ->).
  apply py_concat_int_inv in Hd as (? & ? & Hd & ->).
  apply py_concat_int_inv in Hd as (? & ? & Hd & ->).
  apply py_concat_bytes_inv in Hd as (? & Hd & ->).
  injection Hd as <-. rewrite app_nil_r.
  split; [done|]. split; [done|]. split; [by rewrite !Forall_cons; auto 10 | done].
Qed.

Lemma tx_type_value_inj t1 t2 : tx_type_value t1 = tx_type_value t2 -> t1 = t2.
Proof. by destruct t1, t2. Qed.

Lemma tx_type_value_range t : (0 <= tx_type_value t < 8)%Z.
Proof. destruct t; simpl; lia. Qed.

Lemma be_encode_inj n z1 z2 :
  (0 <= z1 < 256 ^ Z.of_nat n)%Z -> (0 <= z2 < 256 ^ Z.of_nat n)%Z ->
  be_encode n z1 = be_encode n z2 -> z1 = z2.
Proof.
  intros ? ? E%(f_equal be_decode). by rewrite !be_decode_encode_small in E.
Qed.

(** Peel one 8-byte integer off both sides. *)
Lemma app_be8_inj z1 z2 l1 l2 :
  (0 <= z1 < 2 ^ 64)%Z -> (0 <= z2 < 2 ^ 64)%Z ->
  be_encode 8 z1 ++ l1 = be_encode 8 z2 ++ l2 -> z1 = z2 /\ l1 = l2.
Proof.
  intros ? ? E. apply app_inj_1 in E as [E ->]; [|by rewrite !be_encode_length].
  split; [|done]. by apply be_encode_inj in E.
Qed.

Lemma outpoints_inj ins1 ins2 b1 b2 l1 l2 :
  Forall (fun i => length (ti_prev_tx_hash i) = 32) ins1 ->
  Forall (fun i => length (ti_prev_tx_hash i) = 32) ins2 ->
  length ins1 = length ins2 ->
  res_map ti_outpoint_bytes ins1 = Ok b1 -> res_map ti_outpoint_bytes ins2 = Ok b2 ->
  concat b1 ++ l1 = concat b2 ++ l2 ->
  map (fun i => (ti_prev_tx_hash i, ti_output_index i)) ins1
  = map (fun i => (ti_prev_tx_hash i, ti_output_index i)) ins2 /\ l1 = l2.
Proof.
  intros P1. revert ins2 b1 b2. induction P1 as [|i1 ins1 H1 P1 IH];
    intros [|i2 ins2] b1 b2 P2 L E1 E2 E; try done; simpl in *.
  - by injection E1 as <-; injection E2 as <-.
  - inversion P2; subst. inv_res. simpl in E.
    match goal with H : ti_outpoint_bytes i1 = _ |- _ => apply ti_outpoint_bytes_inv in H as [R1 ->] end.
    match goal with H : ti_outpoint_bytes i2 = _ |- _ => apply ti_outpoint_bytes_inv in H as [R2 ->] end.
    rewrite <- !app_assoc in E. apply app_inj_1 in E as [-> E]; [|congruence].
    apply app_be8_inj in E as [-> E]; [|done..].
    apply (IH ins2) in E as [-> ->]; auto.
Qed.

(** Everything that a preimage determines. *)
Definition signed_fields (tx : Transaction) :=
  (tx_version tx, tx_type tx, outpoints tx, tx_outputs tx, tx_epoch tx, tx_timestamp tx,
   tx_fee tx, tx_nonce tx).

Lemma signing_preimage_inj tx1 tx2 data :
  tx_wf tx1 -> tx_wf tx2 ->
  signing_preimage tx1 = Ok data -> signing_preimage tx2 = Ok data ->
  signed_fields tx1 = signed_fields tx2.
Proof.
  intros [I1 O1] [I2 O2].
  intros (ins1 & outs1 & Ei1 & Eo1 & R1 & ->)%signing_preimage_inv.
  intros (ins2 & outs2 & Ei2 & Eo2 & R2 & E)%signing_preimage_inv.
  rewrite !Forall_cons in R1, R2.
  destruct R1 as (? & ? & ? & ? & ? & ? & _), R2 as (? & ? & ? & ? & ? & ? & _).
  pose proof (tx_type_value_range (tx_type tx1)). pose proof (tx_type_value_range (tx_type tx2)).
  unfold signed_fields, outpoints.
  apply app_be8_inj in E as [-> E]; [|lia..].
  apply app_be8_inj in E as [->%tx_type_value_inj E]; [|lia..].
  apply app_be8_inj in E as [Li E]; [|lia..]. unfold zlen in Li.
  eapply outpoints_inj in E as [-> E]; [|done|done|lia|done|done].
  apply app_be8_inj in E as [Lo E]; [|lia..]. unfold zlen in Lo.
  eapply (res_map_app_inj to_to_bytes (fun o => length (to_address o) = 64)) in E as [-> E];
    [|intros; by eapply to_to_bytes_app_inj|done|done|lia|done|done].
  apply app_be8_inj in E as [-> E]; [|lia..].
  apply app_be8_inj in E as [-> E]; [|lia..].
  by apply app_be8_inj in E as [-> ->]; [|lia..].
Qed.

(** ** Structure *)

Lemma find_dust_None i outs :
  find_dust i outs = None <->
  Forall (fun o => DUST_THRESHOLD <= to_value o \/ to_value o = 0)%Z outs.
Proof.
  revert i. induction outs as [|o outs IH]; intros i; simpl; [split; [constructor|done]|].
  rewrite Forall_cons, <- (IH (i + 1)%Z).
  destruct (Z.ltb_spec (to_value o) DUST_THRESHOLD), (Z.eqb_spec (to_value o) 0); simpl;
    intuition (done || lia).
Qed.

Lemma sumZ_map_const {A} (l : list A) c : sumZ (map (fun _ => c) l) = (c * zlen l)%Z.
Proof. unfold zlen. induction l; simpl; lia. Qed.

Lemma ti_size_nonneg i :
  (40 + zlen (ti_signature i) + zlen (ti_public_key i) <= ti_size i)%Z.
Proof.
  unfold ti_size. destruct (ti_auth_proof i) as [p|]; rewrite ?sumZ_map_const;
    [pose proof (zlen_nonneg p)|]; lia.
Qed.

Lemma sumZ_map_ge {A} (f : A -> Z) (l : list A) c :
  Forall (fun x => c <= f x)%Z l -> (c * zlen l <= sumZ (map f l))%Z.
Proof. unfold zlen. induction 1; simpl; lia. Qed.

(** What the structural check accepts, and with which reason. *)
Lemma is_valid_structure_iff (tx : Transaction) :
  ((is_valid_structure tx).1 = true <->
    tx_version tx = 1%Z /\
    (tx_inputs tx <> [] \/ tx_type tx = COINBASE) /\ length (tx_inputs tx) <= 16 /\
    1 <= length (tx_outputs tx) <= 16 /\ (tx_size tx <= 65536)%Z /\
    Forall (fun o => 546 <= to_value o \/ to_value o = 0)%Z (tx_outputs tx) /\
    (tx_size tx <= tx_fee tx \/ tx_type tx = COINBASE)%Z) /\
  ((is_valid_structure tx).1 = true -> (is_valid_structure tx).2 = "valid").
Proof.
  change 546%Z with DUST_THRESHOLD. rewrite <- (find_dust_None 0).
  assert (Hnil : tx_inputs tx <> [] <-> (zlen (tx_inputs tx) =? 0)%Z = false).
  { unfold zlen. destruct (tx_inputs tx); split; simpl; try done. }
  unfold is_valid_structure, TX_VERSION, MAX_INPUTS, MAX_OUTPUTS, MAX_TX_SIZE, MIN_FEE_PER_BYTE.
  rewrite Z.mul_1_r, Hnil. unfold zlen.
  assert (Hty : bool_decide (tx_type tx = COINBASE) = true <-> tx_type tx = COINBASE)
    by apply bool_decide_eq_true.
  set (cb := bool_decide (tx_type tx = COINBASE)) in *.
  (* each test is decided in turn; a failing one contradicts one conjunct *)
  destruct (Z.eqb_spec (tx_version tx) 1); cbn [negb]; [|by split; [split; [done|intuition]|]].
  destruct (Z.eqb_spec (Z.of_nat (length (tx_inputs tx))) 0);
    (destruct cb eqn:Ecb; cbn [negb andb]; [|try by split; [split; [done|intuition congruence]|]]);
  (destruct (Z.ltb_spec 16 (Z.of_nat (length (tx_inputs tx))));
    [by split; [split; [done|intros (_ & _ & ? & _); lia]|]|]);
  (destruct (Z.eqb_spec (Z.of_nat (length (tx_outputs tx))) 0);
    [by split; [split; [done|intros (_ & _ & _ & ? & _); lia]|]|]);
  (destruct (Z.ltb_spec 16 (Z.of_nat (length (tx_outputs tx))));
    [by split; [split; [done|intros (_ & _ & _ & ? & _); lia]|]|]);
  (destruct (Z.ltb_spec 65536 (tx_size tx));
    [by split; [split; [done|intros (_ & _ & _ & _ & ? & _); lia]|]|]);
  (destruct (find_dust 0 (tx_outputs tx)) as [[? ?]|];
    [by split; [split; [done|intros (_ & _ & _ & _ & _ & ? & _); done]|]|]);
  (destruct (Z.ltb_spec (tx_fee tx) (tx_size tx)); cbn [andb];
    [try by split; [split; [done|intros (_ & _ & _ & _ & _ & _ & [?|?%Hty]); [lia|done]]|]|]);
  (split; [|done]; split; [intros _|done]; repeat split; try done; try lia; try (by left);
    try (right; by apply Hty)).
Qed.

End TransactionLemmas.

(** ** Properties *)

Section TransactionProperties.
Context `{Hashlib}.

(** The signed hash commits to the whole transaction: two well-formed transactions with
    the same signing hash (their two preimages not colliding) have the same version, type,
    spent outpoints, outputs, epoch, timestamp, fee and nonce; they can only differ in
    signatures, keys and proofs. *)
Theorem signing_hash_binding (tx1 tx2 : Transaction) (d1 d2 h : bytes)
    (Hwf1 : tx_wf tx1) (Hwf2 : tx_wf tx2)
    (Hd1 : signing_preimage tx1 = Ok d1) (Hd2 : signing_preimage tx2 = Ok d2)
    (Hcf : collision_free sha3_256 [d1; d2])
    (H1 : signing_hash tx1 = Ok h) (H2 : signing_hash tx2 = Ok h) :
  signed_fields tx1 = signed_fields tx2.
Proof.
  apply (signing_preimage_inj _ _ d1); try done. unfold signing_hash in *.
  rewrite Hd1 in H1. rewrite Hd2 in *. injection H1 as H1. injection H2 as H2.
  f_equal. apply Hcf; [set_solver..|]. congruence.
Qed.

(** The structural check accepts exactly the transactions of version 1 with 1 to 16
    inputs (none allowed for a coinbase), 1 to 16 outputs, at most 65536 counted bytes, no
    non-zero output below the dust threshold, and (coinbase apart) a fee of at least one unit
    per counted byte; it never gives a reason other than ["valid"] with [true]. *)
Theorem is_valid_structure_spec (tx : Transaction) :
  ((is_valid_structure tx).1 = true <->
    tx_version tx = 1%Z /\
    (tx_inputs tx <> [] \/ tx_type tx = COINBASE) /\ length (tx_inputs tx) <= 16 /\
    1 <= length (tx_outputs tx) <= 16 /\ (tx_size tx <= 65536)%Z /\
    Forall (fun o => 546 <= to_value o \/ to_value o = 0)%Z (tx_outputs tx) /\
    (tx_size tx <= tx_fee tx \/ tx_type tx = COINBASE)%Z) /\
  ((is_valid_structure tx).1 = true -> (is_valid_structure tx).2 = "valid").
Proof. apply is_valid_structure_iff. Qed.

(** A transaction whose inputs carry full-size WOTS+ signatures and keys passes the
    structural check only with at most 15 inputs: the size limit makes the limit of 16
    unreachable. *)
Theorem wots_inputs_bound (tx : Transaction)
    (Hv : (is_valid_structure tx).1 = true)
    (Hw : Forall (fun i => 2144 <= length (ti_signature i) /\ 2144 <= length (ti_public_key i))
            (tx_inputs tx)) :
  length (tx_inputs tx) <= 15.
Proof.
  assert (Hsize : (tx_size tx <= 65536)%Z).
  { destruct (is_valid_structure_iff tx) as [Hiff _]. by apply Hiff in Hv as (_ & _ & _ & _ & ? & _). }
  unfold tx_size in Hsize.
  assert (4328 * zlen (tx_inputs tx) <= sumZ (map ti_size (tx_inputs tx)))%Z as Hin.
  { apply sumZ_map_ge. eapply Forall_impl; [exact Hw|]. intros i [? ?].
    pose proof (ti_size_nonneg i). unfold zlen in *. lia. }
  assert (0 * zlen (tx_outputs tx) <= sumZ (map to_size (tx_outputs tx)))%Z as Hout.
  { apply sumZ_map_ge, Forall_true. intros o. unfold to_size, zlen. lia. }
  unfold zlen in *. lia.
Qed.

(** Parsing an encoded output at its offset in any buffer gives the output back and the
    offset just past it; the encoding has the size that [size] reports. *)
Theorem tx_output_roundtrip (o : TxOutput) (bs pre post : bytes)
    (Ha : length (to_address o) = 64) (Hb : to_to_bytes o = Ok bs) :
  to_from_bytes (pre ++ bs ++ post) (length pre) = Ok (o, length pre + length bs) /\
  Z.of_nat (length bs) = to_size o.
Proof.
  apply to_to_bytes_inv in Hb as (Hv & Hl & Hd & ->). pose proof (zlen_nonneg (to_data o)).
  split; [|unfold to_size, zlen; rewrite !length_app, !be_encode_length; lia].
  change (2 ^ 64)%Z with (256 ^ Z.of_nat 8)%Z in Hv, Hl.
  set (p1 := pre). set (f1 := be_encode 8 (to_value o)).
  set (f3 := be_encode 8 (to_lock_epoch o)). set (f4 := be_encode 2 (zlen (to_data o))).
  assert (length f1 = 8 /\ length f3 = 8 /\ length f4 = 2) as (L1 & L3 & L4)
    by (unfold f1, f3, f4; by rewrite !be_encode_length).
  replace (p1 ++ (f1 ++ to_address o ++ f3 ++ f4 ++ to_data o) ++ post)
    with (p1 ++ f1 ++ to_address o ++ f3 ++ f4 ++ to_data o ++ post) by (by rewrite <- !app_assoc).
  unfold to_from_bytes.
  unfold f1. rewrite (unpack_field 8 (length p1)) by (done || lia). fold f1. unfold mbind at 1, res_bind at 1.
  rewrite (app_assoc p1 f1). rewrite (slice_mid (length p1 + 8)) by (rewrite ?length_app; lia).
  rewrite (app_assoc (p1 ++ f1)). unfold f3.
  rewrite (unpack_field 8 (length p1 + 72)) by (rewrite ?length_app; done || lia). fold f3.
  unfold mbind at 1, res_bind at 1.
  rewrite (app_assoc _ f3). unfold f4.
  rewrite (unpack_field 2 (length p1 + 80)) by (rewrite ?length_app; simpl; lia). fold f4.
  unfold mbind, res_bind.
  rewrite (app_assoc _ f4). rewrite (slice_mid (length p1 + 82)).
  - rewrite !length_app. unfold zlen. destruct o; simpl in *. do 2 f_equal. lia.
  - rewrite !length_app. lia.
  - unfold zlen. lia.
Qed.

(** Parsing an encoded input does not give it back: [to_bytes] writes the output index in
    eight bytes and [from_bytes] reads four, so for an index below 65536 the parse finds index
    0, an empty signature and, as its public key, the bytes that follow the index. *)
Theorem tx_input_roundtrip_broken (i : TxInput) (bs : bytes)
    (Hh : length (ti_prev_tx_hash i) = 32) (Hidx : (0 <= ti_output_index i < 65536)%Z)
    (Hb : ti_to_bytes i = Ok bs) :
  let n := Z.to_nat (ti_output_index i) in
  ti_from_bytes bs 0 =
    Ok (mkTxInput (ti_prev_tx_hash i) 0 [] (slice 40 (40 + n) bs) None (-1), 40 + n) /\
  (ti_signature i <> [] -> forall j off, ti_from_bytes bs 0 = Ok (j, off) -> j <> i).
Proof.
  intros n. assert (ti_from_bytes bs 0 =
    Ok (mkTxInput (ti_prev_tx_hash i) 0 [] (slice 40 (40 + n) bs) None (-1), 40 + n)) as E.
  { unfold ti_to_bytes in Hb. inv_res.
    apply py_concat_bytes_inv in Hb as (r1 & Hb & ->).
    apply py_concat_int_inv in Hb as (_ & r2 & _ & ->).
    change 8 with (4 + (2 + 2)). rewrite !be_encode_split, <- !app_assoc.
    rewrite !Z.div_small by (simpl; lia).
    set (h := ti_prev_tx_hash i) in *. unfold ti_from_bytes.
    rewrite slice_prefix by done. rewrite (unpack_field 4 32) by (simpl; lia).
    unfold mbind at 1, res_bind at 1. rewrite (app_assoc h).
    rewrite (unpack_field 2 36) by (rewrite ?length_app, ?be_encode_length; simpl; lia).
    unfold mbind at 1, res_bind at 1. rewrite (app_assoc (h ++ _)).
    rewrite (unpack_field 2 38) by (rewrite ?length_app, ?be_encode_length; simpl; lia).
    reflexivity. }
  split; [done|]. intros Hs j off Ej Eji. rewrite E in Ej. injection Ej as <- <-.
  apply Hs. by rewrite <- Eji.
Qed.

End TransactionProperties.

(** ** Concrete runs *)

Definition demo_input (signature : bytes) : TxInput :=
  mkTxInput (replicate 32 Byte.x11) 7 signature (replicate 2144 Byte.x22) None (-1).

Definition demo_output : TxOutput := mkTxOutput 1000 (replicate 64 Byte.x33) 0 (b: "memo").

Definition demo_tx (signature : bytes) : Transaction :=
  mkTransaction 1 TRANSFER [demo_input signature] [demo_output] 5 1700000000000 5000
    (b: "nonce000") None.

Lemma signing_hash_binding_witness :
  signed_fields (demo_tx []) = signed_fields (demo_tx (b: "other")).
Proof.
  eapply (@signing_hash_binding toy_hashlib (demo_tx []) (demo_tx (b: "other"))).
  - split; repeat constructor.
  - split; repeat constructor.
  - vm_compute. reflexivity.
  - vm_compute. reflexivity.
  - apply collision_free_b_sound. by vm_compute.
  - vm_compute. reflexivity.
  - vm_compute. reflexivity.
Defined.

Lemma wots_inputs_bound_witness :
  length (tx_inputs (demo_tx (replicate 2144 Byte.x44))) <= 15.
Proof.
  apply wots_inputs_bound.
  - by vm_compute.
  - repeat constructor; vm_compute; lia.
Defined.

Lemma tx_output_roundtrip_witness :
  to_from_bytes (b: "ab" ++ match to_to_bytes demo_output with Ok bs => bs | Err _ => [] end
                 ++ b: "cd") 2 = Ok (demo_output, 88).
Proof.
  destruct (tx_output_roundtrip demo_output
              (match to_to_bytes demo_output with Ok bs => bs | Err _ => [] end)
              (b: "ab") (b: "cd")) as [E _].
  - by vm_compute.
  - by vm_compute.
  - exact E.
Defined.

Lemma tx_input_roundtrip_broken_witness :
  ti_from_bytes (match ti_to_bytes (demo_input (b: "sig")) with Ok bs => bs | Err _ => [] end) 0
  = Ok (mkTxInput (replicate 32 Byte.x11) 0 [] [Byte.x00; Byte.x03; Byte.x73; Byte.x69; Byte.x67; Byte.x08; Byte.x60]
          None (-1), 47).
Proof.
  destruct (tx_input_roundtrip_broken (demo_input (b: "sig"))
              (match ti_to_bytes (demo_input (b: "sig")) with Ok bs => bs | Err _ => [] end))
    as [E _].
  - by vm_compute.
  - by vm_compute.
  - by vm_compute.
  - rewrite E. by vm_compute.
Defined.
