(* ===== verification/Ledger.v ===== *)
(** * The UTXO set and the registry of authentication roots
    ([src/src/transaction.py], lines 236-383)

    [UTXOSet] keeps the outputs, an index by address and the stakes; [AuthRegistry] the current
    authentication root of each registered address.  Main results: the index always lists
    exactly the unspent outputs of each address ([utxo_inv_reachable]), so a balance is the sum
    it claims to be ([get_balance_spec]); an output is spent at most once
    ([spend_at_most_once]); registration happens once and rotation never changes who is
    registered ([registry_run_spec]). *)

From stdpp Require Import prelude list gmap strings pretty.
From Stdlib Require Import Strings.Byte ZArith Lia.
From S2P Require Import Prelude.
From S2P Require Import PyFloat.
From S2P Require Import Crypto.
From S2P Require Import Transaction.

Set Default Goal Selector "!".

(** ** Data *)

(** The key [(tx_hash, output_index)]. *)
Abbreviation outpoint := (bytes * Z)%type.

Record UTXO := mkUTXO {
  u_tx_hash : bytes;
  u_output_index : Z;
  u_output : TxOutput;
  u_epoch_created : Z;
  u_is_spent : bool;
  u_spent_by : option bytes;
}.

#[export] Instance UTXO_eq_dec : EqDecision UTXO.
Proof. solve_decision. Defined.

(** [by_address] and [staked] are [defaultdict]s. *)
Record UTXOSet := mkUTXOSet {
  utxos : gmap outpoint UTXO;
  by_address : gmap bytes (gset outpoint);
  staked : gmap bytes Z;
}.

Definition utxo_set_new : UTXOSet := mkUTXOSet ∅ ∅ ∅.

(** ** Operations of [UTXOSet] *)

Definition add_utxo (s : UTXOSet) (tx_hash : bytes) (output_index : Z) (output : TxOutput)
    (epoch : Z) : UTXOSet :=
  let key := (tx_hash, output_index) in
  let utxo := mkUTXO tx_hash output_index output epoch false None in
  mkUTXOSet (<[key := utxo]> (utxos s))
    (<[to_address output := {[key]} ∪ lookup_default ∅ (by_address s) (to_address output)]>
       (by_address s))
    (staked s).

(** The entry after it is marked as spent; the code mutates the object in the dictionary. *)
Definition mark_spent (spending_tx : bytes) (u : UTXO) : UTXO :=
  mkUTXO (u_tx_hash u) (u_output_index u) (u_output u) (u_epoch_created u) true
    (Some spending_tx).

Definition spend_utxo (s : UTXOSet) (tx_hash : bytes) (output_index : Z) (spending_tx : bytes)
    : UTXOSet * option UTXO :=
  let key := (tx_hash, output_index) in
  match utxos s !! key with
  | None => (s, None)
  | Some utxo =>
      if u_is_spent utxo then (s, None)
      else
        let utxo := mark_spent spending_tx utxo in
        let address := to_address (u_output utxo) in
        (mkUTXOSet (<[key := utxo]> (utxos s))
           (<[address := lookup_default ∅ (by_address s) address ∖ {[key]}]> (by_address s))
           (staked s), Some utxo)
  end.

Definition get_utxo (s : UTXOSet) (tx_hash : bytes) (output_index : Z) : option UTXO :=
  utxos s !! (tx_hash, output_index).

(** Unspent and past its lock epoch. *)
Definition spendable (current_epoch : Z) (u : UTXO) : bool :=
  negb (u_is_spent u) && (to_lock_epoch (u_output u) <=? current_epoch)%Z.

Section Queries.
Context {order : SetOrder outpoint}.

(** The loop over [self.by_address.get(address, set())]. *)
Definition get_balance (s : UTXOSet) (address : bytes) (current_epoch : Z) : Z :=
  foldl (fun total key =>
      match utxos s !! key with
      | Some utxo =>
          if spendable current_epoch utxo then (total + to_value (u_output utxo))%Z else total
      | None => total
      end) 0%Z (set_order (lookup_default ∅ (by_address s) address)).

Definition get_utxos_for_address (s : UTXOSet) (address : bytes) (current_epoch : Z)
    : list UTXO :=
  foldl (fun result key =>
      match utxos s !! key with
      | Some utxo => if spendable current_epoch utxo then result ++ [utxo] else result
      | None => result
      end) [] (set_order (lookup_default ∅ (by_address s) address)).

End Queries.

Definition add_stake (s : UTXOSet) (address : bytes) (amount : Z) : UTXOSet :=
  mkUTXOSet (utxos s) (by_address s)
    (<[address := (lookup_default 0 (staked s) address + amount)%Z]> (staked s)).

(** Reading the [defaultdict] creates the missing entry. *)
Definition remove_stake (s : UTXOSet) (address : bytes) (amount : Z) : UTXOSet * bool :=
  let current := lookup_default 0%Z (staked s) address in
  if (current <? amount)%Z then
    (mkUTXOSet (utxos s) (by_address s) (<[address := current]> (staked s)), false)
  else
    (mkUTXOSet (utxos s) (by_address s) (<[address := (current - amount)%Z]> (staked s)), true).

Definition get_stake (s : UTXOSet) (address : bytes) : Z := lookup_default 0%Z (staked s) address.

(** ** The registry *)

Record AuthRegistry := mkAuthRegistry {
  auth_roots : gmap bytes bytes;
  registered_addresses : gset bytes;
  rotation_counts : gmap bytes Z;
}.

Definition auth_registry_new : AuthRegistry := mkAuthRegistry ∅ ∅ ∅.

Definition is_registered (r : AuthRegistry) (address : bytes) : bool :=
  bool_decide (address ∈ registered_addresses r).

Definition get_auth_root (r : AuthRegistry) (address : bytes) : option bytes :=
  auth_roots r !! address.

Definition register_via_tx (r : AuthRegistry) (address auth_root : bytes)
    : AuthRegistry * bool :=
  if bool_decide (address ∈ registered_addresses r) then (r, false)
  else
    (mkAuthRegistry (<[address := auth_root]> (auth_roots r))
       ({[address]} ∪ registered_addresses r) (<[address := 0%Z]> (rotation_counts r)), true).

Definition rotate_via_tx (r : AuthRegistry) (address new_auth_root : bytes)
    : AuthRegistry * bool :=
  if negb (bool_decide (address ∈ registered_addresses r)) then (r, false)
  else
    (mkAuthRegistry (<[address := new_auth_root]> (auth_roots r)) (registered_addresses r)
       (<[address := (lookup_default 0 (rotation_counts r) address + 1)%Z]> (rotation_counts r)),
     true).

(** ** Histories of calls *)

Inductive ledger_op :=
  | LAdd (tx_hash : bytes) (output_index : Z) (output : TxOutput) (epoch : Z)
  | LSpend (tx_hash : bytes) (output_index : Z) (spending_tx : bytes)
  | LAddStake (address : bytes) (amount : Z)
  | LRemoveStake (address : bytes) (amount : Z).

Definition ledger_step (s : UTXOSet) (op : ledger_op) : UTXOSet :=
  match op with
  | LAdd h i o e => add_utxo s h i o e
  | LSpend h i t => (spend_utxo s h i t).1
  | LAddStake a n => add_stake s a n
  | LRemoveStake a n => (remove_stake s a n).1
  end.

(** An output is only ever re-added under the address it already has: output indices are added
    under the hash of a transaction that determines its outputs. *)
Definition op_consistent (s : UTXOSet) (op : ledger_op) : Prop :=
  match op with
  | LAdd h i o _ =>
      forall u, utxos s !! (h, i) = Some u -> to_address (u_output u) = to_address o
  | _ => True
  end.

Inductive ledger_reachable : UTXOSet -> Prop :=
  | ledger_reachable_new : ledger_reachable utxo_set_new
  | ledger_reachable_step s op :
      ledger_reachable s -> op_consistent s op -> ledger_reachable (ledger_step s op).

Inductive registry_op :=
  | RRegister (address auth_root : bytes)
  | RRotate (address auth_root : bytes).

Definition registry_step (r : AuthRegistry) (op : registry_op) : AuthRegistry * bool :=
  match op with
  | RRegister a root => register_via_tx r a root
  | RRotate a root => rotate_via_tx r a root
  end.

Definition registry_run (r : AuthRegistry) (ops : list registry_op) : AuthRegistry :=
  foldl (fun r op => (registry_step r op).1) r ops.

(** ** The index invariant *)

(** The index of an address lists exactly its unspent outputs, entries are stored under their
    own outpoint, and an entry names its spender exactly when it is spent. *)
Record utxo_inv (s : UTXOSet) : Prop := {
  inv_index a k : k ∈ lookup_default ∅ (by_address s) a <->
    exists u, utxos s !! k = Some u /\ u_is_spent u = false /\ to_address (u_output u) = a;
  inv_key k u : utxos s !! k = Some u -> (u_tx_hash u, u_output_index u) = k;
  inv_spent k u : utxos s !! k = Some u -> u_is_spent u = bool_decide (is_Some (u_spent_by u));
}.

Lemma utxo_inv_new : utxo_inv utxo_set_new.
Proof.
  split; simpl.
  - intros a k. unfold lookup_default. rewrite lookup_empty. simpl. split; [set_solver|].
    intros (u & Hu & _). by rewrite lookup_empty in Hu.
  - intros k u Hu. by rewrite lookup_empty in Hu.
  - intros k u Hu. by rewrite lookup_empty in Hu.
Qed.

Lemma utxo_inv_add s h i o e :
  utxo_inv s -> op_consistent s (LAdd h i o e) -> utxo_inv (add_utxo s h i o e).
Proof.
  intros [Hi Hk Hs] Hc. simpl in Hc. unfold add_utxo. split; simpl.
  - intros a k. destruct (decide (a = to_address o)) as [->|Ha].
    + rewrite lookup_default_insert_eq, elem_of_union, elem_of_singleton, Hi. split.
      * intros [->|(u & Hu & Hsp & Hau)].
        -- eexists. by rewrite lookup_insert_eq.
        -- destruct (decide (k = (h, i))) as [->|Hne].
           ++ eexists. by rewrite lookup_insert_eq.
           ++ exists u. by rewrite lookup_insert_ne by done.
      * intros (u & Hu & Hsp & Hau). destruct (decide (k = (h, i))) as [->|Hne]; [by left|].
        rewrite lookup_insert_ne in Hu by done. right. by exists u.
    + rewrite lookup_default_insert_ne, Hi by done. split.
      * intros (u & Hu & Hsp & Hau). exists u. split; [|done].
        rewrite lookup_insert_ne; [done|]. intros <-. apply Ha. rewrite <- Hau. by apply Hc.
      * intros (u & Hu & Hsp & Hau). exists u. split; [|done].
        destruct (decide (k = (h, i))) as [->|Hne].
        -- rewrite lookup_insert_eq in Hu. injection Hu as <-. by simpl in Hau.
        -- by rewrite lookup_insert_ne in Hu by done.
  - intros k u [[<- <-]|[Hne Hu]]%lookup_insert_Some; [done|by apply Hk].
  - intros k u [[<- <-]|[Hne Hu]]%lookup_insert_Some; [done|by eapply Hs].
Qed.

Lemma utxo_inv_spend s h i t : utxo_inv s -> utxo_inv (spend_utxo s h i t).1.
Proof.
  intros [Hi Hk Hs]. unfold spend_utxo. destruct (utxos s !! (h, i)) as [u|] eqn:Eu; [|done].
  destruct (u_is_spent u) eqn:Esp; [done|]. split; simpl.
  - intros a k. destruct (decide (a = to_address (u_output u))) as [->|Ha].
    + rewrite lookup_default_insert_eq, elem_of_difference, elem_of_singleton, Hi. split.
      * intros [(v & Hv & ?) Hne]. exists v. by rewrite lookup_insert_ne by done.
      * intros (v & [[<- <-]|[Hne Hv]]%lookup_insert_Some & Hsp & Hav); [done|].
        split; [by exists v | done].
    + rewrite lookup_default_insert_ne, Hi by done. split.
      * intros (v & Hv & Hsp & Hav). exists v. split; [|done].
        rewrite lookup_insert_ne; [done|]. intros <-. congruence.
      * intros (v & [[<- <-]|[Hne Hv]]%lookup_insert_Some & Hsp & Hav); [done|]. by exists v.
  - intros k v [[<- <-]|[Hne Hv]]%lookup_insert_Some; [by apply (Hk _ u) | by apply Hk].
  - intros k v [[<- <-]|[Hne Hv]]%lookup_insert_Some; [done | by eapply Hs].
Qed.

(** Staking leaves the outputs and the index alone. *)
Lemma utxo_inv_same s s' :
  utxos s' = utxos s -> by_address s' = by_address s -> utxo_inv s -> utxo_inv s'.
Proof. intros E1 E2 [Hi Hk Hs]. split; rewrite ?E1, ?E2; done. Qed.

Lemma ledger_step_inv s op : utxo_inv s -> op_consistent s op -> utxo_inv (ledger_step s op).
Proof.
  intros Hinv Hc. destruct op; simpl.
  - by apply utxo_inv_add.
  - by apply utxo_inv_spend.
  - by apply (utxo_inv_same s).
  - unfold remove_stake. case_match; by apply (utxo_inv_same s).
Qed.

Lemma ledger_reachable_inv s : ledger_reachable s -> utxo_inv s.
Proof. induction 1; [apply utxo_inv_new | by apply ledger_step_inv]. Qed.

(** ** Queries *)

Section QueryLemmas.
Context {order : SetOrder outpoint}.

Lemma foldl_sum_map {A} (f : A -> Z) (g : Z -> A -> Z) l a :
  (forall t x, g t x = t + f x)%Z -> foldl g a l = (a + sumZ (map f l))%Z.
Proof. intros Hg. revert a. induction l; intros; simpl; [lia|]. rewrite IHl, Hg. lia. Qed.

Lemma foldl_collect {A B} (f : A -> option B) (g : list B -> A -> list B) l r :
  (forall r x, g r x = match f x with Some y => r ++ [y] | None => r end) ->
  foldl g r l = r ++ omap f l.
Proof.
  intros Hg. revert r. induction l as [|x l IH]; intros r; simpl; [by rewrite app_nil_r|].
  rewrite IH, Hg. destruct (f x); [|done]. by rewrite <- app_assoc.
Qed.

Definition spendable_at (s : UTXOSet) (e : Z) (k : outpoint) : option UTXO :=
  match utxos s !! k with
  | Some u => if spendable e u then Some u else None
  | None => None
  end.

Definition address_outpoints (s : UTXOSet) (a : bytes) : list outpoint :=
  set_order (lookup_default ∅ (by_address s) a).

Lemma get_utxos_omap s a e :
  get_utxos_for_address s a e = omap (spendable_at s e) (address_outpoints s a).
Proof.
  unfold get_utxos_for_address. rewrite (foldl_collect (spendable_at s e)); [done|].
  intros r k. unfold spendable_at. destruct (utxos s !! k); [|done]. by case_match.
Qed.

(** The reported balance is the sum of the values of the outputs reported as spendable. *)
Lemma get_balance_utxos s a e :
  get_balance s a e = sumZ (map (fun u => to_value (u_output u)) (get_utxos_for_address s a e)).
Proof.
  rewrite get_utxos_omap. unfold get_balance.
  rewrite (foldl_sum_map (fun k => match spendable_at s e k with
                                   | Some u => to_value (u_output u) | None => 0%Z end)).
  - fold (address_outpoints s a). rewrite Z.add_0_l.
    induction (address_outpoints s a) as [|k l IH]; [done|]. cbn [map omap list_omap].
    destruct (spendable_at s e k); unfold sumZ in *; cbn [map foldr]; by rewrite IH.
  - intros t k. unfold spendable_at. destruct (utxos s !! k); [|lia]. case_match; lia.
Qed.

Definition owned_by (a : bytes) (u : UTXO) : bool := bool_decide (to_address (u_output u) = a).

Lemma address_outpoints_spec s a k :
  utxo_inv s -> k ∈ address_outpoints s a <->
  exists u, utxos s !! k = Some u /\ negb (u_is_spent u) && owned_by a u = true.
Proof.
  intros [Hi _ _]. unfold address_outpoints. rewrite set_order_perm, elem_of_elements, Hi.
  unfold owned_by. split; intros (u & Hu & Hr); exists u; (split; [done|]).
  - destruct Hr as [-> Ha]. by rewrite bool_decide_true.
  - bool_to_prop. done.
Qed.

Lemma address_outpoints_NoDup s a : NoDup (address_outpoints s a).
Proof. unfold address_outpoints. rewrite set_order_perm. apply NoDup_elements. Qed.

Definition spendable_value (e : Z) (ou : option UTXO) : Z :=
  match ou with
  | Some u => if spendable e u then to_value (u_output u) else 0
  | None => 0
  end.

Lemma get_balance_map_sum s a e :
  utxo_inv s ->
  get_balance s a e =
  map_sum (fun u => if spendable e u && owned_by a u then to_value (u_output u) else 0)%Z
    (utxos s).
Proof.
  intros Hinv. unfold get_balance.
  rewrite (foldl_sum_map (fun k => spendable_value e (utxos s !! k))).
  - fold (address_outpoints s a). rewrite Z.add_0_l.
    etransitivity; [apply (map_sum_keys (fun _ u => negb (u_is_spent u) && owned_by a u));
      [apply address_outpoints_NoDup | intros; by apply address_outpoints_spec]|].
    unfold map_sum. f_equal. apply map_ext. intros [k u]. unfold spendable_value, spendable. simpl.
    by destruct (u_is_spent u), (owned_by a u), (to_lock_epoch (u_output u) <=? e)%Z.
  - intros t k. unfold spendable_value. destruct (utxos s !! k); [|lia]. case_match; lia.
Qed.

(** What the address query returns, as a set. *)
Lemma get_utxos_elem s a e u :
  utxo_inv s -> u ∈ get_utxos_for_address s a e <->
  utxos s !! (u_tx_hash u, u_output_index u) = Some u /\ spendable e u = true /\
  to_address (u_output u) = a.
Proof.
  intros Hinv. rewrite get_utxos_omap, list_elem_of_omap. unfold spendable_at. split.
  - intros (k & Hk & Hu). apply address_outpoints_spec in Hk as (v & Hv & Hp); [|done].
    rewrite Hv in Hu. case_match; [|done]. injection Hu as ->.
    unfold owned_by in Hp. bool_to_prop.
    pose proof (inv_key _ Hinv _ _ Hv) as <-. done.
  - intros (Hu & Hsp & Ha). exists (u_tx_hash u, u_output_index u).
    split; [|by rewrite Hu, Hsp]. apply address_outpoints_spec; [done|]. exists u.
    split; [done|]. unfold owned_by. rewrite bool_decide_true by done.
    unfold spendable in Hsp. by apply andb_true_iff in Hsp as [-> _].
Qed.

End QueryLemmas.

(** ** Supply *)

Definition unspent_value (u : UTXO) : Z := if u_is_spent u then 0 else to_value (u_output u).

(** The total value of the unspent outputs. *)
Definition supply (s : UTXOSet) : Z := map_sum unspent_value (utxos s).

Lemma supply_add_fresh s h i o e :
  utxos s !! (h, i) = None -> supply (add_utxo s h i o e) = (supply s + to_value o)%Z.
Proof. intros Hf. unfold supply, add_utxo. cbn [utxos]. rewrite map_sum_insert by done. apply Z.add_comm. Qed.

Lemma supply_spend s h i t s' u :
  spend_utxo s h i t = (s', Some u) -> supply s' = (supply s - to_value (u_output u))%Z.
Proof.
  unfold spend_utxo, supply. destruct (utxos s !! (h, i)) as [v|] eqn:Ev; [|done].
  destruct (u_is_spent v) eqn:Esp; [done|]. intros [= <- <-]. cbn [utxos].
  rewrite (map_sum_update _ _ _ v) by done. unfold unspent_value at 2 3. rewrite Esp.
  cbn [mark_spent u_is_spent u_output]. lia.
Qed.

(** When a spend succeeds, and what it leaves. *)
Lemma spend_utxo_Some s h i t u :
  utxos s !! (h, i) = Some u -> u_is_spent u = false ->
  exists s', spend_utxo s h i t = (s', Some (mark_spent t u)) /\
    utxos s' = <[(h, i) := mark_spent t u]> (utxos s) /\ staked s' = staked s.
Proof. intros Hu Hsp. unfold spend_utxo. rewrite Hu, Hsp. eauto. Qed.

Lemma spend_utxo_inv s h i t s' u :
  spend_utxo s h i t = (s', Some u) ->
  exists v, utxos s !! (h, i) = Some v /\ u_is_spent v = false /\ u = mark_spent t v /\
    utxos s' = <[(h, i) := u]> (utxos s) /\ staked s' = staked s.
Proof.
  unfold spend_utxo. destruct (utxos s !! (h, i)) as [v|]; [|done].
  destruct (u_is_spent v) eqn:E; [done|]. intros [= <- <-]. eauto 10.
Qed.

Lemma spend_utxo_None s h i t :
  match utxos s !! (h, i) with Some u => u_is_spent u = true | None => True end ->
  spend_utxo s h i t = (s, None).
Proof. unfold spend_utxo. destruct (utxos s !! (h, i)) as [u|]; [by intros ->|done]. Qed.

(** ** Spent outputs stay spent *)

Definition re_adds (h : bytes) (i : Z) (op : ledger_op) : bool :=
  match op with LAdd h' i' _ _ => bool_decide ((h', i') = (h, i)) | _ => false end.

Lemma ledger_step_spent s op h i u :
  utxos s !! (h, i) = Some u -> u_is_spent u = true -> re_adds h i op = false ->
  utxos (ledger_step s op) !! (h, i) = Some u.
Proof.
  intros Hu Hsp Hre. destruct op as [h' i' o e|h' i' t|a n|a n]; simpl in *.
  - bool_to_prop. by rewrite lookup_insert_ne.
  - unfold spend_utxo. destruct (utxos s !! (h', i')) as [v|] eqn:Ev; [|done].
    destruct (u_is_spent v) eqn:Ev'; [done|]. simpl.
    rewrite lookup_insert_ne; [done|]. intros [= -> ->]. congruence.
  - done.
  - unfold remove_stake. by case_match.
Qed.

Lemma ledger_run_spent ops s h i u :
  utxos s !! (h, i) = Some u -> u_is_spent u = true ->
  forallb (fun op => negb (re_adds h i op)) ops = true ->
  utxos (foldl ledger_step s ops) !! (h, i) = Some u.
Proof.
  revert s. induction ops as [|op ops IH]; intros s Hu Hsp Hre; [done|].
  simpl in *. bool_to_prop. apply IH; [|done..]. by apply ledger_step_spent.
Qed.

(** ** The registry, address by address *)

(** The root and the number of rotations of one address. *)
Definition registry_view_step (a : bytes) (v : option (bytes * Z)) (op : registry_op)
    : option (bytes * Z) :=
  match op with
  | RRegister a' root =>
      if bool_decide (a' = a) then match v with None => Some (root, 0%Z) | Some _ => v end else v
  | RRotate a' root =>
      if bool_decide (a' = a) then match v with None => None | Some (_, n) => Some (root, n + 1)%Z end
      else v
  end.

Definition registry_view (a : bytes) (ops : list registry_op) : option (bytes * Z) :=
  foldl (registry_view_step a) None ops.

(** The concrete registry at [a] is the abstract cell [v]. *)
Definition registry_rel (r : AuthRegistry) (a : bytes) (v : option (bytes * Z)) : Prop :=
  is_registered r a = bool_decide (is_Some v) /\
  get_auth_root r a = fst <$> v /\ rotation_counts r !! a = snd <$> v.

Lemma registry_step_sim r a v op :
  registry_rel r a v -> registry_rel (registry_step r op).1 a (registry_view_step a v op).
Proof.
  unfold registry_rel, is_registered, get_auth_root. intros (Hr & Hroot & Hcnt).
  destruct op as [a' root|a' root]; simpl; unfold register_via_tx, rotate_via_tx;
    (destruct (decide (a' = a)) as [->|Hne];
      [rewrite (bool_decide_true (a = a)) by done; rewrite Hr
      |rewrite (bool_decide_false (a' = a)) by done; destruct (bool_decide (a' ∈ _)); simpl]).
  - destruct v as [[root' n]|]; simpl; [by rewrite Hr|].
    rewrite bool_decide_true by set_solver. by rewrite !lookup_insert_eq.
  - done.
  - rewrite !lookup_insert_ne by done. rewrite <- Hr. split; [|done].
    apply bool_decide_ext. set_solver.
  - destruct v as [[root' n]|]; simpl; [|by rewrite Hr].
    rewrite Hr. unfold lookup_default. rewrite Hcnt, !lookup_insert_eq. done.
  - by rewrite !lookup_insert_ne by done.
  - done.
Qed.

(** ** Properties *)

Section LedgerProperties.
Context {order : SetOrder outpoint}.

(** C16. In every state reached by any history of adds (each under the address the output
    already has), spends, stakes and unstakes, the index of an address is exactly the set of
    its unspent outputs, entries are stored under their own outpoint, and an entry is marked
    spent exactly when it names its spender. *)
Theorem utxo_inv_reachable (s : UTXOSet) (Hr : ledger_reachable s) : utxo_inv s.
Proof. by apply ledger_reachable_inv. Qed.

(** In every reachable state the balance of an address, computed from the index in any
    iteration order, is the sum over the whole set of the values of its unspent, unlocked
    outputs, and the address query returns exactly those outputs. *)
Theorem get_balance_spec (s : UTXOSet) (a : bytes) (e : Z) (Hr : ledger_reachable s) :
  get_balance s a e =
    map_sum (fun u => if negb (u_is_spent u) && (to_lock_epoch (u_output u) <=? e)%Z
                           && bool_decide (to_address (u_output u) = a)
                      then to_value (u_output u) else 0)%Z (utxos s) /\
  get_balance s a e = sumZ (map (fun u => to_value (u_output u)) (get_utxos_for_address s a e)) /\
  forall u, u ∈ get_utxos_for_address s a e <->
    utxos s !! (u_tx_hash u, u_output_index u) = Some u /\ u_is_spent u = false /\
    (to_lock_epoch (u_output u) <= e)%Z /\ to_address (u_output u) = a.
Proof.
  apply ledger_reachable_inv in Hr. split; [by apply get_balance_map_sum|].
  split; [apply get_balance_utxos|]. intros u. rewrite get_utxos_elem by done.
  unfold spendable. rewrite andb_true_iff, negb_true_iff, Z.leb_le. tauto.
Qed.

(** Once a spend of an outpoint succeeds, every later spend of it returns [None] and
    leaves the set as it is, and the entry keeps its first spender, whatever adds of other
    outpoints, spends, stakes and unstakes come in between. *)
Theorem spend_at_most_once (s s' : UTXOSet) (h : bytes) (i : Z) (t t' : bytes) (u : UTXO)
    (ops : list ledger_op)
    (Hs : spend_utxo s h i t = (s', Some u))
    (Hops : forallb (fun op => negb (re_adds h i op)) ops = true) :
  let s'' := foldl ledger_step s' ops in
  spend_utxo s'' h i t' = (s'', None) /\
  u_spent_by <$> get_utxo s'' h i = Some (Some t).
Proof.
  intros s''. apply spend_utxo_inv in Hs as (v & Hv & Hsp & -> & Hu & _).
  assert (E : utxos s'' !! (h, i) = Some (mark_spent t v)).
  { apply ledger_run_spent; [|done|done]. by rewrite Hu, lookup_insert_eq. }
  split; [apply spend_utxo_None; by rewrite E | unfold get_utxo; by rewrite E].
Qed.

(** C22. The registry behaves, address by address, like an independent cell that the first
    registration fills, that later registrations do not change and that rotations overwrite
    and count, once it is filled. *)
Theorem registry_run_spec (ops : list registry_op) (a : bytes) :
  let r := registry_run auth_registry_new ops in
  is_registered r a = bool_decide (is_Some (registry_view a ops)) /\
  get_auth_root r a = fst <$> registry_view a ops /\
  rotation_counts r !! a = snd <$> registry_view a ops.
Proof.
  change (registry_rel (registry_run auth_registry_new ops) a (registry_view a ops)).
  unfold registry_run, registry_view.
  assert (registry_rel auth_registry_new a None) as Hrel.
  { unfold registry_rel, is_registered, get_auth_root. simpl. rewrite !lookup_empty.
    by rewrite bool_decide_false by set_solver. }
  revert Hrel. generalize auth_registry_new, (@None (bytes * Z)).
  induction ops as [|op ops IH]; intros r v Hrel; [done|]. simpl. by apply IH, registry_step_sim.
Qed.

End LedgerProperties.

(** ** Concrete runs *)

Definition alice : bytes := replicate 64 Byte.x61.

Definition bob : bytes := replicate 64 Byte.x62.

Definition coin (value : Z) (owner : bytes) : TxOutput := mkTxOutput value owner 0 [].

(** Two outputs of Alice and one of Bob; the first of Alice's is spent. *)
Definition demo_ledger : UTXOSet :=
  foldl ledger_step utxo_set_new
    [LAdd (b: "t1") 0 (coin 700 alice) 1; LAdd (b: "t1") 1 (coin 900 bob) 1;
     LAdd (b: "t2") 0 (coin 800 alice) 2; LSpend (b: "t1") 0 (b: "t3")].

Lemma demo_ledger_reachable : ledger_reachable demo_ledger.
Proof.
  unfold demo_ledger. cbn [foldl].
  repeat first [apply ledger_reachable_new
               | apply ledger_reachable_step;
                 [|exact I || (intros u Hu; vm_compute in Hu; discriminate Hu)]].
Qed.

Lemma utxo_inv_reachable_witness : utxo_inv demo_ledger.
Proof. apply utxo_inv_reachable. apply demo_ledger_reachable. Defined.

Lemma get_balance_spec_witness : @get_balance elements_order demo_ledger alice 2 = 800%Z.
Proof.
  destruct (@get_balance_spec elements_order demo_ledger alice 2 demo_ledger_reachable) as [E _].
  rewrite E. by vm_compute.
Defined.

Definition demo_spend : UTXOSet * option UTXO := spend_utxo demo_ledger (b: "t2") 0 (b: "t4").

Lemma spend_at_most_once_witness :
  is_Some demo_spend.2 /\
  (spend_utxo (foldl ledger_step demo_spend.1 [LAddStake alice 5; LSpend (b: "t1") 1 (b: "t5")])
     (b: "t2") 0 (b: "t6")).2 = None.
Proof.
  assert (Hs : is_Some demo_spend.2) by (vm_compute; eauto).
  split; [exact Hs|]. destruct demo_spend as [s' [u|]] eqn:E; [|by destruct Hs].
  destruct (spend_at_most_once _ _ _ _ _ (b: "t6") _
              [LAddStake alice 5; LSpend (b: "t1") 1 (b: "t5")] E) as [E2 _].
  - by vm_compute.
  - exact (f_equal snd E2).
Defined.
