(* ===== verification/Sharded.v ===== *)
(** * The sharded UTXO set ([src/src/performance.py], lines 174-306)

    [ShardedUTXOSet] splits the outputs of [UTXOSet] over 256 dictionaries by the first byte of
    the transaction hash, each behind a lock, and keeps one address index behind another.  An
    operation is the sequence of its critical sections; section bodies are definitions of
    their own.  Main results: run one after the other, the operations give exactly the answers
    of [UTXOSet] ([sharded_refines_ledger]); with the critical sections of any number of
    threads interleaved, an output is spent once, and once every thread is done the balances
    count exactly the unspent outputs ([sharded_concurrent]); fewer than 256 shards raise
    [IndexError] ([few_shards_raise]). *)

From stdpp Require Import prelude list gmap strings.
From Stdlib Require Import Strings.Byte ZArith Lia.
From S2P Require Import Prelude.
From S2P Require Import Crypto.
From S2P Require Import Transaction.
From S2P Require Import Ledger.

Set Default Goal Selector "!".

(** ** Data *)

Record ShardedUTXOSet := mkShardedUTXOSet {
  num_shards : nat;
  shards : list (gmap outpoint UTXO);
  by_address : gmap bytes (gset outpoint);
}.

Definition sharded_new (num_shards : nat) : ShardedUTXOSet :=
  mkShardedUTXOSet num_shards (replicate num_shards ∅) ∅.

(** [_get_shard]. *)
Definition get_shard (tx_hash : bytes) : nat :=
  match tx_hash with
  | b :: _ => Z.to_nat (byte_val b)
  | [] => 0
  end.

(** ** Critical sections *)

(** [self.locks[shard_id]] and [self.shards[shard_id]]. *)
Definition shard_at (s : ShardedUTXOSet) (shard_id : nat) : res (gmap outpoint UTXO) :=
  match shards s !! shard_id with
  | Some shard => Ok shard
  | None => Err (IndexError "list index out of range")
  end.

Definition with_shard (s : ShardedUTXOSet) (shard_id : nat) (shard : gmap outpoint UTXO) : ShardedUTXOSet :=
  mkShardedUTXOSet (num_shards s) (<[shard_id := shard]> (shards s)) (by_address s).

(** Under the shard's lock: [self.shards[shard_id][key] = utxo]. *)
Definition store (s : ShardedUTXOSet) (key : outpoint) (utxo : UTXO) : res ShardedUTXOSet :=
  let shard_id := get_shard key.1 in
  shard ← shard_at s shard_id;
  Ok (with_shard s shard_id (<[key := utxo]> shard)).

(** Under the address lock: [self.by_address[address].add(key)]. *)
Definition index (s : ShardedUTXOSet) (address : bytes) (key : outpoint) : ShardedUTXOSet :=
  mkShardedUTXOSet (num_shards s) (shards s)
    (<[address := {[key]} ∪ lookup_default ∅ (by_address s) address]> (by_address s)).

(** Under the address lock: [self.by_address[address].discard(key)]. *)
Definition unindex (s : ShardedUTXOSet) (address : bytes) (key : outpoint) : ShardedUTXOSet :=
  mkShardedUTXOSet (num_shards s) (shards s)
    (<[address := lookup_default ∅ (by_address s) address ∖ {[key]}]> (by_address s)).

(** Under the shard's lock: the object is marked in place, or [None] is returned. *)
Definition mark (s : ShardedUTXOSet) (key : outpoint) (spending_tx : bytes)
    : res (ShardedUTXOSet * option UTXO) :=
  let shard_id := get_shard key.1 in
  shard ← shard_at s shard_id;
  match shard !! key with
  | Some utxo =>
      if negb (u_is_spent utxo) then
        let utxo := mark_spent spending_tx utxo in
        Ok (with_shard s shard_id (<[key := utxo]> shard), Some utxo)
      else Ok (s, None)
  | None => Ok (s, None)
  end.

(** ** Operations *)

Definition add_utxo (s : ShardedUTXOSet) (tx_hash : bytes) (output_index : Z) (output : TxOutput)
    (epoch : Z) : res ShardedUTXOSet :=
  let key := (tx_hash, output_index) in
  s ← store s key (mkUTXO tx_hash output_index output epoch false None);
  Ok (index s (to_address output) key).

Definition get_utxo (s : ShardedUTXOSet) (tx_hash : bytes) (output_index : Z) : res (option UTXO) :=
  shard ← shard_at s (get_shard tx_hash); Ok (shard !! (tx_hash, output_index)).

Definition spend_utxo (s : ShardedUTXOSet) (tx_hash : bytes) (output_index : Z) (spending_tx : bytes)
    : res (ShardedUTXOSet * option UTXO) :=
  let key := (tx_hash, output_index) in
  '(s, found) ← mark s key spending_tx;
  match found with
  | Some utxo => Ok (unindex s (to_address (u_output utxo)) key, Some utxo)
  | None => Ok (s, None)
  end.

(** [shard_groups]: the positions and outpoints to look up, by shard. *)
Definition group_refs (refs : list outpoint) : gmap nat (list (nat * outpoint)) :=
  foldl (fun groups '(i, key) =>
      let shard_id := get_shard key.1 in
      <[shard_id := lookup_default [] groups shard_id ++ [(i, key)]]> groups)
    ∅ (imap pair refs).

(** One thread: a shard that does not exist ends it before it writes anything. *)
Definition lookup_shard (s : ShardedUTXOSet) (results : list (option UTXO))
    (group : nat * list (nat * outpoint)) : list (option UTXO) :=
  match shards s !! group.1 with
  | None => results
  | Some shard => foldl (fun results '(i, key) => <[i := shard !! key]> results) results group.2
  end.

(** The threads write to different positions of [results]; they are run in any order. *)
Definition batch_lookup (threads : gmap nat (list (nat * outpoint)) -> list (nat * list (nat * outpoint)))
    (s : ShardedUTXOSet) (refs : list outpoint) : list (option UTXO) :=
  foldl (lookup_shard s) (replicate (length refs) None) (threads (group_refs refs)).

Section Queries.
Context {order : SetOrder outpoint}.

(** The loop over a snapshot of the index; the [k]-th lookup sees the set [view k]. *)
Fixpoint balance_loop (view : nat -> ShardedUTXOSet) (current_epoch : Z) (k : nat) (total : Z)
    (keys : list outpoint) : res Z :=
  match keys with
  | [] => Ok total
  | key :: keys =>
      found ← get_utxo (view k) key.1 key.2;
      let total :=
        match found with
        | Some utxo => if spendable current_epoch utxo then (total + to_value (u_output utxo))%Z else total
        | None => total
        end in
      balance_loop view current_epoch (S k) total keys
  end.

Definition get_balance (s : ShardedUTXOSet) (address : bytes) (current_epoch : Z) : res Z :=
  balance_loop (fun _ => s) current_epoch 0 0 (set_order (lookup_default ∅ (by_address s) address)).

End Queries.

Definition shard_stats (s : ShardedUTXOSet) : list nat := map size (shards s).

Definition total_utxos (s : ShardedUTXOSet) : nat := sum_list (shard_stats s).

(** ** Sequential calls *)

Inductive sharded_op :=
  | SAdd (tx_hash : bytes) (output_index : Z) (output : TxOutput) (epoch : Z)
  | SSpend (tx_hash : bytes) (output_index : Z) (spending_tx : bytes)
  | SGet (tx_hash : bytes) (output_index : Z)
  | SBatch (refs : list outpoint)
  | SBalance (address : bytes) (current_epoch : Z)
  | STotal.

Inductive answer :=
  | ADone
  | AUtxo (found : option UTXO)
  | AUtxos (found : list (option UTXO))
  | ABalance (total : Z)
  | ACount (n : nat).

Section Runs.
Context {order : SetOrder outpoint}.
Variable threads : gmap nat (list (nat * outpoint)) -> list (nat * list (nat * outpoint)).

Definition sharded_step (s : ShardedUTXOSet) (op : sharded_op) : res (ShardedUTXOSet * answer) :=
  match op with
  | SAdd h i o e => s ← add_utxo s h i o e; Ok (s, ADone)
  | SSpend h i t => '(s, found) ← spend_utxo s h i t; Ok (s, AUtxo found)
  | SGet h i => found ← get_utxo s h i; Ok (s, AUtxo found)
  | SBatch refs => Ok (s, AUtxos (batch_lookup threads s refs))
  | SBalance a e => total ← get_balance s a e; Ok (s, ABalance total)
  | STotal => Ok (s, ACount (total_utxos s))
  end.

Fixpoint sharded_run (s : ShardedUTXOSet) (ops : list sharded_op) : res (ShardedUTXOSet * list answer) :=
  match ops with
  | [] => Ok (s, [])
  | op :: ops =>
      '(s, a) ← sharded_step s op;
      '(s, l) ← sharded_run s ops;
      Ok (s, a :: l)
  end.

(** The same calls on the flat set of [transaction.py]. *)
Definition flat_step (f : UTXOSet) (op : sharded_op) : UTXOSet * answer :=
  match op with
  | SAdd h i o e => (Ledger.add_utxo f h i o e, ADone)
  | SSpend h i t => let '(f, found) := Ledger.spend_utxo f h i t in (f, AUtxo found)
  | SGet h i => (f, AUtxo (Ledger.get_utxo f h i))
  | SBatch refs => (f, AUtxos (map (fun key => Ledger.get_utxo f key.1 key.2) refs))
  | SBalance a e => (f, ABalance (Ledger.get_balance f a e))
  | STotal => (f, ACount (size (utxos f)))
  end.

Fixpoint flat_run (f : UTXOSet) (ops : list sharded_op) : UTXOSet * list answer :=
  match ops with
  | [] => (f, [])
  | op :: ops =>
      let '(f, a) := flat_step f op in
      let '(f, l) := flat_run f ops in (f, a :: l)
  end.

End Runs.

(** ** Shards and the flat set *)

(** Each outpoint is looked up in its own shard. *)
Definition looks (s : ShardedUTXOSet) (m : gmap outpoint UTXO) : Prop :=
  forall k, exists shard, shards s !! get_shard k.1 = Some shard /\ shard !! k = m !! k.

Record represents (s : ShardedUTXOSet) (f : UTXOSet) : Prop := {
  rep_lookup : looks s (utxos f);
  rep_index : by_address s = Ledger.by_address f;
  rep_size : total_utxos s = size (utxos f);
}.

Lemma get_shard_lt h : get_shard h < 256.
Proof. unfold get_shard. destruct h as [|b h]; [lia|]. pose proof (byte_val_range b). lia. Qed.

Lemma represents_new : represents (sharded_new 256) utxo_set_new.
Proof.
  split; [|done|].
  - intros k. exists ∅. split; [|done]. cbn [sharded_new shards]. apply lookup_replicate. split; [done|].
    apply get_shard_lt.
  - unfold total_utxos, shard_stats, sharded_new. cbn [shards utxo_set_new utxos]. rewrite map_size_empty.
    generalize 256. induction n as [|n IH]; [done|]. simpl. by rewrite map_size_empty, IH.
Qed.

Lemma shard_at_Some s id shard : shards s !! id = Some shard -> shard_at s id = Ok shard.
Proof. unfold shard_at. by intros ->. Qed.

Lemma sum_sizes_insert (l : list (gmap outpoint UTXO)) i m m' :
  l !! i = Some m -> sum_list (map size (<[i:=m']> l)) + size m = sum_list (map size l) + size m'.
Proof.
  revert i. induction l as [|x l IH]; intros [|i] E; try done; simpl in *.
  - injection E as ->. lia.
  - pose proof (IH i E). lia.
Qed.

(** Writing an entry of a shard is writing it in the flat map. *)
Lemma looks_put s m k u shard index' :
  looks s m -> shards s !! get_shard k.1 = Some shard ->
  looks (mkShardedUTXOSet (num_shards s) (<[get_shard k.1 := <[k:=u]> shard]> (shards s)) index') (<[k:=u]> m).
Proof.
  intros Hl Hsh k'. cbn [shards]. destruct (Hl k') as (shard' & E & Ek).
  destruct (decide (get_shard k'.1 = get_shard k.1)) as [Heq|Hne].
  - rewrite Heq, list_lookup_insert_eq by (by eapply lookup_lt_Some). eexists. split; [done|].
    rewrite Heq, Hsh in E. injection E as <-.
    destruct (decide (k = k')) as [->|Hk]; [by rewrite !lookup_insert_eq|by rewrite !lookup_insert_ne].
  - rewrite list_lookup_insert_ne by done. exists shard'. split; [done|].
    rewrite lookup_insert_ne; [done|]. by intros <-.
Qed.

Lemma represents_put s f k u shard index' staked' :
  represents s f -> shards s !! get_shard k.1 = Some shard ->
  represents (mkShardedUTXOSet (num_shards s) (<[get_shard k.1 := <[k:=u]> shard]> (shards s)) index')
    (mkUTXOSet (<[k:=u]> (utxos f)) index' staked').
Proof.
  intros [Hl Hi Hs] Hsh. split; [|done|].
  - by apply looks_put.
  - unfold total_utxos, shard_stats in *. cbn [shards utxos].
    pose proof (sum_sizes_insert (shards s) _ _ (<[k:=u]> shard) Hsh) as Hsum.
    destruct (Hl k) as (shard' & E & Ek). rewrite Hsh in E. injection E as <-.
    rewrite map_size_insert, Ek in Hsum. rewrite map_size_insert.
    destruct (utxos f !! k); cbn [id] in *; lia.
Qed.

Section Refinement.
Context {order : SetOrder outpoint}.

Lemma get_utxo_looks s m h i : looks s m -> get_utxo s h i = Ok (m !! (h, i)).
Proof.
  intros Hr. destruct (Hr (h, i)) as (shard & E & Ek). cbn [fst] in E.
  unfold get_utxo. rewrite (shard_at_Some _ _ _ E). cbn [mbind res_bind]. by rewrite Ek.
Qed.

Lemma balance_loop_looks s m e k total keys :
  looks s m ->
  balance_loop (fun _ => s) e k total keys =
    Ok (foldl (fun total key =>
      match m !! key with
      | Some utxo => if spendable e utxo then (total + to_value (u_output utxo))%Z else total
      | None => total
      end) total keys).
Proof.
  intros Hr. revert k total. induction keys as [|[h i] keys IH]; intros k total; [done|].
  cbn [balance_loop fst snd]. rewrite (get_utxo_looks s m) by done. cbn [mbind res_bind]. rewrite IH.
  cbn [foldl]. by destruct (m !! (h, i)).
Qed.

(** *** Batches *)

Definition write_results (look : outpoint -> option UTXO) (results : list (option UTXO))
    (items : list (nat * outpoint)) : list (option UTXO) :=
  foldl (fun results '(i, key) => <[i := look key]> results) results items.

Lemma write_results_length look results items : length (write_results look results items) = length results.
Proof.
  revert results. induction items as [|[i key] items IH]; intros results; [done|]. simpl.
  by rewrite IH, length_insert.
Qed.

(** When every item of a position carries the same outpoint, the order does not matter. *)
Lemma write_results_lookup look results items j (key : outpoint) :
  j < length results -> (forall key', (j, key') ∈ items -> key' = key) ->
  write_results look results items !! j =
    if bool_decide ((j, key) ∈ items) then Some (look key) else results !! j.
Proof.
  revert results. induction items as [|[i k] items IH] using rev_ind; intros results Hj Hk; [done|].
  unfold write_results. rewrite foldl_app. cbn [foldl]. fold (write_results look results items).
  destruct (decide (i = j)) as [->|Hij].
  - rewrite list_lookup_insert_eq by (by rewrite write_results_length).
    rewrite (Hk k) by set_solver. rewrite bool_decide_eq_true_2; [done|set_solver].
  - rewrite list_lookup_insert_ne by done. rewrite IH by (done || set_solver).
    assert (E : (j, key) ∈ items ++ [(i, k)] <-> (j, key) ∈ items).
    { rewrite elem_of_app, list_elem_of_singleton. split; [intros [?|[= ? ?]]; [done|congruence]|by left]. }
    by rewrite (bool_decide_ext _ _ E).
Qed.

Lemma group_refs_spec refs id item :
  item ∈ lookup_default [] (group_refs refs) id <-> item ∈ imap pair refs /\ get_shard item.2.1 = id.
Proof.
  unfold group_refs. generalize (imap pair refs). intros l. induction l as [|[i key] l IH] using rev_ind.
  { cbn [foldl]. unfold lookup_default. rewrite lookup_empty. simpl. set_solver. }
  rewrite foldl_app. cbn [foldl]. rewrite elem_of_app, list_elem_of_singleton.
  destruct (decide (get_shard key.1 = id)) as [<-|Hne].
  - rewrite lookup_default_insert_eq, elem_of_app, list_elem_of_singleton, IH.
    split; [intros [[? ?]| ->]; tauto|]. intros [[?|?] ?]; [by left|by right].
  - rewrite lookup_default_insert_ne, IH by done. split; [tauto|]. intros [[?| ->] ?]; [done|by destruct Hne].
Qed.

Lemma lookup_shard_write s f results group :
  represents s f -> (forall item, item ∈ group.2 -> get_shard item.2.1 = group.1) ->
  lookup_shard s results group = write_results (fun key => utxos f !! key) results group.2.
Proof.
  intros Hr Hg. destruct group as [id items]. unfold lookup_shard. cbn [fst snd] in *.
  destruct items as [|[i0 k0] items]; [by destruct (shards s !! id)|].
  destruct (rep_lookup s f Hr k0) as (shard & E & _).
  pose proof (Hg (i0, k0) ltac:(set_solver)) as Hk0. cbn [snd] in Hk0. rewrite Hk0 in E. rewrite E.
  clear Hk0. unfold write_results. revert results Hg. generalize ((i0, k0) :: items). clear items i0 k0.
  intros items. induction items as [|[i k] items IH]; intros results Hg; [done|]. cbn [foldl].
  rewrite IH by set_solver. f_equal. f_equal. destruct (rep_lookup s f Hr k) as (shard' & E' & Ek).
  pose proof (Hg (i, k) ltac:(set_solver)) as Hk. cbn [snd] in Hk. rewrite Hk, E in E'.
  injection E' as <-. exact Ek.
Qed.

Lemma lookup_shards_write s f results groups :
  represents s f -> (forall g item, g ∈ groups -> item ∈ g.2 -> get_shard item.2.1 = g.1) ->
  foldl (lookup_shard s) results groups = write_results (fun key => utxos f !! key) results (concat (map snd groups)).
Proof.
  intros Hr. revert results. induction groups as [|g groups IH]; intros results Hg; [done|].
  cbn [foldl map concat]. rewrite IH by set_solver. unfold write_results. rewrite foldl_app. f_equal.
  apply lookup_shard_write; [done|]. intros item Hi. apply Hg; [set_solver|done].
Qed.

Variable threads : gmap nat (list (nat * outpoint)) -> list (nat * list (nat * outpoint)).
Hypothesis threads_run : forall groups, threads groups ≡ₚ map_to_list groups.

Lemma batch_lookup_flat s f refs :
  represents s f -> batch_lookup threads s refs = map (fun key => Ledger.get_utxo f key.1 key.2) refs.
Proof.
  intros Hr. unfold batch_lookup. set (groups := threads (group_refs refs)).
  assert (Hin : forall id items, (id, items) ∈ groups <-> group_refs refs !! id = Some items).
  { intros id items. unfold groups. by rewrite threads_run, elem_of_map_to_list. }
  assert (Hitem : forall id items item, (id, items) ∈ groups -> item ∈ items ->
    item ∈ imap pair refs /\ get_shard item.2.1 = id).
  { intros id items item Hg Hi. apply group_refs_spec. unfold lookup_default.
    by rewrite (proj1 (Hin id items) Hg). }
  rewrite (lookup_shards_write s f) by (done || (intros [id items] item Hg Hi; by eapply Hitem)).
  apply list_eq. intros j. rewrite lookup_map. destruct (refs !! j) as [key|] eqn:Ej; cbn [fmap option_fmap option_map].
  - assert (Hj : j < length (replicate (length refs) (@None UTXO))).
    { rewrite length_replicate. by eapply lookup_lt_Some. }
    rewrite (write_results_lookup _ _ _ _ key Hj).
    + rewrite bool_decide_eq_true_2; [by destruct key|]. apply list_elem_of_In, in_concat.
      assert (Hpair : (j, key) ∈ imap pair refs).
      { apply list_elem_of_lookup_2 with j. by rewrite list_lookup_imap, Ej. }
      pose proof (proj2 (group_refs_spec refs (get_shard key.1) (j, key)) (conj Hpair eq_refl)) as Hg.
      unfold lookup_default in Hg. destruct (group_refs refs !! get_shard key.1) as [items|] eqn:Eg; [|set_solver].
      exists items. split; [|by apply list_elem_of_In]. apply in_map_iff. exists (get_shard key.1, items).
      split; [done|]. by apply list_elem_of_In, Hin.
    + intros key' Hk'. apply list_elem_of_In, in_concat in Hk' as (items & Hi & Hk').
      apply in_map_iff in Hi as ([id items'] & <- & Hg). apply list_elem_of_In in Hk', Hg.
      destruct (Hitem _ _ _ Hg Hk') as [Hp _]. apply list_elem_of_lookup_1 in Hp as [i Hp].
      apply imap_lookup_Some in Hp as (x & Hx & [= -> ->]). congruence.
  - apply lookup_ge_None_2. rewrite write_results_length, length_replicate. by apply lookup_ge_None_1.
Qed.

Lemma sharded_step_flat s f op :
  represents s f -> exists s', sharded_step threads s op = Ok (s', (flat_step f op).2) /\
    represents s' (flat_step f op).1.
Proof.
  intros Hr. destruct op as [h i o e|h i t|h i|refs|a e|]; cbn [sharded_step flat_step fst snd].
  - destruct (rep_lookup s f Hr (h, i)) as (shard & E & _). unfold add_utxo, store. cbn [fst] in *.
    rewrite (shard_at_Some _ _ _ E). eexists. split; [reflexivity|].
    unfold index, with_shard, Ledger.add_utxo. cbn [num_shards shards by_address]. rewrite (rep_index s f Hr).
    by apply (represents_put s f (h, i)).
  - destruct (rep_lookup s f Hr (h, i)) as (shard & E & Ek). unfold spend_utxo, mark, Ledger.spend_utxo.
    cbn [fst] in *. rewrite (shard_at_Some _ _ _ E). cbn [mbind res_bind]. rewrite Ek.
    destruct (utxos f !! (h, i)) as [u|]; [|by exists s]. destruct (u_is_spent u); cbn [negb]; [by exists s|].
    eexists. split; [reflexivity|]. unfold unindex, with_shard. cbn [num_shards shards by_address].
    rewrite (rep_index s f Hr). by apply (represents_put s f (h, i)).
  - rewrite (get_utxo_looks s _ h i (rep_lookup s f Hr)). by exists s.
  - rewrite (batch_lookup_flat s f) by done. by exists s.
  - unfold get_balance. rewrite (balance_loop_looks s _ _ _ _ _ (rep_lookup s f Hr)). rewrite (rep_index s f Hr). by exists s.
  - rewrite (rep_size s f Hr). by exists s.
Qed.

(** C11. Sharding is invisible.  Starting empty with 256 shards, any sequence of additions, spends,
    single and batched lookups, balances and counts succeeds, and answers what the flat set of
    [transaction.py] answers, in whatever order the threads of the batches run. *)
Theorem sharded_refines_ledger (ops : list sharded_op) :
  exists s', sharded_run threads (sharded_new 256) ops = Ok (s', (flat_run utxo_set_new ops).2) /\
    represents s' (flat_run utxo_set_new ops).1.
Proof.
  assert (Hgen : forall s f, represents s f -> exists s', sharded_run threads s ops = Ok (s', (flat_run f ops).2) /\
    represents s' (flat_run f ops).1); [|by apply Hgen, represents_new].
  induction ops as [|op ops' IH]; intros s f Hr; [by exists s|]. cbn [sharded_run flat_run].
  destruct (sharded_step_flat s f op Hr) as (s1 & E1 & R1). rewrite E1. cbn [mbind res_bind].
  destruct (flat_step f op) as [f1 a1]. cbn [fst snd] in *. destruct (IH s1 f1 R1) as (s2 & E2 & R2).
  rewrite E2. cbn [mbind res_bind]. destruct (flat_run f1 ops') as [f2 l2]. by exists s2.
Qed.

End Refinement.

(** ** Threads *)

(** What a thread has left to do after its first critical section. *)
Inductive pending :=
  | PIndex (address : bytes) (key : outpoint)
  | PUnindex (address : bytes) (key : outpoint).

Definition finish (s : ShardedUTXOSet) (p : pending) : ShardedUTXOSet :=
  match p with
  | PIndex address key => index s address key
  | PUnindex address key => unindex s address key
  end.

Inductive event :=
  | EStore (key : outpoint) (output : TxOutput) (epoch : Z)
  | EMark (key : outpoint) (spending_tx : bytes) (found : option UTXO)
  | EFinish.

Definition new_utxo (key : outpoint) (output : TxOutput) (epoch : Z) : UTXO :=
  mkUTXO key.1 key.2 output epoch false None.

(** A state of the set and the threads that are between their two sections.  [add_utxo] and
    [spend_utxo] start with a section of a shard; a thread finishes whenever it is scheduled. *)
Inductive conc_step : ShardedUTXOSet * list pending -> event -> ShardedUTXOSet * list pending -> Prop :=
  | step_store s ps key output epoch s' :
      store s key (new_utxo key output epoch) = Ok s' ->
      conc_step (s, ps) (EStore key output epoch) (s', PIndex (to_address output) key :: ps)
  | step_mark s ps key spending_tx s' u :
      mark s key spending_tx = Ok (s', Some u) ->
      conc_step (s, ps) (EMark key spending_tx (Some u)) (s', PUnindex (to_address (u_output u)) key :: ps)
  | step_mark_none s ps key spending_tx s' :
      mark s key spending_tx = Ok (s', None) ->
      conc_step (s, ps) (EMark key spending_tx None) (s', ps)
  | step_finish s ps1 p ps2 :
      conc_step (s, ps1 ++ p :: ps2) EFinish (finish s p, ps1 ++ ps2).

(** The last event comes first. *)
Inductive conc_run : list event -> ShardedUTXOSet * list pending -> Prop :=
  | run_start : conc_run [] (sharded_new 256, [])
  | run_step es x e y : conc_run es x -> conc_step x e y -> conc_run (e :: es) y.

(** The outpoints that were stored, and those whose spending succeeded. *)
Definition stored (es : list event) : list outpoint :=
  omap (fun e => match e with EStore key _ _ => Some key | _ => None end) es.

Definition spent (es : list event) : list outpoint :=
  omap (fun e => match e with EMark key _ (Some _) => Some key | _ => None end) es.

(** The outputs, as the critical sections of the shards leave them. *)
Fixpoint outputs (es : list event) : gmap outpoint UTXO :=
  match es with
  | [] => ∅
  | EStore key output epoch :: es => <[key := new_utxo key output epoch]> (outputs es)
  | EMark key _ (Some u) :: es => <[key := u]> (outputs es)
  | _ :: es => outputs es
  end.

Record conc_inv (es : list event) (s : ShardedUTXOSet) (ps : list pending) : Prop := {
  ci_looks : looks s (outputs es);
  ci_indexed a k : k ∈ lookup_default ∅ (by_address s) a ->
    exists u, outputs es !! k = Some u /\ to_address (u_output u) = a;
  ci_unspent k u : outputs es !! k = Some u -> u_is_spent u = false ->
    k ∈ lookup_default ∅ (by_address s) (to_address (u_output u)) \/ PIndex (to_address (u_output u)) k ∈ ps;
  ci_index a k : PIndex a k ∈ ps -> exists u, outputs es !! k = Some u /\ to_address (u_output u) = a;
  ci_unindex a k : PUnindex a k ∈ ps ->
    exists u, outputs es !! k = Some u /\ u_is_spent u = true /\ to_address (u_output u) = a;
  ci_stored k u : outputs es !! k = Some u -> k ∈ stored es;
  ci_spent k : k ∈ spent es -> exists u, outputs es !! k = Some u /\ u_is_spent u = true;
  ci_once : NoDup (spent es);
}.

Lemma store_Ok s key u s' : store s key u = Ok s' -> by_address s' = by_address s /\
  forall m, looks s m -> looks s' (<[key := u]> m).
Proof.
  unfold store, shard_at. destruct (shards s !! get_shard key.1) as [shard|] eqn:E; [|done].
  intros [= <-]. split; [done|]. intros m Hm. by apply looks_put.
Qed.

Lemma mark_Ok s key t s' u m :
  looks s m -> mark s key t = Ok (s', Some u) -> by_address s' = by_address s /\
  (exists v, m !! key = Some v /\ u_is_spent v = false /\ u = mark_spent t v) /\ looks s' (<[key := u]> m).
Proof.
  intros Hm. unfold mark, shard_at. destruct (Hm key) as (shard & E & Ek). rewrite E. cbn [mbind res_bind].
  destruct (shard !! key) as [v|]; [|done]. destruct (u_is_spent v) eqn:Hv; [done|]. intros [= <- <-].
  split; [done|]. split; [by exists v|]. by apply looks_put.
Qed.

Lemma mark_None s key t s' : mark s key t = Ok (s', None) -> s' = s.
Proof.
  unfold mark, shard_at. destruct (shards s !! _); [|done]. cbn [mbind res_bind].
  destruct (_ !! key) as [v|]; [|by intros [= <-]]. destruct (u_is_spent v); [by intros [= <-]|done].
Qed.

Lemma conc_inv_store es s ps key output epoch s' :
  conc_inv es s ps -> key ∉ stored es -> store s key (new_utxo key output epoch) = Ok s' ->
  conc_inv (EStore key output epoch :: es) s' (PIndex (to_address output) key :: ps).
Proof.
  intros [H1 H2 H3 H4 H5 H6 H7 H8] Hk Hs. apply store_Ok in Hs as [Hi Hl].
  assert (Hold : forall k u, outputs es !! k = Some u -> <[key := new_utxo key output epoch]> (outputs es) !! k = Some u).
  { intros k u Hu. rewrite lookup_insert_ne; [done|]. intros <-. by apply Hk, (H6 _ u). }
  split; cbn [outputs]; rewrite ?Hi.
  - by apply Hl.
  - intros a k (u & Hu & Ha)%H2. eauto.
  - intros k u [[<- <-]|[Hne Hu]]%lookup_insert_Some Hsp; [right; by constructor|].
    destruct (H3 k u Hu Hsp); [by left|right; by constructor].
  - intros a k [[= -> ->]|(u & Hu & Ha)%H4]%elem_of_cons; [|by eauto].
    eexists. by rewrite lookup_insert_eq.
  - intros a k [[=]|(u & Hu & Ha)%H5]%elem_of_cons. eauto.
  - intros k u [[<- <-]|[Hne Hu]]%lookup_insert_Some; [by constructor|]. constructor. by eapply H6.
  - intros k (u & Hu & Hsp)%H7. eauto.
  - done.
Qed.

Lemma conc_inv_mark es s ps key t s' u :
  conc_inv es s ps -> mark s key t = Ok (s', Some u) ->
  conc_inv (EMark key t (Some u) :: es) s' (PUnindex (to_address (u_output u)) key :: ps).
Proof.
  intros [H1 H2 H3 H4 H5 H6 H7 H8] Hm.
  apply (mark_Ok _ _ _ _ _ _ H1) in Hm as (Hi & (v & Hv & Hvs & ->) & Hl).
  assert (Hold : forall k w, outputs es !! k = Some w ->
    exists w', <[key := mark_spent t v]> (outputs es) !! k = Some w' /\ to_address (u_output w') = to_address (u_output w) /\
      (u_is_spent w = true -> u_is_spent w' = true)).
  { intros k w Hw. destruct (decide (key = k)) as [<-|Hne].
    - rewrite Hv in Hw. injection Hw as <-. rewrite lookup_insert_eq. by eexists.
    - rewrite lookup_insert_ne by done. by exists w. }
  split; cbn [outputs]; rewrite ?Hi.
  - done.
  - intros a k (w & Hw & Ha)%H2. destruct (Hold k w Hw) as (w' & ? & ? & _). exists w'. by rewrite <- Ha.
  - intros k w [[<- <-]|[Hne Hw]]%lookup_insert_Some Hsp; [done|].
    destruct (H3 k w Hw Hsp); [by left|right; by constructor].
  - intros a k [[=]|(w & Hw & Ha)%H4]%elem_of_cons. destruct (Hold k w Hw) as (w' & ? & ? & _).
    exists w'. by rewrite <- Ha.
  - intros a k [[= -> ->]|(w & Hw & Hsp & Ha)%H5]%elem_of_cons; [eexists; by rewrite lookup_insert_eq|].
    destruct (Hold k w Hw) as (w' & ? & ? & ?). exists w'. rewrite <- Ha. auto.
  - intros k w [[<- <-]|[Hne Hw]]%lookup_insert_Some; [by apply (H6 _ v)|by apply (H6 _ w)].
  - intros k [<-|(w & Hw & Hsp)%H7]%elem_of_cons; [eexists; by rewrite lookup_insert_eq|].
    destruct (Hold k w Hw) as (w' & ? & _ & ?). eauto.
  - constructor; [|done]. intros (w & Hw & Hsp)%H7. congruence.
Qed.

Lemma conc_inv_finish es s ps1 p ps2 :
  conc_inv es s (ps1 ++ p :: ps2) -> conc_inv (EFinish :: es) (finish s p) (ps1 ++ ps2).
Proof.
  intros [H1 H2 H3 H4 H5 H6 H7 H8].
  assert (Hsub : forall q, q ∈ ps1 ++ ps2 -> q ∈ ps1 ++ p :: ps2) by set_solver.
  assert (Hsplit : forall q, q ∈ ps1 ++ p :: ps2 -> q = p \/ q ∈ ps1 ++ ps2) by set_solver.
  split; cbn [outputs]; try done; [by destruct p| | |by eauto|by eauto].
  - intros a k. destruct p as [b key|b key]; cbn [finish index unindex by_address];
      (destruct (decide (b = a)) as [->|Hb]; [rewrite lookup_default_insert_eq|rewrite lookup_default_insert_ne by done; apply H2]).
    + intros [->%elem_of_singleton|Hk]%elem_of_union; [|by apply H2]. apply H4. set_solver.
    + intros [Hk _]%elem_of_difference. by apply H2.
  - intros k u Hu Hsp. pose proof (H3 k u Hu Hsp) as H3'. destruct p as [b key|b key]; cbn [finish index unindex by_address].
    + destruct (decide (b = to_address (u_output u))) as [->|Hb].
      * rewrite lookup_default_insert_eq. destruct H3' as [?|[[= ->]|?]%Hsplit]; set_solver.
      * rewrite lookup_default_insert_ne by done. destruct H3' as [?|[[=]|?]%Hsplit]; [by left|congruence|by right].
    + destruct (decide (b = to_address (u_output u))) as [->|Hb].
      * rewrite lookup_default_insert_eq. destruct H3' as [?|[[=]|?]%Hsplit]; [|by right]. left.
        apply elem_of_difference. split; [done|]. intros ->%elem_of_singleton.
        destruct (H5 (to_address (u_output u)) key) as (w & Hw & Hws & _); [set_solver|]. congruence.
      * rewrite lookup_default_insert_ne by done. destruct H3' as [?|[[=]|?]%Hsplit]; [by left|by right].
Qed.

Lemma conc_run_inv es x : conc_run es x -> NoDup (stored es) -> conc_inv es x.1 x.2.
Proof.
  induction 1 as [|es x e y Hr IH Hs]; intros Hnd.
  - split; cbn; try done; try set_solver; try constructor. intros k. exists ∅. split; [|done].
    apply lookup_replicate. split; [done|apply get_shard_lt].
  - destruct Hs as [s ps key o n s' E|s ps key t s' u E|s ps key t s' E|s ps1 p ps2]; cbn [fst snd] in *.
    + apply NoDup_cons in Hnd as [Hk Hnd]. apply (conc_inv_store es s); [by apply IH|done|done].
    + apply (conc_inv_mark es s); [by apply IH|done].
    + apply mark_None in E as ->. by destruct (IH Hnd).
    + apply conc_inv_finish. by apply IH.
Qed.

(** C13. Threads are safe.  Let any number of threads add outputs, each outpoint once, and spend
    them, with their critical sections interleaved in any way.  No outpoint is spent twice; and
    when no thread is between its two sections, the balance of every address is the sum of its
    unspent, unlocked outputs, although the index may list outputs that are spent. *)
Theorem sharded_concurrent {order : SetOrder outpoint} (es : list event) (s : ShardedUTXOSet)
    (ps : list pending) (a : bytes) (e : Z)
    (Hrun : conc_run es (s, ps)) (Honce : NoDup (stored es)) :
  NoDup (spent es) /\
  (forall h i, get_utxo s h i = Ok (outputs es !! (h, i))) /\
  (ps = [] -> get_balance s a e =
     Ok (map_sum (fun u => if spendable e u && owned_by a u then to_value (u_output u) else 0%Z) (outputs es))).
Proof.
  apply conc_run_inv in Hrun as [H1 H2 H3 H4 H5 H6 H7 H8]; [|done]. cbn [fst snd] in *.
  split; [done|]. split; [intros; by apply get_utxo_looks|]. intros ->.
  unfold get_balance. rewrite (balance_loop_looks s (outputs es)) by done. f_equal.
  set (idx := lookup_default ∅ (by_address s) a) in *.
  rewrite (foldl_sum_map (fun k => match outputs es !! k with
    | Some u => if spendable e u then to_value (u_output u) else 0%Z | None => 0%Z end)).
  2: { intros t k. destruct (outputs es !! k); [|lia]. case_match; lia. }
  rewrite Z.add_0_l.
  etransitivity; [apply (map_sum_keys (fun k _ => bool_decide (k ∈ idx))
    (fun o => match o with Some u => if spendable e u then to_value (u_output u) else 0%Z | None => 0%Z end))|].
  - rewrite set_order_perm. apply NoDup_elements.
  - intros k. rewrite set_order_perm, elem_of_elements. split.
    + intros Hk. destruct (H2 a k Hk) as (u & Hu & _). exists u. by rewrite bool_decide_eq_true_2.
    + intros (u & _ & Hk). by apply bool_decide_eq_true in Hk.
  - unfold map_sum. f_equal. apply map_ext_in. intros [k u] Hin. cbn [fst snd].
    apply list_elem_of_In, elem_of_map_to_list in Hin. unfold owned_by, spendable.
    destruct (u_is_spent u) eqn:Hsp; cbn [negb andb]; [by case_match|].
    destruct (decide (k ∈ idx)) as [Hk|Hk].
    + rewrite (bool_decide_eq_true_2 _ Hk). destruct (H2 a k Hk) as (w & Hw & Ha).
      rewrite Hin in Hw. injection Hw as <-. rewrite (bool_decide_eq_true_2 _ Ha). by rewrite andb_true_r.
    + rewrite (bool_decide_eq_false_2 _ Hk). rewrite bool_decide_eq_false_2; [by rewrite andb_false_r|].
      intros <-. destruct (H3 k u Hin Hsp) as [?|?]; [done|set_solver].
Qed.

(** ** Fewer shards *)

(** The shard of a hash is its first byte whatever the number of shards, so a set with fewer
    than 256 cannot store the outputs of most transactions, nor look them up. *)
Theorem few_shards_raise (s : ShardedUTXOSet) (tx_hash spending_tx : bytes) (output_index epoch : Z)
    (output : TxOutput) (Hlen : length (shards s) <= get_shard tx_hash) :
  add_utxo s tx_hash output_index output epoch = Err (IndexError "list index out of range") /\
  get_utxo s tx_hash output_index = Err (IndexError "list index out of range") /\
  spend_utxo s tx_hash output_index spending_tx = Err (IndexError "list index out of range").
Proof.
  assert (E : shard_at s (get_shard tx_hash) = Err (IndexError "list index out of range")).
  { unfold shard_at. by rewrite lookup_ge_None_2. }
  unfold add_utxo, store, get_utxo, spend_utxo, mark. cbn [fst]. by rewrite E.
Qed.

(** ** Sample runs *)

Definition sample_output : TxOutput := mkTxOutput 700 [Byte.x0a] 0 [].
Definition sample_key : outpoint := ([Byte.x05], 0%Z).

Lemma sharded_refines_ledger_witness :
  exists s', sharded_run (order := elements_order) map_to_list (sharded_new 256)
    [SAdd [Byte.x05] 0 sample_output 1; SBatch [([Byte.x05], 0%Z); ([Byte.x06], 0%Z)];
     SBalance [Byte.x0a] 1; SSpend [Byte.x05] 0 [Byte.x09]; SBalance [Byte.x0a] 1; STotal] =
    Ok (s', (flat_run (order := elements_order) utxo_set_new
    [SAdd [Byte.x05] 0 sample_output 1; SBatch [([Byte.x05], 0%Z); ([Byte.x06], 0%Z)];
     SBalance [Byte.x0a] 1; SSpend [Byte.x05] 0 [Byte.x09]; SBalance [Byte.x0a] 1; STotal]).2) /\
    represents s' (flat_run (order := elements_order) utxo_set_new
    [SAdd [Byte.x05] 0 sample_output 1; SBatch [([Byte.x05], 0%Z); ([Byte.x06], 0%Z)];
     SBalance [Byte.x0a] 1; SSpend [Byte.x05] 0 [Byte.x09]; SBalance [Byte.x0a] 1; STotal]).1.
Proof. apply (sharded_refines_ledger (order := elements_order) map_to_list). reflexivity. Defined.

(** One thread adds an output and is overtaken by another that spends it: the index keeps the
    spent output. *)
Definition overtaken : list event :=
  [EFinish; EFinish;
   EMark sample_key [Byte.x09] (Some (mark_spent [Byte.x09] (new_utxo sample_key sample_output 1)));
   EStore sample_key sample_output 1].

Lemma sharded_concurrent_witness :
  exists s, conc_run overtaken (s, []) /\
    lookup_default ∅ (by_address s) [Byte.x0a] = {[sample_key]} /\
    NoDup (spent overtaken) /\
    (forall h i, get_utxo s h i = Ok (outputs overtaken !! (h, i))) /\
    ([] = ([] : list pending) -> get_balance (order := elements_order) s [Byte.x0a] 1 =
      Ok (map_sum (fun u => if spendable 1 u && owned_by [Byte.x0a] u then to_value (u_output u) else 0%Z) (outputs overtaken))).
Proof.
  assert (Hrun : exists s, conc_run overtaken (s, []) /\
    lookup_default ∅ (by_address s) [Byte.x0a] = {[sample_key]}).
  { eexists. split.
    - eapply run_step; [eapply run_step; [eapply run_step; [eapply run_step; [constructor|]|]|]|].
      + eapply step_store. reflexivity.
      + eapply step_mark. vm_compute. reflexivity.
      + apply (step_finish _ [] _ [_]).
      + apply (step_finish _ [] _ []).
    - cbn [finish index unindex by_address]. rewrite !lookup_default_insert_eq. apply set_eq.
      intros k. rewrite elem_of_union, elem_of_difference.
      match goal with |- context [k ∈ lookup_default ∅ ?m ?x] => change (lookup_default ∅ m x) with (∅ : gset outpoint) end.
      set_solver. }
  destruct Hrun as (s & Hr & Hi). exists s. split; [exact Hr|]. split; [exact Hi|].
  apply (sharded_concurrent (order := elements_order) overtaken s [] [Byte.x0a] 1 Hr).
  apply NoDup_singleton.
Defined.

Lemma few_shards_raise_witness :
  add_utxo (sharded_new 16) [Byte.x10] 0 sample_output 1 = Err (IndexError "list index out of range") /\
  get_utxo (sharded_new 16) [Byte.x10] 0 = Err (IndexError "list index out of range") /\
  spend_utxo (sharded_new 16) [Byte.x10] 0 [Byte.x09] = Err (IndexError "list index out of range").
Proof. apply few_shards_raise. vm_compute. reflexivity. Defined.
