(* ===== verification/Pipeline.v ===== *)
(** * Batch verification and the transaction pipeline ([src/src/performance.py], lines 53-170, 408-640)

    [BatchWOTSVerifier] checks many signatures on a thread pool; [TransactionPipeline] passes a
    batch of transactions through four stages and keeps counters per stage.  The tasks of the
    pool are pure; the order in which they complete is an argument, as are the clock readings.
    Main results: a batch is reported in the order of submission whatever the order of
    completion, with exact counters ([verify_batch_spec]); the pipeline loses no transaction and
    invents none ([pipeline_partition]); the signature stage accepts no transaction that has
    an input ([pipeline_accepts_coinbase_only]), because valid transactions never enter the
    dictionary it consults; signing hashes given by the caller are taken at the wrong
    positions ([signing_hashes_misaligned]). *)

From stdpp Require Import prelude list gmap strings pretty sorting.
From Stdlib Require Import Strings.Byte ZArith Lia.
From S2P Require Import Prelude.
From S2P Require Import PyFloat.
From S2P Require Import Crypto.
From S2P Require Import Wots.
From S2P Require Import Transaction.
From S2P Require Import Ledger.
From S2P Require Import Sharded.

Set Default Goal Selector "!".

(** ** Data *)

Record BatchWOTSVerifier := mkBatchVerifier {
  bv_num_workers : nat;
  verified_count : Z;
  failed_count : Z;
  bv_total_time_ms : float64;
}.

Definition batch_verifier_new (num_workers : nat) : BatchWOTSVerifier :=
  mkBatchVerifier num_workers 0 0 (float_of_Z 0).

Record PipelineStage := mkStage {
  ps_name : string;
  processed : Z;
  passed : Z;
  failed : Z;
  time_ms : float64;
}.

Definition stage_new (name : string) : PipelineStage := mkStage name 0 0 0 (float_of_Z 0).

(** The dictionary [stages] has these four keys. *)
Record Stages := mkStages {
  st_structure : PipelineStage;
  st_utxo : PipelineStage;
  st_signature : PipelineStage;
  st_final : PipelineStage;
}.

Record TransactionPipeline := mkPipeline {
  tp_utxo_set : ShardedUTXOSet;
  tp_verifier : BatchWOTSVerifier;
  tp_num_workers : nat;
  tp_stages : Stages;
}.

Definition pipeline_new (utxo_set : ShardedUTXOSet) (verifier : BatchWOTSVerifier) (num_workers : nat)
    : TransactionPipeline :=
  mkPipeline utxo_set verifier num_workers
    (mkStages (stage_new "structure") (stage_new "utxo") (stage_new "signature") (stage_new "final")).

(** The lists of accepted and of rejected transactions, the latter with the reason. *)
Abbreviation verdict := (list Transaction * list (Transaction * string))%type.

(** [(time.time() - start) * 1000]. *)
Definition elapsed_ms (start stop : float64) : float64 := float_mul (float_sub stop start) float_1000.

(** ** The batch verifier *)

Section Pipeline.
Context `{Hashlib}.

(** An item is [(message, signature, public_key)].  Verification of byte strings raises nothing,
    so the [except] branch of the loop below is never taken. *)
Definition verify_single (item : bytes * bytes * bytes) : bool :=
  wots_verify item.1.1 item.1.2 item.2.

(** [results.sort(key=lambda x: x[0])]. *)
Definition by_position (x y : nat * bool) : Prop := x.1 <= y.1.

#[export] Instance by_position_dec x y : Decision (by_position x y).
Proof. unfold by_position. apply _. Defined.

(** The loop over [as_completed(futures)]: counters, and results in the order of completion. *)
Definition collect_result (x : BatchWOTSVerifier * list (nat * bool)) (r : nat * bool)
    : BatchWOTSVerifier * list (nat * bool) :=
  let '(v, results) := x in
  (if r.2
   then mkBatchVerifier (bv_num_workers v) (verified_count v + 1) (failed_count v) (bv_total_time_ms v)
   else mkBatchVerifier (bv_num_workers v) (verified_count v) (failed_count v + 1) (bv_total_time_ms v),
   results ++ [r]).

(** [as_completed] is the order in which the futures complete. *)
Definition verify_batch (as_completed : list (nat * bool) -> list (nat * bool)) (v : BatchWOTSVerifier)
    (items : list (bytes * bytes * bytes)) (start stop : float64) : BatchWOTSVerifier * list (nat * bool) :=
  let futures := imap (fun i item => (i, verify_single item)) items in
  let '(v, results) := foldl collect_result (v, []) (as_completed futures) in
  (mkBatchVerifier (bv_num_workers v) (verified_count v) (failed_count v)
     (float_add (bv_total_time_ms v) (elapsed_ms start stop)),
   merge_sort by_position results).

(** [signing_hashes[len(tx_mapping)] if signing_hashes else tx.signing_hash()]. *)
Definition hash_to_sign (signing_hashes : list bytes) (n : nat) (tx : Transaction) : res bytes :=
  match signing_hashes with
  | [] => signing_hash tx
  | _ => match signing_hashes !! n with
         | Some h => Ok h
         | None => Err (IndexError "list index out of range")
         end
  end.

(** The items to verify and, for each, the hash of its transaction. *)
Fixpoint collect_items (signing_hashes : list bytes) (transactions : list Transaction)
    (items : list (bytes * bytes * bytes)) (tx_mapping : list bytes)
    : res (list (bytes * bytes * bytes) * list bytes) :=
  match transactions with
  | [] => Ok (items, tx_mapping)
  | tx :: transactions =>
      sh ← hash_to_sign signing_hashes (length tx_mapping) tx;
      hs ← res_map (fun _ => tx_hash tx) (tx_inputs tx);
      collect_items signing_hashes transactions
        (items ++ map (fun inp => (sh, ti_signature inp, ti_public_key inp)) (tx_inputs tx))
        (tx_mapping ++ hs)
  end.

(** [tx_valid]: a [defaultdict] that is only ever written to with [False]. *)
Definition mark_invalid (tx_mapping : list bytes) (tx_valid : gmap bytes bool) (r : nat * bool)
    : gmap bytes bool :=
  match tx_mapping !! r.1 with
  | Some h => if negb r.2 then <[h := false]> tx_valid else tx_valid
  | None => tx_valid
  end.

Definition verify_transactions (as_completed : list (nat * bool) -> list (nat * bool))
    (v : BatchWOTSVerifier) (transactions : list Transaction) (signing_hashes : list bytes)
    (start stop : float64) : BatchWOTSVerifier * res (gmap bytes bool) :=
  match collect_items signing_hashes transactions [] [] with
  | Err e => (v, Err e)
  | Ok ([], _) =>
      (v, hs ← res_map tx_hash transactions; Ok (list_to_map (map (fun h => (h, true)) hs)))
  | Ok (items, tx_mapping) =>
      let '(v, results) := verify_batch as_completed v items start stop in
      (v, Ok (foldl (mark_invalid tx_mapping) ∅ results))
  end.

(** ** The stages *)

Definition count_stage (st : PipelineStage) (transactions : list Transaction) (v : verdict)
    (start stop : float64) : PipelineStage :=
  mkStage (ps_name st) (processed st + zlen transactions) (passed st + zlen v.1)
    (failed st + zlen v.2) (float_add (time_ms st) (elapsed_ms start stop)).

(** One pass over the transactions: [None] accepts, [Some reason] rejects. *)
Fixpoint sort_out (check : Transaction -> res (option string)) (transactions : list Transaction)
    (v : verdict) : res verdict :=
  match transactions with
  | [] => Ok v
  | tx :: transactions =>
      issue ← check tx;
      sort_out check transactions
        match issue with
        | None => (v.1 ++ [tx], v.2)
        | Some reason => (v.1, v.2 ++ [(tx, reason)])
        end
  end.

Definition check_structure (tx : Transaction) : res (option string) :=
  let '(is_valid, reason) := is_valid_structure tx in
  Ok (if is_valid then None else Some ("structure: " +:+ reason)).

Definition stage_structure (p : TransactionPipeline) (transactions : list Transaction) (start stop : float64)
    : TransactionPipeline * res verdict :=
  match sort_out check_structure transactions ([], []) with
  | Err e => (p, Err e)
  | Ok v =>
      let st := tp_stages p in
      (mkPipeline (tp_utxo_set p) (tp_verifier p) (tp_num_workers p)
         (mkStages (count_stage (st_structure st) transactions v start stop) (st_utxo st)
            (st_signature st) (st_final st)), Ok v)
  end.

(** The first problem of each transaction hash. *)
Fixpoint utxo_issues (current_epoch : Z) (found : list (Transaction * option UTXO))
    (seen_txs : gset bytes) (tx_issues : gmap bytes string) : res (gmap bytes string) :=
  match found with
  | [] => Ok tx_issues
  | (tx, utxo) :: found =>
      h ← tx_hash tx;
      if bool_decide (h ∈ seen_txs) then utxo_issues current_epoch found seen_txs tx_issues
      else
        match match utxo with
              | None => Some "utxo: not found"
              | Some u =>
                  if u_is_spent u then Some "utxo: already spent"
                  else if (current_epoch <? to_lock_epoch (u_output u))%Z then
                    Some ("utxo: locked until epoch " +:+ pretty (to_lock_epoch (u_output u)))
                  else None
              end%string with
        | Some issue => utxo_issues current_epoch found ({[h]} ∪ seen_txs) (<[h := issue]> tx_issues)
        | None => utxo_issues current_epoch found seen_txs tx_issues
        end
  end.

Definition check_utxo (tx_issues : gmap bytes string) (tx : Transaction) : res (option string) :=
  h ← tx_hash tx; Ok (tx_issues !! h).

Definition stage_utxo (threads : gmap nat (list (nat * outpoint)) -> list (nat * list (nat * outpoint)))
    (p : TransactionPipeline) (transactions : list Transaction) (current_epoch : Z) (start stop : float64)
    : TransactionPipeline * res verdict :=
  let spends := concat (map (fun tx => map (fun inp =>
                  (tx, (ti_prev_tx_hash inp, ti_output_index inp))) (tx_inputs tx)) transactions) in
  let found := batch_lookup threads (tp_utxo_set p) (map snd spends) in
  match (tx_issues ← utxo_issues current_epoch (zip (map fst spends) found) ∅ ∅;
         sort_out (check_utxo tx_issues) transactions ([], [])) with
  | Err e => (p, Err e)
  | Ok v =>
      let st := tp_stages p in
      (mkPipeline (tp_utxo_set p) (tp_verifier p) (tp_num_workers p)
         (mkStages (st_structure st) (count_stage (st_utxo st) transactions v start stop)
            (st_signature st) (st_final st)), Ok v)
  end.

(** [if tx_valid.get(tx.tx_hash, False)]. *)
Definition check_signature (tx_valid : gmap bytes bool) (tx : Transaction) : res (option string) :=
  h ← tx_hash tx; Ok (if lookup_default false tx_valid h then None else Some "signature: invalid"%string).

Definition stage_signature (as_completed : list (nat * bool) -> list (nat * bool))
    (p : TransactionPipeline) (transactions : list Transaction) (start batch_start batch_stop stop : float64)
    : TransactionPipeline * res verdict :=
  let '(verifier, r) := verify_transactions as_completed (tp_verifier p) transactions [] batch_start batch_stop in
  let p := mkPipeline (tp_utxo_set p) verifier (tp_num_workers p) (tp_stages p) in
  match (tx_valid ← r; sort_out (check_signature tx_valid) transactions ([], [])) with
  | Err e => (p, Err e)
  | Ok v =>
      let st := tp_stages p in
      (mkPipeline (tp_utxo_set p) (tp_verifier p) (tp_num_workers p)
         (mkStages (st_structure st) (st_utxo st)
            (count_stage (st_signature st) transactions v start stop) (st_final st)), Ok v)
  end.

Definition check_final (current_epoch : Z) (tx : Transaction) : res (option string) :=
  Ok (if (current_epoch <? tx_epoch tx)%Z then Some ("final: future epoch " +:+ pretty (tx_epoch tx))
      else if (tx_epoch tx <? current_epoch - 1)%Z then Some ("final: expired epoch " +:+ pretty (tx_epoch tx))
      else None)%string.

Definition stage_final (p : TransactionPipeline) (transactions : list Transaction) (current_epoch : Z)
    (start stop : float64) : TransactionPipeline * res verdict :=
  match sort_out (check_final current_epoch) transactions ([], []) with
  | Err e => (p, Err e)
  | Ok v =>
      let st := tp_stages p in
      (mkPipeline (tp_utxo_set p) (tp_verifier p) (tp_num_workers p)
         (mkStages (st_structure st) (st_utxo st) (st_signature st)
            (count_stage (st_final st) transactions v start stop)), Ok v)
  end.

(** [process_batch]; [clock k] is the reading at its [k]-th program point. *)
Definition process_batch (as_completed : list (nat * bool) -> list (nat * bool))
    (threads : gmap nat (list (nat * outpoint)) -> list (nat * list (nat * outpoint)))
    (clock : nat -> float64) (p : TransactionPipeline) (transactions : list Transaction)
    (current_epoch : Z) : TransactionPipeline * res verdict :=
  match stage_structure p transactions (clock 0) (clock 1) with
  | (p, Err e) => (p, Err e)
  | (p, Ok ([], invalid)) => (p, Ok ([], invalid))
  | (p, Ok (valid, invalid)) =>
  match stage_utxo threads p valid current_epoch (clock 2) (clock 3) with
  | (p, Err e) => (p, Err e)
  | (p, Ok ([], invalid2)) => (p, Ok ([], invalid ++ invalid2))
  | (p, Ok (valid, invalid2)) =>
  match stage_signature as_completed p valid (clock 4) (clock 5) (clock 6) (clock 7) with
  | (p, Err e) => (p, Err e)
  | (p, Ok ([], invalid3)) => (p, Ok ([], invalid ++ invalid2 ++ invalid3))
  | (p, Ok (valid, invalid3)) =>
  match stage_final p valid current_epoch (clock 8) (clock 9) with
  | (p, Err e) => (p, Err e)
  | (p, Ok (valid, invalid4)) => (p, Ok (valid, invalid ++ invalid2 ++ invalid3 ++ invalid4))
  end end end end.

(** ** Batches *)

Definition count_true (l : list (nat * bool)) : Z := zlen (List.filter (fun r => r.2) l).
Definition count_false (l : list (nat * bool)) : Z := zlen (List.filter (fun r => negb r.2) l).

Lemma collect_results l v acc :
  foldl collect_result (v, acc) l =
    (mkBatchVerifier (bv_num_workers v) (verified_count v + count_true l) (failed_count v + count_false l)
       (bv_total_time_ms v), acc ++ l).
Proof.
  revert v acc. induction l as [|[i b] l IH]; intros v acc.
  { cbn. rewrite app_nil_r, !Z.add_0_r. by destruct v. }
  cbn [foldl]. unfold collect_result at 2. cbn [snd]. destruct b; rewrite IH; cbn [bv_num_workers verified_count
    failed_count bv_total_time_ms]; unfold count_true, count_false, zlen; cbn [List.filter snd negb length];
    rewrite <- app_assoc; f_equal; f_equal; lia.
Qed.

Lemma count_true_perm l l' : l ≡ₚ l' -> count_true l = count_true l'.
Proof. unfold count_true, zlen. induction 1; simpl; repeat case_match; simpl in *; lia. Qed.

Lemma count_false_perm l l' : l ≡ₚ l' -> count_false l = count_false l'.
Proof. unfold count_false, zlen. induction 1; simpl; repeat case_match; simpl in *; lia. Qed.

#[local] Instance by_position_total : Total by_position.
Proof. intros x y. unfold by_position. lia. Qed.

#[local] Instance by_position_trans : Transitive by_position.
Proof. intros x y z. unfold by_position. lia. Qed.

(** Sorting by position undoes the order of completion. *)
Lemma sort_positions {A} (f : A -> bool) items l :
  l ≡ₚ imap (fun i item => (i, f item)) items -> merge_sort by_position l = imap (fun i item => (i, f item)) items.
Proof.
  intros Hp. apply (StronglySorted_unique_strong by_position).
  - intros [i b] [j c] Hi Hj Hij Hji. unfold by_position in *. cbn [fst] in *. assert (i = j) as <- by lia.
    rewrite merge_sort_Permutation, Hp in Hi.
    apply list_elem_of_lookup_1 in Hi as [n Hi], Hj as [m Hj].
    apply imap_lookup_Some in Hi as (x & Hx & [= <- ->]), Hj as (y & Hy & [= <- ->]). congruence.
  - apply (StronglySorted_merge_sort by_position).
  - assert (Hgen : forall k, StronglySorted by_position (imap (fun i item => (k + i, f item)) items)).
    { clear Hp. induction items as [|x items IH]; intros k; [constructor|]. cbn [imap]. constructor.
      - specialize (IH (S k)). erewrite imap_ext; [exact IH|]. intros i y _. cbn. f_equal. lia.
      - apply Forall_forall. intros [j b] (n & Hj)%list_elem_of_lookup_1.
        apply imap_lookup_Some in Hj as (y & _ & [= -> _]). unfold by_position. simpl. lia. }
    exact (Hgen 0).
  - by rewrite merge_sort_Permutation.
Qed.

Lemma count_positions {A} (g : bool -> bool) (f : A -> bool) items :
  length (List.filter (fun r => g r.2) (imap (fun i item => (i, f item)) items)) =
  length (List.filter (fun item => g (f item)) items).
Proof.
  assert (Hgen : forall k, length (List.filter (fun r => g r.2) (imap (fun i item => (k + i, f item)) items)) =
    length (List.filter (fun item => g (f item)) items)); [|exact (Hgen 0)].
  induction items as [|x items IH]; intros k; [done|]. cbn [imap List.filter snd].
  assert (E : imap ((fun i item => (k + i, f item)) ∘ S) items = imap (fun i item => (S k + i, f item)) items).
  { apply imap_ext. intros i y _. cbn. f_equal. lia. }
  specialize (IH (S k)). rewrite E. destruct (g (f x)); cbn [length]; by rewrite IH.
Qed.

(** Verifying a batch.  Whatever the order in which the pool completes the tasks, the results
    list every position in order with the verdict of [WOTSPlus.verify] on its item, and the two
    counters grow by the numbers of valid and invalid items. *)
Theorem verify_batch_spec (as_completed : list (nat * bool) -> list (nat * bool)) (v : BatchWOTSVerifier)
    (items : list (bytes * bytes * bytes)) (start stop : float64)
    (Hcompleted : forall l, as_completed l ≡ₚ l) :
  let '(v', results) := verify_batch as_completed v items start stop in
  results = imap (fun i item => (i, wots_verify item.1.1 item.1.2 item.2)) items /\
  verified_count v' = (verified_count v + zlen (List.filter verify_single items))%Z /\
  failed_count v' = (failed_count v + zlen (List.filter (fun item => negb (verify_single item)) items))%Z.
Proof.
  unfold verify_batch. rewrite collect_results. cbn [app verified_count failed_count].
  rewrite (count_true_perm _ _ (Hcompleted _)), (count_false_perm _ _ (Hcompleted _)).
  split; [by apply (sort_positions verify_single)|].
  unfold count_true, count_false, zlen.
  by rewrite (count_positions (fun b => b)), (count_positions negb).
Qed.

(** ** Stages *)

Definition all_of (v : verdict) : list Transaction := v.1 ++ map fst v.2.

Lemma sort_out_all check txs v0 v :
  sort_out check txs v0 = Ok v ->
  all_of v ≡ₚ all_of v0 ++ txs /\
  exists accepted, v.1 = v0.1 ++ accepted /\ sublist accepted txs /\
    Forall (fun tx => check tx = Ok None) accepted.
Proof.
  revert v0. induction txs as [|tx txs IH]; intros v0 E; cbn [sort_out] in E; inv_res.
  { rewrite app_nil_r. split; [done|]. exists []. by rewrite app_nil_r. }
  apply IH in E as [Hp (acc & Ha & Hs & Hf)]. destruct a as [reason|]; unfold all_of in *; cbn [fst snd] in *.
  - split; [rewrite Hp, map_app; cbn [map fst]; by rewrite <- !app_assoc|]. exists acc.
    split; [done|]. split; [by constructor|done].
  - split; [rewrite Hp, <- !app_assoc; apply Permutation_app_head, (Permutation_middle (map fst v0.2))|].
    exists (tx :: acc). split; [rewrite Ha; by rewrite <- app_assoc|]. split; [by constructor|by constructor].
Qed.

Lemma Forall_sublist {A} (P : A -> Prop) l l' : sublist l l' -> Forall P l' -> Forall P l.
Proof. rewrite !Forall_forall. intros Hs Hf x Hx. by eapply Hf, elem_of_sublist. Qed.

(** What a stage promises to the pipeline. *)
Definition stage_sound (txs : list Transaction) (r : res verdict) : Prop :=
  forall v, r = Ok v -> all_of v ≡ₚ txs /\ sublist v.1 txs.

Lemma sort_out_sound check txs : stage_sound txs (sort_out check txs ([], [])).
Proof. intros v E. apply sort_out_all in E as [Hp (acc & -> & Hs & _)]. done. Qed.

(** Every transaction that entered a stage passed or failed. *)
Definition balanced (st : PipelineStage) : Prop := processed st = (passed st + failed st)%Z.

Definition stages_balanced (st : Stages) : Prop :=
  balanced (st_structure st) /\ balanced (st_utxo st) /\ balanced (st_signature st) /\ balanced (st_final st).

Lemma count_stage_balanced st txs v start stop :
  balanced st -> all_of v ≡ₚ txs -> balanced (count_stage st txs v start stop).
Proof.
  unfold balanced, count_stage, all_of, zlen. cbn. intros Hb Hp%Permutation_length.
  rewrite length_app, length_map in Hp. lia.
Qed.

Definition stage_ok (txs : list Transaction) (p : TransactionPipeline) (x : TransactionPipeline * res verdict) : Prop :=
  stage_sound txs x.2 /\ (stages_balanced (tp_stages p) -> stages_balanced (tp_stages x.1)).

Lemma stage_structure_ok p txs start stop : stage_ok txs p (stage_structure p txs start stop).
Proof.
  unfold stage_structure. pose proof (sort_out_sound check_structure txs) as Hs.
  destruct (sort_out _ _ _) as [v|e]; (split; [done|]); [|done]. destruct (Hs v eq_refl) as [Hp _].
  intros (? & ? & ? & ?). repeat split; try done. by apply count_stage_balanced.
Qed.

Lemma stage_utxo_ok threads p txs e start stop : stage_ok txs p (stage_utxo threads p txs e start stop).
Proof.
  unfold stage_utxo. destruct (utxo_issues _ _ _ _) as [issues|err]; [|by split]. cbn [mbind res_bind].
  pose proof (sort_out_sound (check_utxo issues) txs) as Hs.
  destruct (sort_out _ _ _) as [v|err]; (split; [done|]); [|done]. destruct (Hs v eq_refl) as [Hp _].
  intros (? & ? & ? & ?). repeat split; try done. by apply count_stage_balanced.
Qed.

Lemma stage_signature_ok as_completed p txs t1 t2 t3 t4 :
  stage_ok txs p (stage_signature as_completed p txs t1 t2 t3 t4).
Proof.
  unfold stage_signature. destruct (verify_transactions _ _ _ _ _ _) as [v [valid|err]]; [|by split].
  cbn [mbind res_bind]. pose proof (sort_out_sound (check_signature valid) txs) as Hs.
  destruct (sort_out _ _ _) as [v'|err]; (split; [done|]); [|done]. destruct (Hs v' eq_refl) as [Hp _].
  intros (? & ? & ? & ?). repeat split; try done. by apply count_stage_balanced.
Qed.

Lemma stage_final_ok p txs e start stop : stage_ok txs p (stage_final p txs e start stop).
Proof.
  unfold stage_final. pose proof (sort_out_sound (check_final e) txs) as Hs.
  destruct (sort_out _ _ _) as [v|err]; (split; [done|]); [|done]. destruct (Hs v eq_refl) as [Hp _].
  intros (? & ? & ? & ?). repeat split; try done. by apply count_stage_balanced.
Qed.

(** Running a stage on what the stages before accepted. *)
Lemma stage_chain txs valid invalid v :
  all_of (valid, invalid) ≡ₚ txs -> sublist valid txs -> all_of v ≡ₚ valid -> sublist v.1 valid ->
  all_of (v.1, invalid ++ v.2) ≡ₚ txs /\ sublist v.1 txs.
Proof.
  unfold all_of. cbn [fst snd]. intros H1 H2 H3 H4. split; [|by etransitivity].
  rewrite <- H1, <- H3, map_app. rewrite (Permutation_app_comm (map fst invalid)). by rewrite app_assoc.
Qed.

(** The pipeline loses nothing.  When a batch is processed, the accepted and the rejected
    transactions together are the batch, the accepted ones in their order, and at every stage
    the number processed stays the sum of the numbers passed and failed. *)
Theorem pipeline_partition (as_completed : list (nat * bool) -> list (nat * bool))
    (threads : gmap nat (list (nat * outpoint)) -> list (nat * list (nat * outpoint)))
    (clock : nat -> float64) (p p' : TransactionPipeline) (transactions : list Transaction)
    (current_epoch : Z) (valid : list Transaction) (invalid : list (Transaction * string))
    (Hp : stages_balanced (tp_stages p))
    (Hrun : process_batch as_completed threads clock p transactions current_epoch = (p', Ok (valid, invalid))) :
  valid ++ map fst invalid ≡ₚ transactions /\ sublist valid transactions /\ stages_balanced (tp_stages p').
Proof.
  unfold process_batch in Hrun.
  destruct (stage_structure_ok p transactions (clock 0) (clock 1)) as [Hs1 Hb1].
  destruct (stage_structure _ _ _ _) as [p1 [[valid1 invalid1]|e]]; [|done]. cbn [fst snd] in *.
  destruct (Hs1 _ eq_refl) as [A1 B1]. cbn [fst snd] in B1. specialize (Hb1 Hp).
  destruct valid1 as [|tx1 valid1]; [by injection Hrun as <- <- <-|]. set (txs1 := tx1 :: valid1) in *.
  destruct (stage_utxo_ok threads p1 txs1 current_epoch (clock 2) (clock 3)) as [Hs2 Hb2].
  destruct (stage_utxo _ _ _ _ _ _) as [p2 [[valid2 invalid2]|e]]; [|done]. cbn [fst snd] in *.
  destruct (Hs2 _ eq_refl) as [A2 B2]. specialize (Hb2 Hb1).
  destruct (stage_chain _ _ _ _ A1 B1 A2 B2) as [A12 B12]. cbn [fst snd] in *.
  destruct valid2 as [|tx2 valid2]; [by injection Hrun as <- <- <-|]. set (txs2 := tx2 :: valid2) in *.
  destruct (stage_signature_ok as_completed p2 txs2 (clock 4) (clock 5) (clock 6) (clock 7)) as [Hs3 Hb3].
  destruct (stage_signature _ _ _ _ _ _ _) as [p3 [[valid3 invalid3]|e]]; [|done]. cbn [fst snd] in *.
  destruct (Hs3 _ eq_refl) as [A3 B3]. specialize (Hb3 Hb2).
  destruct (stage_chain _ _ _ _ A12 B12 A3 B3) as [A123 B123]. cbn [fst snd] in *. rewrite <- app_assoc in A123.
  destruct valid3 as [|tx3 valid3]; [by injection Hrun as <- <- <-|]. set (txs3 := tx3 :: valid3) in *.
  destruct (stage_final_ok p3 txs3 current_epoch (clock 8) (clock 9)) as [Hs4 Hb4].
  destruct (stage_final _ _ _ _ _) as [p4 [[valid4 invalid4]|e]]; [|done]. cbn [fst snd] in *.
  destruct (Hs4 _ eq_refl) as [A4 B4]. specialize (Hb4 Hb3).
  destruct (stage_chain _ _ _ _ A123 B123 A4 B4) as [A B]. cbn [fst snd] in *.
  injection Hrun as <- <- <-. rewrite <- !app_assoc in A. done.
Qed.

(** ** The signature stage *)

Lemma collect_items_inputs hashes txs items mapping items' mapping' :
  collect_items hashes txs items mapping = Ok (items', mapping') ->
  (items' = [] -> items = [] /\ Forall (fun tx => tx_inputs tx = []) txs).
Proof.
  revert items mapping. induction txs as [|tx txs IH]; intros items mapping E Hn; cbn [collect_items] in E; inv_res.
  { by split. }
  destruct (IH _ _ E Hn) as [[-> Ht%map_eq_nil]%app_eq_nil Hf]. split; [done|]. by constructor.
Qed.

(** Reading the result with a default of [False] rejects every transaction. *)
Lemma tx_valid_false mapping results h :
  lookup_default false (foldl (mark_invalid mapping) ∅ results) h = false.
Proof.
  assert (Hgen : forall m, lookup_default false m h = false ->
    lookup_default false (foldl (mark_invalid mapping) m results) h = false).
  { induction results as [|r results IH]; intros m Hm; [done|]. cbn [foldl]. apply IH. unfold mark_invalid.
    destruct (mapping !! r.1) as [h'|]; [|done]. destruct (negb r.2); [|done].
    destruct (decide (h' = h)) as [->|Hne]; [by rewrite lookup_default_insert_eq|].
    by rewrite lookup_default_insert_ne. }
  by apply Hgen.
Qed.

Lemma stage_signature_inputs as_completed p txs t1 t2 t3 t4 p' v :
  stage_signature as_completed p txs t1 t2 t3 t4 = (p', Ok v) -> Forall (fun tx => tx_inputs tx = []) v.1.
Proof.
  unfold stage_signature, verify_transactions.
  destruct (collect_items [] txs [] []) as [[items mapping]|e] eqn:E; [|done].
  destruct items as [|item items].
  - destruct (collect_items_inputs _ _ _ _ _ _ E eq_refl) as [_ Hf].
    destruct (res_map tx_hash txs) as [hs|]; [|done]. cbn [mbind res_bind].
    set (valid := list_to_map _). pose proof (sort_out_sound (check_signature valid) txs) as Hs.
    destruct (sort_out _ _ _) as [v'|]; [|done]. intros [= _ <-]. destruct (Hs v' eq_refl) as [_ Hsub].
    by eapply Forall_sublist.
  - destruct (verify_batch _ _ _ _ _) as [vf results]. cbn [mbind res_bind].
    destruct (sort_out _ _ _) as [v'|] eqn:Ev; [|done]. intros [= _ <-].
    apply sort_out_all in Ev as [_ (acc & -> & _ & Hacc)]. cbn [app].
    eapply Forall_impl; [exact Hacc|]. intros tx Hc. unfold check_signature in Hc.
    destruct (tx_hash tx) as [h|]; [|done]. cbn [mbind res_bind] in Hc. by rewrite tx_valid_false in Hc.
Qed.

Lemma check_structure_coinbase tx : check_structure tx = Ok None -> tx_inputs tx = [] -> tx_type tx = COINBASE.
Proof.
  unfold check_structure, is_valid_structure. intros E Hi. rewrite Hi in E.
  destruct (negb (tx_version tx =? TX_VERSION)%Z); [done|]. cbn [zlen length Z.of_nat Z.eqb andb] in E.
  by destruct (decide (tx_type tx = COINBASE)) as [|Hn]; [|rewrite (bool_decide_eq_false_2 _ Hn) in E].
Qed.

(** C27. The pipeline accepts no payment.  A transaction that it accepts is a coinbase without
    inputs: as soon as one transaction of the batch has an input, the dictionary of verdicts
    holds nothing but [False], and the signature stage takes a missing entry for [False]. *)
Theorem pipeline_accepts_coinbase_only (as_completed : list (nat * bool) -> list (nat * bool))
    (threads : gmap nat (list (nat * outpoint)) -> list (nat * list (nat * outpoint)))
    (clock : nat -> float64) (p p' : TransactionPipeline) (transactions : list Transaction)
    (current_epoch : Z) (valid : list Transaction) (invalid : list (Transaction * string))
    (Hrun : process_batch as_completed threads clock p transactions current_epoch = (p', Ok (valid, invalid))) :
  Forall (fun tx => tx_type tx = COINBASE /\ tx_inputs tx = []) valid.
Proof.
  unfold process_batch in Hrun.
  destruct (stage_structure _ _ _ _) as [p1 [[valid1 invalid1]|e]] eqn:E1; [|done].
  destruct valid1 as [|tx1 valid1]; [by injection Hrun as <- <- <-|]. set (txs1 := tx1 :: valid1) in *.
  assert (H1 : Forall (fun tx => check_structure tx = Ok None) txs1).
  { unfold stage_structure in E1. destruct (sort_out _ _ _) as [v|] eqn:Ev; [|done]. injection E1 as _ ->.
    by apply sort_out_all in Ev as [_ (acc & E & _ & Hacc)]; cbn in E; rewrite E. }
  destruct (stage_utxo_ok threads p1 txs1 current_epoch (clock 2) (clock 3)) as [Hs2 _].
  destruct (stage_utxo _ _ _ _ _ _) as [p2 [[valid2 invalid2]|e]]; [|done]. cbn [snd] in Hs2.
  destruct (Hs2 _ eq_refl) as [_ B2].
  destruct valid2 as [|tx2 valid2]; [by injection Hrun as <- <- <-|]. set (txs2 := tx2 :: valid2) in *.
  destruct (stage_signature_ok as_completed p2 txs2 (clock 4) (clock 5) (clock 6) (clock 7)) as [Hs3 _].
  destruct (stage_signature _ _ _ _ _ _ _) as [p3 [[valid3 invalid3]|e]] eqn:E3; [|done]. cbn [snd] in Hs3.
  destruct (Hs3 _ eq_refl) as [_ B3]. apply stage_signature_inputs in E3.
  destruct valid3 as [|tx3 valid3]; [by injection Hrun as <- <- <-|]. set (txs3 := tx3 :: valid3) in *.
  destruct (stage_final_ok p3 txs3 current_epoch (clock 8) (clock 9)) as [Hs4 _].
  destruct (stage_final _ _ _ _ _) as [p4 [[valid4 invalid4]|e]]; [|done]. cbn [snd] in Hs4.
  destruct (Hs4 _ eq_refl) as [_ B4]. injection Hrun as <- <- <-. cbn [fst] in *.
  eapply Forall_sublist; [exact B4|]. apply Forall_forall. intros tx Hin.
  rewrite Forall_forall in E3. specialize (E3 tx Hin). split; [|done].
  apply check_structure_coinbase; [|done]. rewrite Forall_forall in H1. apply H1.
  by eapply elem_of_sublist; [eapply elem_of_sublist; [exact Hin|exact B3]|exact B2].
Qed.

(** Given hashes are taken at the wrong positions.  With one signing hash per transaction, the
    caller's list is indexed by the number of inputs seen so far: if the first transaction has
    at least as many inputs as there are hashes, the second one has none left. *)
Theorem signing_hashes_misaligned (as_completed : list (nat * bool) -> list (nat * bool))
    (v : BatchWOTSVerifier) (tx1 tx2 : Transaction) (h1 h2 h : bytes) (start stop : float64)
    (Hinputs : 2 <= length (tx_inputs tx1)) (Hhash : tx_hash tx1 = Ok h) :
  verify_transactions as_completed v [tx1; tx2] [h1; h2] start stop =
    (v, Err (IndexError "list index out of range")).
Proof.
  unfold verify_transactions. cbn [collect_items hash_to_sign length lookup list_lookup mbind res_bind].
  assert (E : res_map (fun _ : TxInput => tx_hash tx1) (tx_inputs tx1) = Ok (map (fun _ => h) (tx_inputs tx1))).
  { apply res_map_total. by intros. }
  rewrite E. cbn [mbind res_bind app hash_to_sign].
  rewrite lookup_ge_None_2 by (rewrite length_map; simpl; lia). done.
Qed.

End Pipeline.

(** ** Sample runs *)

Definition sample_coinbase : Transaction :=
  mkTransaction 1 COINBASE [] [mkTxOutput 5000 (replicate 64 Byte.x0a) 0 []] 3 0 0 [] None.

(** Pays from an output that exists, with a signature that is not checked any further. *)
Definition sample_transfer : Transaction :=
  mkTransaction 1 TRANSFER [mkTxInput [Byte.x05] 0 [] [] None (-1); mkTxInput [Byte.x05] 1 [] [] None (-1)]
    [mkTxOutput 5000 (replicate 64 Byte.x0a) 0 []] 3 0 5000 [] None.

Definition sample_set : ShardedUTXOSet :=
  match (s ← add_utxo (sharded_new 16) [Byte.x05] 0 sample_output 1; add_utxo s [Byte.x05] 1 sample_output 1) with
  | Ok s => s
  | Err _ => sharded_new 16
  end.

Definition sample_pipeline : TransactionPipeline := pipeline_new sample_set (batch_verifier_new 4) 4.

Lemma sample_balanced : stages_balanced (tp_stages sample_pipeline).
Proof. by repeat split. Qed.

Definition process_sample (transactions : list Transaction) : TransactionPipeline * res verdict :=
  process_batch (H := toy_hashlib) (@rev _) map_to_list (fun _ => float_of_Z 1) sample_pipeline transactions 3.

Definition both_rejected : list (Transaction * string) :=
  [(sample_coinbase, "signature: invalid"%string); (sample_transfer, "signature: invalid"%string)].

Example both_rejected_runs : snd (process_sample [sample_coinbase; sample_transfer]) = Ok ([], both_rejected).
Proof. vm_compute. reflexivity. Qed.

Lemma verify_batch_spec_witness :
  let '(v', results) := verify_batch (H := toy_hashlib) (@rev _) (batch_verifier_new 4)
    [([], [], []); (b: "m", [], [])] (float_of_Z 1) (float_of_Z 2) in
  results = imap (fun i item => (i, wots_verify (H := toy_hashlib) item.1.1 item.1.2 item.2))
    [([], [], []); (b: "m", [], [])] /\
  verified_count v' = (0 + zlen (List.filter (verify_single (H := toy_hashlib)) [([], [], []); (b: "m", [], [])]))%Z /\
  failed_count v' = (0 + zlen (List.filter (fun item => negb (verify_single (H := toy_hashlib) item))
    [([], [], []); (b: "m", [], [])]))%Z.
Proof.
  apply (@verify_batch_spec toy_hashlib (@rev _) (batch_verifier_new 4)). intros l. symmetry. apply Permutation_rev.
Defined.

Lemma pipeline_partition_witness :
  exists p', process_sample [sample_coinbase; sample_transfer] = (p', Ok ([], both_rejected)) /\
    [] ++ map fst both_rejected ≡ₚ [sample_coinbase; sample_transfer] /\
    sublist [] [sample_coinbase; sample_transfer] /\ stages_balanced (tp_stages p').
Proof.
  assert (Hrun : process_sample [sample_coinbase; sample_transfer] =
    (fst (process_sample [sample_coinbase; sample_transfer]), Ok ([], both_rejected))).
  { rewrite <- both_rejected_runs. apply surjective_pairing. }
  eexists. split; [exact Hrun|].
  exact (@pipeline_partition toy_hashlib (@rev _) map_to_list (fun _ => float_of_Z 1) sample_pipeline _ _ 3 [] both_rejected
    sample_balanced Hrun).
Defined.

Example coinbase_accepted_runs : snd (process_sample [sample_coinbase]) = Ok ([sample_coinbase], []).
Proof. vm_compute. reflexivity. Qed.

Lemma pipeline_accepts_coinbase_only_witness :
  exists p', process_sample [sample_coinbase] = (p', Ok ([sample_coinbase], [])) /\
    Forall (fun tx => tx_type tx = COINBASE /\ tx_inputs tx = []) [sample_coinbase].
Proof.
  assert (Hrun : process_sample [sample_coinbase] =
    (fst (process_sample [sample_coinbase]), Ok ([sample_coinbase], []))).
  { rewrite <- coinbase_accepted_runs. apply surjective_pairing. }
  eexists. split; [exact Hrun|].
  exact (@pipeline_accepts_coinbase_only toy_hashlib (@rev _) map_to_list (fun _ => float_of_Z 1) sample_pipeline _ _ 3
    [sample_coinbase] [] Hrun).
Defined.

Lemma signing_hashes_misaligned_witness :
  exists h, tx_hash (H := toy_hashlib) sample_transfer = Ok h /\
  verify_transactions (H := toy_hashlib) (@rev _) (batch_verifier_new 4) [sample_transfer; sample_coinbase]
    [replicate 32 Byte.x01; replicate 32 Byte.x02] (float_of_Z 1) (float_of_Z 2) =
    (batch_verifier_new 4, Err (IndexError "list index out of range")).
Proof.
  eexists. split; [vm_compute; reflexivity|].
  eapply (@signing_hashes_misaligned toy_hashlib); [reflexivity|vm_compute; reflexivity].
Defined.
