(* ===== verification/Throughput.v ===== *)
(** * The throughput benchmark

    [ThroughputBenchmark] of [src/src/performance.py] with the statistics of the verifier and of
    the pipeline.  It signs random transactions, stores an output for each, and times the
    verification of the signatures, the lookup of the outputs and the Merkle root.  Clock readings
    and random draws are arguments; what the calls return, which the benchmark drops, is kept next
    to its report.  Main result: on every load and in every order of the threads all signatures
    checked are valid, all outputs are found and the root is that of the hashes
    ([benchmark_sound]); only a clock that stands still during a phase makes it raise. *)

From stdpp Require Import prelude list gmap strings.
From Stdlib Require Import Strings.Byte ZArith Lia SpecFloat.
From S2P Require Import Prelude.
From S2P Require Import Text.
From S2P Require Import PyFloat.
From S2P Require Import Crypto.
From S2P Require Import Wots.
From S2P Require Import Transaction.
From S2P Require Import Ledger.
From S2P Require Import ParallelMerkle.
From S2P Require Import Sharded.
From S2P Require Import Pipeline.

Set Default Goal Selector "!".

Definition TARGET_TPS : Z := 16000000.

(** The worker counts that the module computes from [mp.cpu_count()]. *)
Definition VERIFICATION_WORKERS (cpu_cores : nat) : nat := 4 `max` (cpu_cores - 2).
Definition MERKLE_WORKERS (cpu_cores : nat) : nat := 2 `max` (cpu_cores / 4).

(** ** Statistics *)

(** [n / t] for an integer and a float. *)
Definition rate (n : Z) (t : float64) : res float64 :=
  match t with
  | S754_zero _ => Err ZeroDivisionError
  | _ => Ok (float_div (float_of_Z n) t)
  end.

Record VerifierStats := mkVerifierStats {
  vst_verified : Z;
  vst_failed : Z;
  vst_total_time_ms : float64;
  vst_verifications_per_sec : float64;
  vst_workers : nat;
}.

Definition verifier_stats (v : BatchWOTSVerifier) : res VerifierStats :=
  let total := (verified_count v + failed_count v)%Z in
  rate ← (if float_lt (float_of_Z 0) (bv_total_time_ms v)
          then rate total (float_div (bv_total_time_ms v) float_1000) else Ok (float_of_Z 0));
  Ok (mkVerifierStats (verified_count v) (failed_count v) (bv_total_time_ms v) rate (bv_num_workers v)).

Record StageStats := mkStageStats {
  sst_processed : Z;
  sst_passed : Z;
  sst_failed : Z;
  sst_time_ms : float64;
  sst_pass_rate : float64;
}.

Definition stage_stats (st : PipelineStage) : res StageStats :=
  pass_rate ← (if (0 <? processed st)%Z then truediv (passed st) (processed st) else Ok (float_of_Z 0));
  Ok (mkStageStats (processed st) (passed st) (failed st) (time_ms st) pass_rate).

Record PipelineStats := mkPipelineStats {
  pst_total_processed : Z;
  pst_total_time_ms : float64;
  pst_throughput_tps : float64;
  pst_structure : StageStats;
  pst_utxo : StageStats;
  pst_signature : StageStats;
  pst_final : StageStats;
}.

(** [sum] adds from the left. *)
Definition pipeline_stats (p : TransactionPipeline) : res PipelineStats :=
  let st := tp_stages p in
  let total_time := foldl float_add (float_of_Z 0)
    (map time_ms [st_structure st; st_utxo st; st_signature st; st_final st]) in
  let total_processed := processed (st_structure st) in
  throughput ← (if float_lt (float_of_Z 0) total_time
                then rate total_processed (float_div total_time float_1000) else Ok (float_of_Z 0));
  structure ← stage_stats (st_structure st);
  utxo ← stage_stats (st_utxo st);
  signature ← stage_stats (st_signature st);
  final ← stage_stats (st_final st);
  Ok (mkPipelineStats total_processed total_time throughput structure utxo signature final).

(** A stage that rejected nothing reports the rate 1, and one without transactions the rate 0. *)
Lemma stage_stats_spec st :
  balanced st -> (0 <= passed st)%Z -> (0 <= failed st)%Z -> (passed st < 2 ^ 1023)%Z ->
  exists x, stage_stats st = Ok x /\ sst_processed x = (sst_passed x + sst_failed x)%Z /\
    (sst_failed x = 0%Z -> (0 < sst_processed x)%Z -> sst_pass_rate x = S754_finite false 4503599627370496 (-52)) /\
    (sst_processed x = 0%Z -> sst_pass_rate x = S754_zero false).
Proof.
  unfold balanced, stage_stats. intros Hb Hp Hf Hlt. destruct (Z.ltb_spec 0 (processed st)) as [Hn|Hn].
  - destruct (truediv_ok (passed st) (processed st)) as (x & E); [lia|lia|]. rewrite E, bind_Ok.
    eexists. split; [reflexivity|]. cbn. split; [done|]. split; [|lia]. intros Hz _.
    assert (Hpp : passed st = processed st) by lia. rewrite Hpp, truediv_self in E by done. by injection E as <-.
  - rewrite bind_Ok. eexists. split; [reflexivity|]. cbn. split; [done|]. split; [lia|done].
Qed.

(** ** The benchmark *)

Section Throughput.
Context {hashlib : Hashlib}.
(** The orders in which the futures and the lookup threads complete. *)
Variable as_completed : list (nat * bool) -> list (nat * bool).
Variable threads : gmap nat (list (nat * outpoint)) -> list (nat * list (nat * outpoint)).

(** The set and the verifier are the objects that the pipeline holds too. *)
Record ThroughputBenchmark := mkBenchmark {
  tb_pipeline : TransactionPipeline;
  tb_merkle : ParallelMerkleTree;
}.

Definition tb_utxo_set (b : ThroughputBenchmark) : ShardedUTXOSet := tp_utxo_set (tb_pipeline b).
Definition tb_verifier (b : ThroughputBenchmark) : BatchWOTSVerifier := tp_verifier (tb_pipeline b).

Definition benchmark_new (cpu_cores : nat) : res ThroughputBenchmark :=
  let workers := VERIFICATION_WORKERS cpu_cores in
  merkle ← parallel_tree_new (MERKLE_WORKERS cpu_cores);
  Ok (mkBenchmark (pipeline_new (sharded_new 256) (batch_verifier_new workers) workers) merkle).

(** What is drawn for one transaction. *)
Record TxDraw := mkTxDraw {
  td_seed : bytes;
  td_address : bytes;
  td_now : float64;
  td_nonce : bytes;
  td_funding_address : bytes;
}.

Definition funding_hash (i : nat) : bytes := sha3_256 (b: "funding_" ++ dec_text (Z.of_nat i)).

Definition bench_tx (fund pub signature address nonce : bytes) (timestamp : Z) : Transaction :=
  mkTransaction 1 TRANSFER [mkTxInput fund 0 signature pub None (-1)] [mkTxOutput 1000 address 0 []]
    0 timestamp 5000 nonce None.

(** The generating loop, from position [i]. *)
Fixpoint generate (s : ShardedUTXOSet) (i : nat) (draws : list TxDraw)
    : res (ShardedUTXOSet * list Transaction) :=
  match draws with
  | [] => Ok (s, [])
  | d :: draws =>
      '(priv, pub) ← keygen (td_seed d);
      timestamp ← to_ms (td_now d);
      let fund := funding_hash i in
      let placeholder := replicate 2144 Byte.x00 in
      s ← add_utxo s fund 0 (mkTxOutput 10000 (td_funding_address d) 0 []) 0;
      sh ← signing_hash (bench_tx fund pub placeholder (td_address d) (td_nonce d) timestamp);
      let tx := bench_tx fund pub (wots_sign sh priv) (td_address d) (td_nonce d) timestamp in
      '(s, transactions) ← generate s (S i) draws;
      Ok (s, tx :: transactions)
  end.

(** The two readings around each phase, and those that [verify_batch] takes inside. *)
Record BenchClock := mkBenchClock {
  bc_generate : float64 * float64;
  bc_verify : float64 * float64;
  bc_batch : float64 * float64;
  bc_lookup : float64 * float64;
  bc_merkle : float64 * float64;
}.

Definition elapsed (t : float64 * float64) : float64 := float_sub t.2 t.1.

Record BenchResults := mkBenchResults {
  br_generation_time_s : float64;
  br_generation_tps : float64;
  br_verify_1k_time_s : float64;
  br_verify_tps : float64;
  br_utxo_lookup_time_s : float64;
  br_utxo_lookup_tps : float64;
  br_merkle_time_s : float64;
  br_merkle_tps : float64;
  br_projected_single_zone_tps : float64;
  br_projected_6_zone_tps : float64;
  br_target_tps : Z;
  br_target_achievable_pct : float64;
}.

(** What the timed calls return. *)
Record BenchOutcome := mkBenchOutcome {
  bo_transactions : list Transaction;
  bo_tx_valid : gmap bytes bool;
  bo_utxos : list (option UTXO);
  bo_root : bytes;
}.

Definition with_set_verifier (b : ThroughputBenchmark) (s : ShardedUTXOSet) (v : BatchWOTSVerifier) : ThroughputBenchmark :=
  let p := tb_pipeline b in
  mkBenchmark (mkPipeline s v (tp_num_workers p) (tp_stages p)) (tb_merkle b).

(** [tx.inputs[0].prev_tx_hash]. *)
Definition first_ref (tx : Transaction) : res outpoint :=
  match tx_inputs tx with
  | [] => Err (IndexError "list index out of range")
  | inp :: _ => Ok (ti_prev_tx_hash inp, 0%Z)
  end.

(** The rate of the verification counts 1000 whatever the number of signatures. *)
Definition run_benchmark (b : ThroughputBenchmark) (draws : list TxDraw) (c : BenchClock)
    : res (ThroughputBenchmark * BenchOutcome * BenchResults) :=
  let num_transactions := zlen draws in
  '(s, transactions) ← generate (tb_utxo_set b) 0 draws;
  generation_tps ← rate num_transactions (elapsed (bc_generate c));
  let '(v, tx_valid) := verify_transactions as_completed (tb_verifier b) (take 1000 transactions) []
                          (bc_batch c).1 (bc_batch c).2 in
  tx_valid ← tx_valid;
  verify_tps ← rate 1000 (elapsed (bc_verify c));
  refs ← res_map first_ref transactions;
  let utxos := batch_lookup threads s refs in
  lookup_tps ← rate num_transactions (elapsed (bc_lookup c));
  tx_hashes ← res_map tx_hash transactions;
  root ← compute_root (tb_merkle b) tx_hashes;
  merkle_tps ← rate num_transactions (elapsed (bc_merkle c));
  let six_zones := float_mul verify_tps (float_of_Z 6) in
  Ok (with_set_verifier b s v, mkBenchOutcome transactions tx_valid utxos root,
      mkBenchResults (elapsed (bc_generate c)) generation_tps (elapsed (bc_verify c)) verify_tps
        (elapsed (bc_lookup c)) lookup_tps (elapsed (bc_merkle c)) merkle_tps verify_tps six_zones
        TARGET_TPS (float_mul (float_div six_zones (float_of_Z TARGET_TPS)) (float_of_Z 100))).

(** ** The load *)

(** Every output that the benchmark stored. *)
Definition funded (f : UTXOSet) : Prop :=
  map_Forall (fun _ u => u_is_spent u = false /\ to_value (u_output u) = 10000%Z) (utxos f).

(** A signed transaction of the load, whose output is stored. *)
Definition load_ok (f : UTXOSet) (tx : Transaction) : Prop :=
  exists inp sh, tx_inputs tx = [inp] /\ tx_hash tx = Ok sh /\ signing_hash tx = Ok sh /\
    wots_verify sh (ti_signature inp) (ti_public_key inp) = true /\ is_Some (utxos f !! (ti_prev_tx_hash inp, 0%Z)).

Definition draw_ok (d : TxDraw) : Prop := exists ts, to_ms (td_now d) = Ok ts /\ (0 <= ts < 2 ^ 64)%Z.

Lemma add_represented s f h i o e :
  represents s f -> exists s', add_utxo s h i o e = Ok s' /\ represents s' (Ledger.add_utxo f h i o e).
Proof.
  intros Hr. destruct (rep_lookup s f Hr (h, i)) as (shard & E & _). unfold add_utxo, store. cbn [fst] in *.
  rewrite (shard_at_Some _ _ _ E), !bind_Ok. eexists. split; [reflexivity|].
  unfold index, with_shard, Ledger.add_utxo. cbn [num_shards shards by_address]. rewrite (rep_index s f Hr).
  by apply (represents_put s f (h, i)).
Qed.

Lemma add_funded f h address :
  funded f -> funded (Ledger.add_utxo f h 0 (mkTxOutput 10000 address 0 []) 0).
Proof. intros Hf. by apply map_Forall_insert_2. Qed.

Lemma load_ok_add f h o tx : load_ok f tx -> load_ok (Ledger.add_utxo f h 0 o 0) tx.
Proof.
  intros (inp & sh & Hi & Hh & Hs & Hv & Hu). exists inp, sh. repeat split; try done.
  cbn [Ledger.add_utxo utxos]. destruct (decide ((h, 0%Z) = (ti_prev_tx_hash inp, 0%Z))) as [->|Hne].
  - by rewrite lookup_insert_eq.
  - by rewrite lookup_insert_ne.
Qed.

Lemma bench_tx_signed fund pub address nonce ts priv seed signature :
  keygen seed = Ok (priv, pub) -> (0 <= ts < 2 ^ 64)%Z ->
  exists sh, signing_hash (bench_tx fund pub signature address nonce ts) = Ok sh /\
    let tx := bench_tx fund pub (wots_sign sh priv) address nonce ts in
    signing_hash tx = Ok sh /\ tx_hash tx = Ok sh /\ wots_verify sh (wots_sign sh priv) pub = true.
Proof.
  intros Hk Hts. destruct (signing_hash_ok (bench_tx fund pub signature address nonce ts)) as (sh & E).
  { constructor; cbn [bench_tx tx_version tx_inputs tx_outputs tx_epoch tx_timestamp tx_fee]; try lia.
    - constructor; [cbn; lia|constructor].
    - constructor; [|constructor]. cbn [to_value to_lock_epoch to_data]. unfold zlen. cbn [length]. lia.
    - unfold zlen. cbn [length]. lia. }
  exists sh. split; [exact E|]. cbv zeta.
  assert (E' : signing_hash (bench_tx fund pub (wots_sign sh priv) address nonce ts) = Ok sh).
  { rewrite <- E. apply signing_hash_inputs; try reflexivity. by repeat constructor. }
  split; [exact E'|]. split; [exact E'|]. by eapply wots_correct.
Qed.

(** The loop stores an output for each transaction and signs it. *)
Lemma generate_load_ok draws : forall s i f, represents s f -> funded f -> Forall draw_ok draws ->
  exists s' f' txs, generate s i draws = Ok (s', txs) /\ represents s' f' /\ funded f' /\
    (forall tx, load_ok f tx -> load_ok f' tx) /\ Forall (load_ok f') txs /\ length txs = length draws.
Proof.
  induction draws as [|d draws IH]; intros s i f Hr Hf Hd; cbn [generate].
  { exists s, f, []. do 4 (split; [done|]). by split. }
  apply Forall_cons in Hd as [(ts & Ets & Hts) Hd].
  destruct (keygen (td_seed d)) as [[priv pub]|] eqn:Ek; [|by rewrite keygen_spec in Ek].
  rewrite bind_Ok, Ets, bind_Ok. set (o := mkTxOutput 10000 (td_funding_address d) 0 []).
  destruct (add_represented s f (funding_hash i) 0 o 0 Hr) as (s1 & -> & Hr1). rewrite bind_Ok.
  destruct (bench_tx_signed (funding_hash i) pub (td_address d) (td_nonce d) ts priv (td_seed d)
    (replicate 2144 Byte.x00) Ek Hts) as (sh & -> & Es & Eh & Hv).
  rewrite bind_Ok.
  destruct (IH s1 (S i) _ Hr1 (add_funded f (funding_hash i) (td_funding_address d) Hf) Hd)
    as (s' & f' & txs & -> & Hr' & Hf' & Hmono & Hall & Hlen).
  rewrite bind_Ok. eexists s', f', _. split; [reflexivity|]. split; [done|]. split; [done|].
  split; [intros tx Htx; by apply Hmono, load_ok_add|]. split; [|cbn [length]; by rewrite Hlen].
  constructor; [|done]. apply Hmono. eexists _, sh. split; [reflexivity|]. split; [exact Eh|]. split; [exact Es|].
  split; [exact Hv|]. cbn [ti_prev_tx_hash Ledger.add_utxo utxos]. by rewrite lookup_insert_eq.
Qed.

(** ** The verification *)

Lemma collect_load f txs : forall items mapping, Forall (load_ok f) txs ->
  exists items' mapping', collect_items [] txs items mapping = Ok (items ++ items', mapping ++ mapping') /\
    Forall (fun item => verify_single item = true) items' /\ length items' = length txs.
Proof.
  induction txs as [|tx txs IH]; intros items mapping Hall; cbn [collect_items].
  { exists [], []. by rewrite !app_nil_r. }
  apply Forall_cons in Hall as [(inp & sh & Hi & Hh & Hs & Hv & _) Hall].
  unfold hash_to_sign. rewrite Hs, bind_Ok, Hi. cbn [res_map map]. rewrite Hh, !bind_Ok.
  destruct (IH (items ++ [(sh, ti_signature inp, ti_public_key inp)]) (mapping ++ [sh]) Hall)
    as (items' & mapping' & -> & Hf & Hl).
  exists ((sh, ti_signature inp, ti_public_key inp) :: items'), (sh :: mapping').
  rewrite <- !app_assoc. split; [done|]. split; [by constructor|]. cbn [length]. by rewrite Hl.
Qed.

Lemma no_invalid mapping results m :
  Forall (fun r => r.2 = true) results -> foldl (mark_invalid mapping) m results = m.
Proof.
  induction 1 as [|[i b] results Hb _ IH]; [done|]. cbn [foldl]. cbn [snd] in Hb. subst b.
  unfold mark_invalid at 2. cbn [fst snd negb]. by destruct (mapping !! i).
Qed.

Section Orders.
Hypothesis completes : forall l, as_completed l ≡ₚ l.
Hypothesis threads_run : forall groups, threads groups ≡ₚ map_to_list groups.

(** No signature of the load fails, and the counters say so. *)
Lemma verify_load f v txs t1 t2 : Forall (load_ok f) txs ->
  exists v', verify_transactions as_completed v txs [] t1 t2 = (v', Ok ∅) /\
    verified_count v' = (verified_count v + zlen txs)%Z /\ failed_count v' = failed_count v.
Proof.
  intros Hall. unfold verify_transactions.
  destruct (collect_load f txs [] [] Hall) as (items & mapping & -> & Hf & Hl). cbn [app].
  destruct (decide (items = [])) as [->|Hne].
  { destruct txs; [|done]. exists v. split; [done|]. unfold zlen. cbn. lia. }
  pose proof (verify_batch_spec as_completed v items t1 t2 completes) as Hb.
  destruct (verify_batch as_completed v items t1 t2) as [v' results]. destruct Hb as (-> & Hv & Hf').
  exists v'. rewrite no_invalid.
  - split; [by destruct items|]. split; [rewrite Hv; f_equal; unfold zlen; rewrite <- Hl; f_equal|rewrite Hf'].
    + clear -Hf. induction Hf as [|x items Hx _ IH]; [done|]. cbn [List.filter]. rewrite Hx. cbn [length]. by rewrite IH.
    + clear -Hf. unfold zlen. induction Hf as [|x items Hx _ IH]; [cbn; lia|]. cbn [List.filter]. by rewrite Hx.
  - apply Forall_lookup_2. intros j [n b] Hj. apply imap_lookup_Some in Hj as (x & Hx & [= -> ->]).
    cbn [snd]. exact (Forall_lookup_1 _ _ _ _ Hf Hx).
Qed.

(** Every output that the load spends is found, and is not spent. *)
Definition found_all (utxos : list (option UTXO)) : Prop :=
  Forall (fun o => exists u, o = Some u /\ u_is_spent u = false /\ to_value (u_output u) = 10000%Z) utxos.

Lemma lookup_load s f txs : represents s f -> funded f -> Forall (load_ok f) txs ->
  exists refs hashes, res_map first_ref txs = Ok refs /\ res_map tx_hash txs = Ok hashes /\
    length (batch_lookup threads s refs) = length txs /\ found_all (batch_lookup threads s refs).
Proof.
  intros Hr Hf Hall.
  assert (Hmaps : exists refs hashes, res_map first_ref txs = Ok refs /\ res_map tx_hash txs = Ok hashes /\
    length refs = length txs /\ Forall (fun k => is_Some (utxos f !! k)) refs).
  { induction Hall as [|tx txs (inp & sh & Hi & Hh & _ & _ & Hu) _ (refs & hashes & Er & Eh & Hl & Hs)]; [by exists [], []|].
    assert (Ef : first_ref tx = Ok (ti_prev_tx_hash inp, 0%Z)) by (unfold first_ref; by rewrite Hi).
    exists ((ti_prev_tx_hash inp, 0%Z) :: refs), (sh :: hashes). cbn [res_map length].
    rewrite Ef, bind_Ok, Er, bind_Ok, Hh, bind_Ok, Eh, bind_Ok, Hl. do 3 (split; [done|]). by constructor. }
  destruct Hmaps as (refs & hashes & Er & Eh & Hl & Hs). exists refs, hashes. do 2 (split; [done|]).
  unfold found_all. rewrite (batch_lookup_flat threads threads_run s f refs Hr), length_map. split; [done|].
  apply Forall_fmap.
  eapply Forall_impl; [exact Hs|]. intros [h j] [u Hu]. exists u. split; [exact Hu|]. exact (Hf _ _ Hu).
Qed.

(** A rate is a float, unless the phase took no time. *)
Lemma rate_ends n t : (exists x, rate n t = Ok x) \/ rate n t = Err ZeroDivisionError.
Proof. destruct t; cbn [rate]; eauto. Qed.

(** The benchmark measures what it means to.  For every number of processors, every load with
    clock readings that fit 64 bits, and whatever the order in which the futures and the threads
    complete: the benchmark either stops at a phase whose clock stood still, or ends, and then
    all the signatures it checked, the first 1000, were valid, all outputs were found unspent, and
    the Merkle root is the sequential root of the hashes. *)
Theorem benchmark_sound (cpu_cores : nat) (draws : list TxDraw) (c : BenchClock)
    (Hdraws : Forall draw_ok draws) (Hsome : draws <> []) :
  exists b, benchmark_new cpu_cores = Ok b /\
    (run_benchmark b draws c = Err ZeroDivisionError \/
     exists b' o results hashes, run_benchmark b draws c = Ok (b', o, results) /\
       length (bo_transactions o) = length draws /\ bo_tx_valid o = ∅ /\
       verified_count (tb_verifier b') = Z.min 1000 (zlen draws) /\ failed_count (tb_verifier b') = 0%Z /\
       length (bo_utxos o) = length draws /\ found_all (bo_utxos o) /\
       res_map tx_hash (bo_transactions o) = Ok hashes /\ compute_root_sequential hashes = Ok (bo_root o)).
Proof.
  unfold benchmark_new. assert (Hm : exists m, parallel_tree_new (MERKLE_WORKERS cpu_cores) = Ok m).
  { unfold MERKLE_WORKERS. destruct (2 `max` (cpu_cores / 4)) eqn:E; [lia|]. by eexists. }
  destruct Hm as (m & ->). rewrite bind_Ok. eexists. split; [reflexivity|].
  unfold run_benchmark, tb_utxo_set, tb_verifier. cbn [tb_pipeline pipeline_new tp_utxo_set tp_verifier tb_merkle].
  destruct (generate_load_ok draws (sharded_new 256) 0 utxo_set_new represents_new) as (s & f & txs & -> & Hr & Hf & _ & Hall & Hlen);
    [apply map_Forall_empty|exact Hdraws|]. rewrite bind_Ok.
  destruct (rate_ends (zlen draws) (elapsed (bc_generate c))) as [(r1 & ->)| -> ]; [|by left]. rewrite bind_Ok.
  destruct (verify_load f (batch_verifier_new (VERIFICATION_WORKERS cpu_cores)) (take 1000 txs) (bc_batch c).1 (bc_batch c).2
    (Forall_take _ _ _ Hall)) as (v' & -> & Hv & Hfail). rewrite bind_Ok.
  destruct (rate_ends 1000 (elapsed (bc_verify c))) as [(r2 & ->)| -> ]; [|by left]. rewrite bind_Ok.
  destruct (lookup_load s f txs Hr Hf Hall) as (refs & hashes & -> & Eh & Hlr & Hfound). rewrite bind_Ok.
  destruct (rate_ends (zlen draws) (elapsed (bc_lookup c))) as [(r3 & ->)| -> ]; [|by left]. rewrite bind_Ok, Eh, bind_Ok.
  assert (Hne : hashes <> []).
  { apply res_map_Ok, Forall2_length in Eh. destruct hashes, txs, draws; done. }
  destruct (compute_roots hashes Hne) as (root & Et & Es & _).
  assert (compute_root m hashes = Ok root) as -> by (rewrite compute_root_of; unfold root_of; by rewrite Et).
  rewrite bind_Ok. destruct (rate_ends (zlen draws) (elapsed (bc_merkle c))) as [(r4 & ->)| -> ]; [|by left].
  rewrite bind_Ok. right. eexists _, _, _, hashes. split; [reflexivity|].
  cbn [bo_transactions bo_tx_valid bo_utxos bo_root tb_pipeline with_set_verifier tp_verifier].
  split; [done|]. split; [done|]. split.
  { rewrite Hv. unfold zlen. rewrite length_take, Hlen. change (verified_count (batch_verifier_new _)) with 0%Z.
    change 1000%Z with (Z.of_nat 1000). rewrite <- Nat2Z.inj_min. lia. }
 
  split; [by rewrite Hfail|]. split; [by rewrite Hlr|]. done.
Qed.

End Orders.

End Throughput.

(** ** A sample load *)

Section Sample.
#[local] Existing Instance toy_hashlib.

Definition sample_draws : list TxDraw :=
  [mkTxDraw (replicate 64 Byte.x01) (replicate 64 Byte.x02) (float_of_Z 2) (b: "nonce001") (replicate 64 Byte.x03);
   mkTxDraw (replicate 64 Byte.x04) (replicate 64 Byte.x05) (float_of_Z 3) (b: "nonce002") (replicate 64 Byte.x06)].

Definition sample_clock : BenchClock :=
  let phase := (float_of_Z 1, float_of_Z 2) in mkBenchClock phase phase phase phase phase.

Definition sample_benchmark (b : ThroughputBenchmark) : res (ThroughputBenchmark * BenchOutcome * BenchResults) :=
  run_benchmark reverse (fun groups => map_to_list groups) b sample_draws sample_clock.

Example sample_benchmark_ends :
  match benchmark_new 8 with
  | Ok b => match sample_benchmark b with
            | Ok (_, o, r) => length (bo_utxos o) = 2 /\ br_generation_tps r = float_of_Z 2
            | Err _ => False
            end
  | Err _ => False
  end.
Proof. vm_compute. split; reflexivity. Qed.

Lemma benchmark_sound_witness : exists b, benchmark_new 8 = Ok b /\
  (sample_benchmark b = Err ZeroDivisionError \/
   exists b' o r, sample_benchmark b = Ok (b', o, r) /\ bo_tx_valid o = ∅ /\ verified_count (tb_verifier b') = 2%Z /\
     found_all (bo_utxos o)).
Proof.
  destruct (benchmark_sound reverse (fun groups => map_to_list groups)
    (fun l => reverse_Permutation l) (fun groups => Permutation_refl _) 8 sample_draws sample_clock)
    as (b & E & [Hz|(b' & o & r & hashes & Hr & _ & Hv & Hc & _ & _ & Hf & _)]).
  - repeat constructor; eexists; (split; [vm_compute; reflexivity|lia]).
  - discriminate.
  - exists b. split; [exact E|]. by left.
  - exists b. split; [exact E|]. right. exists b', o, r. split; [exact Hr|]. split; [exact Hv|]. split; [exact Hc|exact Hf].
Defined.

End Sample.
