(* ===== verification/TxValidation.v ===== *)
(** * Validating and applying transactions ([src/src/transaction.py], lines 386-788)

    [TransactionValidator] checks a transaction against the UTXO set and the registry and
    applies it.  A check returns the pair of the code or the exception it lets escape;
    [apply_transaction] also returns the state it leaves, since it can stop midway.  Main
    results: what an accepted transfer is ([validate_transfer_spec]); applying an accepted
    transaction that is neither a coinbase nor a slash and spends distinct outputs succeeds and
    lowers the supply by at least its fee ([accepted_apply_conserves]); a transfer may name an output twice, is then
    accepted with the value counted twice, and applying it fails with its inputs already spent
    ([duplicate_input_accepted]). *)

From stdpp Require Import prelude list gmap strings pretty.
From Stdlib Require Import Strings.Byte ZArith Lia.
From S2P Require Import Prelude.
From S2P Require Import PyFloat.
From S2P Require Import Crypto.
From S2P Require Import Wots.
From S2P Require Import Merkle.
From S2P Require Import TemporalAuth.
From S2P Require Import Transaction.
From S2P Require Import Ledger.

Set Default Goal Selector "!".

(** The mutable objects a validator refers to. *)
Record Validator := mkValidator {
  v_utxo_set : UTXOSet;
  v_auth_registry : AuthRegistry;
}.

(** [(is_valid, reason)]. *)
Abbreviation verdict := (bool * string)%type.

Definition MAX_COINBASE_VALUE : Z := 10000000000.

(** The text [hash[:8]:index] of the messages. *)
Definition show_outpoint (i : TxInput) : string :=
  hex_prefix 8 (ti_prev_tx_hash i) +:+ ":" +:+ pretty (ti_output_index i).

Section Validation.
Context `{Hashlib}.

(** ** Transfers *)

(** Comparing a computed root with a missing one is [False]. *)
Definition proof_matches (leaf : bytes) (proof : merkle_proof) (root : option bytes) : bool :=
  match root with
  | Some root => verify_proof leaf proof root
  | None => false
  end.

(** The checks on one input: a rejection, or the value it brings. *)
Definition check_input (v : Validator) (current_epoch : Z) (signing_hash : bytes) (inp : TxInput)
    : string + Z :=
  match get_utxo (v_utxo_set v) (ti_prev_tx_hash inp) (ti_output_index inp) with
  | None => inl ("UTXO not found: " +:+ show_outpoint inp)
  | Some utxo =>
      if u_is_spent utxo then inl ("UTXO already spent: " +:+ show_outpoint inp)
      else if (current_epoch <? to_lock_epoch (u_output utxo))%Z then
        inl ("UTXO locked until epoch " +:+ pretty (to_lock_epoch (u_output utxo)))
      else if negb (wots_verify signing_hash (ti_signature inp) (ti_public_key inp)) then
        inl ("invalid signature for input " +:+ show_outpoint inp)
      else
        let owner_addr := to_address (u_output utxo) in
        if is_registered (v_auth_registry v) owner_addr then
          let auth_root := get_auth_root (v_auth_registry v) owner_addr in
          match ti_auth_proof inp with
          | Some ((_ :: _) as proof) =>
              if negb (proof_matches (sha3_256 (ti_public_key inp)) proof auth_root) then
                inl ("public key not in auth tree for " +:+ hex_prefix 16 owner_addr)
              else inr (to_value (u_output utxo))
          | _ => inl ("registered address requires temporal auth proof for "
                        +:+ hex_prefix 16 owner_addr)
          end
        else inr (to_value (u_output utxo))
  end.

(** The loop over the inputs with its running total. *)
Fixpoint check_inputs (v : Validator) (current_epoch : Z) (signing_hash : bytes)
    (total_input : Z) (inputs : list TxInput) : string + Z :=
  match inputs with
  | [] => inr total_input
  | inp :: inputs =>
      match check_input v current_epoch signing_hash inp with
      | inl reason => inl reason
      | inr value => check_inputs v current_epoch signing_hash (total_input + value) inputs
      end
  end.

Definition insufficient (total_input total_output : Z) : string :=
  "insufficient input: " +:+ pretty total_input +:+ " < " +:+ pretty total_output.

Definition validate_transfer (v : Validator) (tx : Transaction) (current_epoch : Z)
    : res verdict :=
  signing_hash ← signing_hash tx;
  match check_inputs v current_epoch signing_hash 0 (tx_inputs tx) with
  | inl reason => Ok (false, reason)
  | inr total_input =>
      let total_output := (total_output tx + tx_fee tx)%Z in
      if (total_input <? total_output)%Z then Ok (false, insufficient total_input total_output)
      else Ok (true, "valid")
  end.

(** ** The other types *)

Definition validate_stake (v : Validator) (tx : Transaction) (current_epoch : Z) : res verdict :=
  '(valid, reason) ← validate_transfer v tx current_epoch;
  if negb valid then Ok (false, reason)
  else
    let has_stake := existsb (fun o => current_epoch <? to_lock_epoch o)%Z (tx_outputs tx) in
    if negb has_stake then Ok (false, "no staking output") else Ok (true, "valid").

Definition validate_unstake (v : Validator) (tx : Transaction) (current_epoch : Z)
    : res verdict :=
  validate_transfer v tx current_epoch.

Definition validate_coinbase (tx : Transaction) : verdict :=
  if negb (zlen (tx_inputs tx) =? 0)%Z then (false, "coinbase must have no inputs")
  else if (zlen (tx_outputs tx) =? 0)%Z then (false, "coinbase must have outputs")
  else
    let total_coinbase := sumZ (map to_value (tx_outputs tx)) in
    if (MAX_COINBASE_VALUE <? total_coinbase)%Z then
      (false, "coinbase value " +:+ pretty total_coinbase +:+ " exceeds max "
                +:+ pretty MAX_COINBASE_VALUE)
    else (true, "valid").

Fixpoint check_slash_inputs (v : Validator) (signing_hash : bytes) (inputs : list TxInput)
    : verdict :=
  match inputs with
  | [] => (true, "valid")
  | inp :: inputs =>
      if negb (wots_verify signing_hash (ti_signature inp) (ti_public_key inp)) then
        (false, "invalid signature on slash tx")
      else
        match get_utxo (v_utxo_set v) (ti_prev_tx_hash inp) (ti_output_index inp) with
        | None => (false, "slashed UTXO not found")
        | Some utxo =>
            if u_is_spent utxo then (false, "slashed UTXO already spent")
            else if (to_lock_epoch (u_output utxo) =? 0)%Z then
              (false, "slashed UTXO is not a staked output")
            else check_slash_inputs v signing_hash inputs
        end
  end.

Definition validate_slash (v : Validator) (tx : Transaction) : res verdict :=
  match tx_outputs tx with
  | [] => Ok (false, "slash tx must have at least 1 output")
  | out0 :: _ =>
      if (zlen (to_data out0) <? 32)%Z then
        Ok (false, "slash tx must include 32-byte evidence hash in output[0].data")
      else if (zlen (tx_inputs tx) =? 0)%Z then
        Ok (false, "slash tx must reference slashed validator's staked UTXO")
      else
        signing_hash ← signing_hash tx;
        Ok (check_slash_inputs v signing_hash (tx_inputs tx))
  end.

Definition validate_data (v : Validator) (tx : Transaction) (current_epoch : Z) : res verdict :=
  '(valid, reason) ← validate_transfer v tx current_epoch;
  if negb valid then Ok (false, reason)
  else
    let has_data := existsb (fun o => 0 <? zlen (to_data o))%Z (tx_outputs tx) in
    if negb has_data then Ok (false, "no data payload") else Ok (true, "valid").

(** [sha3_512(concat(b"address_outer", inner_hash))]. *)
Definition derive_address (inner_hash : bytes) : res bytes :=
  d ← py_concat [PBytes (b: "address_outer"); PBytes inner_hash]; Ok (sha3_512 d).

Definition validate_register (v : Validator) (tx : Transaction) (current_epoch : Z)
    : res verdict :=
  match tx_inputs tx with
  | [inp] =>
      match tx_outputs tx with
      | [] => Ok (false, "register tx must have at least 1 output")
      | out0 :: _ =>
          let reg_data := to_data out0 in
          if negb (zlen reg_data =? 96)%Z then
            Ok (false, "register output data must be 96 bytes (inner_hash||auth_root), got "
                         +:+ pretty (zlen reg_data))
          else
            let inner_hash := slice 0 64 reg_data in
            derived_address ← derive_address inner_hash;
            match get_utxo (v_utxo_set v) (ti_prev_tx_hash inp) (ti_output_index inp) with
            | None => Ok (false, "UTXO not found for register input")
            | Some utxo =>
                if u_is_spent utxo then Ok (false, "UTXO already spent")
                else if negb (bool_decide (to_address (u_output utxo) = derived_address)) then
                  Ok (false, "inner_hash does not derive to UTXO address")
                else if (current_epoch <? to_lock_epoch (u_output utxo))%Z then
                  Ok (false, "UTXO locked until epoch " +:+ pretty (to_lock_epoch (u_output utxo)))
                else
                  signing_hash ← signing_hash tx;
                  if negb (wots_verify signing_hash (ti_signature inp) (ti_public_key inp)) then
                    Ok (false, "invalid WOTS+ signature for register tx")
                  else if is_registered (v_auth_registry v) derived_address then
                    Ok (false, "address already registered")
                  else
                    let total_input := to_value (u_output utxo) in
                    let total_output := (total_output tx + tx_fee tx)%Z in
                    if (total_input <? total_output)%Z then
                      Ok (false, insufficient total_input total_output)
                    else Ok (true, "valid")
            end
      end
  | _ => Ok (false, "register tx must have exactly 1 input")
  end.

(** The [while offset + 33 <= len(proof_bytes)] loop. *)
Fixpoint parse_rotation_proof (fuel : nat) (proof_bytes : bytes) (offset : nat)
    : res merkle_proof :=
  if offset + 33 <=? length proof_bytes then
    match fuel with
    | O => Err OutOfFuel
    | S fuel =>
        let sibling := slice offset (offset + 32) proof_bytes in
        let is_right := match proof_bytes !! (offset + 32) with
                        | Some c => byte_val c | None => 0%Z end in
        rest ← parse_rotation_proof fuel proof_bytes (offset + 33);
        Ok ((sibling, is_right) :: rest)
    end
  else Ok [].

(** The fields of the extended [public_key] of a rotation: key, proof, key index. *)
Definition parse_rotation_key (pk_data : bytes) : res (string + (bytes * merkle_proof * Z)) :=
  let wots_pub_size := 67 * 32 in
  if length pk_data <? wots_pub_size + 6 then
    Ok (inl "rotate_auth input public_key field too short")
  else
    let wots_pub := slice 0 wots_pub_size pk_data in
    proof_len ← unpack_uint 2 (slice wots_pub_size (wots_pub_size + 2) pk_data);
    let proof_data_start := wots_pub_size + 2 in
    let proof_data_end := proof_data_start + Z.to_nat proof_len in
    if length pk_data <? proof_data_end + 4 then
      Ok (inl "rotate_auth input: insufficient proof data")
    else
      let proof_bytes := slice proof_data_start proof_data_end pk_data in
      key_index ← unpack_uint 4 (slice proof_data_end (proof_data_end + 4) pk_data);
      proof ← parse_rotation_proof (length proof_bytes) proof_bytes 0;
      Ok (inr (wots_pub, proof, key_index)).

Definition validate_rotate_auth (v : Validator) (tx : Transaction) (current_epoch : Z)
    : res verdict :=
  match tx_inputs tx with
  | [inp] =>
      match tx_outputs tx with
      | [] => Ok (false, "rotate_auth tx must have at least 1 output")
      | out0 :: _ =>
          let rot_data := to_data out0 in
          if negb (zlen rot_data =? 32)%Z then
            Ok (false, "rotate_auth output data must be 32 bytes (new_auth_root), got "
                         +:+ pretty (zlen rot_data))
          else
            match get_utxo (v_utxo_set v) (ti_prev_tx_hash inp) (ti_output_index inp) with
            | None => Ok (false, "UTXO not found for rotate_auth input")
            | Some utxo =>
                if u_is_spent utxo then Ok (false, "UTXO already spent")
                else
                  let address := to_address (u_output utxo) in
                  if (current_epoch <? to_lock_epoch (u_output utxo))%Z then
                    Ok (false, "UTXO locked until epoch "
                                 +:+ pretty (to_lock_epoch (u_output utxo)))
                  else if negb (is_registered (v_auth_registry v) address) then
                    Ok (false, "address not registered, cannot rotate")
                  else
                    parsed ← parse_rotation_key (ti_public_key inp);
                    match parsed with
                    | inl reason => Ok (false, reason)
                    | inr (wots_pub, proof, key_index) =>
                        signing_hash ← signing_hash tx;
                        let verified :=
                          match get_auth_root (v_auth_registry v) address with
                          | Some current_auth_root =>
                              verify_against_root signing_hash (ti_signature inp) wots_pub proof
                                current_auth_root
                          | None => false
                          end in
                        if negb verified then
                          Ok (false, "temporal auth verification failed for rotate_auth")
                        else if (key_index <? 1022)%Z then
                          Ok (false, "rotate_auth must use reserved key (1022-1023), got "
                                       +:+ pretty key_index)
                        else
                          let total_input := to_value (u_output utxo) in
                          let total_output := (total_output tx + tx_fee tx)%Z in
                          if (total_input <? total_output)%Z then
                            Ok (false, insufficient total_input total_output)
                          else Ok (true, "valid")
                    end
            end
      end
  | _ => Ok (false, "rotate_auth tx must have exactly 1 input")
  end.

(** ** Dispatch *)

Definition validate_by_type (v : Validator) (tx : Transaction) (current_epoch : Z)
    : res verdict :=
  match tx_type tx with
  | COINBASE => Ok (validate_coinbase tx)
  | TRANSFER => validate_transfer v tx current_epoch
  | STAKE => validate_stake v tx current_epoch
  | UNSTAKE => validate_unstake v tx current_epoch
  | SLASH => validate_slash v tx
  | DATA => validate_data v tx current_epoch
  | REGISTER => validate_register v tx current_epoch
  | ROTATE_AUTH => validate_rotate_auth v tx current_epoch
  end.

Definition validate_transaction (v : Validator) (tx : Transaction) (current_epoch : Z)
    : res verdict :=
  let '(valid, reason) := is_valid_structure tx in
  if negb valid then Ok (false, reason)
  else if (current_epoch <? tx_epoch tx)%Z then
    Ok (false, "future epoch: " +:+ pretty (tx_epoch tx) +:+ " > " +:+ pretty current_epoch)
  else if (tx_epoch tx <? current_epoch - 1)%Z then
    Ok (false, "expired epoch: " +:+ pretty (tx_epoch tx))
  else validate_by_type v tx current_epoch.

(** ** Application *)

Definition with_utxo_set (v : Validator) (s : UTXOSet) : Validator :=
  mkValidator s (v_auth_registry v).

Definition with_auth_registry (v : Validator) (r : AuthRegistry) : Validator :=
  mkValidator (v_utxo_set v) r.

(** Spend the inputs; [Ok false] at the first one that cannot be spent. *)
Fixpoint spend_inputs (tx : Transaction) (s : UTXOSet) (inputs : list TxInput)
    : UTXOSet * res bool :=
  match inputs with
  | [] => (s, Ok true)
  | inp :: inputs =>
      match tx_hash tx with
      | Err e => (s, Err e)
      | Ok h =>
          let '(s, result) := spend_utxo s (ti_prev_tx_hash inp) (ti_output_index inp) h in
          match result with
          | None => (s, Ok false)
          | Some _ => spend_inputs tx s inputs
          end
      end
  end.

Fixpoint create_outputs (tx : Transaction) (s : UTXOSet) (i : Z) (outputs : list TxOutput)
    : UTXOSet * res unit :=
  match outputs with
  | [] => (s, Ok tt)
  | out :: outputs =>
      match tx_hash tx with
      | Err e => (s, Err e)
      | Ok h => create_outputs tx (add_utxo s h i out (tx_epoch tx)) (i + 1)%Z outputs
      end
  end.

Definition apply_stakes (tx : Transaction) (s : UTXOSet) : UTXOSet :=
  foldl (fun s out =>
      if (tx_epoch tx <? to_lock_epoch out)%Z then add_stake s (to_address out) (to_value out)
      else s) s (tx_outputs tx).

Definition apply_register (tx : Transaction) (v : Validator) : Validator * res bool :=
  match tx_outputs tx with
  | [] => (v, Err (IndexError "list index out of range"))
  | out0 :: _ =>
      let reg_data := to_data out0 in
      match derive_address (slice 0 64 reg_data) with
      | Err e => (v, Err e)
      | Ok address =>
          (with_auth_registry v
             (register_via_tx (v_auth_registry v) address (slice 64 96 reg_data)).1, Ok true)
      end
  end.

Definition apply_rotate (tx : Transaction) (v : Validator) : Validator * res bool :=
  match tx_outputs tx, tx_inputs tx with
  | out0 :: _, inp :: _ =>
      match get_utxo (v_utxo_set v) (ti_prev_tx_hash inp) (ti_output_index inp) with
      | Some utxo =>
          (with_auth_registry v
             (rotate_via_tx (v_auth_registry v) (to_address (u_output utxo))
                (slice 0 32 (to_data out0))).1, Ok true)
      | None => (v, Ok false)
      end
  | _, _ => (v, Err (IndexError "list index out of range"))
  end.

Definition apply_transaction (v : Validator) (tx : Transaction) : Validator * res bool :=
  let '(s, spent) := spend_inputs tx (v_utxo_set v) (tx_inputs tx) in
  match spent with
  | Err e => (with_utxo_set v s, Err e)
  | Ok false => (with_utxo_set v s, Ok false)
  | Ok true =>
      let '(s, created) := create_outputs tx s 0 (tx_outputs tx) in
      match created with
      | Err e => (with_utxo_set v s, Err e)
      | Ok tt =>
          let s := if bool_decide (tx_type tx = STAKE) then apply_stakes tx s else s in
          let v := with_utxo_set v s in
          match tx_type tx with
          | REGISTER => apply_register tx v
          | ROTATE_AUTH => apply_rotate tx v
          | _ => (v, Ok true)
          end
      end
  end.

End Validation.

(** ** What the checks accept *)

Section ValidationLemmas.
Context `{Hashlib}.

(** An owner that is registered must show that the key is under its current root. *)
Definition auth_ok (v : Validator) (owner : bytes) (inp : TxInput) : Prop :=
  is_registered (v_auth_registry v) owner = true ->
  exists proof root, ti_auth_proof inp = Some proof /\ proof <> [] /\
    get_auth_root (v_auth_registry v) owner = Some root /\
    verify_proof (sha3_256 (ti_public_key inp)) proof root = true.

(** An input that is accepted and brings [value]. *)
Definition input_ok (v : Validator) (e : Z) (sh : bytes) (inp : TxInput) (value : Z) : Prop :=
  exists utxo,
    get_utxo (v_utxo_set v) (ti_prev_tx_hash inp) (ti_output_index inp) = Some utxo /\
    u_is_spent utxo = false /\ (to_lock_epoch (u_output utxo) <= e)%Z /\
    wots_verify sh (ti_signature inp) (ti_public_key inp) = true /\
    auth_ok v (to_address (u_output utxo)) inp /\ value = to_value (u_output utxo).

Lemma check_input_spec v e sh inp value :
  check_input v e sh inp = inr value <-> input_ok v e sh inp value.
Proof.
  unfold check_input, input_ok, auth_ok, proof_matches.
  destruct (get_utxo _ _ _) as [u|]; [|split; [done | by intros (? & ? & ?)]].
  destruct (u_is_spent u) eqn:Esp; [split; [done | intros (? & [= <-] & ? & ?); congruence]|].
  destruct (Z.ltb_spec e (to_lock_epoch (u_output u)));
    [split; [done | intros (? & [= <-] & _ & ? & _); lia]|].
  destruct (wots_verify _ _ _) eqn:Ew; simpl;
    [|split; [done | intros (? & [= <-] & _ & _ & ? & _); congruence]].
  destruct (is_registered _ _) eqn:Er.
  2:{ split; [intros [= <-]; exists u; do 4 (split; [done|]); split; [intros; congruence|done]|].
      intros (? & [= <-] & _ & _ & _ & _ & ->). done. }
  split.
  - destruct (ti_auth_proof inp) as [[|st proof]|] eqn:Ep; [done| |done].
    destruct (get_auth_root _ _) as [root|] eqn:Eroot; [|done].
    destruct (verify_proof _ _ _) eqn:Ev; [|done]. simpl. intros [= <-].
    exists u. do 4 (split; [done|]). split; [|done]. intros _. by exists (st :: proof), root.
  - intros (? & [= <-] & _ & _ & _ & Ha & ->).
    destruct (Ha Er) as (proof & root & -> & Hne & -> & ->). by destruct proof.
Qed.

Lemma check_inputs_spec v e sh total inputs result :
  check_inputs v e sh total inputs = inr result <->
  exists values, Forall2 (input_ok v e sh) inputs values /\ result = (total + sumZ values)%Z.
Proof.
  revert total. induction inputs as [|inp inputs IH]; intros total; simpl.
  - split.
    + intros [= <-]. exists []. split; [constructor | simpl; lia].
    + intros (values & ->%Forall2_nil_inv_l & ->). f_equal. simpl. lia.
  - destruct (check_input v e sh inp) as [reason|value] eqn:E.
    + split; [done|]. intros (values & (value & values' & Hi & _ & _)%Forall2_cons_inv_l & _).
      apply check_input_spec in Hi. congruence.
    + rewrite IH. apply check_input_spec in E. split.
      * intros (values & Hf & ->). exists (value :: values). split; [by constructor|simpl; lia].
      * intros (values & (value' & values' & Hi & Hf & ->)%Forall2_cons_inv_l & ->).
        apply check_input_spec in E, Hi. rewrite E in Hi. injection Hi as <-.
        exists values'. split; [done | simpl; lia].
Qed.

(** What an accepted transfer is. *)
Definition transfer_ok (v : Validator) (tx : Transaction) (e : Z) : Prop :=
  exists sh values, signing_hash tx = Ok sh /\
    Forall2 (input_ok v e sh) (tx_inputs tx) values /\
    (total_output tx + tx_fee tx <= sumZ values)%Z.

Lemma validate_transfer_iff v tx e r :
  validate_transfer v tx e = Ok (true, r) <-> r = "valid" /\ transfer_ok v tx e.
Proof.
  unfold validate_transfer, transfer_ok. destruct (signing_hash tx) as [sh|]; simpl;
    [|split; [done | by intros (_ & ? & ? & ? & _)]].
  destruct (check_inputs v e sh 0 (tx_inputs tx)) as [reason|total] eqn:E.
  - split; [done|]. intros (_ & sh' & values & [= <-] & Hf & _).
    assert (check_inputs v e sh 0 (tx_inputs tx) = inr (0 + sumZ values)%Z) as E2
      by (apply check_inputs_spec; eauto). congruence.
  - apply check_inputs_spec in E as (values & Hf & ->).
    destruct (Z.ltb_spec (0 + sumZ values) (total_output tx + tx_fee tx)).
    + split; [done|]. intros (_ & sh' & values' & [= <-] & Hf' & Hle).
      assert (check_inputs v e sh 0 (tx_inputs tx) = inr (0 + sumZ values)%Z) as E1
        by (apply check_inputs_spec; eauto).
      assert (check_inputs v e sh 0 (tx_inputs tx) = inr (0 + sumZ values')%Z) as E2
        by (apply check_inputs_spec; eauto).
      rewrite E1 in E2. injection E2 as E2. lia.
    + split; [|by intros [-> _]]. intros [= <-]. split; [done|].
      exists sh, values. split; [done|]. split; [done|lia].
Qed.

(** The inputs name unspent outputs whose values are listed. *)
Definition input_values (s : UTXOSet) (inputs : list TxInput) (values : list Z) : Prop :=
  Forall2 (fun inp value => exists u,
      utxos s !! (ti_prev_tx_hash inp, ti_output_index inp) = Some u /\
      u_is_spent u = false /\ value = to_value (u_output u)) inputs values.

Lemma transfer_ok_values v tx e :
  transfer_ok v tx e ->
  exists sh values, signing_hash tx = Ok sh /\ input_values (v_utxo_set v) (tx_inputs tx) values /\
    (total_output tx + tx_fee tx <= sumZ values)%Z.
Proof.
  intros (sh & values & Hs & Hf & Hle). exists sh, values. split; [done|]. split; [|done].
  eapply Forall2_impl; [exact Hf|]. intros inp value (u & Hu & Hsp & _ & _ & _ & ->). by exists u.
Qed.

(** Every accepted transaction that is neither a coinbase nor a slash spends unspent outputs
    worth at least its outputs and its fee. *)
Lemma validate_by_type_values v tx e r :
  validate_by_type v tx e = Ok (true, r) -> tx_type tx <> COINBASE -> tx_type tx <> SLASH ->
  exists sh values, signing_hash tx = Ok sh /\ input_values (v_utxo_set v) (tx_inputs tx) values /\
    (total_output tx + tx_fee tx <= sumZ values)%Z.
Proof.
  unfold validate_by_type. intros Hv Hc Hs.
  destruct (tx_type tx); try done; clear Hc Hs.
  - apply validate_transfer_iff in Hv as [_ Hv]. by eapply transfer_ok_values.
  - unfold validate_stake in Hv. inv_res. destruct a as [[] r']; [|discriminate Hv].
    apply validate_transfer_iff in E as [_ E]. by eapply transfer_ok_values.
  - apply validate_transfer_iff in Hv as [_ Hv]. by eapply transfer_ok_values.
  - unfold validate_data in Hv. inv_res. destruct a as [[] r']; [|discriminate Hv].
    apply validate_transfer_iff in E as [_ E]. by eapply transfer_ok_values.
  - unfold validate_register in Hv.
    destruct (tx_inputs tx) as [|inp [|]] eqn:Ei; [done| |done].
    destruct (tx_outputs tx) as [|out0 outs]; [done|]. case_match; [done|]. inv_res.
    destruct (get_utxo _ _ _) as [u|] eqn:Eu; [|done]. destruct (u_is_spent u) eqn:Esp; [done|].
    case_match; [done|]. case_match; [done|]. inv_res. case_match; [done|]. case_match; [done|].
    destruct (Z.ltb_spec (to_value (u_output u)) (total_output tx + tx_fee tx)); [done|].
    eexists _, [to_value (u_output u)]. split; [eassumption|]. split; [|simpl; lia].
    constructor; [|constructor]. by exists u.
  - unfold validate_rotate_auth in Hv.
    destruct (tx_inputs tx) as [|inp [|]] eqn:Ei; [done| |done].
    destruct (tx_outputs tx) as [|out0 outs]; [done|]. case_match; [done|].
    destruct (get_utxo _ _ _) as [u|] eqn:Eu; [|done]. destruct (u_is_spent u) eqn:Esp; [done|].
    case_match; [done|]. case_match; [done|]. inv_res.
    destruct a as [?|[[wots_pub proof] key_index]]; [done|]. inv_res.
    case_match; [done|]. case_match; [done|].
    destruct (Z.ltb_spec (to_value (u_output u)) (total_output tx + tx_fee tx)); [done|].
    eexists _, [to_value (u_output u)]. split; [eassumption|]. split; [|simpl; lia].
    constructor; [|constructor]. by exists u.
Qed.

(** Every byte string parses: the rounds of the loop advance by 33 bytes. *)
Lemma parse_rotation_proof_ends fuel proof_bytes offset :
  length proof_bytes <= fuel + offset -> exists proof, parse_rotation_proof fuel proof_bytes offset = Ok proof.
Proof.
  revert offset. induction fuel as [|fuel IH]; intros offset Hf; cbn [parse_rotation_proof];
    destruct (Nat.leb_spec (offset + 33) (length proof_bytes)); [lia|by eexists| |by eexists].
  destruct (IH (offset + 33)) as [proof ->]; [lia|]. by eexists.
Qed.

End ValidationLemmas.

(** ** What application does to the UTXO set *)

Section ApplicationLemmas.
Context `{Hashlib}.

Definition inputs_outpoints (inputs : list TxInput) : list outpoint :=
  map (fun i => (ti_prev_tx_hash i, ti_output_index i)) inputs.

(** Spending distinct unspent outputs succeeds, takes their value out of the supply, marks
    each as spent by the transaction and touches nothing else. *)
Lemma spend_inputs_ok tx h s inputs values :
  tx_hash tx = Ok h -> input_values s inputs values -> NoDup (inputs_outpoints inputs) ->
  exists s', spend_inputs tx s inputs = (s', Ok true) /\
    supply s' = (supply s - sumZ values)%Z /\ staked s' = staked s /\
    (forall k, k ∉ inputs_outpoints inputs -> utxos s' !! k = utxos s !! k) /\
    (forall k, k ∈ inputs_outpoints inputs ->
       exists u, utxos s !! k = Some u /\ utxos s' !! k = Some (mark_spent h u)).
Proof.
  intros Hh Hv. revert s Hv. revert inputs.
  induction values as [|value values IH]; intros inputs s Hv Hnd.
  { apply Forall2_nil_inv_r in Hv as ->. exists s. split; [done|]. split; [simpl; lia|].
    split; [done|]. split; [done|]. intros k Hk. by apply not_elem_of_nil in Hk. }
  apply Forall2_cons_inv_r in Hv as (inp & inputs' & (u & Hu & Hsp & ->) & Hv & ->).
  simpl in Hnd. apply NoDup_cons in Hnd as [Hni Hnd].
  destruct (spend_utxo_Some s _ _ h u Hu Hsp) as (s1 & E & Eu & Est).
  destruct (IH inputs' s1) as (s' & Es & Hsup & Hst & Hout & Hin); [|done|].
  { clear -Hv Hni Eu. induction Hv as [|i x il xs Hix Hv IHv]; constructor.
    - destruct Hix as (w & Hw & ?). exists w. rewrite Eu, lookup_insert_ne; [done|].
      intros Heq. apply Hni. rewrite Heq. simpl. by left.
    - apply IHv. intros Hin. apply Hni. simpl. by right. }
  exists s'. simpl. rewrite Hh, E. split; [done|].
  apply supply_spend in E. simpl in E.
  split; [rewrite Hsup, E; simpl; lia|]. split; [by rewrite Hst|]. split.
  - intros k Hk. rewrite Hout by (intros ?; apply Hk; by right).
    rewrite Eu, lookup_insert_ne; [done|]. intros <-. apply Hk. by left.
  - intros k [->|Hk]%elem_of_cons.
    + exists u. split; [done|]. rewrite Hout by done. by rewrite Eu, lookup_insert_eq.
    + destruct (Hin k Hk) as (w & Hw & Hs'). exists w. split; [|done].
      rewrite Eu in Hw. rewrite lookup_insert_ne in Hw; [done|]. intros <-. done.
Qed.

(** Creating outputs under a fresh hash adds their value and stores each at its position. *)
Lemma create_outputs_ok tx h s i outputs :
  tx_hash tx = Ok h -> (forall j, (i <= j)%Z -> utxos s !! (h, j) = None) ->
  exists s', create_outputs tx s i outputs = (s', Ok tt) /\
    supply s' = (supply s + sumZ (map to_value outputs))%Z /\ staked s' = staked s /\
    (forall k, k.1 <> h \/ (k.2 < i)%Z -> utxos s' !! k = utxos s !! k) /\
    (forall j out, outputs !! j = Some out ->
       utxos s' !! (h, i + Z.of_nat j)%Z =
       Some (mkUTXO h (i + Z.of_nat j) out (tx_epoch tx) false None)).
Proof.
  intros Hh. revert s i. induction outputs as [|out outputs IH]; intros s i Hf.
  { exists s. split; [done|]. split; [simpl; lia|]. by repeat split. }
  destruct (IH (add_utxo s h i out (tx_epoch tx)) (i + 1)%Z) as (s' & E & Hsup & Hst & Hold & Hnew).
  { intros j Hj. simpl. rewrite lookup_insert_ne; [apply Hf; lia|]. intros [=]. lia. }
  exists s'. simpl. rewrite Hh. split; [done|].
  split; [rewrite Hsup, supply_add_fresh by (apply Hf; lia); simpl; lia|].
  split; [done|]. split.
  - intros [kh kj] Hk. simpl in Hk. rewrite Hold by (simpl; lia || (destruct Hk; [by left|right; lia])).
    simpl. rewrite lookup_insert_ne; [done|]. intros [= -> ->]. destruct Hk; [done|lia].
  - intros [|j] out' Hj; simpl in Hj.
    + injection Hj as <-. rewrite Z.add_0_r, Hold by (right; simpl; lia). simpl.
      by rewrite lookup_insert_eq.
    + apply Hnew in Hj. by replace (i + Z.of_nat (S j))%Z with (i + 1 + Z.of_nat j)%Z by lia.
Qed.

Lemma apply_stakes_utxos tx s : utxos (apply_stakes tx s) = utxos s.
Proof.
  unfold apply_stakes. revert s. induction (tx_outputs tx) as [|o outs IH]; intros s; [done|].
  simpl. rewrite IH. by case_match.
Qed.

(** Applying a transaction whose inputs are distinct unspent outputs and whose hash is new. *)
Lemma apply_transaction_ok v tx h values :
  tx_hash tx = Ok h -> tx_outputs tx <> [] ->
  (tx_type tx = ROTATE_AUTH -> tx_inputs tx <> []) ->
  input_values (v_utxo_set v) (tx_inputs tx) values -> NoDup (outpoints tx) ->
  (forall j, utxos (v_utxo_set v) !! (h, j) = None) ->
  exists v', apply_transaction v tx = (v', Ok true) /\
    supply (v_utxo_set v') = (supply (v_utxo_set v) - sumZ values + total_output tx)%Z /\
    (forall k, k ∈ outpoints tx ->
       exists u, utxos (v_utxo_set v) !! k = Some u /\
         utxos (v_utxo_set v') !! k = Some (mark_spent h u)) /\
    (forall j out, tx_outputs tx !! j = Some out ->
       utxos (v_utxo_set v') !! (h, Z.of_nat j) =
       Some (mkUTXO h (Z.of_nat j) out (tx_epoch tx) false None)) /\
    (forall k, k ∉ outpoints tx -> k.1 <> h ->
       utxos (v_utxo_set v') !! k = utxos (v_utxo_set v) !! k).
Proof.
  intros Hh Hout Hrot Hval Hnd Hfresh.
  destruct (spend_inputs_ok tx h _ _ _ Hh Hval Hnd) as (s1 & E1 & Hsup1 & _ & Hkeep & Hspent).
  assert (Hne : forall k, k ∈ outpoints tx -> k.1 <> h).
  { intros k Hk. destruct (Hspent k Hk) as (u & Hu & _). intros <-. destruct k as [kh kj].
    by rewrite Hfresh in Hu. }
  destruct (create_outputs_ok tx h s1 0 (tx_outputs tx) Hh) as (s2 & E2 & Hsup2 & _ & Hold & Hnew).
  { intros j _. rewrite Hkeep; [apply Hfresh|]. intros Hin. by apply Hne in Hin. }
  set (s3 := if bool_decide (tx_type tx = STAKE) then apply_stakes tx s2 else s2).
  assert (Hu3 : utxos s3 = utxos s2) by (unfold s3; case_match; [apply apply_stakes_utxos|done]).
  assert (exists v', apply_transaction v tx = (v', Ok true) /\ v_utxo_set v' = s3)
    as (v' & Ev & Es).
  { unfold apply_transaction. rewrite E1, E2. fold s3.
    destruct (tx_type tx) eqn:Ety; try (eexists; split; [reflexivity|done]).
    - unfold apply_register. destruct (tx_outputs tx); [done|].
      unfold derive_address. rewrite py_concat_bytes_cons. simpl.
      eexists; split; [reflexivity|done].
    - unfold apply_rotate. destruct (tx_outputs tx) as [|out0 outs]; [done|].
      destruct (tx_inputs tx) as [|inp ins] eqn:Ei; [by specialize (Hrot eq_refl)|].
      assert (Hin : (ti_prev_tx_hash inp, ti_output_index inp) ∈ outpoints tx)
        by (unfold outpoints; rewrite Ei; by left).
      unfold get_utxo. simpl. rewrite Hu3. rewrite Hold by (left; by apply Hne).
      destruct (Hspent (ti_prev_tx_hash inp, ti_output_index inp)) as (u & _ & ->); [by left|].
      eexists; split; [reflexivity|done]. }
  exists v'. split; [done|]. rewrite Es. split.
  - unfold supply in *. rewrite Hu3, Hsup2, Hsup1. unfold total_output. lia.
  - rewrite Hu3. split; [|split].
    + intros k Hk. rewrite Hold by (left; by apply Hne).
      by apply Hspent.
    + intros j out Hj. apply Hnew in Hj. by rewrite Z.add_0_l in Hj.
    + intros k Hk Hkh. rewrite Hold by (by left). by apply Hkeep.
Qed.

(** What application does to the registry. *)
Lemma apply_transaction_registry v tx v' :
  apply_transaction v tx = (v', Ok true) ->
  match tx_type tx with
  | REGISTER => exists out0 outs a, tx_outputs tx = out0 :: outs /\
      derive_address (slice 0 64 (to_data out0)) = Ok a /\
      v_auth_registry v' = (register_via_tx (v_auth_registry v) a (slice 64 96 (to_data out0))).1
  | ROTATE_AUTH => exists out0 outs inp ins u, tx_outputs tx = out0 :: outs /\
      tx_inputs tx = inp :: ins /\
      utxos (v_utxo_set v') !! (ti_prev_tx_hash inp, ti_output_index inp) = Some u /\
      v_auth_registry v' =
        (rotate_via_tx (v_auth_registry v) (to_address (u_output u)) (slice 0 32 (to_data out0))).1
  | _ => v_auth_registry v' = v_auth_registry v
  end.
Proof.
  unfold apply_transaction. destruct (spend_inputs tx (v_utxo_set v) (tx_inputs tx)) as [s1 [[|]|]]; try done.
  destruct (create_outputs tx s1 0 (tx_outputs tx)) as [s2 [[]|]]; [|done].
  destruct (tx_type tx); try (intros [= <-]; done).
  - unfold apply_register. destruct (tx_outputs tx) as [|out0 outs]; [done|].
    destruct (derive_address _) as [a|] eqn:Ea; [|done]. intros [= <-]. by exists out0, outs, a.
  - unfold apply_rotate. destruct (tx_outputs tx) as [|out0 outs]; [done|].
    destruct (tx_inputs tx) as [|inp ins]; [done|]. cbn [v_utxo_set with_utxo_set].
    destruct (get_utxo _ _ _) as [u|] eqn:Eu; [|done]. intros [= <-].
    by exists out0, outs, inp, ins, u.
Qed.

End ApplicationLemmas.

(** ** Properties *)

Section ValidationProperties.
Context `{Hashlib}.

(** C2. Every transaction that passes full validation and is neither a coinbase nor a slash,
    if it names distinct outputs and its hash is new to the UTXO set, applies successfully: it
    marks each named output as spent by it, stores each of its outputs unspent at its position,
    and the total unspent value drops by at least the fee. *)
Theorem accepted_apply_conserves (v : Validator) (tx : Transaction) (e : Z) (r : string) (h : bytes)
    (Hval : validate_transaction v tx e = Ok (true, r))
    (Hc : tx_type tx <> COINBASE) (Hs : tx_type tx <> SLASH)
    (Hnd : NoDup (outpoints tx)) (Hh : tx_hash tx = Ok h)
    (Hfresh : forall j, utxos (v_utxo_set v) !! (h, j) = None) :
  exists v', apply_transaction v tx = (v', Ok true) /\
    (supply (v_utxo_set v') + tx_fee tx <= supply (v_utxo_set v))%Z /\
    (forall k, k ∈ outpoints tx -> u_spent_by <$> utxos (v_utxo_set v') !! k = Some (Some h)) /\
    (forall j out, tx_outputs tx !! j = Some out ->
       utxos (v_utxo_set v') !! (h, Z.of_nat j) =
       Some (mkUTXO h (Z.of_nat j) out (tx_epoch tx) false None)).
Proof.
  unfold validate_transaction in Hval. destruct (is_valid_structure tx) as [[] reason] eqn:Est; [|done].
  destruct (is_valid_structure_iff tx) as [Hst _]. rewrite Est in Hst.
  destruct (proj1 Hst eq_refl) as (_ & [Hin|Hin] & _ & Hout & _); [|done]. clear Hst.
  simpl in Hval. do 2 (case_match; [done|]).
  destruct (validate_by_type_values _ _ _ _ Hval Hc Hs) as (sh & values & _ & Hv & Hle).
  destruct (apply_transaction_ok v tx h values Hh) as (v' & E & Hsup & Hspent & Hnew & _); try done.
  { intros Hn. rewrite Hn in Hout. simpl in Hout. lia. }
  exists v'. split; [done|]. split; [lia|]. split; [|done].
  intros k Hk. by destruct (Hspent k Hk) as (u & _ & ->).
Qed.

(** An accepted coinbase with a new hash applies successfully and mints exactly the value
    of its outputs, which is at most [MAX_COINBASE_VALUE]. *)
Theorem coinbase_mints_bounded (v : Validator) (tx : Transaction) (e : Z) (r : string) (h : bytes)
    (Hval : validate_transaction v tx e = Ok (true, r)) (Hc : tx_type tx = COINBASE)
    (Hh : tx_hash tx = Ok h) (Hfresh : forall j, utxos (v_utxo_set v) !! (h, j) = None) :
  exists v', apply_transaction v tx = (v', Ok true) /\
    supply (v_utxo_set v') = (supply (v_utxo_set v) + total_output tx)%Z /\
    (total_output tx <= 10000000000)%Z.
Proof.
  unfold validate_transaction in Hval. destruct (is_valid_structure tx) as [[] reason] eqn:Est; [|done].
  simpl in Hval. do 2 (case_match; [done|]). unfold validate_by_type in Hval. rewrite Hc in Hval.
  injection Hval as Hval. unfold validate_coinbase in Hval.
  destruct (Z.eqb_spec (zlen (tx_inputs tx)) 0) as [Hin|]; [|done].
  destruct (Z.eqb_spec (zlen (tx_outputs tx)) 0) as [|Hout]; [done|].
  destruct (Z.ltb_spec MAX_COINBASE_VALUE (sumZ (map to_value (tx_outputs tx)))) as [|Hmax]; [done|].
  assert (Hnil : tx_inputs tx = []) by (by destruct (tx_inputs tx)).
  destruct (apply_transaction_ok v tx h [] Hh) as (v' & E & Hsup & _ & _).
  - intros Hn. by rewrite Hn in Hout.
  - by rewrite Hc.
  - rewrite Hnil. constructor.
  - unfold outpoints. rewrite Hnil. constructor.
  - done.
  - exists v'. split; [done|]. unfold total_output in *. simpl in Hsup.
    unfold MAX_COINBASE_VALUE in Hmax. split; lia.
Qed.

(** An input that spends from a registered address carries a key of that address's tree:
    if the current root is that of the Merkle tree over [keys] and the proof has the tree's
    height, then (no collision among the hashed nodes) the key's hash is that of the one of
    [keys] at the position the proof spells, or, past them, the padding. *)
Theorem registered_spend_in_tree (v : Validator) (e : Z) (sh : bytes) (inp : TxInput) (value : Z)
    (utxo : UTXO) (keys : list bytes) (t : MerkleTree) (root : bytes) (proof : merkle_proof)
    (Hok : check_input v e sh inp = inr value)
    (Hu : get_utxo (v_utxo_set v) (ti_prev_tx_hash inp) (ti_output_index inp) = Some utxo)
    (Hreg : is_registered (v_auth_registry v) (to_address (u_output utxo)) = true)
    (Hroot : get_auth_root (v_auth_registry v) (to_address (u_output utxo)) = Some root)
    (Hkeys : keys <> []) (Ht : merkle_new keys = Ok t) (Htr : merkle_root t = Ok (PBytes root))
    (Hproof : ti_auth_proof inp = Some proof)
    (Hsib : Forall (fun s => length s.1 = 32) proof)
    (Hlen : length proof = tree_height (length keys))
    (Hcf : collision_free sha3_256
             (proof_queries (sha3_256 (ti_public_key inp)) proof ++ tree_queries t)) :
  wots_verify sh (ti_signature inp) (ti_public_key inp) = true /\
  match keys !! proof_index proof with
  | Some key => sha3_256 (ti_public_key inp) = sha3_256 key
  | None => sha3_256 (ti_public_key inp) = sha3_256 (b: "pad")
  end.
Proof.
  apply check_input_spec in Hok as (u & Hu' & _ & _ & Hw & Ha & _).
  rewrite Hu in Hu'. injection Hu' as <-. split; [done|].
  destruct (Ha Hreg) as (proof' & root' & Hp & _ & Hr & Hver).
  rewrite Hproof in Hp. injection Hp as <-. rewrite Hroot in Hr. injection Hr as <-.
  apply (merkle_path_sound keys t root); try done. apply sha3_256_length.
Qed.

(** An unspent, unlocked output of an address that is not registered is accepted with the
    signature of any WOTS+ key pair at all: nothing binds the key to the address. *)
Theorem unregistered_spend_any_key (v : Validator) (e : Z) (sh : bytes) (h : bytes) (i : Z)
    (utxo : UTXO) (seed sk pk : bytes)
    (Hu : get_utxo (v_utxo_set v) h i = Some utxo) (Hsp : u_is_spent utxo = false)
    (Hlock : (to_lock_epoch (u_output utxo) <= e)%Z)
    (Hreg : is_registered (v_auth_registry v) (to_address (u_output utxo)) = false)
    (Hkey : keygen seed = Ok (sk, pk)) :
  check_input v e sh (mkTxInput h i (wots_sign sh sk) pk None (-1)) =
  inr (to_value (u_output utxo)).
Proof.
  apply check_input_spec. exists utxo. simpl. do 3 (split; [done|]).
  split; [by apply (wots_correct _ seed)|]. split; [|done]. intros Hr. simpl in Hr. congruence.
Qed.

(** A transfer that names the same output [n >= 2] times is accepted with its value
    counted [n] times; applying it then returns [False] after the output is already marked
    spent: its value is gone, no output is created, and nothing is rolled back. *)
Theorem duplicate_input_accepted (v : Validator) (tx : Transaction) (e : Z) (sh : bytes)
    (inp : TxInput) (value : Z) (n : nat)
    (Hn : 2 <= n) (Hin : tx_inputs tx = replicate n inp) (Hsh : signing_hash tx = Ok sh)
    (Hok : check_input v e sh inp = inr value)
    (Hle : (total_output tx + tx_fee tx <= Z.of_nat n * value)%Z) :
  validate_transfer v tx e = Ok (true, "valid") /\
  exists v', apply_transaction v tx = (v', Ok false) /\
    supply (v_utxo_set v') = (supply (v_utxo_set v) - value)%Z /\
    (forall k, k <> (ti_prev_tx_hash inp, ti_output_index inp) ->
       utxos (v_utxo_set v') !! k = utxos (v_utxo_set v) !! k).
Proof.
  apply check_input_spec in Hok. split.
  - apply validate_transfer_iff. split; [done|]. exists sh, (replicate n value).
    split; [done|]. split.
    + rewrite Hin. clear -Hok. by induction n; simpl; constructor.
    + assert (sumZ (replicate n value) = Z.of_nat n * value)%Z as ->; [|done].
      clear. induction n; cbn [replicate sumZ foldr]; [lia|]. unfold sumZ in IHn. rewrite IHn. lia.
  - destruct Hok as (u & Hu & Hsp & _ & _ & _ & ->).
    assert (exists h, tx_hash tx = Ok h) as [h Hh] by (unfold tx_hash; case_match; eauto).
    destruct (spend_utxo_Some _ _ _ h u Hu Hsp) as (s' & Es & Eu & _).
    exists (with_utxo_set v s'). split.
    + unfold apply_transaction. rewrite Hin. destruct n as [|[|n]]; try lia. simpl.
      rewrite Hh, Es, (spend_utxo_None s'); [done|]. by rewrite Eu, lookup_insert_eq.
    + simpl. split; [by apply supply_spend in Es|]. intros k Hk. rewrite Eu. by rewrite lookup_insert_ne.
Qed.

(** A slash needs no authority and conserves nothing: signed with any WOTS+ key pair,
    naming any unspent output with a non-zero lock epoch, and with any 32 bytes of data as
    evidence, it is accepted whatever its outputs are worth, and applying it replaces the
    output's value by theirs. *)
Theorem slash_conserves_nothing (v : Validator) (tx : Transaction) (inp : TxInput)
    (sh h seed sk pk : bytes) (utxo : UTXO) (out0 : TxOutput) (outs : list TxOutput)
    (Hty : tx_type tx = SLASH) (Hin : tx_inputs tx = [inp]) (Hout : tx_outputs tx = out0 :: outs)
    (Hdata : 32 <= length (to_data out0))
    (Hu : get_utxo (v_utxo_set v) (ti_prev_tx_hash inp) (ti_output_index inp) = Some utxo)
    (Hsp : u_is_spent utxo = false) (Hlock : to_lock_epoch (u_output utxo) <> 0%Z)
    (Hkey : keygen seed = Ok (sk, pk)) (Hsh : signing_hash tx = Ok sh)
    (Hsig : ti_signature inp = wots_sign sh sk) (Hpk : ti_public_key inp = pk)
    (Hh : tx_hash tx = Ok h) (Hfresh : forall j, utxos (v_utxo_set v) !! (h, j) = None) :
  validate_slash v tx = Ok (true, "valid") /\
  exists v', apply_transaction v tx = (v', Ok true) /\
    supply (v_utxo_set v') =
      (supply (v_utxo_set v) - to_value (u_output utxo) + total_output tx)%Z.
Proof.
  split.
  - unfold validate_slash. rewrite Hout, Hin, Hsh.
    destruct (Z.ltb_spec (zlen (to_data out0)) 32) as [Hlt|_]; [unfold zlen in Hlt; lia|].
    simpl. rewrite Hsig, Hpk, (wots_correct _ seed sk pk Hkey), Hu, Hsp. simpl.
    by rewrite (proj2 (Z.eqb_neq _ _) Hlock).
  - destruct (apply_transaction_ok v tx h [to_value (u_output utxo)] Hh)
      as (v' & E & Hsup & _ & _).
    + by rewrite Hout.
    + by rewrite Hty.
    + rewrite Hin. constructor; [|constructor]. by exists utxo.
    + unfold outpoints. rewrite Hin. apply NoDup_singleton.
    + done.
    + exists v'. split; [done|]. rewrite Hsup. simpl. lia.
Qed.

(** A transfer is accepted exactly when it can be hashed and every input names an unspent,
    unlocked output, carries a valid signature over the signing hash and, for a registered
    owner, a non-empty proof of its key against the owner's current root, and the named
    outputs' values (counted once per input) cover the outputs and the fee. *)
Theorem validate_transfer_spec (v : Validator) (tx : Transaction) (e : Z) (r : string) :
  validate_transfer v tx e = Ok (true, r) <->
  r = "valid" /\ exists sh values, signing_hash tx = Ok sh /\
    Forall2 (fun inp value => exists utxo,
        get_utxo (v_utxo_set v) (ti_prev_tx_hash inp) (ti_output_index inp) = Some utxo /\
        u_is_spent utxo = false /\ (to_lock_epoch (u_output utxo) <= e)%Z /\
        wots_verify sh (ti_signature inp) (ti_public_key inp) = true /\
        (is_registered (v_auth_registry v) (to_address (u_output utxo)) = true ->
         exists proof root, ti_auth_proof inp = Some proof /\ proof <> [] /\
           get_auth_root (v_auth_registry v) (to_address (u_output utxo)) = Some root /\
           verify_proof (sha3_256 (ti_public_key inp)) proof root = true) /\
        value = to_value (u_output utxo)) (tx_inputs tx) values /\
    (total_output tx + tx_fee tx <= sumZ values)%Z.
Proof. apply validate_transfer_iff. Qed.

End ValidationProperties.

(** ** Concrete runs *)

Section Demo.
#[local] Existing Instance counter_hashlib.

Definition demo_prev : bytes := replicate 32 Byte.x77.

(** Bob's tree has two keys; [zero_pk] is the first. *)
Definition bob_keys : list bytes := [zero_pk; b: "other"].

Definition bob_tree : MerkleTree :=
  match merkle_new bob_keys with Ok t => t | Err _ => mkMerkleTree [] (Levels []) end.

Definition bob_root : bytes :=
  match merkle_root bob_tree with Ok (PBytes r) => r | _ => [] end.

Definition bob_proof : merkle_proof := match get_proof bob_tree 0 with Ok p => p | Err _ => [] end.

(** Alice owns output 0, Bob (registered) output 1; output 2 is Bob's stake. *)
Definition demo_validator : Validator :=
  mkValidator
    (add_utxo (add_utxo (add_utxo utxo_set_new demo_prev 0 (coin 20000 alice) 1)
       demo_prev 1 (coin 20000 bob) 1) demo_prev 2 (mkTxOutput 20000 bob 3 []) 1)
    (registry_run auth_registry_new [RRegister bob bob_root]).

Definition demo_unsigned (ty : TxType) (indices : list Z) (outs : list TxOutput) : Transaction :=
  mkTransaction 1 ty (map (fun i => mkTxInput demo_prev i [] zero_pk (Some bob_proof) 0) indices)
    outs 5 1700000000000 10000 (b: "nonce000") None.

Definition demo_sh (ty : TxType) (indices : list Z) (outs : list TxOutput) : bytes :=
  match signing_hash (demo_unsigned ty indices outs) with Ok h => h | Err _ => [] end.

Definition demo_in (ty : TxType) (indices : list Z) (outs : list TxOutput) (i : Z) : TxInput :=
  mkTxInput demo_prev i (wots_sign (demo_sh ty indices outs) zero_sk) zero_pk (Some bob_proof) 0.

Definition demo_signed (ty : TxType) (indices : list Z) (outs : list TxOutput) : Transaction :=
  mkTransaction 1 ty (map (demo_in ty indices outs) indices)
    outs 5 1700000000000 10000 (b: "nonce000") None.

Lemma demo_fresh h j : h <> demo_prev -> utxos (v_utxo_set demo_validator) !! (h, j) = None.
Proof.
  intros Hne. unfold demo_validator. cbn [v_utxo_set add_utxo utxos utxo_set_new].
  rewrite !lookup_insert_ne by congruence. apply lookup_empty.
Qed.

Definition demo_transfer : Transaction := demo_signed TRANSFER [0; 1]%Z [coin 30000 bob].

Lemma accepted_apply_conserves_witness :
  exists v', apply_transaction demo_validator demo_transfer = (v', Ok true) /\
    (supply (v_utxo_set v') + 10000 <= 60000)%Z.
Proof.
  destruct (accepted_apply_conserves demo_validator demo_transfer 5 "valid"
              (demo_sh TRANSFER [0; 1]%Z [coin 30000 bob])) as (v' & E & Hsup & _).
  - by vm_compute.
  - done.
  - done.
  - apply (bool_decide_unpack (NoDup (outpoints demo_transfer))). by vm_compute.
  - by vm_compute.
  - intros j. apply demo_fresh. by vm_compute.
  - exists v'. split; [exact E | exact Hsup].
Defined.

Definition demo_coinbase : Transaction := demo_signed COINBASE [] [coin 5000000000 alice].

Lemma coinbase_mints_bounded_witness :
  exists v', apply_transaction demo_validator demo_coinbase = (v', Ok true) /\
    supply (v_utxo_set v') = 5000060000%Z.
Proof.
  destruct (coinbase_mints_bounded demo_validator demo_coinbase 5 "valid"
              (demo_sh COINBASE [] [coin 5000000000 alice])) as (v' & E & Hsup & _).
  - by vm_compute.
  - done.
  - by vm_compute.
  - intros j. apply demo_fresh. by vm_compute.
  - exists v'. split; [exact E | rewrite Hsup; by vm_compute].
Defined.

Lemma registered_spend_in_tree_witness :
  match bob_keys !! 0 with Some key => sha3_256 zero_pk = sha3_256 key | None => False end.
Proof.
  destruct (registered_spend_in_tree demo_validator 5 (demo_sh TRANSFER [0; 1]%Z [coin 30000 bob])
              (demo_in TRANSFER [0; 1]%Z [coin 30000 bob] 1) 20000
              (mkUTXO demo_prev 1 (coin 20000 bob) 1 false None)
              bob_keys bob_tree bob_root bob_proof) as [_ Hkey].
  - by vm_compute.
  - by vm_compute.
  - by vm_compute.
  - by vm_compute.
  - done.
  - by vm_compute.
  - by vm_compute.
  - done.
  - by repeat constructor.
  - by vm_compute.
  - apply collision_free_b_sound. by vm_compute.
  - exact Hkey.
Defined.

Lemma unregistered_spend_any_key_witness :
  check_input demo_validator 5 (b: "hash")
    (mkTxInput demo_prev 0 (wots_sign (b: "hash") (wots_sk (b: "mallory")))
       (wots_pk (b: "mallory")) None (-1)) = inr 20000%Z.
Proof.
  apply (unregistered_spend_any_key demo_validator 5 (b: "hash") demo_prev 0
           (mkUTXO demo_prev 0 (coin 20000 alice) 1 false None) (b: "mallory")).
  - by vm_compute.
  - done.
  - simpl. lia.
  - by vm_compute.
  - apply keygen_spec.
Defined.

Definition demo_duplicate : Transaction := demo_signed TRANSFER [0; 0; 0]%Z [coin 50000 alice].

Lemma duplicate_input_accepted_witness :
  validate_transfer demo_validator demo_duplicate 5 = Ok (true, "valid") /\
  exists v', apply_transaction demo_validator demo_duplicate = (v', Ok false) /\
    supply (v_utxo_set v') = 40000%Z.
Proof.
  destruct (duplicate_input_accepted demo_validator demo_duplicate 5
              (demo_sh TRANSFER [0; 0; 0]%Z [coin 50000 alice])
              (demo_in TRANSFER [0; 0; 0]%Z [coin 50000 alice] 0) 20000 3)
    as [Hv (v' & E & Hsup & _)].
  - lia.
  - done.
  - by vm_compute.
  - by vm_compute.
  - by vm_compute.
  - split; [exact Hv|]. exists v'. split; [exact E | rewrite Hsup; by vm_compute].
Defined.

Definition slash_out : TxOutput := mkTxOutput 1000000000000 alice 0 (replicate 32 Byte.x00).

Definition demo_slash_in : TxInput :=
  mkTxInput demo_prev 2 (wots_sign (demo_sh SLASH [2]%Z [slash_out]) (wots_sk (b: "mallory")))
    (wots_pk (b: "mallory")) None (-1).

Definition demo_slash : Transaction :=
  mkTransaction 1 SLASH [demo_slash_in] [slash_out] 5 1700000000000 10000 (b: "nonce000") None.

Lemma slash_conserves_nothing_witness :
  validate_slash demo_validator demo_slash = Ok (true, "valid") /\
  exists v', apply_transaction demo_validator demo_slash = (v', Ok true) /\
    supply (v_utxo_set v') = 1000000040000%Z.
Proof.
  destruct (slash_conserves_nothing demo_validator demo_slash demo_slash_in
              (demo_sh SLASH [2]%Z [slash_out]) (demo_sh SLASH [2]%Z [slash_out])
              (b: "mallory") (wots_sk (b: "mallory")) (wots_pk (b: "mallory"))
              (mkUTXO demo_prev 2 (mkTxOutput 20000 bob 3 []) 1 false None) slash_out [])
    as [Hv (v' & E & Hsup)].
  - done.
  - done.
  - done.
  - by vm_compute; lia.
  - by vm_compute.
  - done.
  - done.
  - apply keygen_spec.
  - by vm_compute.
  - done.
  - done.
  - by vm_compute.
  - intros j. apply demo_fresh. by vm_compute.
  - split; [exact Hv|]. exists v'. split; [exact E | rewrite Hsup; by vm_compute].
Defined.

End Demo.
