(* ===== verification/Mempool.v ===== *)
(** * The mempool ([src/src/transaction.py], class [Mempool])

    The pool keeps the transactions by hash, the set of outputs they spend, their total size
    and a list sorted by fee rate.  Main results: the invariant that ties the four together, so
    that no output is spent by two pooled transactions ([mempool_inv_reachable]); adding and
    then removing restores the pool ([mempool_add_remove]); the selection for a block respects
    the size limit, follows the priority order and leaves out only what does not fit
    ([block_selection_spec]). *)

From stdpp Require Import prelude list gmap strings sorting.
From Stdlib Require Import Strings.Byte ZArith Lia SpecFloat.
From S2P Require Import Prelude.
From S2P Require Import PyFloat.
From S2P Require Import Crypto.
From S2P Require Import Merkle.
From S2P Require Import Transaction.
From S2P Require Import Ledger.

Set Default Goal Selector "!".

(** ** Data *)

(** [(fee_rate, timestamp, tx_hash)]. *)
Abbreviation prio_entry := (float64 * Z * bytes)%type.

Record Mempool := mkMempool {
  mp_max_size : Z;
  mp_current_size : Z;
  mp_transactions : gmap bytes Transaction;
  mp_priority : list prio_entry;
  mp_spent_outputs : gset outpoint;
}.

(** Tuples compare component by component. *)
Definition prio_cmp (x y : prio_entry) : comparison :=
  cmp_then (float_cmp x.1.1 y.1.1) (cmp_then (Z.compare x.1.2 y.1.2) (bytes_cmp x.2 y.2)).

(** [list.sort(reverse=True)]. *)
Definition sort_priority (l : list prio_entry) : list prio_entry :=
  merge_sort (cmp_ge prio_cmp) l.

Definition mempool_new (max_size_mb : Z) : Mempool :=
  mkMempool (max_size_mb * 1024 * 1024) 0 ∅ [] ∅.

Definition spends (tx : Transaction) : gset outpoint := list_to_set (outpoints tx).

(** ** Operations *)

Section Mempool.
Context `{Hashlib}.

Definition add_transaction (p : Mempool) (tx : Transaction) : Mempool * res (bool * string) :=
  match tx_hash tx with
  | Err e => (p, Err e)
  | Ok h =>
      if bool_decide (is_Some (mp_transactions p !! h)) then
        (p, Ok (false, "already in mempool"))
      else if (mp_max_size p <? mp_current_size p + tx_size tx)%Z then
        (p, Ok (false, "mempool full"))
      else if existsb (fun inp =>
                 bool_decide ((ti_prev_tx_hash inp, ti_output_index inp) ∈ mp_spent_outputs p))
                (tx_inputs tx) then
        (p, Ok (false, "double-spend detected"))
      else
        let p := mkMempool (mp_max_size p) (mp_current_size p + tx_size tx)
                   (<[h := tx]> (mp_transactions p)) (mp_priority p)
                   (foldl (fun s inp => {[(ti_prev_tx_hash inp, ti_output_index inp)]} ∪ s)
                      (mp_spent_outputs p) (tx_inputs tx)) in
        match truediv (tx_fee tx) (tx_size tx) with
        | Err e => (p, Err e)
        | Ok fee_rate =>
            (mkMempool (mp_max_size p) (mp_current_size p) (mp_transactions p)
               (sort_priority (mp_priority p ++ [(fee_rate, tx_timestamp tx, h)]))
               (mp_spent_outputs p), Ok (true, "added"))
        end
  end.

Definition remove_transaction (p : Mempool) (h : bytes) : Mempool * option Transaction :=
  match mp_transactions p !! h with
  | None => (p, None)
  | Some tx =>
      (mkMempool (mp_max_size p) (mp_current_size p - tx_size tx)
         (delete h (mp_transactions p))
         (filter (fun e => e.2 <> h) (mp_priority p))
         (foldl (fun s inp => s ∖ {[(ti_prev_tx_hash inp, ti_output_index inp)]})
            (mp_spent_outputs p) (tx_inputs tx)), Some tx)
  end.

(** The loop over the priority list with its accumulators. *)
Fixpoint select_for_block (p : Mempool) (max_size total_size : Z) (prio : list prio_entry)
    : list Transaction :=
  match prio with
  | [] => []
  | (fee_rate, timestamp, h) :: prio =>
      match mp_transactions p !! h with
      | None => select_for_block p max_size total_size prio
      | Some tx =>
          if (max_size <? total_size + tx_size tx)%Z then
            select_for_block p max_size total_size prio
          else tx :: select_for_block p max_size (total_size + tx_size tx) prio
      end
  end.

Definition get_transactions_for_block (p : Mempool) (max_size : Z) : list Transaction :=
  select_for_block p max_size 0 (mp_priority p).

Definition clear_confirmed `{!SetOrder bytes} (p : Mempool) (confirmed_hashes : gset bytes)
    : Mempool * Z :=
  foldl (fun '(p, removed) h =>
      let '(p, tx) := remove_transaction p h in
      (p, if bool_decide (is_Some tx) then removed + 1 else removed)%Z)
    (p, 0%Z) (set_order confirmed_hashes).

Definition mempool_size (p : Mempool) : Z := Z.of_nat (size (mp_transactions p)).

Definition total_fees (p : Mempool) : Z := map_sum tx_fee (mp_transactions p).

End Mempool.

(** ** The invariant *)

#[export] Instance prio_cmp_lawful : LawfulCmp prio_cmp.
Proof.
  apply (cmp_then_lawful (fun x y => float_cmp x.1.1 y.1.1)).
  - apply (cmp_on_lawful (fun x : prio_entry => x.1.1) float_cmp), _.
  - apply (cmp_then_lawful (fun x y : prio_entry => Z.compare x.1.2 y.1.2)).
    + apply (cmp_on_lawful (fun x : prio_entry => x.1.2) Z.compare), _.
    + apply (cmp_on_lawful (fun x : prio_entry => x.2) bytes_cmp), _.
Qed.

Definition fee_rate_of (tx : Transaction) : float64 :=
  match truediv (tx_fee tx) (tx_size tx) with Ok x => x | Err _ => S754_nan end.

(** The entry of a pooled transaction. *)
Definition prio_of (kv : bytes * Transaction) : prio_entry :=
  (fee_rate_of kv.2, tx_timestamp kv.2, kv.1).

Section PoolInvariant.
Context `{Hashlib}.

(** The four views agree: sizes, hashes, spent outputs and priorities are those of the pooled
    transactions, no output is spent by two of them, and the list is sorted. *)
Record pool_ok (p : Mempool) : Prop := {
  po_size : mp_current_size p = map_sum tx_size (mp_transactions p);
  po_max : (mp_current_size p <= mp_max_size p)%Z;
  po_key h tx : mp_transactions p !! h = Some tx -> tx_hash tx = Ok h;
  po_spent k : k ∈ mp_spent_outputs p <->
    exists h tx, mp_transactions p !! h = Some tx /\ k ∈ outpoints tx;
  po_disjoint h1 tx1 h2 tx2 k :
    mp_transactions p !! h1 = Some tx1 -> mp_transactions p !! h2 = Some tx2 ->
    k ∈ outpoints tx1 -> k ∈ outpoints tx2 -> h1 = h2;
  po_prio : mp_priority p ≡ₚ map prio_of (map_to_list (mp_transactions p));
  po_sorted : StronglySorted (cmp_ge prio_cmp) (mp_priority p);
}.

Lemma pool_ok_new mb : (0 <= mb)%Z -> pool_ok (mempool_new mb).
Proof.
  intros Hmb. split; cbn [mempool_new mp_current_size mp_transactions mp_max_size mp_priority
    mp_spent_outputs].
  - by rewrite map_sum_empty.
  - lia.
  - intros h tx Hl. by rewrite lookup_empty in Hl.
  - intros k. split; [by intros ?%not_elem_of_empty|]. intros (h & tx & Hl & _).
    by rewrite lookup_empty in Hl.
  - intros h1 tx1 h2 tx2 k Hl. by rewrite lookup_empty in Hl.
  - by rewrite map_to_list_empty.
  - constructor.
Qed.

(** ** Adding *)

Lemma spent_add (s : gset outpoint) inputs :
  foldl (fun s inp => {[(ti_prev_tx_hash inp, ti_output_index inp)]} ∪ s) s inputs =
  list_to_set (map (fun i => (ti_prev_tx_hash i, ti_output_index i)) inputs) ∪ s.
Proof.
  revert s. induction inputs as [|i inputs IH]; intros s; simpl; [set_solver|].
  rewrite IH. set_solver.
Qed.

Lemma spent_remove (s : gset outpoint) inputs :
  foldl (fun s inp => s ∖ {[(ti_prev_tx_hash inp, ti_output_index inp)]}) s inputs =
  s ∖ list_to_set (map (fun i => (ti_prev_tx_hash i, ti_output_index i)) inputs).
Proof.
  revert s. induction inputs as [|i inputs IH]; intros s; simpl; [set_solver|].
  rewrite IH. set_solver.
Qed.

Lemma double_spend_check p tx :
  existsb (fun inp => bool_decide ((ti_prev_tx_hash inp, ti_output_index inp) ∈ mp_spent_outputs p))
    (tx_inputs tx) = false <->
  forall k, k ∈ outpoints tx -> k ∉ mp_spent_outputs p.
Proof.
  rewrite <- not_true_iff_false, existsb_exists. unfold outpoints. split.
  - intros Hn k (i & -> & Hi)%list_elem_of_fmap Hin. apply Hn. exists i.
    split; [by apply list_elem_of_In | by apply bool_decide_eq_true].
  - intros Hn (i & Hi & Hin). apply bool_decide_eq_true in Hin. eapply Hn; [|exact Hin].
    apply list_elem_of_fmap. exists i. split; [done|]. by apply list_elem_of_In.
Qed.

(** A pool after an accepted addition, in closed form. *)
Lemma add_transaction_inv p tx p' reason :
  add_transaction p tx = (p', Ok (true, reason)) ->
  exists h, tx_hash tx = Ok h /\ mp_transactions p !! h = None /\
    (mp_current_size p + tx_size tx <= mp_max_size p)%Z /\
    (forall k, k ∈ outpoints tx -> k ∉ mp_spent_outputs p) /\ reason = "added" /\
    p' = mkMempool (mp_max_size p) (mp_current_size p + tx_size tx)
           (<[h := tx]> (mp_transactions p))
           (sort_priority (mp_priority p ++ [prio_of (h, tx)]))
           (spends tx ∪ mp_spent_outputs p).
Proof.
  unfold add_transaction. destruct (tx_hash tx) as [h|]; [|done].
  case_bool_decide as Hh; [done|]. destruct (Z.ltb_spec (mp_max_size p) (mp_current_size p + tx_size tx));
    [done|]. destruct (existsb _ _) eqn:Ed; [done|]. cbv zeta. rewrite spent_add.
  destruct (truediv _ _) as [x|] eqn:Ex; [|done]. intros [= <- <-]. exists h.
  split; [done|]. split; [by apply eq_None_not_Some|]. split; [done|].
  split; [by apply double_spend_check|]. split; [done|].
  unfold prio_of, fee_rate_of. simpl. by rewrite Ex.
Qed.

(** Anything but an accepted addition leaves the pool alone, as long as the fee can be divided
    by the size. *)
Lemma add_transaction_rejected p tx p' r :
  is_Ok (truediv (tx_fee tx) (tx_size tx)) ->
  add_transaction p tx = (p', r) -> (exists reason, r = Ok (true, reason)) \/ p' = p.
Proof.
  unfold add_transaction. intros [x Hx]. rewrite Hx.
  destruct (tx_hash tx); [|intros [= <- <-]; auto].
  repeat (case_match; [by intros [= <- <-]; auto|]). intros [= <- <-]. eauto.
Qed.

Lemma sort_priority_perm l : sort_priority l ≡ₚ l.
Proof. apply merge_sort_Permutation. Qed.

Lemma sort_priority_sorted l : StronglySorted (cmp_ge prio_cmp) (sort_priority l).
Proof.
  pose proof (cmp_ge_total prio_cmp _). pose proof (cmp_ge_trans prio_cmp _).
  by apply StronglySorted_merge_sort.
Qed.

Lemma pool_ok_add p tx p' reason :
  pool_ok p -> add_transaction p tx = (p', Ok (true, reason)) -> pool_ok p'.
Proof.
  intros [] (h & Hh & Hn & Hsz & Hdis & _ & ->)%add_transaction_inv.
  assert (Hnew : forall h' tx' k, mp_transactions p !! h' = Some tx' -> k ∈ outpoints tx ->
    k ∈ outpoints tx' -> False).
  { intros h' tx' k Hl Hk Hk'. apply (Hdis k Hk), po_spent0. eauto. }
  split; cbn [mp_current_size mp_transactions mp_max_size mp_priority mp_spent_outputs].
  - rewrite map_sum_insert by done. lia.
  - done.
  - intros h' tx' [[<- <-]|[_ Hl]]%lookup_insert_Some; auto.
  - intros k. unfold spends. rewrite elem_of_union, elem_of_list_to_set, po_spent0. split.
    + intros [Hk|(h' & tx' & Hl & Hk)].
      * exists h, tx. by rewrite lookup_insert_eq.
      * exists h', tx'. rewrite lookup_insert_ne by congruence. done.
    + intros (h' & tx' & [[<- <-]|[_ Hl]]%lookup_insert_Some & Hk); eauto.
  - intros h1 tx1 h2 tx2 k [[<- <-]|[_ H1]]%lookup_insert_Some
      [[<- <-]|[_ H2]]%lookup_insert_Some Hk1 Hk2; [done| | |by eapply po_disjoint0].
    + exfalso. by eapply Hnew.
    + exfalso. by eapply Hnew.
  - rewrite sort_priority_perm, map_to_list_insert by done. simpl. rewrite po_prio0.
    by rewrite Permutation_app_comm.
  - apply sort_priority_sorted.
Qed.

(** ** Removing *)

Lemma StronglySorted_filter {A} (R : relation A) (P : A -> Prop) `{forall x, Decision (P x)} l :
  StronglySorted R l -> StronglySorted R (filter P l).
Proof.
  induction 1 as [|x l Hl IH Hx]; [constructor|]. rewrite filter_cons.
  case_decide; [|done]. constructor; [done|]. rewrite Forall_forall in *.
  intros y [_ Hy]%list_elem_of_filter. by apply Hx.
Qed.

Lemma filter_prio (h : bytes) (m : gmap bytes Transaction) :
  filter (fun e : prio_entry => e.2 <> h) (map prio_of (map_to_list m)) ≡ₚ
  map prio_of (map_to_list (delete h m)).
Proof.
  assert (Hnone : forall l : list (bytes * Transaction), h ∉ map fst l ->
    filter (fun e : prio_entry => e.2 <> h) (map prio_of l) = map prio_of l).
  { intros l. induction l as [|[k v] l IH]; [done|]. simpl. intros Hn.
    rewrite filter_cons_True; [|simpl; set_solver]. f_equal. apply IH. set_solver. }
  assert (Hdel : h ∉ map fst (map_to_list (delete h m))).
  { intros ([k v] & -> & Hin)%list_elem_of_fmap. apply elem_of_map_to_list in Hin.
    simpl in Hin. by rewrite lookup_delete_eq in Hin. }
  destruct (m !! h) as [tx|] eqn:E.
  - rewrite <- (insert_delete_id m h tx E) at 1.
    rewrite map_to_list_insert by apply lookup_delete_eq. simpl.
    rewrite filter_cons_False by (simpl; auto). by rewrite Hnone.
  - rewrite delete_id in Hdel |- * by done. by rewrite Hnone.
Qed.

Lemma remove_transaction_inv p h p' tx :
  remove_transaction p h = (p', Some tx) ->
  mp_transactions p !! h = Some tx /\
  p' = mkMempool (mp_max_size p) (mp_current_size p - tx_size tx)
         (delete h (mp_transactions p)) (filter (fun e => e.2 <> h) (mp_priority p))
         (mp_spent_outputs p ∖ spends tx).
Proof.
  unfold remove_transaction. destruct (mp_transactions p !! h) as [tx'|]; [|done].
  rewrite spent_remove. by intros [= <- <-].
Qed.

Lemma tx_size_pos tx : (36 <= tx_size tx)%Z.
Proof.
  unfold tx_size.
  assert (0 * zlen (tx_inputs tx) <= sumZ (map ti_size (tx_inputs tx)))%Z.
  { apply sumZ_map_ge, Forall_true. intros i. pose proof (ti_size_nonneg i). unfold zlen in *. lia. }
  assert (0 * zlen (tx_outputs tx) <= sumZ (map to_size (tx_outputs tx)))%Z.
  { apply sumZ_map_ge, Forall_true. intros o. unfold to_size, zlen. lia. }
  lia.
Qed.

Lemma pool_ok_remove p h : pool_ok p -> pool_ok (remove_transaction p h).1.
Proof.
  intros Hok. destruct (remove_transaction p h) as [p' [tx|]] eqn:E.
  2:{ unfold remove_transaction in E. case_match; [done|]. by injection E as <-. }
  apply remove_transaction_inv in E as [Hl ->]. destruct Hok. simpl fst.
  split; cbn [mp_current_size mp_transactions mp_max_size mp_priority mp_spent_outputs].
  - rewrite (map_sum_delete _ _ h tx) in po_size0 by done. lia.
  - pose proof (tx_size_pos tx). lia.
  - intros h' tx' [_ Hl']%lookup_delete_Some. auto.
  - intros k. unfold spends. rewrite elem_of_difference, elem_of_list_to_set, po_spent0. split.
    + intros [(h' & tx' & Hl' & Hk) Hn]. exists h', tx'. split; [|done].
      apply lookup_delete_Some. split; [|done]. intros ->. rewrite Hl in Hl'.
      by injection Hl' as ->.
    + intros (h' & tx' & [Hne Hl']%lookup_delete_Some & Hk). split; [eauto|].
      intros Hk'. apply Hne. by eapply po_disjoint0.
  - intros h1 tx1 h2 tx2 k [_ H1]%lookup_delete_Some [_ H2]%lookup_delete_Some.
    by apply po_disjoint0.
  - rewrite po_prio0. apply filter_prio.
  - by apply StronglySorted_filter.
Qed.

End PoolInvariant.

(** ** Histories and selection *)

Section MempoolLemmas.
Context `{Hashlib}.

Inductive mempool_op :=
  | MAdd (tx : Transaction)
  | MRemove (h : bytes).

Definition mempool_step (p : Mempool) (op : mempool_op) : Mempool :=
  match op with
  | MAdd tx => (add_transaction p tx).1
  | MRemove h => (remove_transaction p h).1
  end.

(** Fees are non-negative and fit in a double, as every fee that can be hashed does. *)
Definition mempool_op_ok (op : mempool_op) : Prop :=
  match op with
  | MAdd tx => (0 <= tx_fee tx < 2 ^ 64)%Z
  | MRemove _ => True
  end.

Definition mempool_run (mb : Z) (ops : list mempool_op) : Mempool :=
  foldl mempool_step (mempool_new mb) ops.

Lemma fee_rate_ok tx : (0 <= tx_fee tx < 2 ^ 64)%Z -> is_Ok (truediv (tx_fee tx) (tx_size tx)).
Proof.
  intros Hf. pose proof (tx_size_pos tx). apply truediv_ok; [|lia].
  pose proof (Z.pow_lt_mono_r 2 64 1023 ltac:(lia) ltac:(lia) ltac:(lia)). lia.
Qed.

Lemma mempool_step_ok p op : pool_ok p -> mempool_op_ok op -> pool_ok (mempool_step p op).
Proof.
  intros Hok Hop. destruct op as [tx|h]; simpl; [|by apply pool_ok_remove].
  destruct (add_transaction p tx) as [p' r] eqn:E. simpl.
  destruct (add_transaction_rejected p tx p' r) as [[reason ->]| ->]; try done.
  - by apply fee_rate_ok.
  - by eapply pool_ok_add.
Qed.

Lemma mempool_run_ok mb ops :
  (0 <= mb)%Z -> Forall mempool_op_ok ops -> pool_ok (mempool_run mb ops).
Proof.
  intros Hmb Hops. unfold mempool_run. pose proof (pool_ok_new mb Hmb) as Hok.
  revert Hok. generalize (mempool_new mb).
  induction Hops as [|op ops Hop Hops IH]; intros p Hok; [done|].
  simpl. by apply IH, mempool_step_ok.
Qed.

(** Removing confirmed transactions is a sequence of removals. *)
Lemma clear_confirmed_ok `{!SetOrder bytes} p hs : pool_ok p -> pool_ok (clear_confirmed p hs).1.
Proof.
  unfold clear_confirmed. generalize 0%Z. revert p.
  induction (set_order hs) as [|h l IH]; intros p n Hok; [done|]. simpl.
  pose proof (pool_ok_remove p h Hok) as Hr. destruct (remove_transaction p h) as [p' r].
  by apply IH.
Qed.

(** Entries of one pool that compare equal are the same entry. *)
Lemma prio_of_inj (m : gmap bytes Transaction) e1 e2 :
  e1 ∈ map prio_of (map_to_list m) -> e2 ∈ map prio_of (map_to_list m) ->
  cmp_ge prio_cmp e1 e2 -> cmp_ge prio_cmp e2 e1 -> e1 = e2.
Proof.
  intros ([h1 t1] & -> & H1)%list_elem_of_fmap ([h2 t2] & -> & H2)%list_elem_of_fmap.
  unfold cmp_ge. rewrite (cmp_sym (cmp := prio_cmp) (prio_of (h1, t1)) (prio_of (h2, t2))).
  destruct (prio_cmp _ _) eqn:E; simpl; intros ? ?; try done.
  unfold prio_cmp, cmp_then in E. repeat (case_match; try done). apply bytes_cmp_eq in E.
  simpl in E. subst. apply elem_of_map_to_list in H1, H2. rewrite H1 in H2. by injection H2 as ->.
Qed.

Lemma sizes_nonneg (l : list Transaction) : (0 <= sumZ (map tx_size l))%Z.
Proof.
  apply sumZ_nonneg, Forall_fmap, Forall_true. intros t. simpl. pose proof (tx_size_pos t). lia.
Qed.

(** The transactions in priority order. *)
Definition prio_transactions (p : Mempool) (prio : list prio_entry) : list Transaction :=
  omap (fun e => mp_transactions p !! e.2) prio.

Lemma select_for_block_spec p max_size total prio :
  (total <= max_size)%Z ->
  let r := select_for_block p max_size total prio in
  sublist r (prio_transactions p prio) /\
  (total + sumZ (map tx_size r) <= max_size)%Z /\
  forall tx, tx ∈ prio_transactions p prio -> tx ∈ r \/
    (max_size < total + sumZ (map tx_size r) + tx_size tx)%Z.
Proof.
  unfold prio_transactions. revert total.
  induction prio as [|[[rate ts] h] prio IH]; intros total Hle; cbn [select_for_block omap list_omap].
  { simpl. split; [done|]. split; [lia|]. intros tx Htx. by apply not_elem_of_nil in Htx. }
  simpl snd. destruct (mp_transactions p !! h) as [tx|]; [|by apply IH].
  destruct (Z.ltb_spec max_size (total + tx_size tx)).
  - destruct (IH total Hle) as (Hs & Hsz & Hmax). split; [by apply sublist_cons|].
    split; [done|]. intros tx' [->|Htx]%elem_of_cons; [|auto].
    right. pose proof (sizes_nonneg (select_for_block p max_size total prio)). lia.
  - destruct (IH (total + tx_size tx)%Z) as (Hs & Hsz & Hmax); [lia|].
    split; [by apply sublist_skip|]. cbn [map sumZ foldr]. unfold sumZ in *.
    split; [lia|]. intros tx' [->|Htx]%elem_of_cons; [left; by left|].
    destruct (Hmax tx' Htx); [left; by right | right; lia].
Qed.

End MempoolLemmas.

(** ** Properties *)

Section MempoolProperties.
Context `{Hashlib}.

(** C35. After any history of additions and removals the four views of the pool agree: the
    size counter is the sum of the pooled sizes and within the limit, every transaction is
    stored under its hash, the tracked outputs are exactly those the pooled transactions spend,
    no output is spent by two of them, and the priority list holds one entry per transaction,
    sorted by fee rate, then timestamp, then hash, all descending. *)
Theorem mempool_inv_reachable (mb : Z) (ops : list mempool_op)
    (Hmb : (0 <= mb)%Z) (Hops : Forall mempool_op_ok ops) :
  let p := mempool_run mb ops in
  mp_current_size p = map_sum tx_size (mp_transactions p) /\
  (mp_current_size p <= mp_max_size p)%Z /\
  (forall h tx, mp_transactions p !! h = Some tx -> tx_hash tx = Ok h) /\
  (forall k, k ∈ mp_spent_outputs p <->
     exists h tx, mp_transactions p !! h = Some tx /\ k ∈ outpoints tx) /\
  (forall h1 tx1 h2 tx2 k, mp_transactions p !! h1 = Some tx1 ->
     mp_transactions p !! h2 = Some tx2 -> k ∈ outpoints tx1 -> k ∈ outpoints tx2 -> h1 = h2) /\
  mp_priority p ≡ₚ map prio_of (map_to_list (mp_transactions p)) /\
  StronglySorted (cmp_ge prio_cmp) (mp_priority p).
Proof. intros p. destruct (mempool_run_ok mb ops Hmb Hops). repeat split; try done; apply po_spent0. Qed.

(** Removing the transaction that was just added gives back exactly the pool before the
    addition, whatever history led there. *)
Theorem mempool_add_remove (mb : Z) (ops : list mempool_op) (tx : Transaction) (h : bytes)
    (p' : Mempool) (reason : string)
    (Hmb : (0 <= mb)%Z) (Hops : Forall mempool_op_ok ops)
    (Hadd : add_transaction (mempool_run mb ops) tx = (p', Ok (true, reason)))
    (Hh : tx_hash tx = Ok h) :
  remove_transaction p' h = (mempool_run mb ops, Some tx).
Proof.
  pose proof (mempool_run_ok mb ops Hmb Hops) as Hok. set (p := mempool_run mb ops) in *.
  pose proof (pool_ok_add _ _ _ _ Hok Hadd) as Hok'.
  pose proof (pool_ok_remove p' h Hok') as Hok''.
  apply add_transaction_inv in Hadd as (h' & Hh' & Hn & _ & Hdis & _ & ->).
  rewrite Hh in Hh'. injection Hh' as <-.
  destruct (remove_transaction _ h) as [p'' [tx'|]] eqn:E.
  2:{ unfold remove_transaction in E. cbn [mp_transactions] in E.
      by rewrite lookup_insert_eq in E. }
  apply remove_transaction_inv in E as [El ->]. cbn [mp_transactions] in El.
  rewrite lookup_insert_eq in El. injection El as <-. simpl fst in Hok''. f_equal.
  destruct Hok as [_ _ _ _ _ Hp Hs]. destruct Hok'' as [_ _ _ _ _ Hp'' Hs''].
  cbn [mp_current_size mp_transactions mp_max_size mp_priority mp_spent_outputs] in *.
  rewrite delete_insert_id in * by done.
  destruct p as [mx cur txs prio spent]; simpl in *. f_equal.
  - lia.
  - eapply StronglySorted_unique_strong; [|exact Hs''|exact Hs|by (etransitivity; [exact Hp''|symmetry; exact Hp])].
    intros e1 e2 He1 He2. rewrite Hp'' in He1. rewrite Hp in He2. by apply (prio_of_inj txs).
  - apply set_eq. intros k. unfold spends. specialize (Hdis k).
    rewrite elem_of_difference, elem_of_union, elem_of_list_to_set. tauto.
Qed.

(** What a block takes from the pool: in priority order, within the size limit, and
    every pooled transaction left out would exceed the limit if it were added. *)
Theorem block_selection_spec (mb : Z) (ops : list mempool_op) (max_size : Z)
    (Hmb : (0 <= mb)%Z) (Hops : Forall mempool_op_ok ops) (Hmax : (0 <= max_size)%Z) :
  let p := mempool_run mb ops in
  let r := get_transactions_for_block p max_size in
  sublist r (prio_transactions p (mp_priority p)) /\
  (sumZ (map tx_size r) <= max_size)%Z /\
  forall h tx, mp_transactions p !! h = Some tx -> tx ∈ r \/
    (max_size < sumZ (map tx_size r) + tx_size tx)%Z.
Proof.
  intros p r. destruct (mempool_run_ok mb ops Hmb Hops) as [_ _ _ _ _ Hp _]. fold p in Hp.
  destruct (select_for_block_spec p max_size 0 (mp_priority p) Hmax) as (Hs & Hsz & Hall).
  split; [done|]. split; [exact Hsz|]. intros h tx Htx. apply Hall.
  unfold prio_transactions. apply list_elem_of_omap. exists (prio_of (h, tx)).
  split; [|done]. rewrite Hp. apply list_elem_of_fmap. exists (h, tx). split; [done|].
  by apply elem_of_map_to_list.
Qed.

End MempoolProperties.

(** ** Concrete runs *)

Section Demo.
#[local] Existing Instance toy_hashlib.

Definition pool_tx (index fee : Z) : Transaction :=
  mkTransaction 1 TRANSFER [mkTxInput (replicate 32 Byte.x11) index [] [] None (-1)]
    [coin 1000 alice] 5 1700000000000 fee (b: "nonce000") None.

Definition pool_hash (tx : Transaction) : bytes :=
  match tx_hash tx with Ok h => h | Err _ => [] end.

Definition demo_ops : list mempool_op :=
  [MAdd (pool_tx 0 500); MAdd (pool_tx 1 900); MAdd (pool_tx 0 700);
   MRemove (pool_hash (pool_tx 0 500)); MAdd (pool_tx 2 800)].

Lemma demo_ops_ok : Forall mempool_op_ok demo_ops.
Proof. repeat constructor; simpl; lia. Qed.

Lemma mempool_inv_reachable_witness :
  mp_current_size (mempool_run 1 demo_ops) = map_sum tx_size (mp_transactions (mempool_run 1 demo_ops)) /\
  size (mp_transactions (mempool_run 1 demo_ops)) = 2.
Proof.
  split; [|by vm_compute].
  apply (mempool_inv_reachable 1 demo_ops); [lia | apply demo_ops_ok].
Defined.

Lemma mempool_add_remove_witness :
  let p := mempool_run 1 demo_ops in
  remove_transaction (add_transaction p (pool_tx 3 850)).1 (pool_hash (pool_tx 3 850))
  = (p, Some (pool_tx 3 850)).
Proof.
  intros p. apply (mempool_add_remove 1 demo_ops (pool_tx 3 850) _ _ "added").
  - lia.
  - apply demo_ops_ok.
  - assert (E : (add_transaction p (pool_tx 3 850)).2 = Ok (true, "added")) by (by vm_compute).
    rewrite <- E. apply surjective_pairing.
  - by vm_compute.
Defined.

Lemma block_selection_spec_witness :
  sublist (get_transactions_for_block (mempool_run 1 demo_ops) 200)
    [pool_tx 1 900; pool_tx 2 800].
Proof.
  destruct (block_selection_spec 1 demo_ops 200) as (Hs & _).
  - lia.
  - apply demo_ops_ok.
  - lia.
  - assert (E : prio_transactions (mempool_run 1 demo_ops) (mp_priority (mempool_run 1 demo_ops))
                = [pool_tx 1 900; pool_tx 2 800]) by (by vm_compute).
    rewrite E in Hs. exact Hs.
Defined.

End Demo.
