(* ===== verification/Consensus.v ===== *)
(** * BFT consensus ([src/src/consensus.py], class [BFTConsensus])

    [BFTConsensus] is one node's view of the current round: validators and stakes, proposals,
    votes.  An operation returns the new state next to its result; the current time is an
    argument.  The detection engine's verdicts and the measurements' hashes enter
    [create_proposal] as arguments.  Main results: the float threshold test is the exact
    rational test ([pre_commit_threshold_exact]); within a round two proposals can both be
    committed only through the node's own double vote ([quorum_intersection]); every node
    accepts exactly the proposals of the one selected proposer ([proposer_agreement]), who is
    selected in proportion to stake ([proposer_proportional]). *)

From stdpp Require Import prelude list gmap strings pretty sorting.
From Stdlib Require Import Strings.Byte ZArith Lia SpecFloat.
From S2P Require Import Prelude.
From S2P Require Import PyFloat.
From S2P Require Import Crypto.

Set Default Goal Selector "!".

(** ** Data *)

Inductive ConsensusPhase := IDLE | PROPOSE | PRE_VOTE | PRE_COMMIT | COMMIT | FINALIZED.

(** [DetectionResult] of [detection.py]: the verdict on one validator. *)
Record DetectionResult := mkDetectionResult {
  dr_validator_id : bytes;
  dr_is_suspicious : bool;
  dr_confidence : float64;
  dr_reasons : list string;
  dr_ratio_score : float64;
  dr_triangle_violations : Z;
  dr_variance_score : float64;
  dr_path_consistency_score : float64;
}.

(** [cp_timestamp] is annotated as [int], but the block producer stores a [float] in it. *)
Record ConsensusProposal := mkConsensusProposal {
  cp_proposer_id : bytes;
  cp_epoch : Z;
  cp_round : Z;
  cp_measurement_root : bytes;
  cp_detection_results : gmap bytes DetectionResult;
  cp_transaction_root : bytes;
  cp_state_root : bytes;
  cp_timestamp : pyarg;
  cp_signature : bytes;
}.

Record ConsensusVote := mkConsensusVote {
  cv_voter_id : bytes;
  cv_epoch : Z;
  cv_round : Z;
  cv_proposal_hash : bytes;
  cv_vote_type : string;
  cv_stake : Z;
  cv_timestamp : Z;
  cv_signature : bytes;
}.

Record ConsensusBlock := mkConsensusBlock {
  cb_epoch : Z;
  cb_round : Z;
  cb_proposal : ConsensusProposal;
  cb_votes : list ConsensusVote;
  cb_total_stake : Z;
  cb_supporting_stake : Z;
  cb_finalization_time : float64;
  cb_block_hash : bytes;
}.

(** [validators], [finalized_blocks] and the vote tables are dictionaries; [pre_votes] and
    [pre_commits] are [defaultdict(list)]. *)
Record BFTConsensus := mkBFTConsensus {
  bft_validator_id : bytes;
  bft_stake : Z;
  current_epoch : Z;
  current_round : Z;
  phase : ConsensusPhase;
  current_proposal : option ConsensusProposal;
  received_proposals : gmap bytes ConsensusProposal;
  pre_votes : gmap bytes (list ConsensusVote);
  pre_commits : gmap bytes (list ConsensusVote);
  pre_vote_choices : gmap bytes bytes;
  pre_commit_choices : gmap bytes bytes;
  validators : gmap bytes Z;
  total_stake : Z;
  finalized_blocks : gmap Z ConsensusBlock;
}.

(** ** Field updates *)

Definition set_phase (s : BFTConsensus) (p : ConsensusPhase) : BFTConsensus :=
  mkBFTConsensus (bft_validator_id s) (bft_stake s) (current_epoch s) (current_round s) p
    (current_proposal s) (received_proposals s) (pre_votes s) (pre_commits s)
    (pre_vote_choices s) (pre_commit_choices s) (validators s) (total_stake s)
    (finalized_blocks s).

Definition set_validators (s : BFTConsensus) (vs : gmap bytes Z) (total : Z) : BFTConsensus :=
  mkBFTConsensus (bft_validator_id s) (bft_stake s) (current_epoch s) (current_round s) (phase s)
    (current_proposal s) (received_proposals s) (pre_votes s) (pre_commits s)
    (pre_vote_choices s) (pre_commit_choices s) vs total (finalized_blocks s).

Definition set_proposals (s : BFTConsensus) (current : option ConsensusProposal)
    (received : gmap bytes ConsensusProposal) : BFTConsensus :=
  mkBFTConsensus (bft_validator_id s) (bft_stake s) (current_epoch s) (current_round s) (phase s)
    current received (pre_votes s) (pre_commits s)
    (pre_vote_choices s) (pre_commit_choices s) (validators s) (total_stake s)
    (finalized_blocks s).

Definition set_pre_votes (s : BFTConsensus) (votes : gmap bytes (list ConsensusVote))
    (choices : gmap bytes bytes) : BFTConsensus :=
  mkBFTConsensus (bft_validator_id s) (bft_stake s) (current_epoch s) (current_round s) (phase s)
    (current_proposal s) (received_proposals s) votes (pre_commits s)
    choices (pre_commit_choices s) (validators s) (total_stake s) (finalized_blocks s).

Definition set_pre_commits (s : BFTConsensus) (votes : gmap bytes (list ConsensusVote))
    (choices : gmap bytes bytes) : BFTConsensus :=
  mkBFTConsensus (bft_validator_id s) (bft_stake s) (current_epoch s) (current_round s) (phase s)
    (current_proposal s) (received_proposals s) (pre_votes s) votes
    (pre_vote_choices s) choices (validators s) (total_stake s) (finalized_blocks s).

Definition set_finalized (s : BFTConsensus) (blocks : gmap Z ConsensusBlock) : BFTConsensus :=
  mkBFTConsensus (bft_validator_id s) (bft_stake s) (current_epoch s) (current_round s) (phase s)
    (current_proposal s) (received_proposals s) (pre_votes s) (pre_commits s)
    (pre_vote_choices s) (pre_commit_choices s) (validators s) (total_stake s) blocks.

(** [votes[h].append(v)] on a [defaultdict(list)]. *)
Definition append_vote (votes : gmap bytes (list ConsensusVote)) (h : bytes) (v : ConsensusVote)
    : gmap bytes (list ConsensusVote) :=
  <[h := lookup_default [] votes h ++ [v]]> votes.

(** [vote.stake = stake]. *)
Definition with_stake (v : ConsensusVote) (stake : Z) : ConsensusVote :=
  mkConsensusVote (cv_voter_id v) (cv_epoch v) (cv_round v) (cv_proposal_hash v)
    (cv_vote_type v) stake (cv_timestamp v) (cv_signature v).

(** Sum of a dictionary's values. *)
Definition stake_sum (vs : gmap bytes Z) : Z := map_sum id vs.

(** [sorted(d.items())] for distinct [bytes] keys. *)
Definition sorted_items {V} (m : gmap bytes V) : list (bytes * V) :=
  merge_sort (cmp_ge (fun x y => bytes_cmp y.1 x.1)) (map_to_list m).

Section Consensus.
Context `{Hashlib}.

(** ** Hashes *)

Definition proposal_hash (p : ConsensusProposal) : res bytes :=
  d ← py_concat [PBytes (cp_proposer_id p); PInt (cp_epoch p); PInt (cp_round p);
                 PBytes (cp_measurement_root p); PBytes (cp_transaction_root p);
                 PBytes (cp_state_root p)];
  Ok (sha3_256 d).

Definition vote_hash (v : ConsensusVote) : res bytes :=
  d ← py_concat [PBytes (cv_voter_id v); PBytes (cv_proposal_hash v); PStr (cv_vote_type v);
                 PInt (cv_stake v)];
  Ok (sha3_256 d).

(** [ConsensusBlock(...)] with its [__post_init__]. *)
Definition new_block (epoch round : Z) (proposal : ConsensusProposal) (votes : list ConsensusVote)
    (total supporting : Z) (finalization_time : float64) : res ConsensusBlock :=
  ph ← proposal_hash proposal;
  ms ← to_ms finalization_time;
  d ← py_concat [PBytes ph; PInt total; PInt supporting; PInt ms];
  Ok (mkConsensusBlock epoch round proposal votes total supporting finalization_time (sha3_256 d)).

(** ** Registration and rounds *)

Definition register_validator (s : BFTConsensus) (validator_id : bytes) (stake : Z)
    : BFTConsensus :=
  let vs := <[validator_id := stake]> (validators s) in
  set_validators s vs (stake_sum vs).

(** [BFTConsensus(validator_id, stake)]. *)
Definition bft_new (validator_id : bytes) (stake : Z) : BFTConsensus :=
  register_validator
    (mkBFTConsensus validator_id stake 0 0 IDLE None ∅ ∅ ∅ ∅ ∅ ∅ 0 ∅) validator_id stake.

Definition start_round (s : BFTConsensus) (epoch round_num : Z) : BFTConsensus :=
  mkBFTConsensus (bft_validator_id s) (bft_stake s) epoch round_num PROPOSE None ∅ ∅ ∅ ∅ ∅
    (validators s) (total_stake s) (finalized_blocks s).

(** ** Proposer selection *)

(** The cumulative-stake loop over the sorted validators. *)
Fixpoint pick_validator (target cumulative : Z) (items : list (bytes * Z)) : option bytes :=
  match items with
  | [] => None
  | (vid, stake) :: items =>
      let cumulative := (cumulative + stake)%Z in
      if (target <? cumulative)%Z then Some vid else pick_validator target cumulative items
  end.

(** The 64-bit value drawn from epoch and round. *)
Definition selection_value (s : BFTConsensus) : res Z :=
  d ← py_concat [PBytes (b: "proposer"); PInt (current_epoch s); PInt (current_round s)];
  Ok (be_decode (take 8 (sha3_256 d))).

(** [a % b]. *)
Definition py_mod (a b : Z) : res Z :=
  if (b =? 0)%Z then Err ZeroDivisionError else Ok (a mod b)%Z.

Definition am_i_proposer (s : BFTConsensus) : res bool :=
  if bool_decide (validators s = ∅) then Ok true
  else
    v ← selection_value s;
    target ← py_mod v (total_stake s);
    Ok (match pick_validator target 0 (sorted_items (validators s)) with
        | Some vid => bool_decide (vid = bft_validator_id s)
        | None => false
        end).

Definition expected_proposer (s : BFTConsensus) : res (option bytes) :=
  if bool_decide (validators s = ∅) then Ok None
  else
    v ← selection_value s;
    target ← py_mod v (total_stake s);
    Ok (pick_validator target 0 (sorted_items (validators s))).

(** ** Proposals *)

Definition sort_hashes (hs : list bytes) : list bytes :=
  merge_sort (cmp_ge (fun x y => bytes_cmp y x)) hs.

Definition measurement_root_of (measurement_hashes : list bytes) : bytes :=
  match measurement_hashes with
  | [] => sha3_256 (b: "empty")
  | _ => sha3_256 (concat (sort_hashes measurement_hashes))
  end.

(** [measurement_hashes] are the commitments of the measurements in dictionary order,
    [detection_results] what the detection engine returns on them. *)
Definition create_proposal (s : BFTConsensus) (measurement_hashes : list bytes)
    (detection_results : gmap bytes DetectionResult) (transaction_root state_root : bytes)
    (now : float64) : BFTConsensus * res ConsensusProposal :=
  match to_ms now with
  | Err e => (s, Err e)
  | Ok timestamp =>
      let proposal := mkConsensusProposal (bft_validator_id s) (current_epoch s)
        (current_round s) (measurement_root_of measurement_hashes) detection_results
        transaction_root state_root (PInt timestamp) [] in
      let s := set_proposals s (Some proposal) (received_proposals s) in
      match proposal_hash proposal with
      | Err e => (s, Err e)
      | Ok h =>
          (set_phase (set_proposals s (Some proposal) (<[h := proposal]> (received_proposals s)))
             PRE_VOTE, Ok proposal)
      end
  end.

Definition receive_proposal (s : BFTConsensus) (proposal : ConsensusProposal)
    : BFTConsensus * res (bool * string) :=
  if negb (cp_epoch proposal =? current_epoch s)%Z then (s, Ok (false, "wrong epoch"))
  else if negb (cp_round proposal =? current_round s)%Z then (s, Ok (false, "wrong round"))
  else if negb (bool_decide (is_Some (validators s !! cp_proposer_id proposal))) then
    (s, Ok (false, "unknown proposer"))
  else
    match expected_proposer s with
    | Err e => (s, Err e)
    | Ok expected =>
        if match expected with
           | Some vid => negb (bool_decide (cp_proposer_id proposal = vid))
           | None => false
           end
        then (s, Ok (false, "proposer not selected for this epoch+round"))
        else
          match proposal_hash proposal with
          | Err e => (s, Err e)
          | Ok h =>
              (set_proposals s (current_proposal s) (<[h := proposal]> (received_proposals s)),
               Ok (true, "valid"))
          end
    end.

(** ** Pre-votes *)

Definition create_pre_vote (s : BFTConsensus) (h : bytes) (now : float64)
    : BFTConsensus * res ConsensusVote :=
  match to_ms now with
  | Err e => (s, Err e)
  | Ok timestamp =>
      let vote := mkConsensusVote (bft_validator_id s) (current_epoch s) (current_round s) h
        "pre-vote" (bft_stake s) timestamp [] in
      (set_pre_votes s (append_vote (pre_votes s) h vote) (pre_vote_choices s), Ok vote)
  end.

(** The vote object's stake is overwritten before the equivocation test, so it is returned
    too. *)
Definition receive_pre_vote (s : BFTConsensus) (vote : ConsensusVote)
    : BFTConsensus * ConsensusVote * (bool * string) :=
  if negb (cv_epoch vote =? current_epoch s)%Z then (s, vote, (false, "wrong epoch"))
  else if negb (bool_decide (cv_vote_type vote = "pre-vote")) then
    (s, vote, (false, "wrong vote type"))
  else match validators s !! cv_voter_id vote with
  | None => (s, vote, (false, "unknown voter"))
  | Some stake =>
      let vote := with_stake vote stake in
      let prev := pre_vote_choices s !! cv_voter_id vote in
      if match prev with
         | Some h => negb (bool_decide (h = cv_proposal_hash vote))
         | None => false
         end
      then (s, vote, (false, "equivocation: voter already pre-voted for different proposal"))
      else
        (set_pre_votes s (append_vote (pre_votes s) (cv_proposal_hash vote) vote)
           (<[cv_voter_id vote := cv_proposal_hash vote]> (pre_vote_choices s)), vote,
         (true, "valid"))
  end.

(** [voter_stakes]: registered stake of each distinct voter, 0 for an unregistered one. *)
Definition voter_stakes (s : BFTConsensus) (votes : list ConsensusVote) : gmap bytes Z :=
  foldl (fun m v => <[cv_voter_id v := lookup_default 0%Z (validators s) (cv_voter_id v)]> m)
    ∅ votes.

(** [supporting_stake / self.total_stake if self.total_stake > 0 else 0]. *)
Definition support_ratio (s : BFTConsensus) (supporting : Z) : res float64 :=
  if (0 <? total_stake s)%Z then truediv supporting (total_stake s) else Ok (S754_zero false).

Definition check_threshold (s : BFTConsensus) (votes : list ConsensusVote)
    : res (bool * float64) :=
  ratio ← support_ratio s (stake_sum (voter_stakes s votes));
  Ok (ge_067 ratio, ratio).

Definition check_pre_vote_threshold (s : BFTConsensus) (h : bytes) : res (bool * float64) :=
  check_threshold s (lookup_default [] (pre_votes s) h).

(** ** Pre-commits *)

Definition create_pre_commit (s : BFTConsensus) (h : bytes) (now : float64)
    : BFTConsensus * res (option ConsensusVote) :=
  match check_pre_vote_threshold s h with
  | Err e => (s, Err e)
  | Ok (threshold_met, ratio) =>
      if negb threshold_met then (s, Ok None)
      else match to_ms now with
      | Err e => (s, Err e)
      | Ok timestamp =>
          let vote := mkConsensusVote (bft_validator_id s) (current_epoch s) (current_round s) h
            "pre-commit" (bft_stake s) timestamp [] in
          (set_phase (set_pre_commits s (append_vote (pre_commits s) h vote)
             (pre_commit_choices s)) PRE_COMMIT, Ok (Some vote))
      end
  end.

Definition receive_pre_commit (s : BFTConsensus) (vote : ConsensusVote)
    : BFTConsensus * ConsensusVote * (bool * string) :=
  if negb (cv_epoch vote =? current_epoch s)%Z then (s, vote, (false, "wrong epoch"))
  else if negb (bool_decide (cv_vote_type vote = "pre-commit")) then
    (s, vote, (false, "wrong vote type"))
  else match validators s !! cv_voter_id vote with
  | None => (s, vote, (false, "unknown voter"))
  | Some stake =>
      let vote := with_stake vote stake in
      let prev := pre_commit_choices s !! cv_voter_id vote in
      if match prev with
         | Some h => negb (bool_decide (h = cv_proposal_hash vote))
         | None => false
         end
      then (s, vote, (false, "equivocation: voter already pre-committed for different proposal"))
      else
        (set_pre_commits s (append_vote (pre_commits s) (cv_proposal_hash vote) vote)
           (<[cv_voter_id vote := cv_proposal_hash vote]> (pre_commit_choices s)), vote,
         (true, "valid"))
  end.

Definition check_pre_commit_threshold (s : BFTConsensus) (h : bytes) : res (bool * float64) :=
  check_threshold s (lookup_default [] (pre_commits s) h).

(** ** Finalization *)

Definition try_finalize (s : BFTConsensus) (h : bytes) (now : float64)
    : BFTConsensus * res (option ConsensusBlock) :=
  match check_pre_commit_threshold s h with
  | Err e => (s, Err e)
  | Ok (threshold_met, ratio) =>
      if negb threshold_met then (s, Ok None)
      else match received_proposals s !! h with
      | None => (s, Ok None)
      | Some proposal =>
          let all_votes := lookup_default [] (pre_votes s) h ++ lookup_default [] (pre_commits s) h in
          let supporting := stake_sum (voter_stakes s (lookup_default [] (pre_commits s) h)) in
          match new_block (current_epoch s) (current_round s) proposal all_votes (total_stake s)
                  supporting now with
          | Err e => (s, Err e)
          | Ok block =>
              (set_phase (set_finalized s (<[current_epoch s := block]> (finalized_blocks s)))
                 FINALIZED, Ok (Some block))
          end
      end
  end.

(** The largest (not deduplicated) support of a proposal, as reported by
    [get_consensus_stats]. *)
Definition best_support (s : BFTConsensus) : Z :=
  foldr (fun kv best =>
      let support := sumZ (map (fun v => lookup_default 0%Z (validators s) (cv_voter_id v)) kv.2) in
      if (best <? support)%Z then support else best) 0%Z (map_to_list (pre_commits s)).

End Consensus.

(** ** Support *)

Section ConsensusLemmas.
Context `{Hashlib}.

Definition stake_of (s : BFTConsensus) (v : bytes) : Z := lookup_default 0%Z (validators s) v.

Definition voters (votes : list ConsensusVote) : gset bytes :=
  list_to_set (map cv_voter_id votes).

Lemma voter_stakes_lookup s votes k :
  voter_stakes s votes !! k = if decide (k ∈ voters votes) then Some (stake_of s k) else None.
Proof.
  unfold voter_stakes, voters.
  assert (forall (m : gmap bytes Z), foldl (fun m v =>
      <[cv_voter_id v := lookup_default 0%Z (validators s) (cv_voter_id v)]> m) m votes !! k =
    if decide (k ∈ (list_to_set (map cv_voter_id votes) : gset bytes))
    then Some (stake_of s k) else m !! k) as Hg; [|by rewrite Hg].
  induction votes as [|v votes IH]; intros m; simpl; [by rewrite decide_False by set_solver|].
  rewrite IH. destruct (decide (k = cv_voter_id v)) as [->|Hne].
  - rewrite lookup_insert_eq. repeat case_decide; set_solver.
  - rewrite lookup_insert_ne by done. repeat case_decide; set_solver.
Qed.

(** The supporting stake: every distinct voter counted once, with its registered stake. *)
Lemma supporting_spec s votes :
  stake_sum (voter_stakes s votes) = set_sum (stake_of s) (voters votes).
Proof. apply map_sum_set. intros k. apply voter_stakes_lookup. Qed.

(** Registered stakes are not negative and the total is their sum. *)
Definition stakes_ok (s : BFTConsensus) : Prop :=
  total_stake s = stake_sum (validators s) /\
  map_Forall (fun _ st => 0 <= st)%Z (validators s).

Lemma stake_of_nonneg s v : stakes_ok s -> (0 <= stake_of s v)%Z.
Proof.
  intros [_ Hf]. unfold stake_of, lookup_default.
  destruct (validators s !! v) eqn:E; simpl; [by apply (Hf v)|lia].
Qed.

Lemma total_stake_set s : stakes_ok s -> total_stake s = set_sum (stake_of s) (dom (validators s)).
Proof.
  intros [-> _]. apply map_sum_set. intros k. unfold stake_of, lookup_default.
  destruct (validators s !! k) eqn:E.
  - by rewrite decide_True by (apply elem_of_dom; eauto).
  - by rewrite decide_False by (by apply not_elem_of_dom).
Qed.

(** Only registered voters count. *)
Lemma set_stake_registered s vs : set_sum (stake_of s) vs = set_sum (stake_of s) (vs ∩ dom (validators s)).
Proof.
  assert (set_sum (stake_of s) (vs ∖ dom (validators s)) = 0)%Z as Hz.
  { unfold set_sum. assert (Forall (fun v => stake_of s v = 0%Z)
      (elements (vs ∖ dom (validators s)))) as Hf.
    { apply Forall_forall. intros v Hv%elem_of_elements. apply elem_of_difference in Hv as [_ Hv].
      apply not_elem_of_dom in Hv. unfold stake_of, lookup_default. by rewrite Hv. }
    induction Hf as [|v l Hv Hf IH]; simpl; lia. }
  assert (vs = (vs ∖ dom (validators s)) ∪ (vs ∩ dom (validators s))) as E.
  { apply set_eq. intros x. destruct (decide (x ∈ dom (validators s))); set_solver. }
  rewrite E at 1. rewrite set_sum_disj_union by set_solver. lia.
Qed.

(** No set of voters has more than the total. *)
Lemma set_stake_le_total s vs : stakes_ok s -> (set_sum (stake_of s) vs <= total_stake s)%Z.
Proof.
  intros Hs. rewrite total_stake_set, set_stake_registered by done.
  apply set_sum_mono; [intros v; by apply stake_of_nonneg|set_solver].
Qed.

(** The float test is the exact rational test. *)
Lemma check_threshold_exact s votes :
  stakes_ok s -> (total_stake s < 2 ^ 49)%Z ->
  exists ratio, check_threshold s votes =
    Ok ((0 <? total_stake s)%Z &&
        (67 * total_stake s <=? 100 * set_sum (stake_of s) (voters votes))%Z, ratio).
Proof.
  intros Hs Ht. unfold check_threshold, support_ratio. rewrite supporting_spec.
  set (sup := set_sum (stake_of s) (voters votes)).
  assert (0 <= sup)%Z by (apply set_sum_nonneg; intros; by apply stake_of_nonneg).
  pose proof (set_stake_le_total s (voters votes) Hs) as Hle. fold sup in Hle.
  destruct (Z.ltb_spec 0 (total_stake s)) as [Hpos|Hneg]; [|by eexists].
  destruct (ge_067_ratio sup (total_stake s)) as (x & -> & Hx); [|lia|].
  - pose proof (Z.pow_lt_mono_r 2 49 1023 ltac:(lia) ltac:(lia) ltac:(lia)). lia.
  - simpl. rewrite Hx. by eexists.
Qed.

Lemma check_threshold_true s votes ratio :
  stakes_ok s -> (total_stake s < 2 ^ 49)%Z -> check_threshold s votes = Ok (true, ratio) ->
  (0 < total_stake s /\ 67 * total_stake s <= 100 * set_sum (stake_of s) (voters votes))%Z.
Proof.
  intros Hs Ht Hc. destruct (check_threshold_exact s votes Hs Ht) as (r & E).
  rewrite E in Hc. injection Hc as Hb _. bool_to_prop. lia.
Qed.

(** *** What a proposal's hash commits to *)

(** The string that is hashed; not in it are the detection results, the time and the signature. *)
Definition proposal_preimage (p : ConsensusProposal) : res bytes :=
  py_concat [PBytes (cp_proposer_id p); PInt (cp_epoch p); PInt (cp_round p);
             PBytes (cp_measurement_root p); PBytes (cp_transaction_root p); PBytes (cp_state_root p)].

Definition proposal_queries (p : ConsensusProposal) : list bytes :=
  match proposal_preimage p with Ok d => [d] | Err _ => [] end.

Definition proposal_header (p : ConsensusProposal) : bytes * Z * Z * bytes * bytes * bytes :=
  (cp_proposer_id p, cp_epoch p, cp_round p, cp_measurement_root p, cp_transaction_root p, cp_state_root p).

(** The lengths at which the concatenation is cut. *)
Definition proposal_shape (p : ConsensusProposal) : nat * nat * nat :=
  (length (cp_proposer_id p), length (cp_measurement_root p), length (cp_transaction_root p)).

Lemma proposal_hash_inv p h :
  proposal_hash p = Ok h -> exists d, proposal_preimage p = Ok d /\ proposal_queries p = [d] /\ h = sha3_256 d.
Proof.
  unfold proposal_queries, proposal_preimage, proposal_hash. destruct (py_concat _) as [d|]; [|done].
  cbn [mbind res_bind]. intros [= <-]. by exists d.
Qed.

Lemma proposal_preimage_inj p1 p2 d :
  proposal_preimage p1 = Ok d -> proposal_preimage p2 = Ok d -> proposal_shape p1 = proposal_shape p2 ->
  proposal_header p1 = proposal_header p2.
Proof.
  unfold proposal_preimage, proposal_shape, proposal_header. intros E1 E2 [= L1 L2 L3].
  destruct (py_concat_inv _ _ _ E1) as (b1 & r1 & _ & (e1 & t1 & Ee1 & (k1 & _ & Ek1 & _)%py_concat_inv & _)%py_concat_inv & _).
  destruct (py_concat_inv _ _ _ E2) as (b2 & r2 & _ & (e2 & t2 & Ee2 & (k2 & _ & Ek2 & _)%py_concat_inv & _)%py_concat_inv & _).
  pose proof (pack_uint_length _ _ _ Ee1) as Le1. pose proof (pack_uint_length _ _ _ Ee2) as Le2.
  pose proof (pack_uint_length _ _ _ Ek1) as Lk1. pose proof (pack_uint_length _ _ _ Ek2) as Lk2.
  clear b1 r1 t1 b2 r2 t2.
  rewrite !py_concat_cons, py_concat_nil, Ee1, Ek1 in E1. rewrite !py_concat_cons, py_concat_nil, Ee2, Ek2 in E2.
  cbn [concat_arg mbind res_bind] in E1, E2. rewrite app_nil_r in E1, E2.
  apply Ok_inj in E1 as <-. apply Ok_inj in E2.
  apply app_inj_1 in E2 as [E E2]; [|done]. apply app_inj_1 in E2 as [-> E2]; [|congruence].
  apply app_inj_1 in E2 as [-> E2]; [|congruence]. apply app_inj_1 in E2 as [Em E2]; [|done].
  apply app_inj_1 in E2 as [Et Es]; [|done].
  by rewrite (pack_uint_inj _ _ _ _ Ee1 Ee2), (pack_uint_inj _ _ _ _ Ek1 Ek2), E, Em, Et, Es.
Qed.

(** Proposals with one hash have one header, if their fields are equally long and the two strings
    do not collide. *)
Lemma proposal_hash_header p1 p2 h :
  proposal_hash p1 = Ok h -> proposal_hash p2 = Ok h -> proposal_shape p1 = proposal_shape p2 ->
  collision_free sha3_256 (proposal_queries p1 ++ proposal_queries p2) ->
  proposal_header p1 = proposal_header p2.
Proof.
  intros (d1 & E1 & Q1 & ->)%proposal_hash_inv (d2 & E2 & Q2 & Hh)%proposal_hash_inv Hl Hcf.
  rewrite Q1, Q2 in Hcf. assert (d1 = d2) as <- by (apply Hcf; [set_solver|set_solver|done]).
  by apply (proposal_preimage_inj p1 p2 d1).
Qed.

End ConsensusLemmas.

(** ** Histories of calls *)

Section History.
Context `{Hashlib}.

Inductive bft_op :=
  | BRegister (validator_id : bytes) (stake : Z)
  | BStartRound (epoch round : Z)
  | BCreateProposal (hashes : list bytes) (results : gmap bytes DetectionResult)
      (transaction_root state_root : bytes) (now : float64)
  | BReceiveProposal (proposal : ConsensusProposal)
  | BCreatePreVote (h : bytes) (now : float64)
  | BReceivePreVote (vote : ConsensusVote)
  | BCreatePreCommit (h : bytes) (now : float64)
  | BReceivePreCommit (vote : ConsensusVote)
  | BTryFinalize (h : bytes) (now : float64).

Definition bft_step (s : BFTConsensus) (op : bft_op) : BFTConsensus :=
  match op with
  | BRegister v st => register_validator s v st
  | BStartRound e r => start_round s e r
  | BCreateProposal hs results tr sr now => (create_proposal s hs results tr sr now).1
  | BReceiveProposal p => (receive_proposal s p).1
  | BCreatePreVote h now => (create_pre_vote s h now).1
  | BReceivePreVote v => (receive_pre_vote s v).1.1
  | BCreatePreCommit h now => (create_pre_commit s h now).1
  | BReceivePreCommit v => (receive_pre_commit s v).1.1
  | BTryFinalize h now => (try_finalize s h now).1
  end.

(** Stakes are registered as non-negative amounts. *)
Definition bft_op_ok (op : bft_op) : Prop :=
  match op with BRegister _ st => (0 <= st)%Z | _ => True end.

Definition bft_run (validator_id : bytes) (stake : Z) (ops : list bft_op) : BFTConsensus :=
  foldl bft_step (bft_new validator_id stake) ops.

(** A vote in the tables is the node's own or that voter's recorded choice. *)
Definition votes_recorded (s : BFTConsensus) (votes : gmap bytes (list ConsensusVote))
    (choices : gmap bytes bytes) : Prop :=
  forall h v, v ∈ lookup_default [] votes h ->
    cv_voter_id v = bft_validator_id s \/ choices !! cv_voter_id v = Some h.

Record bft_inv (s : BFTConsensus) : Prop := {
  bi_stakes : stakes_ok s;
  bi_self : is_Some (validators s !! bft_validator_id s);
  bi_pre_votes : votes_recorded s (pre_votes s) (pre_vote_choices s);
  bi_pre_commits : votes_recorded s (pre_commits s) (pre_commit_choices s);
  bi_proposals h p : received_proposals s !! h = Some p ->
    proposal_hash p = Ok h /\ cp_epoch p = current_epoch s /\ cp_round p = current_round s;
}.

Lemma votes_recorded_append s votes choices h v :
  votes_recorded s votes choices ->
  (cv_voter_id v = bft_validator_id s \/ choices !! cv_voter_id v = Some h) ->
  votes_recorded s (append_vote votes h v) choices.
Proof.
  intros Hr Hv h' w. unfold append_vote. destruct (decide (h = h')) as [<-|Hne].
  - rewrite lookup_default_insert_eq, elem_of_app, list_elem_of_singleton.
    intros [Hw| ->]; [by apply Hr | done].
  - rewrite lookup_default_insert_ne by done. apply Hr.
Qed.

(** Recording a choice that does not contradict an earlier one. *)
Lemma votes_recorded_choice s votes choices voter h :
  votes_recorded s votes choices ->
  (forall h', choices !! voter = Some h' -> h' = h) ->
  votes_recorded s votes (<[voter := h]> choices).
Proof.
  intros Hr Hc h' w Hw. destruct (Hr h' w Hw) as [?|Hch]; [by left|right].
  destruct (decide (cv_voter_id w = voter)) as [Ew|Hne].
  - rewrite Ew in *. rewrite lookup_insert_eq. f_equal. symmetry. by apply Hc.
  - by rewrite lookup_insert_ne.
Qed.

Lemma votes_recorded_empty s : votes_recorded s ∅ ∅.
Proof.
  intros h v. unfold lookup_default. rewrite lookup_empty. by intros ?%not_elem_of_nil.
Qed.

Lemma stakes_ok_register s vid st :
  stakes_ok s -> (0 <= st)%Z -> stakes_ok (register_validator s vid st).
Proof. intros [_ Hf] Hst. split; [done|]. simpl. by apply map_Forall_insert_2. Qed.

Lemma bft_inv_new vid st : (0 <= st)%Z -> bft_inv (bft_new vid st).
Proof.
  intros Hst. unfold bft_new. split.
  - split; [done|]. simpl. apply map_Forall_insert_2; [done|]. apply map_Forall_empty.
  - simpl. by rewrite lookup_insert_eq.
  - apply votes_recorded_empty.
  - apply votes_recorded_empty.
  - simpl. intros h p Hp. by rewrite lookup_empty in Hp.
Qed.

(** The equivocation test in logical form. *)
Lemma choice_test (prev : option bytes) (h : bytes) :
  match prev with Some h' => negb (bool_decide (h' = h)) | None => false end = false ->
  forall h', prev = Some h' -> h' = h.
Proof. intros Ht h' ->. by bool_to_prop. Qed.

Lemma receive_pre_vote_inv s v : bft_inv s -> bft_inv (receive_pre_vote s v).1.1.
Proof.
  intros []. unfold receive_pre_vote. repeat (case_match; [done|]).
  case_match; [|done]. case_match eqn:Et; [done|]. simpl in *.
  pose proof (choice_test _ _ Et) as Hc. split; simpl; try done.
  apply votes_recorded_append; [by apply votes_recorded_choice|].
  right. simpl. by rewrite lookup_insert_eq.
Qed.

Lemma receive_pre_commit_inv s v : bft_inv s -> bft_inv (receive_pre_commit s v).1.1.
Proof.
  intros []. unfold receive_pre_commit. repeat (case_match; [done|]).
  case_match; [|done]. case_match eqn:Et; [done|]. simpl in *.
  pose proof (choice_test _ _ Et) as Hc. split; simpl; try done.
  apply votes_recorded_append; [by apply votes_recorded_choice|].
  right. simpl. by rewrite lookup_insert_eq.
Qed.

Lemma create_pre_commit_inv s h now : bft_inv s -> bft_inv (create_pre_commit s h now).1.
Proof.
  intros Hs. pose proof Hs as []. unfold create_pre_commit.
  destruct (check_pre_vote_threshold s h) as [[[] ratio]|]; simpl; try done.
  destruct (to_ms now); [|done]. split; simpl; try done.
  apply votes_recorded_append; [done|by left].
Qed.

Lemma create_pre_vote_inv s h now : bft_inv s -> bft_inv (create_pre_vote s h now).1.
Proof.
  intros Hs. pose proof Hs as []. unfold create_pre_vote. destruct (to_ms now); [|done].
  split; simpl; try done. apply votes_recorded_append; [done|by left].
Qed.

Lemma proposals_insert s h p :
  bft_inv s -> proposal_hash p = Ok h -> cp_epoch p = current_epoch s ->
  cp_round p = current_round s ->
  forall h' p', <[h := p]> (received_proposals s) !! h' = Some p' ->
    proposal_hash p' = Ok h' /\ cp_epoch p' = current_epoch s /\ cp_round p' = current_round s.
Proof.
  intros [] Hh He Hr h' p' [[<- <-]|[_ Hp]]%lookup_insert_Some; [done|]. by apply bi_proposals0.
Qed.

Lemma create_proposal_inv s hs results tr sr now :
  bft_inv s -> bft_inv (create_proposal s hs results tr sr now).1.
Proof.
  intros Hs. pose proof Hs as []. unfold create_proposal. destruct (to_ms now); [|done].
  destruct (proposal_hash _) as [h|] eqn:Eh; simpl; [|by split].
  split; simpl; try done. intros h' p'. by apply (proposals_insert s h).
Qed.

Lemma receive_proposal_inv s p : bft_inv s -> bft_inv (receive_proposal s p).1.
Proof.
  intros Hs. pose proof Hs as []. unfold receive_proposal.
  destruct (Z.eqb_spec (cp_epoch p) (current_epoch s)); [|done]. simpl.
  destruct (Z.eqb_spec (cp_round p) (current_round s)); [|done]. simpl. case_match; [done|].
  destruct (expected_proposer s); [|done]. case_match; [done|].
  destruct (proposal_hash p) as [h|] eqn:Eh; [|done].
  split; simpl; try done. intros h' p'. by apply (proposals_insert s h).
Qed.

Lemma try_finalize_inv s h now : bft_inv s -> bft_inv (try_finalize s h now).1.
Proof.
  intros Hs. pose proof Hs as []. unfold try_finalize.
  destruct (check_pre_commit_threshold s h) as [[[] ratio]|]; simpl; try done.
  destruct (received_proposals s !! h); [|done]. destruct (new_block _ _ _ _ _ _ _); [|done].
  by split.
Qed.

Lemma bft_step_inv s op : bft_inv s -> bft_op_ok op -> bft_inv (bft_step s op).
Proof.
  intros Hs Hop. destruct op; simpl in *.
  - destruct Hs. split; simpl; try done; [by apply stakes_ok_register|].
    destruct (decide (validator_id = bft_validator_id s)) as [->|].
    + by rewrite lookup_insert_eq.
    + by rewrite lookup_insert_ne.
  - destruct Hs. split; simpl; try done; try apply votes_recorded_empty.
  - by apply create_proposal_inv.
  - by apply receive_proposal_inv.
  - by apply create_pre_vote_inv.
  - by apply receive_pre_vote_inv.
  - by apply create_pre_commit_inv.
  - by apply receive_pre_commit_inv.
  - by apply try_finalize_inv.
Qed.

Lemma bft_run_inv vid st ops :
  (0 <= st)%Z -> Forall bft_op_ok ops -> bft_inv (bft_run vid st ops).
Proof.
  intros Hst Hops. unfold bft_run. pose proof (bft_inv_new vid st Hst) as Hi. revert Hi.
  generalize (bft_new vid st). induction Hops as [|op ops Hop Hops IH]; intros s Hi; [done|].
  simpl. by apply IH, bft_step_inv.
Qed.

(** What an owner of the consensus does to it within a round, as a relation. *)
Definition round_op (op : bft_op) : Prop :=
  match op with BRegister _ st => (0 <= st)%Z | BStartRound _ _ => False | _ => True end.

Definition round_steps (s s' : BFTConsensus) : Prop :=
  exists ops, Forall round_op ops /\ s' = foldl bft_step s ops.

#[export] Instance round_steps_preorder : PreOrder round_steps.
Proof.
  split; [by exists []|]. intros s1 s2 s3 (l1 & H1 & ->) (l2 & H2 & ->).
  exists (l1 ++ l2). rewrite foldl_app. split; [by apply Forall_app|done].
Qed.

Lemma round_steps_one s op : round_op op -> round_steps s (bft_step s op).
Proof. intros Hop. exists [op]. by split; [constructor|]. Qed.

Lemma round_op_epoch s op :
  round_op op -> current_epoch (bft_step s op) = current_epoch s /\
    current_round (bft_step s op) = current_round s /\
    bft_validator_id (bft_step s op) = bft_validator_id s.
Proof.
  destruct op; simpl; try done; intros _;
    unfold create_proposal, receive_proposal, create_pre_vote, receive_pre_vote, create_pre_commit,
      receive_pre_commit, try_finalize; repeat case_match; done.
Qed.

Lemma round_steps_inv s s' :
  round_steps s s' ->
  (bft_inv s -> bft_inv s') /\ current_epoch s' = current_epoch s /\
  current_round s' = current_round s /\ bft_validator_id s' = bft_validator_id s.
Proof.
  intros (ops & Hops & ->). revert s. induction Hops as [|op ops Hop _ IH]; intros s; [done|].
  destruct (IH (bft_step s op)) as (I1 & I2 & I3 & I4), (round_op_epoch s op Hop) as (E1 & E2 & E3).
  cbn [foldl]. split; [|by rewrite I2, I3, I4]. intros Hs. apply I1, bft_step_inv; [done|]. by destruct op.
Qed.

(** Each operation is a step, whether it raises or not. *)
Lemma register_steps s vid st : (0 <= st)%Z -> round_steps s (register_validator s vid st).
Proof. apply (round_steps_one s (BRegister vid st)). Qed.
Lemma create_proposal_steps s hs results tr sr now :
  round_steps s (create_proposal s hs results tr sr now).1.
Proof. by apply (round_steps_one s (BCreateProposal hs results tr sr now)). Qed.
Lemma receive_proposal_steps s p : round_steps s (receive_proposal s p).1.
Proof. by apply (round_steps_one s (BReceiveProposal p)). Qed.
Lemma create_pre_vote_steps s h now : round_steps s (create_pre_vote s h now).1.
Proof. by apply (round_steps_one s (BCreatePreVote h now)). Qed.
Lemma receive_pre_vote_steps s v : round_steps s (receive_pre_vote s v).1.1.
Proof. by apply (round_steps_one s (BReceivePreVote v)). Qed.
Lemma create_pre_commit_steps s h now : round_steps s (create_pre_commit s h now).1.
Proof. by apply (round_steps_one s (BCreatePreCommit h now)). Qed.
Lemma receive_pre_commit_steps s v : round_steps s (receive_pre_commit s v).1.1.
Proof. by apply (round_steps_one s (BReceivePreCommit v)). Qed.
Lemma try_finalize_steps s h now : round_steps s (try_finalize s h now).1.
Proof. by apply (round_steps_one s (BTryFinalize h now)). Qed.

(** ** Intersection of quorums *)

Lemma voters_elem votes v : v ∈ voters votes <-> exists w, w ∈ votes /\ cv_voter_id w = v.
Proof.
  unfold voters. rewrite elem_of_list_to_set, list_elem_of_fmap. naive_solver.
Qed.

(** Two proposals share at most the node itself among their voters. *)
Lemma recorded_intersect s votes choices h1 h2 :
  votes_recorded s votes choices -> h1 <> h2 ->
  voters (lookup_default [] votes h1) ∩ voters (lookup_default [] votes h2) ⊆ {[bft_validator_id s]}.
Proof.
  intros Hr Hne v. rewrite elem_of_intersection, !voters_elem, elem_of_singleton.
  intros [(w1 & H1 & <-) (w2 & H2 & E)].
  destruct (Hr h1 w1 H1) as [?|C1]; [done|].
  destruct (Hr h2 w2 H2) as [?|C2]; [congruence|].
  rewrite E in C2. congruence.
Qed.

(** Sets of voters with 67% each share 34%. *)
Lemma quorums_overlap s v1 v2 :
  stakes_ok s -> (67 * total_stake s <= 100 * set_sum (stake_of s) v1)%Z ->
  (67 * total_stake s <= 100 * set_sum (stake_of s) v2)%Z ->
  (34 * total_stake s <= 100 * set_sum (stake_of s) (v1 ∩ v2))%Z.
Proof.
  intros Hs H1 H2. pose proof (set_sum_union_inter (stake_of s) v1 v2) as Hu.
  pose proof (set_stake_le_total s (v1 ∪ v2) Hs) as Hle. lia.
Qed.

Lemma two_quorums s votes choices h1 h2 r1 r2 :
  stakes_ok s -> votes_recorded s votes choices -> (total_stake s < 2 ^ 49)%Z -> h1 <> h2 ->
  check_threshold s (lookup_default [] votes h1) = Ok (true, r1) ->
  check_threshold s (lookup_default [] votes h2) = Ok (true, r2) ->
  (34 * total_stake s <= 100 * stake_of s (bft_validator_id s))%Z.
Proof.
  intros Hs Hr Ht Hne H1 H2.
  apply check_threshold_true in H1 as [_ H1]; [|done..].
  apply check_threshold_true in H2 as [_ H2]; [|done..].
  pose proof (quorums_overlap s _ _ Hs H1 H2) as Ho.
  pose proof (set_sum_mono (stake_of s) _ _ (fun v => stake_of_nonneg s v Hs) (recorded_intersect s votes choices h1 h2 Hr Hne)) as Hm.
  rewrite set_sum_singleton in Hm. lia.
Qed.

(** A finalized block, from any state that satisfies the invariant. *)
Lemma try_finalize_sound s h now s' b :
  bft_inv s -> (total_stake s < 2 ^ 49)%Z -> try_finalize s h now = (s', Ok (Some b)) ->
  proposal_hash (cb_proposal b) = Ok h /\
  cb_epoch b = current_epoch s /\ cb_round b = current_round s /\
  cp_epoch (cb_proposal b) = current_epoch s /\ cp_round (cb_proposal b) = current_round s /\
  cb_total_stake b = total_stake s /\
  cb_supporting_stake b =
    set_sum (stake_of s) (voters (lookup_default [] (pre_commits s) h)) /\
  (0 < total_stake s)%Z /\ (67 * cb_total_stake b <= 100 * cb_supporting_stake b)%Z /\
  phase s' = FINALIZED /\
  finalized_blocks s' = <[current_epoch s := b]> (finalized_blocks s).
Proof.
  intros Hi Htot Hf. unfold try_finalize in Hf.
  destruct (check_pre_commit_threshold s h) as [[[] ratio]|] eqn:Ec; try done. simpl in Hf.
  apply check_threshold_true in Ec as [Hpos Hq]; [|by apply bi_stakes|done].
  destruct (received_proposals s !! h) as [p|] eqn:Ep; [|done].
  destruct (bi_proposals s Hi h p Ep) as (Hh & He & Hr).
  destruct (new_block _ _ _ _ _ _ _) as [b'|] eqn:Eb; [|done]. injection Hf as <- <-.
  unfold new_block in Eb. rewrite supporting_spec in Eb. inv_res.
  cbn [cb_proposal cb_epoch cb_round cb_total_stake cb_supporting_stake]. done.
Qed.

End History.

(** ** Proposer selection *)

Section Proposer.
Context `{Hashlib}.

Lemma sorted_items_perm {V} (m : gmap bytes V) : sorted_items m ≡ₚ map_to_list m.
Proof. apply merge_sort_Permutation. Qed.

Definition items_stake (items : list (bytes * Z)) : Z := sumZ (map snd items).

Lemma pick_validator_total items target cumulative :
  Forall (fun kv => 0 <= kv.2)%Z items ->
  (cumulative <= target < cumulative + items_stake items)%Z ->
  exists vid, pick_validator target cumulative items = Some vid /\ vid ∈ map fst items.
Proof.
  intros Hf. revert cumulative. induction Hf as [|[v st] items Hst Hf IH]; intros c Ht.
  - unfold items_stake in Ht. simpl in Ht. lia.
  - simpl. destruct (Z.ltb_spec target (c + st)); [exists v; split; [done|by left]|].
    destruct (IH (c + st)%Z) as (vid & Hp & Hin).
    + unfold items_stake in *. simpl in *. lia.
    + exists vid. split; [done|by right].
Qed.

Lemma pick_validator_in items target cumulative vid :
  pick_validator target cumulative items = Some vid -> vid ∈ map fst items.
Proof.
  revert cumulative. induction items as [|[v st] items IH]; intros c; simpl; [done|].
  case_match; [intros [= ->]; by left | intros Hp; right; by eapply IH].
Qed.

(** The number of targets in a range that select [vid]. *)
Definition selected (items : list (bytes * Z)) (c : Z) (vid : bytes) (t : nat) : bool :=
  bool_decide (pick_validator (Z.of_nat t) c items = Some vid).

Lemma count_all_false {A} (f : A -> bool) l :
  (forall x, x ∈ l -> f x = false) -> length (List.filter f l) = 0.
Proof.
  intros Hf. induction l as [|x l IH]; [done|]. simpl. rewrite Hf by (by left).
  apply IH. intros y Hy. apply Hf. by right.
Qed.

Lemma count_all_true {A} (f : A -> bool) l :
  (forall x, x ∈ l -> f x = true) -> length (List.filter f l) = length l.
Proof.
  intros Hf. induction l as [|x l IH]; [done|]. simpl. rewrite Hf by (by left). simpl.
  f_equal. apply IH. intros y Hy. apply Hf. by right.
Qed.

Lemma pick_validator_count items n vid :
  Forall (fun kv => 0 <= kv.2)%Z items -> NoDup (map fst items) ->
  length (List.filter (selected items (Z.of_nat n) vid) (seq n (Z.to_nat (items_stake items)))) =
  Z.to_nat (sumZ (map (fun kv => if bool_decide (kv.1 = vid) then kv.2 else 0%Z) items)).
Proof.
  intros Hf. revert n. induction Hf as [|[v st] items Hst Hf IH]; intros n Hnd; [done|].
  simpl in Hst, Hnd. apply NoDup_cons in Hnd as [Hv Hnd].
  assert (Hrest : (0 <= items_stake items)%Z) by (unfold items_stake; by apply sumZ_nonneg, Forall_fmap).
  assert (items_stake ((v, st) :: items) = st + items_stake items)%Z as -> by done.
  rewrite Z2Nat.inj_add, seq_app, List.filter_app, length_app by lia.
  specialize (IH (n + Z.to_nat st) Hnd).
  assert (Hsame : forall l, (forall t, t ∈ l -> n + Z.to_nat st <= t) ->
    List.filter (selected ((v, st) :: items) (Z.of_nat n) vid) l =
    List.filter (selected items (Z.of_nat (n + Z.to_nat st)) vid) l).
  { intros l Hl. apply filter_ext_in. intros t Ht%list_elem_of_In%Hl.
    unfold selected. cbn [pick_validator]. destruct (Z.ltb_spec (Z.of_nat t) (Z.of_nat n + st)); [lia|].
    by replace (Z.of_nat n + st)%Z with (Z.of_nat (n + Z.to_nat st)) by lia. }
  rewrite (Hsame (seq (n + Z.to_nat st) _)) by (intros t [? _]%elem_of_seq; lia).
  rewrite IH. cbn [map sumZ foldr fst snd].
  assert (Hothers : (0 <= sumZ (map (fun kv => if bool_decide (kv.1 = vid) then kv.2 else 0%Z) items))%Z).
  { apply sumZ_nonneg, Forall_fmap. eapply Forall_impl; [exact Hf|].
    intros kv Hkv. simpl in *. case_bool_decide; lia. }
  assert (Hin : forall t, t ∈ seq n (Z.to_nat st) ->
    selected ((v, st) :: items) (Z.of_nat n) vid t = bool_decide (v = vid)).
  { intros t [Hlo Hhi]%elem_of_seq. unfold selected. cbn [pick_validator].
    destruct (Z.ltb_spec (Z.of_nat t) (Z.of_nat n + st)); [|lia].
    apply bool_decide_ext. split; [by intros [= ->] | by intros ->]. }
  unfold sumZ in *. case_bool_decide as Evid.
  - rewrite count_all_true by (intros t Ht; by apply Hin).
    rewrite length_seq, Z2Nat.inj_add by lia. done.
  - rewrite count_all_false by (intros t Ht; by apply Hin).
    rewrite Z.add_0_l. done.
Qed.

(** The stake under one key of the sorted list is that of the dictionary. *)
Lemma sum_key_lookup (m : gmap bytes Z) vid :
  sumZ (map (fun kv => if bool_decide (kv.1 = vid) then kv.2 else 0%Z) (sorted_items m)) =
  lookup_default 0%Z m vid.
Proof.
  rewrite sorted_items_perm. unfold lookup_default.
  induction m as [|k v m Hk IH] using map_ind.
  { by rewrite map_to_list_empty, lookup_empty. }
  rewrite map_to_list_insert by done. cbn [map sumZ foldr fst snd]. unfold sumZ in IH.
  rewrite IH. case_bool_decide as E.
  - subst k. rewrite lookup_insert_eq, Hk. simpl. lia.
  - by rewrite lookup_insert_ne.
Qed.

Lemma sorted_items_nonneg (m : gmap bytes Z) :
  map_Forall (fun _ st => 0 <= st)%Z m -> Forall (fun kv => 0 <= kv.2)%Z (sorted_items m).
Proof.
  intros Hm. rewrite sorted_items_perm. apply Forall_forall. intros [k v] Hin%elem_of_map_to_list.
  by apply (Hm k).
Qed.

Lemma sorted_items_keys (m : gmap bytes Z) vid :
  vid ∈ map fst (sorted_items m) <-> is_Some (m !! vid).
Proof.
  rewrite sorted_items_perm, list_elem_of_fmap. split.
  - intros ([k v] & -> & Hin%elem_of_map_to_list). simpl. eauto.
  - intros [v Hv]. exists (vid, v). split; [done|]. by apply elem_of_map_to_list.
Qed.

Lemma sorted_items_NoDup (m : gmap bytes Z) : NoDup (map fst (sorted_items m)).
Proof. rewrite sorted_items_perm. apply NoDup_fst_map_to_list. Qed.

Lemma sorted_items_stake (m : gmap bytes Z) : items_stake (sorted_items m) = stake_sum m.
Proof. unfold items_stake. by rewrite sorted_items_perm. Qed.

(** Epoch and round can be hashed. *)
Definition round_ok (s : BFTConsensus) : Prop :=
  (0 <= current_epoch s < 2 ^ 64)%Z /\ (0 <= current_round s < 2 ^ 64)%Z.

Lemma selection_value_ok s : round_ok s -> exists v, selection_value s = Ok v /\ (0 <= v < 2 ^ 64)%Z.
Proof.
  intros [He Hr]. unfold selection_value.
  rewrite !py_concat_cons, !concat_arg_int by done. eexists. split; [reflexivity|].
  set (d := sha3_256 _). pose proof (be_decode_range (take 8 d)) as Hb.
  rewrite length_take in Hb. unfold d in Hb. rewrite sha3_256_length in Hb. exact Hb.
Qed.

(** With positive total stake exactly one registered validator is selected. *)
Lemma expected_proposer_ok s :
  stakes_ok s -> round_ok s -> (0 < total_stake s)%Z ->
  exists v vid, selection_value s = Ok v /\ expected_proposer s = Ok (Some vid) /\
    pick_validator (v mod total_stake s) 0 (sorted_items (validators s)) = Some vid /\
    is_Some (validators s !! vid) /\
    am_i_proposer s = Ok (bool_decide (vid = bft_validator_id s)).
Proof.
  intros Hs Hr Ht. destruct (selection_value_ok s Hr) as (v & Ev & Hv).
  destruct Hs as [Etot Hf].
  destruct (pick_validator_total (sorted_items (validators s)) (v mod total_stake s) 0)
    as (vid & Hp & Hin).
  - by apply sorted_items_nonneg.
  - rewrite sorted_items_stake, <- Etot. pose proof (Z.mod_pos_bound v (total_stake s) Ht). lia.
  - apply sorted_items_keys in Hin. exists v, vid.
    assert (Hne : validators s <> ∅) by (intros E; rewrite E, lookup_empty in Hin; by destruct Hin).
    unfold expected_proposer, am_i_proposer, py_mod.
    rewrite bool_decide_false by done. rewrite Ev.
    unfold mbind, res_bind. rewrite (proj2 (Z.eqb_neq _ _)) by lia. rewrite Hp. done.
Qed.

End Proposer.

(** ** Properties *)

Section ConsensusProperties.
Context `{Hashlib}.

(** Within a round two different proposals can both reach the pre-commit threshold only if
    the node itself pre-committed to both and holds at least 34% of the stake: whatever the
    node received, every other voter is counted for one proposal only. *)
Theorem quorum_intersection (vid : bytes) (st : Z) (ops : list bft_op) (h1 h2 : bytes)
    (r1 r2 : float64) (Hst : (0 <= st)%Z) (Hops : Forall bft_op_ok ops)
    (Htot : (total_stake (bft_run vid st ops) < 2 ^ 49)%Z) (Hne : h1 <> h2)
    (H1 : check_pre_commit_threshold (bft_run vid st ops) h1 = Ok (true, r1))
    (H2 : check_pre_commit_threshold (bft_run vid st ops) h2 = Ok (true, r2)) :
  let s := bft_run vid st ops in
  (34 * total_stake s <= 100 * stake_of s (bft_validator_id s))%Z /\
  voters (lookup_default [] (pre_commits s) h1) ∩ voters (lookup_default [] (pre_commits s) h2)
    ⊆ {[bft_validator_id s]}.
Proof.
  intros s. pose proof (bft_run_inv vid st ops Hst Hops) as Hi.
  split; [|eapply recorded_intersect; [by apply bi_pre_commits|done]].
  eapply (two_quorums s (pre_commits s)); try done; [by apply bi_stakes|by apply bi_pre_commits].
Qed.

(** C29. After any history, the pre-commit test neither raises nor misjudges: for a total stake
    below 2^49 the floating-point comparison with 0.67 holds exactly when the total is positive
    and 67 times the total is at most 100 times the registered stake of the distinct
    pre-committers, whatever stake the votes claim. *)
Theorem pre_commit_threshold_exact (vid : bytes) (st : Z) (ops : list bft_op) (h : bytes)
    (Hst : (0 <= st)%Z) (Hops : Forall bft_op_ok ops)
    (Htot : (total_stake (bft_run vid st ops) < 2 ^ 49)%Z) :
  let s := bft_run vid st ops in
  exists ratio, check_pre_commit_threshold s h =
    Ok ((0 <? total_stake s)%Z &&
        (67 * total_stake s <=?
           100 * set_sum (stake_of s) (voters (lookup_default [] (pre_commits s) h)))%Z, ratio).
Proof.
  intros s. apply check_threshold_exact; [|done]. apply bi_stakes. by apply bft_run_inv.
Qed.

(** A block that is finalized after any history was proposed for the current epoch and
    round, hashes to what was voted on, reports the total stake and the pre-committers'
    registered stake, has at least 67% of the total behind it, and is recorded for its epoch
    while every other epoch's block stays. *)
Theorem finalized_block_sound (vid : bytes) (st : Z) (ops : list bft_op) (h : bytes)
    (now : float64) (s' : BFTConsensus) (b : ConsensusBlock)
    (Hst : (0 <= st)%Z) (Hops : Forall bft_op_ok ops)
    (Htot : (total_stake (bft_run vid st ops) < 2 ^ 49)%Z)
    (Hf : try_finalize (bft_run vid st ops) h now = (s', Ok (Some b))) :
  let s := bft_run vid st ops in
  proposal_hash (cb_proposal b) = Ok h /\
  cb_epoch b = current_epoch s /\ cb_round b = current_round s /\
  cp_epoch (cb_proposal b) = current_epoch s /\ cp_round (cb_proposal b) = current_round s /\
  cb_total_stake b = total_stake s /\
  cb_supporting_stake b =
    set_sum (stake_of s) (voters (lookup_default [] (pre_commits s) h)) /\
  (0 < total_stake s)%Z /\ (67 * cb_total_stake b <= 100 * cb_supporting_stake b)%Z /\
  phase s' = FINALIZED /\
  finalized_blocks s' = <[current_epoch s := b]> (finalized_blocks s).
Proof. eapply try_finalize_sound; [by apply bft_run_inv|done|done]. Qed.

(** Proposer selection agrees across nodes: for nodes with the same validators, epoch and
    round, a receiver accepts a proposal (of this epoch and round) of another node exactly when
    that node considers itself the proposer. *)
Theorem proposer_agreement (vid1 vid2 : bytes) (st1 st2 : Z) (ops1 ops2 : list bft_op)
    (p : ConsensusProposal)
    (Hst1 : (0 <= st1)%Z) (Hst2 : (0 <= st2)%Z)
    (Hops1 : Forall bft_op_ok ops1) (Hops2 : Forall bft_op_ok ops2)
    (Hv : validators (bft_run vid1 st1 ops1) = validators (bft_run vid2 st2 ops2))
    (He : current_epoch (bft_run vid1 st1 ops1) = current_epoch (bft_run vid2 st2 ops2))
    (Hr : current_round (bft_run vid1 st1 ops1) = current_round (bft_run vid2 st2 ops2))
    (Hok : round_ok (bft_run vid1 st1 ops1)) (Hpos : (0 < total_stake (bft_run vid1 st1 ops1))%Z)
    (Hpe : cp_epoch p = current_epoch (bft_run vid1 st1 ops1))
    (Hpr : cp_round p = current_round (bft_run vid1 st1 ops1))
    (Hpid : cp_proposer_id p = bft_validator_id (bft_run vid1 st1 ops1)) :
  (receive_proposal (bft_run vid2 st2 ops2) p).2 = Ok (true, "valid") <->
  am_i_proposer (bft_run vid1 st1 ops1) = Ok true.
Proof.
  pose proof (bft_run_inv vid1 st1 ops1 Hst1 Hops1) as Hi1.
  pose proof (bft_run_inv vid2 st2 ops2 Hst2 Hops2) as Hi2.
  set (s1 := bft_run vid1 st1 ops1) in *. set (s2 := bft_run vid2 st2 ops2) in *.
  assert (Ht2 : total_stake s2 = total_stake s1).
  { destruct (bi_stakes _ Hi1) as [-> _], (bi_stakes _ Hi2) as [-> _]. by rewrite Hv. }
  destruct (expected_proposer_ok s1) as (v & who & Ev & _ & Hp & _ & Ham); [by apply bi_stakes|done..|].
  destruct (expected_proposer_ok s2) as (v2 & who2 & Ev2 & Hexp & Hp2 & _ & _).
  { by apply bi_stakes. } { unfold round_ok in *. by rewrite <- He, <- Hr. } { by rewrite Ht2. }
  assert (who2 = who) as ->.
  { unfold selection_value in Ev, Ev2. rewrite He, Hr, Ev2 in Ev. injection Ev as ->.
    rewrite Ht2, <- Hv, Hp in Hp2. by injection Hp2. }
  rewrite Ham. unfold receive_proposal.
  rewrite (proj2 (Z.eqb_eq (cp_epoch p) (current_epoch s2))) by congruence.
  rewrite (proj2 (Z.eqb_eq (cp_round p) (current_round s2))) by congruence. simpl.
  rewrite Hpid, <- Hv, (bool_decide_true (is_Some _)) by (by apply bi_self). simpl.
  rewrite Hexp. destruct (decide (bft_validator_id s1 = who)) as [<-|Hne].
  - rewrite bool_decide_true by done. simpl. unfold proposal_hash. destruct Hok as [Hoe Hor].
    rewrite Hpe, Hpr, !py_concat_cons, !concat_arg_int by done. simpl. done.
  - rewrite bool_decide_false by done. simpl. split; [done|].
    rewrite bool_decide_false by congruence. done.
Qed.

(** Selection is proportional to stake: over the targets from 0 to the total stake, each
    validator is selected by exactly as many targets as its stake, and every target selects a
    registered validator. *)
Theorem proposer_proportional (vs : gmap bytes Z) (vid : bytes)
    (Hvs : map_Forall (fun _ st => 0 <= st)%Z vs) :
  length (List.filter (selected (sorted_items vs) 0 vid) (seq 0 (Z.to_nat (stake_sum vs)))) =
    Z.to_nat (lookup_default 0%Z vs vid) /\
  forall target, (0 <= target < stake_sum vs)%Z ->
    exists v, pick_validator target 0 (sorted_items vs) = Some v /\ is_Some (vs !! v).
Proof.
  split.
  - rewrite <- sorted_items_stake. change 0%Z with (Z.of_nat 0) at 1.
    rewrite pick_validator_count, sum_key_lookup; [done| |apply sorted_items_NoDup].
    by apply sorted_items_nonneg.
  - intros target Ht.
    destruct (pick_validator_total (sorted_items vs) target 0) as (v & Hp & Hin).
    + by apply sorted_items_nonneg.
    + rewrite sorted_items_stake. lia.
    + exists v. split; [done|]. by apply sorted_items_keys.
Qed.

End ConsensusProperties.

(** ** Concrete runs *)

Section Demo.
#[local] Existing Instance toy_hashlib.

(** The double 1.0, as a clock reading. *)
Definition one_second : float64 := S754_finite false 4503599627370496 (-52).

Definition vote_for (voter h : bytes) (ty : string) : ConsensusVote :=
  mkConsensusVote voter 1 0 h ty 999999 0 [].

(** Validators [a] (the node), [b], [c] with stakes 40, 30, 30. *)
Definition demo_setup : list bft_op :=
  [BRegister (b: "b") 30; BRegister (b: "c") 30; BStartRound 1 0].

(** The node commits to both [h1] and [h2], [b] to [h1] and [c] to [h2] (and then in vain to
    [h1]). *)
Definition demo_double : list bft_op :=
  demo_setup ++
  [BCreatePreVote (b: "h1") one_second; BReceivePreVote (vote_for (b: "b") (b: "h1") "pre-vote");
   BCreatePreCommit (b: "h1") one_second;
   BReceivePreCommit (vote_for (b: "b") (b: "h1") "pre-commit");
   BCreatePreVote (b: "h2") one_second; BReceivePreVote (vote_for (b: "c") (b: "h2") "pre-vote");
   BCreatePreCommit (b: "h2") one_second;
   BReceivePreCommit (vote_for (b: "c") (b: "h2") "pre-commit");
   BReceivePreCommit (vote_for (b: "c") (b: "h1") "pre-commit")].

Lemma demo_double_ok : Forall bft_op_ok demo_double.
Proof. repeat constructor; simpl; lia. Qed.

Definition ratio_of (r : res (bool * float64)) : float64 :=
  match r with Ok (_, x) => x | Err _ => S754_nan end.

Lemma quorum_intersection_witness :
  let s := bft_run (b: "a") 40 demo_double in
  (check_pre_commit_threshold s (b: "h1") =
     Ok (true, ratio_of (check_pre_commit_threshold s (b: "h1")))) /\
  (34 * total_stake s <= 100 * stake_of s (b: "a"))%Z.
Proof.
  intros s. split; [by vm_compute|].
  destruct (quorum_intersection (b: "a") 40 demo_double (b: "h1") (b: "h2")
              (ratio_of (check_pre_commit_threshold s (b: "h1")))
              (ratio_of (check_pre_commit_threshold s (b: "h2")))) as [Hq _].
  - lia.
  - apply demo_double_ok.
  - by vm_compute.
  - done.
  - by vm_compute.
  - by vm_compute.
  - exact Hq.
Defined.

Lemma pre_commit_threshold_exact_witness :
  (exists ratio, check_pre_commit_threshold (bft_run (b: "a") 40 demo_double) (b: "h1") =
     Ok (true, ratio)).
Proof.
  destruct (pre_commit_threshold_exact (b: "a") 40 demo_double (b: "h1")) as [ratio E].
  - lia.
  - apply demo_double_ok.
  - by vm_compute.
  - exists ratio. rewrite E. by vm_compute.
Defined.

(** A lone validator proposes, votes and finalizes. *)
Definition demo_proposal : ConsensusProposal :=
  mkConsensusProposal (b: "a") 1 0 (sha3_256 (b: "empty")) ∅ (b: "txs") [] (PInt 1000) [].

Definition demo_hash : bytes :=
  match proposal_hash demo_proposal with Ok h => h | Err _ => [] end.

Definition demo_alone : list bft_op :=
  [BStartRound 1 0; BCreateProposal [] ∅ (b: "txs") [] one_second;
   BCreatePreVote demo_hash one_second; BCreatePreCommit demo_hash one_second].

Lemma finalized_block_sound_witness :
  exists s' b, try_finalize (bft_run (b: "a") 40 demo_alone) demo_hash one_second = (s', Ok (Some b)) /\
    cb_supporting_stake b = 40%Z.
Proof.
  assert (Hb : match (try_finalize (bft_run (b: "a") 40 demo_alone) demo_hash one_second).2 with
               | Ok (Some _) => true | _ => false end = true) by (by vm_compute).
  destruct (try_finalize _ _ _) as [s' r] eqn:E. destruct r as [[blk|]|]; try discriminate Hb.
  exists s', blk. split; [reflexivity|].
  destruct (finalized_block_sound (b: "a") 40 demo_alone demo_hash one_second s' blk)
    as (_ & _ & _ & _ & _ & _ & Hs & _).
  - lia.
  - repeat constructor.
  - by vm_compute.
  - exact E.
  - rewrite Hs. by vm_compute.
Defined.

Lemma proposer_agreement_witness :
  (receive_proposal (bft_run (b: "c") 30 [BRegister (b: "a") 40; BStartRound 1 0]) demo_proposal).2
    = Ok (true, "valid") <->
  am_i_proposer (bft_run (b: "a") 40 [BRegister (b: "c") 30; BStartRound 1 0]) = Ok true.
Proof.
  apply (proposer_agreement (b: "a") (b: "c") 40 30 [BRegister (b: "c") 30; BStartRound 1 0]
           [BRegister (b: "a") 40; BStartRound 1 0] demo_proposal).
  - lia.
  - lia.
  - repeat constructor; simpl; lia.
  - repeat constructor; simpl; lia.
  - refine (bool_decide_unpack _ _). vm_compute. exact I.
  - reflexivity.
  - reflexivity.
  - split; simpl; lia.
  - vm_compute. reflexivity.
  - reflexivity.
  - reflexivity.
  - reflexivity.
Defined.

Lemma proposer_proportional_witness :
  length (List.filter (selected (sorted_items {[b: "a" := 2%Z; b: "c" := 3%Z]}) 0 (b: "c")) (seq 0 5)) = 3.
Proof.
  destruct (proposer_proportional {[b: "a" := 2%Z; b: "c" := 3%Z]} (b: "c")) as [E _].
  - apply map_Forall_insert_2; [lia|]. apply map_Forall_singleton. lia.
  - exact E.
Defined.

End Demo.
