(* ===== verification/Agreement.v ===== *)
(** * Agreement between nodes

    [Consensus.v] is one node's view.  Here many nodes run [src/src/consensus.py], in any
    interleaving, and exchange votes over a network that may lose, delay, repeat and forge
    messages.  A node's validators stay the same and its epochs increase; a pre-commit counted
    for one of the nodes was made by it, which the program itself does not check (votes carry no
    signature, see [NodeMessages.forged_votes_finalize]).  Everything else is arbitrary: the
    proposals, the pre-votes, and the pre-commits of validators that are not among the nodes.
    Main results: then conflicting blocks of one epoch need 34% of the stake outside the nodes,
    or in one of them ([nodes_agree]); with exactly 34% outside they can happen
    ([disagreement_at_34]). *)

From stdpp Require Import prelude list gmap strings.
From Stdlib Require Import Strings.Byte ZArith Lia SpecFloat.
From S2P Require Import Prelude.
From S2P Require Import PyFloat.
From S2P Require Import Crypto.
From S2P Require Import Consensus.

Set Default Goal Selector "!".

Section Agreement.
Context `{Hashlib}.

(** ** Nodes and messages *)

(** The nodes by their identity and the pre-commits that they have made. *)
Record System := mkSystem {
  nodes : gmap bytes BFTConsensus;
  sent : list ConsensusVote;
}.

(** The pre-commit that a call hands to its caller. *)
Definition emitted (s : BFTConsensus) (op : bft_op) : list ConsensusVote :=
  match op with
  | BCreatePreCommit h now =>
      match (create_pre_commit s h now).2 with Ok (Some vote) => [vote] | _ => [] end
  | _ => []
  end.

(** The vote was made by its voter, or its voter is not one of the nodes.  Stake, time and
    signature of the message are anything. *)
Definition authentic (w : System) (v : ConsensusVote) : Prop :=
  cv_voter_id v ∉ dom (nodes w) \/
  exists v', v' ∈ sent w /\ cv_voter_id v' = cv_voter_id v /\ cv_epoch v' = cv_epoch v /\
    cv_proposal_hash v' = cv_proposal_hash v.

(** The first round of a node may be of any epoch, every later one is of a later epoch. *)
Definition allowed (w : System) (s : BFTConsensus) (op : bft_op) : Prop :=
  match op with
  | BRegister _ _ => False
  | BStartRound epoch _ => phase s = IDLE \/ (current_epoch s < epoch)%Z
  | BReceivePreCommit v => authentic w v
  | _ => True
  end.

(** Any node makes any allowed call. *)
Inductive step (w : System) : System -> Prop :=
  | step_call n s op : nodes w !! n = Some s -> allowed w s op ->
      step w (mkSystem (<[n := bft_step s op]> (nodes w)) (sent w ++ emitted s op)).

(** Every node knows the same validators, itself among them, and has registered nothing else. *)
Definition initial (stakes : gmap bytes Z) (w : System) : Prop :=
  sent w = [] /\ forall n s, nodes w !! n = Some s ->
    exists stake registrations, s = bft_run n stake registrations /\ (0 <= stake)%Z /\
      Forall (fun op => match op with BRegister _ st => (0 <= st)%Z | _ => False end) registrations /\
      validators s = stakes.

Definition reachable (stakes : gmap bytes Z) (w : System) : Prop :=
  exists w0, initial stakes w0 /\ rtc step w0 w.

(** ** What a call changes *)

Lemma step_votes s op h :
  (forall e r, op <> BStartRound e r) ->
  voters (lookup_default [] (pre_votes s) h) ⊆ voters (lookup_default [] (pre_votes (bft_step s op)) h).
Proof.
  assert (Happ : forall votes h0 v, voters (lookup_default [] votes h) ⊆ voters (lookup_default [] (append_vote votes h0 v) h)).
  { intros votes h0 v. unfold append_vote. destruct (decide (h0 = h)) as [->|Hne].
    - rewrite lookup_default_insert_eq. unfold voters. rewrite map_app, list_to_set_app. set_solver.
    - by rewrite lookup_default_insert_ne. }
  intros Hop. destruct op; simpl; try done; try (by destruct (Hop epoch round));
    unfold create_proposal, receive_proposal, create_pre_vote, receive_pre_vote, create_pre_commit,
      receive_pre_commit, try_finalize; repeat case_match; try done; apply Happ.
Qed.

Lemma step_validators s op :
  match op with BRegister _ _ => False | _ => True end ->
  validators (bft_step s op) = validators s /\ total_stake (bft_step s op) = total_stake s.
Proof.
  destruct op; simpl; try done; intros _;
    unfold create_proposal, receive_proposal, create_pre_vote, receive_pre_vote, create_pre_commit,
      receive_pre_commit, try_finalize; repeat case_match; done.
Qed.

Lemma append_vote_elem votes h v h' w :
  w ∈ lookup_default [] (append_vote votes h v) h' -> w ∈ lookup_default [] votes h' \/ (h' = h /\ w = v).
Proof.
  unfold append_vote. destruct (decide (h = h')) as [<-|Hne].
  - rewrite lookup_default_insert_eq, elem_of_app, list_elem_of_singleton. tauto.
  - rewrite lookup_default_insert_ne by done. by left.
Qed.

(** A new pre-commit in the table is the node's own, just made, or was received. *)
Lemma step_commits s op h w :
  (forall e r, op <> BStartRound e r) ->
  w ∈ lookup_default [] (pre_commits (bft_step s op)) h ->
  w ∈ lookup_default [] (pre_commits s) h \/
  cv_proposal_hash w = h /\ cv_epoch w = current_epoch s /\
    (w ∈ emitted s op \/ exists v st, op = BReceivePreCommit v /\ w = with_stake v st).
Proof.
  intros Hop. destruct op; cbn [bft_step]; try (by left); try (by destruct (Hop epoch round)).
  1-4,7: unfold create_proposal, receive_proposal, create_pre_vote, receive_pre_vote, try_finalize; repeat case_match; by left.
  - cbn [emitted]. unfold create_pre_commit. destruct (check_pre_vote_threshold s h0) as [[[] r]|]; [|by left..].
    destruct (to_ms now) as [ts|]; [|by left]. cbn [fst snd negb set_phase set_pre_commits pre_commits].
    intros [?|[-> ->]]%append_vote_elem; [by left|right]. split; [done|]. split; [done|]. left. by left.
  - unfold receive_pre_commit. destruct (Z.eqb_spec (cv_epoch vote) (current_epoch s)) as [He|]; [|by left].
    cbn [negb]. case_match; [by left|]. destruct (validators s !! _) as [st|]; [|by left].
    case_match; [by left|]. cbn [fst set_pre_commits pre_commits].
    intros [?|[-> ->]]%append_vote_elem; [by left|right]. split; [done|]. split; [done|]. right. by exists vote, st.
Qed.

Lemma step_finalized s op e b :
  finalized_blocks (bft_step s op) !! e = Some b ->
  finalized_blocks s !! e = Some b \/
  exists h now s', op = BTryFinalize h now /\ try_finalize s h now = (s', Ok (Some b)) /\ e = current_epoch s.
Proof.
  destruct op; cbn [bft_step]; try (by left).
  1-6: unfold create_proposal, receive_proposal, create_pre_vote, receive_pre_vote, create_pre_commit,
      receive_pre_commit; repeat case_match; by left.
  destruct (try_finalize s h now) as [s' r] eqn:E. pose proof E as E'. unfold try_finalize in E'.
  destruct (check_pre_commit_threshold s h) as [[[] ?]|]; try (injection E' as <- <-; by left).
  cbn [negb] in E'. destruct (received_proposals s !! h); [|injection E' as <- <-; by left].
  destruct (new_block _ _ _ _ _ _ _) as [b'|]; [|injection E' as <- <-; by left].
  injection E' as <- <-. cbn [fst set_phase set_finalized finalized_blocks].
  intros [[<- <-]|[_ ?]]%lookup_insert_Some; [|by left]. right. by eexists h, now, _.
Qed.

Lemma emitted_inv s op v :
  v ∈ emitted s op -> cv_voter_id v = bft_validator_id s /\ cv_epoch v = current_epoch s /\
    exists r, check_pre_vote_threshold s (cv_proposal_hash v) = Ok (true, r).
Proof.
  destruct op; cbn [emitted]; try (by intros ?%elem_of_nil). unfold create_pre_commit.
  destruct (check_pre_vote_threshold s h) as [[[] r]|] eqn:Ec; try (by intros ?%elem_of_nil). cbn [negb].
  destruct (to_ms now); [|by intros ?%elem_of_nil]. cbn [snd]. intros ->%list_elem_of_singleton.
  split; [done|]. split; [done|]. by exists r.
Qed.

Lemma idle_step s op : phase (bft_step s op) = IDLE -> phase s = IDLE /\ emitted s op = [].
Proof.
  destruct op; cbn [bft_step emitted]; try done; unfold create_proposal, receive_proposal, create_pre_vote,
    receive_pre_vote, create_pre_commit, receive_pre_commit, try_finalize; repeat case_match; simplify_eq; done.
Qed.

(** ** The invariant *)

Section Invariant.
Context (stakes : gmap bytes Z).

Definition stake (v : bytes) : Z := lookup_default 0%Z stakes v.

(** At least 67% of the stake. *)
Definition quorum (vs : gset bytes) : Prop := (67 * stake_sum stakes <= 100 * set_sum stake vs)%Z.

(** The voter is not one of the nodes, or pre-committed to [h] in epoch [e]. *)
Definition backed (w : System) (e : Z) (h voter : bytes) : Prop :=
  voter ∉ dom (nodes w) \/
  exists v, v ∈ sent w /\ cv_voter_id v = voter /\ cv_epoch v = e /\ cv_proposal_hash v = h.

Record node_inv (w : System) (n : bytes) (s : BFTConsensus) : Prop := {
  ni_id : bft_validator_id s = n;
  ni_bft : bft_inv s;
  ni_validators : validators s = stakes;
  ni_commits h v : v ∈ lookup_default [] (pre_commits s) h -> backed w (current_epoch s) h (cv_voter_id v);
  ni_sent v : v ∈ sent w -> cv_voter_id v = n -> (cv_epoch v <= current_epoch s)%Z /\
    (cv_epoch v = current_epoch s -> quorum (voters (lookup_default [] (pre_votes s) (cv_proposal_hash v))));
  ni_idle v : v ∈ sent w -> cv_voter_id v = n -> phase s <> IDLE;
  ni_final e b : finalized_blocks s !! e = Some b ->
    exists h vs, proposal_hash (cb_proposal b) = Ok h /\ quorum vs /\ forall v, v ∈ vs -> backed w e h v;
}.

(** A node makes one pre-commit per epoch, though it may make it again and again. *)
Record system_inv (w : System) : Prop := {
  si_nodes n s : nodes w !! n = Some s -> node_inv w n s;
  si_once v v' : v ∈ sent w -> v' ∈ sent w -> cv_voter_id v = cv_voter_id v' -> cv_epoch v = cv_epoch v' ->
    cv_proposal_hash v = cv_proposal_hash v';
  si_sender v : v ∈ sent w -> cv_voter_id v ∈ dom (nodes w);
}.

(** No node holds 34% of the stake. *)
Definition dispersed (w : System) : Prop :=
  forall n, n ∈ dom (nodes w) -> (100 * stake n < 34 * stake_sum stakes)%Z.

Lemma stake_of_stake s : validators s = stakes -> stake_of s = stake.
Proof. unfold stake_of, stake. by intros ->. Qed.

Lemma node_total w n s : node_inv w n s -> total_stake s = stake_sum stakes.
Proof. intros Hn. destruct (bi_stakes s (ni_bft _ _ _ Hn)) as [-> _]. by rewrite (ni_validators _ _ _ Hn). Qed.

Lemma threshold_quorum w n s votes r :
  node_inv w n s -> (stake_sum stakes < 2 ^ 49)%Z -> check_threshold s votes = Ok (true, r) -> quorum (voters votes).
Proof.
  intros Hn Ht Hc. pose proof (node_total _ _ _ Hn) as E.
  apply check_threshold_true in Hc as [_ Hc]; [|apply bi_stakes, Hn|lia].
  rewrite (stake_of_stake _ (ni_validators _ _ _ Hn)), E in Hc. exact Hc.
Qed.

(** What a node has pre-voted with a quorum in its round is unique. *)
Lemma one_quorum w n s h1 h2 :
  node_inv w n s -> dispersed w -> nodes w !! n = Some s ->
  quorum (voters (lookup_default [] (pre_votes s) h1)) -> quorum (voters (lookup_default [] (pre_votes s) h2)) -> h1 = h2.
Proof.
  intros Hn Hd En H1 H2. destruct (decide (h1 = h2)) as [|Hne]; [done|]. exfalso.
  pose proof (bi_stakes _ (ni_bft _ _ _ Hn)) as Hs. pose proof (stake_of_stake _ (ni_validators _ _ _ Hn)) as Est.
  pose proof (quorums_overlap s (voters (lookup_default [] (pre_votes s) h1)) (voters (lookup_default [] (pre_votes s) h2)) Hs) as Ho.
  pose proof (set_sum_mono (stake_of s) _ _ (fun v => stake_of_nonneg s v Hs)
    (recorded_intersect s _ _ h1 h2 (bi_pre_votes _ (ni_bft _ _ _ Hn)) Hne)) as Hm.
  rewrite set_sum_singleton in Hm. rewrite Est, (node_total _ _ _ Hn) in *. rewrite (ni_id _ _ _ Hn) in Hm.
  unfold quorum in *. specialize (Ho H1 H2). specialize (Hd n ltac:(apply elem_of_dom; by rewrite En)). lia.
Qed.

Lemma backed_grow w w' e h v :
  dom (nodes w') = dom (nodes w) -> (forall x, x ∈ sent w -> x ∈ sent w') -> backed w e h v -> backed w' e h v.
Proof. intros Hd Hs [Hv|(x & Hx & Hr)]; [left; by rewrite Hd|right; exists x; split; [by apply Hs|done]]. Qed.

(** The other nodes see only that more was sent, and not by them. *)
Lemma node_inv_grow w w' n s :
  dom (nodes w') = dom (nodes w) -> (forall x, x ∈ sent w -> x ∈ sent w') ->
  (forall x, x ∈ sent w' -> cv_voter_id x = n -> x ∈ sent w) -> node_inv w n s -> node_inv w' n s.
Proof.
  intros Hd Hs Hn []. constructor; try done.
  - intros h v Hv. by apply (backed_grow w); [..|apply ni_commits0].
  - intros v Hv E. by apply ni_sent0; [apply Hn|].
  - intros v Hv E. by apply (ni_idle0 v); [apply Hn|].
  - intros e b Hb. destruct (ni_final0 e b Hb) as (h & vs & Hh & Hq & Hv). exists h, vs. split; [done|]. split; [done|].
    intros v Hin. by apply (backed_grow w); [..|apply Hv].
Qed.

(** ** Every call keeps it *)

Definition after (w : System) (n : bytes) (s : BFTConsensus) (op : bft_op) : System :=
  mkSystem (<[n := bft_step s op]> (nodes w)) (sent w ++ emitted s op).

Lemma after_dom w n s op : nodes w !! n = Some s -> dom (nodes (after w n s op)) = dom (nodes w).
Proof. intros En. cbn [after nodes]. apply dom_insert_lookup_L. by rewrite En. Qed.

Lemma after_sent w n s op v : v ∈ sent w -> v ∈ sent (after w n s op).
Proof. intros Hv. cbn [after sent]. apply elem_of_app. by left. Qed.

Lemma start_round_inv w n s e r :
  nodes w !! n = Some s -> node_inv w n s -> phase s = IDLE \/ (current_epoch s < e)%Z ->
  node_inv (after w n s (BStartRound e r)) n (start_round s e r).
Proof.
  intros En [] He. apply (node_inv_grow w); [by apply after_dom|by apply after_sent| |].
  { intros x Hx _. cbn [after sent emitted] in Hx. by rewrite app_nil_r in Hx. }
  constructor; try done.
  - by apply (bft_step_inv s (BStartRound e r)).
  - intros h v Hv. cbn [start_round pre_commits] in Hv. unfold lookup_default in Hv. rewrite lookup_empty in Hv.
    by apply elem_of_nil in Hv.
  - intros v Hv E. destruct (ni_sent0 v Hv E) as [Hle _], He as [He|He]; [by destruct (ni_idle0 v Hv E)|].
    cbn [start_round current_epoch]. split; lia.
Qed.

Lemma call_inv w n s op :
  nodes w !! n = Some s -> node_inv w n s -> (stake_sum stakes < 2 ^ 49)%Z -> allowed w s op ->
  (forall e r, op <> BStartRound e r) -> node_inv (after w n s op) n (bft_step s op).
Proof.
  intros En Hn Ht Ha Hop. pose proof Hn as [].
  assert (Hround : round_op op) by (destruct op; try done; by destruct (Hop epoch round)).
  destruct (round_op_epoch s op Hround) as (Ee & _ & Ei).
  destruct (step_validators s op) as [Ev _]; [by destruct op|].
  pose proof (fun v => after_sent w n s op v) as Hsent. pose proof (after_dom w n s op En) as Hdom.
  constructor.
  - by rewrite Ei.
  - apply bft_step_inv; [done|]. by destruct op.
  - by rewrite Ev.
  - intros h v Hv. rewrite Ee. destruct (step_commits s op h v Hop Hv) as [Hv'|(Eh & Eepoch & [Hv'|(v' & st & -> & ->)])].
    + apply (backed_grow w); [done..|]. by apply ni_commits0.
    + right. exists v. split; [cbn [after sent]; apply elem_of_app; by right|done].
    + cbn [allowed] in Ha. cbn [with_stake cv_voter_id cv_epoch cv_proposal_hash] in *.
      destruct Ha as [Hout|(x & Hx & Ex & Eex & Ehx)]; [left; by rewrite Hdom|].
      right. exists x. split; [by apply Hsent|]. split; [done|]. split; congruence.
  - intros v Hv E. rewrite Ee. cbn [after sent] in Hv. apply elem_of_app in Hv as [Hv|Hv].
    + destruct (ni_sent0 v Hv E) as [Hle Hq]. split; [done|]. intros Eq. specialize (Hq Eq). unfold quorum in *.
      pose proof (set_sum_mono (stake_of s) _ _ (fun x => stake_of_nonneg s x (bi_stakes _ ni_bft0))
        (step_votes s op (cv_proposal_hash v) Hop)) as Hm.
      rewrite (stake_of_stake s) in Hm by done. lia.
    + destruct (emitted_inv s op v Hv) as (_ & -> & r & Hr). split; [lia|]. intros _.
      apply (threshold_quorum w n s _ r Hn Ht) in Hr. unfold quorum in *.
      pose proof (set_sum_mono (stake_of s) _ _ (fun x => stake_of_nonneg s x (bi_stakes _ ni_bft0))
        (step_votes s op (cv_proposal_hash v) Hop)) as Hm.
      rewrite (stake_of_stake s) in Hm by done. lia.
  - intros v Hv E Hidle. apply idle_step in Hidle as [Hidle Hno]. cbn [after sent] in Hv.
    rewrite Hno, app_nil_r in Hv. by apply (ni_idle0 v).
  - intros e b Hb. apply step_finalized in Hb as [Hb|(h & now & s' & -> & Ef & ->)].
    + destruct (ni_final0 e b Hb) as (h & vs & Hh & Hq & Hv). exists h, vs. split; [done|]. split; [done|].
      intros v Hin. by apply (backed_grow w); [..|apply Hv].
    + pose proof (node_total _ _ _ Hn) as Et.
      destruct (try_finalize_sound s h now s' b ni_bft0) as (Hh & _ & _ & _ & _ & Etot & Esup & _ & Hq & _); [lia|done|].
      rewrite Etot, Esup, Et, (stake_of_stake s) in Hq by done.
      exists h, (voters (lookup_default [] (pre_commits s) h)). split; [done|]. split; [exact Hq|].
      intros v (x & Hx & <-)%voters_elem. apply (backed_grow w); [done..|]. by apply ni_commits0.
Qed.

Lemma step_inv w w' :
  (stake_sum stakes < 2 ^ 49)%Z -> dispersed w -> step w w' -> system_inv w -> system_inv w' /\ dispersed w'.
Proof.
  intros Ht Hd [n s op En Ha] [Hnodes Honce Hsender]. fold (after w n s op).
  pose proof (Hnodes n s En) as Hn. pose proof (after_dom w n s op En) as Hdom.
  assert (Hact : node_inv (after w n s op) n (bft_step s op)).
  { destruct op as [| e r | | | | | | |]; try by apply call_inv. by apply start_round_inv. }
  assert (Hnew : forall v, v ∈ sent (after w n s op) -> v ∈ sent w \/ v ∈ emitted s op) by (intros v; apply elem_of_app).
  assert (Hown : forall v, v ∈ emitted s op -> cv_voter_id v = n).
  { intros v Hv. destruct (emitted_inv s op v Hv) as (-> & _). apply (ni_id _ _ _ Hn). }
  split; [|unfold dispersed; by rewrite Hdom]. constructor.
  - intros n' s'. cbn [after nodes]. intros [[<- <-]|[Hne Es]]%lookup_insert_Some; [done|].
    apply (node_inv_grow w); [done|intros; by apply after_sent| |by apply Hnodes].
    intros x [Hx|Hx]%Hnew E; [done|]. apply Hown in Hx. congruence.
  - assert (Hold : forall v v', v ∈ sent w -> v' ∈ emitted s op -> cv_voter_id v = cv_voter_id v' ->
      cv_epoch v = cv_epoch v' -> cv_proposal_hash v = cv_proposal_hash v').
    { intros v v' Hv Hv' Eid Eep. pose proof (Hown v' Hv') as Eo. destruct (emitted_inv s op v' Hv') as (_ & Ee & r & Hr).
      destruct (ni_sent _ _ _ Hn v Hv (eq_trans Eid Eo)) as [_ Hq].
      apply (one_quorum w n s); [done..|apply Hq; by rewrite Eep|]. by apply (threshold_quorum w n s _ r). }
    assert (Hboth : forall v v', v ∈ emitted s op -> v' ∈ emitted s op -> v = v').
    { intros v v'. destruct op; cbn [emitted]; try (by intros ?%elem_of_nil).
      destruct (create_pre_commit s h now).2 as [[x|]|]; try (by intros ?%elem_of_nil).
      by intros ->%list_elem_of_singleton ->%list_elem_of_singleton. }
    intros v v' [Hv|Hv]%Hnew [Hv'|Hv']%Hnew Eid Eep.
    + by apply Honce.
    + by apply Hold.
    + symmetry. by apply Hold.
    + by rewrite (Hboth v v').
  - intros v [Hv|Hv]%Hnew; rewrite Hdom; [by apply Hsender|]. rewrite (Hown v Hv). apply elem_of_dom. by rewrite En.
Qed.

End Invariant.

Lemma registrations_new n st registrations :
  Forall (fun op => match op with BRegister _ st => (0 <= st)%Z | _ => False end) registrations ->
  let s := bft_run n st registrations in
  bft_validator_id s = n /\ pre_commits s = ∅ /\ finalized_blocks s = ∅ /\ Forall bft_op_ok registrations.
Proof.
  intros Hr. unfold bft_run.
  assert (Hgen : forall s0, bft_validator_id (foldl bft_step s0 registrations) = bft_validator_id s0 /\
    pre_commits (foldl bft_step s0 registrations) = pre_commits s0 /\
    finalized_blocks (foldl bft_step s0 registrations) = finalized_blocks s0).
  { induction Hr as [|[] l Hop Hr IH]; intros s0; try done. by destruct (IH (bft_step s0 (BRegister validator_id stake0))). }
  destruct (Hgen (bft_new n st)) as (E1 & E2 & E3). split; [done|]. split; [done|]. split; [done|].
  eapply Forall_impl; [exact Hr|]. by intros [].
Qed.

Lemma initial_inv stakes w : initial stakes w -> system_inv stakes w.
Proof.
  intros [Hs Hn]. constructor; [|intros v v'; rewrite Hs; by intros ?%elem_of_nil|intros v; rewrite Hs; by intros ?%elem_of_nil].
  intros n s (st & l & -> & Hst & Hl & Hv)%Hn. destruct (registrations_new n st l Hl) as (E1 & E2 & E3 & Hok).
  constructor; try done.
  - by apply bft_run_inv.
  - intros h v. rewrite E2. unfold lookup_default. rewrite lookup_empty. by intros ?%elem_of_nil.
  - intros v. rewrite Hs. by intros ?%elem_of_nil.
  - intros v. rewrite Hs. by intros ?%elem_of_nil.
  - intros e b. by rewrite E3, lookup_empty.
Qed.

Lemma steps_inv stakes w w' :
  (stake_sum stakes < 2 ^ 49)%Z -> rtc step w w' -> dispersed stakes w' -> system_inv stakes w -> system_inv stakes w'.
Proof.
  intros Ht Hs Hd Hi. assert (Hdom : dom (nodes w) = dom (nodes w')).
  { clear Hd Hi. induction Hs as [|w1 w2 w3 [n s op En _] _ IH]; [done|]. rewrite <- IH. symmetry. by apply (after_dom w1 n s op). }
  assert (Hd' : dispersed stakes w) by (unfold dispersed in *; by rewrite Hdom). clear Hd Hdom.
  induction Hs as [|w1 w2 w3 Hstep _ IH]; [done|]. destruct (step_inv stakes w1 w2) as [Hi2 Hd2]; [done..|]. by apply IH.
Qed.

(** Below 34% there is one proposal per epoch. *)
Lemma finalized_agree stakes w n1 n2 s1 s2 e b1 b2 :
  system_inv stakes w ->
  (100 * set_sum (stake stakes) (dom stakes ∖ dom (nodes w)) < 34 * stake_sum stakes)%Z ->
  nodes w !! n1 = Some s1 -> nodes w !! n2 = Some s2 ->
  finalized_blocks s1 !! e = Some b1 -> finalized_blocks s2 !! e = Some b2 ->
  exists h, proposal_hash (cb_proposal b1) = Ok h /\ proposal_hash (cb_proposal b2) = Ok h.
Proof.
  intros Hi Hout Hn1 Hn2 Hb1 Hb2.
  pose proof (si_nodes _ _ Hi n1 s1 Hn1) as Hs1. pose proof (si_nodes _ _ Hi n2 s2 Hn2) as Hs2.
  destruct (ni_final _ _ _ _ Hs1 e b1 Hb1) as (h1 & v1 & -> & Hq1 & Hv1).
  destruct (ni_final _ _ _ _ Hs2 e b2 Hb2) as (h2 & v2 & -> & Hq2 & Hv2).
  destruct (decide (h1 = h2)) as [->|Hne]; [by exists h2|]. exfalso.
  assert (Hx : (v1 ∩ v2) ∩ dom stakes ⊆ dom stakes ∖ dom (nodes w)).
  { intros x [[Hx1 Hx2]%elem_of_intersection Hd]%elem_of_intersection. apply elem_of_difference. split; [done|].
    intros Hin. destruct (Hv1 x Hx1) as [?|(u1 & Hu1 & E1 & Ee1 & Eh1)]; [done|].
    destruct (Hv2 x Hx2) as [?|(u2 & Hu2 & E2 & Ee2 & Eh2)]; [done|].
    apply Hne. rewrite <- Eh1, <- Eh2. apply (si_once _ _ Hi); congruence. }
  pose proof (bi_stakes _ (ni_bft _ _ _ _ Hs1)) as Hst.
  pose proof (quorums_overlap s1 v1 v2 Hst) as Ho. rewrite (set_stake_registered s1 (v1 ∩ v2)) in Ho.
  pose proof (set_sum_mono (stake_of s1) _ _ (fun x => stake_of_nonneg s1 x Hst) Hx) as Hm.
  rewrite (stake_of_stake stakes), (node_total _ _ _ _ Hs1), (ni_validators _ _ _ _ Hs1) in * by apply Hs1.
  unfold quorum in *. lia.
Qed.

Lemma reachable_inv stakes w :
  (stake_sum stakes < 2 ^ 49)%Z -> reachable stakes w -> dispersed stakes w -> system_inv stakes w.
Proof. intros Ht (w0 & H0 & Hs) Hd. exact (steps_inv _ _ _ Ht Hs Hd (initial_inv _ _ H0)). Qed.

(** C3. Nodes agree.  Let any number of nodes with the same registered stakes run the consensus
    through any calls in any order, each starting rounds of increasing epochs, and let every
    pre-commit that is counted for one of them be one that it made.  If no node holds 34% of
    the stake, and the validators that are not among the nodes do not together, then the blocks
    that two nodes finalize for one epoch have the same proposal hash, whatever proposals and
    pre-votes were forged and whatever the other validators pre-commit to. *)
Theorem nodes_agree (stakes : gmap bytes Z) (w : System) (n1 n2 : bytes) (s1 s2 : BFTConsensus)
    (e : Z) (b1 b2 : ConsensusBlock)
    (Htot : (stake_sum stakes < 2 ^ 49)%Z) (Hreach : reachable stakes w) (Hsmall : dispersed stakes w)
    (Hout : (100 * set_sum (stake stakes) (dom stakes ∖ dom (nodes w)) < 34 * stake_sum stakes)%Z)
    (Hn1 : nodes w !! n1 = Some s1) (Hn2 : nodes w !! n2 = Some s2)
    (Hb1 : finalized_blocks s1 !! e = Some b1) (Hb2 : finalized_blocks s2 !! e = Some b2) :
  proposal_hash (cb_proposal b1) = proposal_hash (cb_proposal b2).
Proof.
  pose proof (reachable_inv _ _ Htot Hreach Hsmall) as Hi.
  by destruct (finalized_agree stakes w n1 n2 s1 s2 e b1 b2 Hi Hout Hn1 Hn2 Hb1 Hb2) as (h & -> & ->).
Qed.

End Agreement.

(** ** Runs by evaluation *)

Section Runs.
Context `{Hashlib}.

Definition same_vote (v v' : ConsensusVote) : bool :=
  bool_decide (cv_voter_id v' = cv_voter_id v) && (cv_epoch v' =? cv_epoch v)%Z &&
  bool_decide (cv_proposal_hash v' = cv_proposal_hash v).

Definition allowed_b (w : System) (s : BFTConsensus) (op : bft_op) : bool :=
  match op with
  | BRegister _ _ => false
  | BStartRound epoch _ => match phase s with IDLE => true | _ => (current_epoch s <? epoch)%Z end
  | BReceivePreCommit v => bool_decide (cv_voter_id v ∉ dom (nodes w)) || existsb (same_vote v) (sent w)
  | _ => true
  end.

Fixpoint run_calls (w : System) (calls : list (bytes * bft_op)) : option System :=
  match calls with
  | [] => Some w
  | (n, op) :: calls =>
      s ← nodes w !! n;
      if allowed_b w s op
      then run_calls (mkSystem (<[n := bft_step s op]> (nodes w)) (sent w ++ emitted s op)) calls
      else None
  end.

Lemma allowed_b_sound w s op : allowed_b w s op = true -> allowed w s op.
Proof.
  destruct op; cbn [allowed_b allowed]; try done.
  { destruct (phase s); [by left|..]; intros ?%Z.ltb_lt; by right. }
  intros [Hd|(v & Hv & Hs)%existsb_exists]%orb_true_iff; [left; by apply bool_decide_eq_true in Hd|right].
  unfold same_vote in Hs. bool_to_prop. exists v. by split; [apply list_elem_of_In|].
Qed.

Lemma run_calls_steps w calls w' : run_calls w calls = Some w' -> rtc step w w'.
Proof.
  revert w. induction calls as [|[n op] calls IH]; intros w; cbn [run_calls]; [by intros [= ->]|].
  destruct (nodes w !! n) as [s|] eqn:En; [|done]. cbn [mbind option_bind].
  destruct (allowed_b w s op) eqn:Ea; [|done]. intros Hr. eapply rtc_l; [|by apply IH].
  apply step_call; [done|by apply allowed_b_sound].
Qed.

(** A node that registers the validators in the order of the list. *)
Definition start_node (stakes : list (bytes * Z)) (n : bytes) : BFTConsensus :=
  bft_run n 0 (map (fun x => BRegister x.1 x.2) stakes).

Definition start_nodes (stakes : list (bytes * Z)) (ids : list bytes) : System :=
  mkSystem (list_to_map (map (fun n => (n, start_node stakes n)) ids)) [].

Lemma start_nodes_initial stakes ids table :
  Forall (fun x => 0 <= x.2)%Z stakes -> Forall (fun n => validators (start_node stakes n) = table) ids ->
  initial table (start_nodes stakes ids).
Proof.
  intros Hpos Hids. split; [done|]. intros n s Hn. apply elem_of_list_to_map_2 in Hn.
  apply list_elem_of_fmap in Hn as (n' & [= -> ->] & Hin). rewrite Forall_forall in Hids.
  exists 0%Z, (map (fun x => BRegister x.1 x.2) stakes). split; [done|]. split; [done|].
  split; [by apply Forall_fmap|by apply Hids].
Qed.

Lemma run_reachable stakes ids table calls w :
  Forall (fun x => 0 <= x.2)%Z stakes -> Forall (fun n => validators (start_node stakes n) = table) ids ->
  run_calls (start_nodes stakes ids) calls = Some w -> reachable table w.
Proof.
  intros Hpos Hids Hr. exists (start_nodes stakes ids). split; [by apply start_nodes_initial|by eapply run_calls_steps].
Qed.

End Runs.

Section Samples.
#[local] Existing Instance toy_hashlib.

Definition sample_proposal (proposer root : bytes) : ConsensusProposal :=
  mkConsensusProposal proposer 4 0 root ∅ [] [] (PInt 5) [].

Definition hash_of (p : ConsensusProposal) : bytes := match proposal_hash p with Ok h => h | Err _ => [] end.

Definition vote_of (voter h : bytes) (ty : string) : ConsensusVote := mkConsensusVote voter 4 0 h ty 0 0 [].

(** Node [n] hears of [p], votes for it with [others], and later counts their pre-commits. *)
Definition vote_calls (p : ConsensusProposal) (others : list bytes) (n : bytes) : list (bytes * bft_op) :=
  map (pair n) ([BStartRound 4 0; BReceiveProposal p; BCreatePreVote (hash_of p) one_second] ++
    map (fun o => BReceivePreVote (vote_of o (hash_of p) "pre-vote")) others ++
    [BCreatePreCommit (hash_of p) one_second]).

Definition count_calls (p : ConsensusProposal) (others : list bytes) (n : bytes) : list (bytes * bft_op) :=
  map (pair n) (map (fun o => BReceivePreCommit (vote_of o (hash_of p) "pre-commit")) others ++
    [BTryFinalize (hash_of p) one_second]).

(** Whether [n] has finalized [p] in epoch 4. *)
Definition finalized_at (w : System) (n : bytes) (p : ConsensusProposal) : bool :=
  match nodes w !! n with
  | Some s => match finalized_blocks s !! 4%Z with
              | Some b => bool_decide (proposal_hash (cb_proposal b) = Ok (hash_of p))
              | None => false
              end
  | None => false
  end.

Lemma finalized_at_inv w n p :
  finalized_at w n p = true -> exists s b, nodes w !! n = Some s /\ finalized_blocks s !! 4%Z = Some b /\
    proposal_hash (cb_proposal b) = Ok (hash_of p).
Proof.
  unfold finalized_at. destruct (nodes w !! n) as [s|]; [|done].
  destruct (finalized_blocks s !! 4%Z) as [b|] eqn:Eb; [|done]. intros Hb%bool_decide_eq_true. by exists s, b.
Qed.

(** Nodes [a] and [b] with 33% each; [c] with 34% is not among them. *)
Definition close_stakes : list (bytes * Z) := [(b: "a", 33); (b: "b", 33); (b: "c", 34)]%Z.
Definition close_table : gmap bytes Z := list_to_map close_stakes.
Definition proposal_1 : ConsensusProposal := sample_proposal (b: "c") (b: "1").
Definition proposal_2 : ConsensusProposal := sample_proposal (b: "c") (b: "2").

Definition split_run : option System :=
  run_calls (start_nodes close_stakes [b: "a"; b: "b"])
    (vote_calls proposal_1 [b: "c"] (b: "a") ++ vote_calls proposal_2 [b: "c"] (b: "b") ++
     count_calls proposal_1 [b: "c"] (b: "a") ++ count_calls proposal_2 [b: "c"] (b: "b")).

Lemma close_start : Forall (fun n => validators (start_node close_stakes n) = close_table) [b: "a"; b: "b"].
Proof. apply (bool_decide_eq_true_1 _). vm_compute. reflexivity. Qed.

(** The bound cannot be improved.  With exactly 34% of the stake outside the nodes, and less than
    34% in each of them, two nodes can finalize different proposals for one epoch. *)
Theorem disagreement_at_34 :
  exists w s1 s2 b1 b2, reachable close_table w /\ dispersed close_table w /\
    (100 * set_sum (stake close_table) (dom close_table ∖ dom (nodes w)) = 34 * stake_sum close_table)%Z /\
    nodes w !! (b: "a") = Some s1 /\ nodes w !! (b: "b") = Some s2 /\
    finalized_blocks s1 !! 4%Z = Some b1 /\ finalized_blocks s2 !! 4%Z = Some b2 /\
    proposal_hash (cb_proposal b1) <> proposal_hash (cb_proposal b2).
Proof.
  assert (Hc : (fun w => (finalized_at w (b: "a") proposal_1, finalized_at w (b: "b") proposal_2,
    bool_decide (dom (nodes w) = ({[b: "a"; b: "b"]} : gset bytes)))) <$> split_run = Some (true, true, true)).
  { vm_compute. reflexivity. }
  destruct split_run as [w|] eqn:Ew; [|discriminate Hc]. injection Hc as H1 H2 Hd. apply bool_decide_eq_true in Hd.
  apply finalized_at_inv in H1 as (s1 & b1 & En1 & Eb1 & E1). apply finalized_at_inv in H2 as (s2 & b2 & En2 & Eb2 & E2).
  exists w, s1, s2, b1, b2. split.
  { eapply run_reachable; [|exact close_start|exact Ew]. by repeat constructor. }
  split. { intros n. rewrite Hd. intros [->%elem_of_singleton| ->%elem_of_singleton]%elem_of_union; vm_compute; reflexivity. }
  split. { rewrite Hd. vm_compute. reflexivity. }
  split; [done|]. split; [done|]. split; [done|]. split; [done|]. rewrite E1, E2. vm_compute. discriminate.
Qed.

(** Nodes [a], [b] and [c] with 25% each; [d], which is not among them, proposes twice and
    commits to both. *)
Definition even_stakes : list (bytes * Z) := [(b: "a", 25); (b: "b", 25); (b: "c", 25); (b: "d", 25)]%Z.
Definition even_table : gmap bytes Z := list_to_map even_stakes.
Definition proposal_3 : ConsensusProposal := sample_proposal (b: "d") (b: "3").
Definition proposal_4 : ConsensusProposal := sample_proposal (b: "d") (b: "4").

Definition agreed_run : option System :=
  run_calls (start_nodes even_stakes [b: "a"; b: "b"; b: "c"])
    (vote_calls proposal_3 [b: "b"; b: "c"] (b: "a") ++ vote_calls proposal_3 [b: "a"; b: "c"] (b: "b") ++
     vote_calls proposal_3 [b: "a"; b: "d"] (b: "c") ++ [(b: "b", BReceiveProposal proposal_4)] ++
     count_calls proposal_4 [b: "d"] (b: "b") ++
     count_calls proposal_3 [b: "b"; b: "c"] (b: "a") ++ count_calls proposal_3 [b: "a"; b: "c"] (b: "b")).

Lemma even_start :
  Forall (fun n => validators (start_node even_stakes n) = even_table) [b: "a"; b: "b"; b: "c"].
Proof. apply (bool_decide_eq_true_1 _). vm_compute. reflexivity. Qed.

Lemma even_dispersed w :
  dom (nodes w) = ({[b: "a"; b: "b"; b: "c"]} : gset bytes) -> dispersed even_table w /\
    (100 * set_sum (stake even_table) (dom even_table ∖ dom (nodes w)) < 34 * stake_sum even_table)%Z.
Proof.
  intros Hd. unfold dispersed. rewrite Hd. split; [|vm_compute; reflexivity].
  intros n Hn. assert (n = b: "a" \/ n = b: "b" \/ n = b: "c") as [->|[->| ->]] by set_solver; vm_compute; reflexivity.
Qed.

Lemma nodes_agree_witness :
  exists w s1 s2 b1 b2, agreed_run = Some w /\ nodes w !! (b: "a") = Some s1 /\ nodes w !! (b: "b") = Some s2 /\
    finalized_blocks s1 !! 4%Z = Some b1 /\ finalized_blocks s2 !! 4%Z = Some b2 /\
    proposal_hash (cb_proposal b1) = proposal_hash (cb_proposal b2).
Proof.
  assert (Hc : (fun w => (finalized_at w (b: "a") proposal_3, finalized_at w (b: "b") proposal_3,
    bool_decide (dom (nodes w) = ({[b: "a"; b: "b"; b: "c"]} : gset bytes)))) <$> agreed_run = Some (true, true, true)).
  { vm_compute. reflexivity. }
  destruct agreed_run as [w|] eqn:Ew; [|discriminate Hc]. injection Hc as H1 H2 Hd. apply bool_decide_eq_true in Hd.
  apply even_dispersed in Hd as [Hd Hout].
  apply finalized_at_inv in H1 as (s1 & b1 & En1 & Eb1 & _). apply finalized_at_inv in H2 as (s2 & b2 & En2 & Eb2 & _).
  exists w, s1, s2, b1, b2. do 5 (split; [done|]).
  apply (nodes_agree even_table w (b: "a") (b: "b") s1 s2 4 b1 b2); [vm_compute; reflexivity| |done..].
  eapply run_reachable; [|exact even_start|exact Ew]. by repeat constructor.
Defined.

End Samples.
