(* ===== verification/Slashing.v ===== *)
(** * Slashing proposals ([src/src/consensus.py], class [SlashingManager])

    Stake-weighted votes on evidence.  Main result ([slashing_executes_once]): the threshold is
    the exact 67% test, execution happens at most once per piece of evidence, and what was
    slashed stays slashed. *)

From stdpp Require Import prelude list gmap strings.
From Stdlib Require Import Strings.Byte ZArith Lia SpecFloat.
From S2P Require Import Prelude.
From S2P Require Import PyFloat.
From S2P Require Import Crypto.
From S2P Require Import Consensus.

Set Default Goal Selector "!".

(** ** Data *)

Record SlashingProposal := mkSlashingProposal {
  sp_target_id : bytes;
  sp_epoch : Z;
  sp_reason : string;
  sp_evidence_hash : bytes;
  sp_proposer_id : bytes;
  sp_supporting_stake : Z;
  sp_voters : gset bytes;
  sp_executed : bool;
}.

Record SlashingManager := mkSlashingManager {
  sm_proposals : gmap bytes SlashingProposal;
  slashed_validators : gset bytes;
}.

Definition slashing_new : SlashingManager := mkSlashingManager ∅ ∅.

Definition set_executed (p : SlashingProposal) : SlashingProposal :=
  mkSlashingProposal (sp_target_id p) (sp_epoch p) (sp_reason p) (sp_evidence_hash p)
    (sp_proposer_id p) (sp_supporting_stake p) (sp_voters p) true.

Definition add_vote (p : SlashingProposal) (voter_id : bytes) (voter_stake : Z)
    : SlashingProposal :=
  mkSlashingProposal (sp_target_id p) (sp_epoch p) (sp_reason p) (sp_evidence_hash p)
    (sp_proposer_id p) (sp_supporting_stake p + voter_stake) ({[voter_id]} ∪ sp_voters p)
    (sp_executed p).

(** ** Operations *)

Section Slashing.
Context `{Hashlib}.

(** The evidence hash of a detection result. *)
Definition evidence_hash (target_id : bytes) (epoch : Z) (dr : DetectionResult) : res bytes :=
  d ← py_concat [PBytes target_id; PInt epoch; PFloat (dr_confidence dr);
                 PBytes (concat (map String.list_byte_of_string (dr_reasons dr)))];
  Ok (sha3_256 d).

Definition create_slashing (m : SlashingManager) (target_id : bytes) (epoch : Z)
    (dr : DetectionResult) (proposer_id : bytes) : SlashingManager * res SlashingProposal :=
  match evidence_hash target_id epoch dr with
  | Err e => (m, Err e)
  | Ok h =>
      let proposal := mkSlashingProposal target_id epoch (String.concat "; " (dr_reasons dr)) h
                        proposer_id 0 ∅ false in
      (mkSlashingManager (<[h := proposal]> (sm_proposals m)) (slashed_validators m), Ok proposal)
  end.

Definition vote_for_slashing (m : SlashingManager) (h voter_id : bytes) (voter_stake : Z)
    : SlashingManager * bool :=
  match sm_proposals m !! h with
  | None => (m, false)
  | Some p =>
      if sp_executed p then (m, false)
      else if bool_decide (voter_id ∈ sp_voters p) then (m, false)
      else (mkSlashingManager (<[h := add_vote p voter_id voter_stake]> (sm_proposals m))
              (slashed_validators m), true)
  end.

(** With the default threshold; [ratio < threshold] is the negation of the other order. *)
Definition execute_slashing (m : SlashingManager) (h : bytes) (total : Z)
    : SlashingManager * res bool :=
  match sm_proposals m !! h with
  | None => (m, Ok false)
  | Some p =>
      if sp_executed p then (m, Ok false)
      else if (total =? 0)%Z then (m, Ok false)
      else match truediv (sp_supporting_stake p) total with
      | Err e => (m, Err e)
      | Ok ratio =>
          if negb (ge_067 ratio) then (m, Ok false)
          else (mkSlashingManager (<[h := set_executed p]> (sm_proposals m))
                  ({[sp_target_id p]} ∪ slashed_validators m), Ok true)
      end
  end.

Definition is_slashed (m : SlashingManager) (validator_id : bytes) : bool :=
  bool_decide (validator_id ∈ slashed_validators m).

(** ** Histories *)

Inductive slashing_op :=
  | SCreate (target_id : bytes) (epoch : Z) (dr : DetectionResult) (proposer_id : bytes)
  | SVote (h voter_id : bytes) (voter_stake : Z)
  | SExecute (h : bytes) (total : Z).

Definition slashing_step (m : SlashingManager) (op : slashing_op) : SlashingManager :=
  match op with
  | SCreate t e dr p => (create_slashing m t e dr p).1
  | SVote h v st => (vote_for_slashing m h v st).1
  | SExecute h total => (execute_slashing m h total).1
  end.

(** The operation re-creates the proposal for [h], which resets its votes. *)
Definition recreates (h : bytes) (op : slashing_op) : bool :=
  match op with
  | SCreate t e dr _ => bool_decide (evidence_hash t e dr = Ok h)
  | _ => false
  end.

(** ** Lemmas *)

(** Slashed validators stay slashed, whatever happens. *)
Lemma slashed_monotone m op v : is_slashed m v = true -> is_slashed (slashing_step m op) v = true.
Proof.
  unfold is_slashed. rewrite !bool_decide_eq_true. intros Hv.
  destruct op as [t e dr p|h w st|h total]; simpl.
  - unfold create_slashing. by case_match.
  - unfold vote_for_slashing. repeat case_match; done.
  - unfold execute_slashing. repeat (case_match; try done). simpl. set_solver.
Qed.

(** An executed proposal is frozen until it is re-created. *)
Lemma executed_frozen m op h p :
  sm_proposals m !! h = Some p -> sp_executed p = true -> recreates h op = false ->
  sm_proposals (slashing_step m op) !! h = Some p.
Proof.
  intros Hp He Hr. destruct op as [t e dr pr|h' w st|h' total]; simpl in *.
  - unfold create_slashing. destruct (evidence_hash t e dr) as [h'|]; [|done]. simpl.
    bool_to_prop. rewrite lookup_insert_ne; congruence.
  - unfold vote_for_slashing. destruct (sm_proposals m !! h') as [q|] eqn:Eq; [|done].
    destruct (sp_executed q) eqn:Ee; [done|]. case_match; [done|]. simpl.
    rewrite lookup_insert_ne; congruence.
  - unfold execute_slashing. destruct (sm_proposals m !! h') as [q|] eqn:Eq; [|done].
    destruct (sp_executed q) eqn:Ee; [done|]. repeat (case_match; [done|]). case_match; [|done].
    case_match; [done|]. simpl. rewrite lookup_insert_ne; congruence.
Qed.

Lemma slashing_run_frozen ops m h p :
  sm_proposals m !! h = Some p -> sp_executed p = true ->
  forallb (fun op => negb (recreates h op)) ops = true ->
  sm_proposals (foldl slashing_step m ops) !! h = Some p.
Proof.
  revert m. induction ops as [|op ops IH]; intros m Hp He Hr; [done|].
  simpl in *. bool_to_prop. apply IH; [|done..]. by apply executed_frozen.
Qed.

Lemma slashing_run_slashed ops m v :
  is_slashed m v = true -> is_slashed (foldl slashing_step m ops) v = true.
Proof.
  revert m. induction ops as [|op ops IH]; intros m Hv; [done|]. simpl.
  by apply IH, slashed_monotone.
Qed.

(** ** Property *)

(** For a positive total below 2^49, executing a pending proposal succeeds exactly when 67
    times the total is at most 100 times its recorded support; then its target is slashed, and
    through any further votes, executions and creations of other evidence the target stays
    slashed and the same evidence is never executed again. *)
Theorem slashing_executes_once (m : SlashingManager) (h : bytes) (total : Z)
    (p : SlashingProposal) (ops : list slashing_op) (total' : Z)
    (Hp : sm_proposals m !! h = Some p) (Hpending : sp_executed p = false)
    (Htot : (0 < total < 2 ^ 49)%Z) (Hsup : (0 <= sp_supporting_stake p < 2 ^ 64)%Z)
    (Hops : forallb (fun op => negb (recreates h op)) ops = true) :
  let '(m1, r) := execute_slashing m h total in
  r = Ok (67 * total <=? 100 * sp_supporting_stake p)%Z /\
  (r = Ok true ->
     let m2 := foldl slashing_step m1 ops in
     is_slashed m2 (sp_target_id p) = true /\ execute_slashing m2 h total' = (m2, Ok false)).
Proof.
  unfold execute_slashing at 1. rewrite Hp, Hpending, (proj2 (Z.eqb_neq total 0)) by lia.
  destruct (ge_067_ratio (sp_supporting_stake p) total) as (x & -> & Hx); [|lia|].
  { pose proof (Z.pow_lt_mono_r 2 64 1023 ltac:(lia) ltac:(lia) ltac:(lia)). lia. }
  rewrite Hx. destruct (67 * total <=? 100 * sp_supporting_stake p)%Z; simpl; [|done].
  split; [done|]. intros _. split.
  - apply slashing_run_slashed. unfold is_slashed. apply bool_decide_eq_true. simpl. set_solver.
  - unfold execute_slashing. rewrite (slashing_run_frozen ops _ h (set_executed p)); try done.
    simpl. by rewrite lookup_insert_eq.
Qed.

End Slashing.

(** ** A concrete run *)

Section Demo.
#[local] Existing Instance toy_hashlib.

Definition demo_slashing : SlashingManager :=
  mkSlashingManager
    {[b: "ev" := mkSlashingProposal (b: "bad") 3 "ratio" (b: "ev") (b: "a") 67 {[b: "a"]} false]} ∅.

Lemma slashing_executes_once_witness :
  let '(m1, r) := execute_slashing demo_slashing (b: "ev") 100 in
  r = Ok true /\
  is_slashed (foldl slashing_step m1 [SVote (b: "ev") (b: "b") 5]) (b: "bad") = true.
Proof.
  pose proof (slashing_executes_once demo_slashing (b: "ev") 100
    (mkSlashingProposal (b: "bad") 3 "ratio" (b: "ev") (b: "a") 67 {[b: "a"]} false)
    [SVote (b: "ev") (b: "b") 5] 100) as Hx.
  destruct (execute_slashing demo_slashing (b: "ev") 100) as [m1 r]. destruct Hx as [Hr Hs].
  - by vm_compute.
  - done.
  - lia.
  - simpl. lia.
  - done.
  - split; [exact Hr|]. destruct (Hs Hr) as [Hb _]. exact Hb.
Defined.

End Demo.
