(* ===== verification/Storage.v ===== *)
(** * Persistent storage ([src/src/storage.py])

    The tables of the three SQLite databases are maps by primary key; a method's [with
    self.conn] block is one database transaction, which takes effect as a whole or, when a
    statement or the binding of a parameter raises, not at all.  Integers are stored in 64 bits
    and anything larger raises.  Foreign keys are not enforced, as is SQLite's default.  The
    theorems are in [StorageLaws.v]. *)

From stdpp Require Import prelude list gmap strings sorting.
From Stdlib Require Import Strings.Byte ZArith Lia.
From S2P Require Import Prelude.
From S2P Require Import PyFloat.
From S2P Require Import Crypto.
From S2P Require Import Transaction.
From S2P Require Import Ledger.
From S2P Require Import Consensus.

Set Default Goal Selector "!".

(** ** SQLite *)

(** Binding a Python integer. *)
Definition db_int (z : Z) : res Z :=
  if (- 2 ^ 63 <=? z)%Z && (z <? 2 ^ 63)%Z then Ok z else Err OverflowError.

(** [with self.conn: ...] inside [try ... except Exception: return False]. *)
Definition transact {S} (s : S) (body : res S) : S * bool :=
  match body with
  | Ok s => (s, true)
  | Err _ => (s, false)
  end.

Definition key_le {A} (x y : Z * A) : Prop := (x.1 <= y.1)%Z.

#[export] Instance key_le_dec {A} (x y : Z * A) : Decision (key_le x y).
Proof. unfold key_le. apply _. Defined.

(** [ORDER BY] an integer column. *)
Definition order_by {A} (rows : list (Z * A)) : list (Z * A) := merge_sort key_le rows.

(** The rows of a table with a two-column key whose first column is [k]. *)
Definition rows_at {K A} `{Countable K} (k : K) (table : gmap (K * Z) A) : list (Z * A) :=
  map (fun kv => (kv.1.2, kv.2)) (filter (fun kv => kv.1.1 = k) (map_to_list table)).

(** ** Blocks *)

Record StoredBlock := mkStoredBlock {
  sb_epoch : Z;
  sb_block_hash : bytes;
  sb_prev_hash : bytes;
  sb_merkle_root : bytes;
  sb_timestamp : Z;
  sb_proposer_id : bytes;
  sb_transactions : list bytes;
  sb_raw_data : bytes;
}.

(** [prev_block_hash or b'\x00' * 32]. *)
Definition prev_or_zero (prev_block_hash : option bytes) : bytes :=
  match prev_block_hash with
  | None | Some [] => zero32
  | Some h => h
  end.

Definition from_consensus_block (block : ConsensusBlock) (tx_hashes : list bytes)
    (prev_block_hash : option bytes) : res StoredBlock :=
  timestamp ← to_ms (cb_finalization_time block);
  Ok (mkStoredBlock (cb_epoch block) (cb_block_hash block) (prev_or_zero prev_block_hash)
        (cp_measurement_root (cb_proposal block)) timestamp (cp_proposer_id (cb_proposal block))
        tx_hashes []).

(** A row of [blocks]; the key is the epoch. *)
Record block_row := mkBlockRow {
  br_block_hash : bytes;
  br_prev_hash : bytes;
  br_merkle_root : bytes;
  br_timestamp : Z;
  br_proposer_id : bytes;
  br_tx_count : Z;
  br_raw_data : bytes;
}.

(** [block_transactions] has the key [(epoch, tx_index)]. *)
Record BlockStore := mkBlockStore {
  bs_blocks : gmap Z block_row;
  bs_transactions : gmap (Z * Z) bytes;
}.

Definition block_store_new : BlockStore := mkBlockStore ∅ ∅.

Definition row_of_block (b : StoredBlock) : block_row :=
  mkBlockRow (sb_block_hash b) (sb_prev_hash b) (sb_merkle_root b) (sb_timestamp b)
    (sb_proposer_id b) (zlen (sb_transactions b)) (sb_raw_data b).

(** [INSERT INTO blocks ... ON CONFLICT(epoch) DO NOTHING]: the epoch is compared first, then
    the hash has to be new. *)
Definition insert_block (s : BlockStore) (b : StoredBlock) : res BlockStore :=
  epoch ← db_int (sb_epoch b);
  _ ← db_int (sb_timestamp b);
  match bs_blocks s !! epoch with
  | Some _ => Ok s
  | None =>
      if existsb (fun kv => bool_decide (br_block_hash kv.2 = sb_block_hash b)) (map_to_list (bs_blocks s))
      then Err IntegrityError
      else Ok (mkBlockStore (<[epoch := row_of_block b]> (bs_blocks s)) (bs_transactions s))
  end.

(** The loop of [INSERT OR REPLACE INTO block_transactions]. *)
Fixpoint insert_refs (epoch i : Z) (tx_hashes : list bytes) (table : gmap (Z * Z) bytes) : gmap (Z * Z) bytes :=
  match tx_hashes with
  | [] => table
  | h :: tx_hashes => insert_refs epoch (i + 1) tx_hashes (<[(epoch, i) := h]> table)
  end.

Definition store_block (s : BlockStore) (b : StoredBlock) : BlockStore * bool :=
  transact s
    (s ← insert_block s b;
     Ok (mkBlockStore (bs_blocks s) (insert_refs (sb_epoch b) 0 (sb_transactions b) (bs_transactions s)))).

Definition block_tx_hashes (s : BlockStore) (epoch : Z) : list bytes :=
  map snd (order_by (rows_at epoch (bs_transactions s))).

Definition get_block (s : BlockStore) (epoch : Z) : res (option StoredBlock) :=
  epoch ← db_int epoch;
  match bs_blocks s !! epoch with
  | None => Ok None
  | Some row =>
      Ok (Some (mkStoredBlock epoch (br_block_hash row) (br_prev_hash row) (br_merkle_root row)
        (br_timestamp row) (br_proposer_id row) (block_tx_hashes s epoch) (br_raw_data row)))
  end.

Definition get_block_by_hash (s : BlockStore) (block_hash : bytes) : res (option StoredBlock) :=
  match List.find (fun kv => bool_decide (br_block_hash kv.2 = block_hash)) (map_to_list (bs_blocks s)) with
  | Some (epoch, _) => get_block s epoch
  | None => Ok None
  end.

(** [SELECT epoch FROM blocks ORDER BY epoch]. *)
Definition epochs (s : BlockStore) : list Z := map fst (order_by (map_to_list (bs_blocks s))).

Definition get_latest_block (s : BlockStore) : res (option StoredBlock) :=
  match last (epochs s) with
  | Some epoch => get_block s epoch
  | None => Ok None
  end.

Definition epochs_between (s : BlockStore) (start_epoch end_epoch : Z) : list Z :=
  filter (fun epoch => start_epoch <= epoch /\ epoch <= end_epoch)%Z (epochs s).

(** [if block: yield block] for each epoch. *)
Fixpoint get_blocks (s : BlockStore) (wanted : list Z) : res (list StoredBlock) :=
  match wanted with
  | [] => Ok []
  | epoch :: wanted =>
      found ← get_block s epoch;
      blocks ← get_blocks s wanted;
      Ok (match found with Some b => b :: blocks | None => blocks end)
  end.

Definition get_block_range (s : BlockStore) (start_epoch end_epoch : Z) : res (list StoredBlock) :=
  first ← db_int start_epoch;
  last ← db_int end_epoch;
  get_blocks s (epochs_between s first last).

(** [MAX(epoch)] of an empty table is [NULL]. *)
Definition get_chain_height (s : BlockStore) : Z := default (-1)%Z (last (epochs s)).

Definition has_block (s : BlockStore) (epoch : Z) : res bool :=
  epoch ← db_int epoch; Ok (bool_decide (is_Some (bs_blocks s !! epoch))).

(** ** Transactions *)

Record tx_row := mkTxRow {
  tr_version : Z;
  tr_tx_type : Z;
  tr_epoch : Z;
  tr_timestamp : Z;
  tr_fee : Z;
  tr_input_count : Z;
  tr_output_count : Z;
  tr_raw_data : bytes;
}.

Record output_row := mkOutputRow {
  or_value : Z;
  or_address : bytes;
  or_lock_epoch : Z;
  or_spent : bool;
  or_spent_by : option bytes;
}.

(** [tx_inputs] and [tx_outputs] have keys [(tx_hash, index)]. *)
Record TransactionStore := mkTransactionStore {
  ts_transactions : gmap bytes tx_row;
  ts_inputs : gmap (bytes * Z) (bytes * Z);
  ts_outputs : gmap (bytes * Z) output_row;
}.

Definition transaction_store_new : TransactionStore := mkTransactionStore ∅ ∅ ∅.

Fixpoint insert_inputs (h : bytes) (i : Z) (inputs : list TxInput) (table : gmap (bytes * Z) (bytes * Z))
    : res (gmap (bytes * Z) (bytes * Z)) :=
  match inputs with
  | [] => Ok table
  | inp :: inputs =>
      index ← db_int (ti_output_index inp);
      insert_inputs h (i + 1) inputs (<[(h, i) := (ti_prev_tx_hash inp, index)]> table)
  end.

(** The columns that the statement does not name get their defaults: not spent. *)
Fixpoint insert_outputs (h : bytes) (i : Z) (outputs : list TxOutput) (table : gmap (bytes * Z) output_row)
    : res (gmap (bytes * Z) output_row) :=
  match outputs with
  | [] => Ok table
  | out :: outputs =>
      value ← db_int (to_value out);
      lock_epoch ← db_int (to_lock_epoch out);
      insert_outputs h (i + 1) outputs
        (<[(h, i) := mkOutputRow value (to_address out) lock_epoch false None]> table)
  end.

Section Storage.
Context `{Hashlib}.

Definition row_of_tx (tx : Transaction) : res tx_row :=
  version ← db_int (tx_version tx);
  epoch ← db_int (tx_epoch tx);
  timestamp ← db_int (tx_timestamp tx);
  fee ← db_int (tx_fee tx);
  raw ← tx_to_bytes tx;
  Ok (mkTxRow version (tx_type_value (tx_type tx)) epoch timestamp fee
        (zlen (tx_inputs tx)) (zlen (tx_outputs tx)) raw).

Definition store_transaction (s : TransactionStore) (tx : Transaction) : TransactionStore * bool :=
  transact s
    (h ← tx_hash tx;
     row ← row_of_tx tx;
     inputs ← insert_inputs h 0 (tx_inputs tx) (ts_inputs s);
     outputs ← insert_outputs h 0 (tx_outputs tx) (ts_outputs s);
     Ok (mkTransactionStore (<[h := row]> (ts_transactions s)) inputs outputs)).

End Storage.

Definition get_transaction (s : TransactionStore) (h : bytes) : option tx_row := ts_transactions s !! h.

(** An [UPDATE] of a row that does not exist succeeds and changes nothing. *)
Definition mark_output_spent (s : TransactionStore) (h : bytes) (output_index : Z) (spending_tx : bytes)
    : TransactionStore * bool :=
  transact s
    (output_index ← db_int output_index;
     Ok (mkTransactionStore (ts_transactions s) (ts_inputs s)
       (alter (fun r => mkOutputRow (or_value r) (or_address r) (or_lock_epoch r) true (Some spending_tx))
          (h, output_index) (ts_outputs s)))).

(** [TxOutput(value=..., address=..., lock_epoch=...)]: the data is not stored. *)
Definition output_of_row (r : output_row) : TxOutput :=
  mkTxOutput (or_value r) (or_address r) (or_lock_epoch r) [].

Definition get_outputs (s : TransactionStore) (h : bytes) : list TxOutput :=
  map (fun x => output_of_row x.2) (order_by (rows_at h (ts_outputs s))).

Definition get_inputs (s : TransactionStore) (h : bytes) : list (bytes * Z) :=
  map snd (order_by (rows_at h (ts_inputs s))).

(** Rows without an [ORDER BY] come in some order. *)
Definition get_utxos_for_address (s : TransactionStore) (address : bytes) : list ((bytes * Z) * output_row) :=
  filter (fun kv => or_address kv.2 = address /\ or_spent kv.2 = false) (map_to_list (ts_outputs s)).

(** [SELECT DISTINCT ... ORDER BY t.timestamp DESC LIMIT ?]; a negative limit is none. *)
Definition get_transactions_for_address (s : TransactionStore) (address : bytes) (limit : Z)
    : list (bytes * tx_row) :=
  let received := filter (fun kv => existsb (fun o => bool_decide (o.1.1 = kv.1 /\ or_address o.2 = address))
                                      (map_to_list (ts_outputs s)) = true)
                    (map_to_list (ts_transactions s)) in
  let sorted := map snd (rev (order_by (map (fun kv => (tr_timestamp kv.2, kv)) received))) in
  if (limit <? 0)%Z then sorted else take (Z.to_nat limit) sorted.

(** ** The state database *)

Record validator_row := mkValidatorRow {
  vr_address : bytes;
  vr_stake : Z;
  vr_zone_id : Z;
  vr_active : bool;
  vr_slashed : bool;
  vr_registered_epoch : Z;
  vr_last_active_epoch : option Z;
}.

Record entropy_row := mkEntropyRow {
  er_entropy : bytes;
  er_sources_used : Z;
  er_timestamp : Z;
}.

Record slashing_event := mkSlashingEvent {
  se_validator_id : bytes;
  se_epoch : Z;
  se_reason : string;
  se_evidence_hash : bytes;
  se_slash_amount : Z;
  se_timestamp : Z;
}.

Record auth_row := mkAuthRow {
  ar_auth_root : bytes;
  ar_epoch : Z;
  ar_tx_hash : option bytes;
  ar_rotation_count : Z;
}.

(** The events are numbered by their position. *)
Record StateDB := mkStateDB {
  db_validators : gmap bytes validator_row;
  db_chain_state : gmap string bytes;
  db_entropy : gmap Z entropy_row;
  db_slashing_events : list slashing_event;
  db_auth : gmap bytes auth_row;
}.

Definition state_db_new : StateDB := mkStateDB ∅ ∅ ∅ [] ∅.

Definition with_validators (s : StateDB) (validators : gmap bytes validator_row) : StateDB :=
  mkStateDB validators (db_chain_state s) (db_entropy s) (db_slashing_events s) (db_auth s).

Definition with_auth (s : StateDB) (auth : gmap bytes auth_row) : StateDB :=
  mkStateDB (db_validators s) (db_chain_state s) (db_entropy s) (db_slashing_events s) auth.

(** [INSERT OR REPLACE]: an old row goes, and [active] and [slashed] get their defaults. *)
Definition register_validator (s : StateDB) (validator_id address : bytes) (stake zone_id epoch : Z)
    : StateDB * bool :=
  transact s
    (stake ← db_int stake;
     zone_id ← db_int zone_id;
     epoch ← db_int epoch;
     Ok (with_validators s
       (<[validator_id := mkValidatorRow address stake zone_id true false epoch None]> (db_validators s)))).

Definition update_validator_stake (s : StateDB) (validator_id : bytes) (stake : Z) : StateDB * bool :=
  transact s
    (stake ← db_int stake;
     Ok (with_validators s
       (alter (fun r => mkValidatorRow (vr_address r) stake (vr_zone_id r) (vr_active r) (vr_slashed r)
                          (vr_registered_epoch r) (vr_last_active_epoch r)) validator_id (db_validators s)))).

Definition slash_validator (s : StateDB) (validator_id : bytes) (reason : string) (evidence_hash : bytes)
    (slash_amount epoch : Z) (now : float64) : StateDB * bool :=
  transact s
    (let validators :=
       alter (fun r => mkValidatorRow (vr_address r) (vr_stake r) (vr_zone_id r) false true
                         (vr_registered_epoch r) (vr_last_active_epoch r)) validator_id (db_validators s) in
     ms ← to_ms now;
     epoch ← db_int epoch;
     slash_amount ← db_int slash_amount;
     timestamp ← db_int ms;
     Ok (mkStateDB validators (db_chain_state s) (db_entropy s)
       (db_slashing_events s ++
          [mkSlashingEvent validator_id epoch reason evidence_hash slash_amount timestamp]) (db_auth s))).

Definition get_active_validators (s : StateDB) (zone_id : option Z) : res (list (bytes * validator_row)) :=
  match zone_id with
  | None => Ok (filter (fun kv => vr_active kv.2 = true) (map_to_list (db_validators s)))
  | Some zone =>
      zone ← db_int zone;
      Ok (filter (fun kv => vr_active kv.2 = true /\ vr_zone_id kv.2 = zone) (map_to_list (db_validators s)))
  end.

(** [SUM(stake)]: an overflow of the 64-bit accumulator is an error. *)
Fixpoint sum_stakes (total : Z) (rows : list (bytes * validator_row)) : res Z :=
  match rows with
  | [] => Ok total
  | row :: rows =>
      match db_int (total + vr_stake row.2) with
      | Ok total => sum_stakes total rows
      | Err _ => Err OperationalError
      end
  end.

Definition get_total_stake (s : StateDB) : res Z :=
  sum_stakes 0 (filter (fun kv => vr_active kv.2 = true) (map_to_list (db_validators s))).

Definition set_chain_state (s : StateDB) (key : string) (value : bytes) : StateDB :=
  mkStateDB (db_validators s) (<[key := value]> (db_chain_state s)) (db_entropy s)
    (db_slashing_events s) (db_auth s).

Definition get_state (s : StateDB) (key : string) : option bytes := db_chain_state s !! key.

Definition set_current_epoch (s : StateDB) (epoch : Z) : res StateDB :=
  data ← pack_uint 8 epoch; Ok (set_chain_state s "current_epoch" data).

Definition get_current_epoch (s : StateDB) : res Z :=
  match get_state s "current_epoch" with
  | None | Some [] => Ok 0%Z
  | Some data => unpack_uint 8 data
  end.

Definition store_entropy (s : StateDB) (epoch : Z) (entropy : bytes) (sources_used : Z) (now : float64)
    : res StateDB :=
  ms ← to_ms now;
  epoch ← db_int epoch;
  sources_used ← db_int sources_used;
  timestamp ← db_int ms;
  Ok (mkStateDB (db_validators s) (db_chain_state s)
    (<[epoch := mkEntropyRow entropy sources_used timestamp]> (db_entropy s)) (db_slashing_events s) (db_auth s)).

Definition get_entropy (s : StateDB) (epoch : Z) : res (option bytes) :=
  epoch ← db_int epoch; Ok (er_entropy <$> db_entropy s !! epoch).

(** Only the [IntegrityError] of a second row is caught. *)
Definition register_auth (s : StateDB) (address auth_root : bytes) (epoch : Z) (tx_hash : option bytes)
    : StateDB * res bool :=
  match db_int epoch with
  | Err e => (s, Err e)
  | Ok epoch =>
      match db_auth s !! address with
      | Some _ => (s, Ok false)
      | None => (with_auth s (<[address := mkAuthRow auth_root epoch tx_hash 0]> (db_auth s)), Ok true)
      end
  end.

(** [result.rowcount > 0]. *)
Definition rotate_auth (s : StateDB) (address new_auth_root : bytes) (epoch : Z) (tx_hash : option bytes)
    : StateDB * bool :=
  match db_int epoch with
  | Err _ => (s, false)
  | Ok epoch =>
      match db_auth s !! address with
      | None => (s, false)
      | Some row =>
          (with_auth s (<[address := mkAuthRow new_auth_root epoch tx_hash (ar_rotation_count row + 1)]>
             (db_auth s)), true)
      end
  end.

Definition get_auth_root (s : StateDB) (address : bytes) : option bytes := ar_auth_root <$> db_auth s !! address.

Definition is_address_registered (s : StateDB) (address : bytes) : bool :=
  bool_decide (is_Some (db_auth s !! address)).

(** ** The storage manager *)

Record StorageManager := mkStorageManager {
  sm_blocks : BlockStore;
  sm_transactions : TransactionStore;
  sm_state : StateDB;
  sm_utxo_set : UTXOSet;
}.

(** A new data directory. *)
Definition storage_new : StorageManager :=
  mkStorageManager block_store_new transaction_store_new state_db_new utxo_set_new.

Section Manager.
Context `{Hashlib}.

(** The results of the single stores are dropped; a hash that cannot be computed stops the
    loop. *)
Fixpoint store_transactions (s : TransactionStore) (transactions : list Transaction)
    : TransactionStore * res (list bytes) :=
  match transactions with
  | [] => (s, Ok [])
  | tx :: transactions =>
      let s := (store_transaction s tx).1 in
      match tx_hash tx with
      | Err e => (s, Err e)
      | Ok h =>
          let s := foldl (fun s inp =>
                     (mark_output_spent s (ti_prev_tx_hash inp) (ti_output_index inp) h).1)
                     s (tx_inputs tx) in
          let '(s, r) := store_transactions s transactions in
          (s, hs ← r; Ok (h :: hs))
      end
  end.

Definition store_block_with_transactions (m : StorageManager) (block : ConsensusBlock)
    (transactions : list Transaction) : StorageManager * bool :=
  let '(ts, r) := store_transactions (sm_transactions m) transactions in
  let m := mkStorageManager (sm_blocks m) ts (sm_state m) (sm_utxo_set m) in
  match (tx_hashes ← r;
         prev ← get_latest_block (sm_blocks m);
         from_consensus_block block tx_hashes (sb_block_hash <$> prev)) with
  | Err _ => (m, false)
  | Ok stored_block =>
      let m := mkStorageManager (store_block (sm_blocks m) stored_block).1 ts (sm_state m) (sm_utxo_set m) in
      match set_current_epoch (sm_state m) (cb_epoch block) with
      | Err _ => (m, false)
      | Ok state => (mkStorageManager (sm_blocks m) ts state (sm_utxo_set m), true)
      end
  end.

Record ChainInfo := mkChainInfo {
  ci_height : Z;
  ci_current_epoch : Z;
  ci_total_stake : Z;
  ci_active_validators : Z;
}.

Definition get_chain_info (m : StorageManager) : res ChainInfo :=
  epoch ← get_current_epoch (sm_state m);
  total ← get_total_stake (sm_state m);
  active ← get_active_validators (sm_state m) None;
  Ok (mkChainInfo (get_chain_height (sm_blocks m)) epoch total (zlen active)).

(** One transaction of [rebuild_utxo_set]. *)
Definition rebuild_transaction (ts : TransactionStore) (epoch : Z) (u : UTXOSet) (h : bytes) : UTXOSet :=
  match get_transaction ts h with
  | None => u
  | Some _ =>
      let u := foldl (fun u x => add_utxo u h (Z.of_nat x.1) x.2 epoch) u (imap pair (get_outputs ts h)) in
      foldl (fun u inp => (spend_utxo u inp.1 inp.2 h).1) u (get_inputs ts h)
  end.

Definition rebuild_epoch (m : StorageManager) (u : UTXOSet) (epoch : Z) : res UTXOSet :=
  block ← get_block (sm_blocks m) epoch;
  match block with
  | None => Ok u
  | Some b => Ok (foldl (rebuild_transaction (sm_transactions m) epoch) u (sb_transactions b))
  end.

Fixpoint rebuild_epochs (m : StorageManager) (u : UTXOSet) (epochs : list Z) : res UTXOSet :=
  match epochs with
  | [] => Ok u
  | epoch :: epochs => u ← rebuild_epoch m u epoch; rebuild_epochs m u epochs
  end.

(** [range(height + 1)]. *)
Definition rebuild_utxo_set (m : StorageManager) : res StorageManager :=
  let height := get_chain_height (sm_blocks m) in
  u ← rebuild_epochs m utxo_set_new (map Z.of_nat (seq 0 (Z.to_nat (height + 1))));
  Ok (mkStorageManager (sm_blocks m) (sm_transactions m) (sm_state m) u).

End Manager.
