(* ===== verification/StorageLaws.v ===== *)
(** * What the storage guarantees

    Theorems about [Storage.v]: a chain of blocks stored in order is linked
    ([stored_chain_linked]); what recovery makes of it is in [Recovery.v]; the table of authentication roots behaves like
    the registry in memory ([auth_table_refines_registry]); a second block of an epoch replaces
    the transactions of the first and nothing else ([conflicting_block_mixes]); storing a
    transaction again makes its spent outputs unspent ([restore_resets_spent]); registering a
    slashed validator again clears the slashing ([reregister_clears_slashing]); a block may be
    reported as stored that is not ([stored_block_may_be_lost]). *)

From stdpp Require Import prelude list gmap strings sorting.
From Stdlib Require Import Strings.Byte ZArith Lia.
From S2P Require Import Prelude.
From S2P Require Import PyFloat.
From S2P Require Import Crypto.
From S2P Require Import Transaction.
From S2P Require Import Ledger.
From S2P Require Import Consensus.
From S2P Require Import Storage.

Set Default Goal Selector "!".

(** ** Ordered rows *)

#[export] Instance key_le_trans {A} : Transitive (@key_le A).
Proof. intros x y z. unfold key_le. lia. Qed.

#[export] Instance key_le_total {A} : Total (@key_le A).
Proof. intros x y. unfold key_le. lia. Qed.

(** A list of rows with increasing keys is what [ORDER BY] gives for its rows. *)
Lemma order_by_sorted {A} (rows sorted : list (Z * A)) :
  NoDup (map fst sorted) -> StronglySorted key_le sorted -> rows ≡ₚ sorted -> order_by rows = sorted.
Proof.
  intros Hnd Hs Hp. apply (StronglySorted_unique_strong key_le).
  - intros [i x] [j y] Hi Hj Hij Hji. unfold key_le in *. cbn [fst] in *. assert (i = j) as <- by lia.
    unfold order_by in Hi. rewrite merge_sort_Permutation, Hp in Hi.
    f_equal. clear -Hnd Hi Hj. induction sorted as [|[k z] l IH]; [set_solver|].
    cbn [map fst] in Hnd. apply NoDup_cons in Hnd as [Hk Hnd].
    apply elem_of_cons in Hi as [Ei|Hi], Hj as [Ej|Hj]; [congruence| | |by apply IH].
    + injection Ei as -> ->. destruct Hk. apply list_elem_of_In, in_map_iff. exists (k, y).
      split; [done|by apply list_elem_of_In].
    + injection Ej as -> ->. destruct Hk. apply list_elem_of_In, in_map_iff. exists (k, x).
      split; [done|by apply list_elem_of_In].
  - apply (StronglySorted_merge_sort key_le).
  - done.
  - unfold order_by. by rewrite merge_sort_Permutation.
Qed.

Section Rows.
Context {K A : Type} `{Countable K}.
Implicit Types (k : K) (l old : list A).

(** The rows of [k] are numbered from zero and hold [l]. *)
Definition lists (table : gmap (K * Z) A) (k : K) (l : list A) : Prop :=
  forall i : Z, table !! (k, i) = if (0 <=? i)%Z then l !! Z.to_nat i else None.

Definition numbered (l : list A) : list (Z * A) := imap (fun i x => (Z.of_nat i, x)) l.

Lemma numbered_lookup l i x : (i, x) ∈ numbered l <-> (0 <= i)%Z /\ l !! Z.to_nat i = Some x.
Proof.
  unfold numbered. split.
  - intros (n & Hn)%list_elem_of_lookup_1. apply imap_lookup_Some in Hn as (y & Hy & [= -> ->]).
    rewrite Nat2Z.id. split; [lia|done].
  - intros [Hi Hx]. apply list_elem_of_lookup_2 with (Z.to_nat i). rewrite list_lookup_imap, Hx. simpl.
    by rewrite Z2Nat.id.
Qed.

Lemma numbered_sorted l : StronglySorted key_le (numbered l) /\ NoDup (map fst (numbered l)).
Proof.
  assert (Hgen : forall n, StronglySorted key_le (imap (fun i x => (Z.of_nat (n + i), x)) l) /\
    NoDup (map fst (imap (fun i x => (Z.of_nat (n + i), x)) l))); [|exact (Hgen 0)].
  induction l as [|x l IH]; intros n; [split; constructor|]. cbn [imap].
  assert (E : imap ((fun i y => (Z.of_nat (n + i), y)) ∘ S) l = imap (fun i y => (Z.of_nat (S n + i), y)) l).
  { apply imap_ext. intros i y _. cbn. do 2 f_equal. lia. }
  rewrite E. destruct (IH (S n)) as [Hs Hn].
  assert (Hgt : forall y, y ∈ imap (fun i y => (Z.of_nat (S n + i), y)) l -> (Z.of_nat (n + 0) < y.1)%Z).
  { intros y (m & Hy)%list_elem_of_lookup_1. apply imap_lookup_Some in Hy as (z & _ & ->). cbn [fst]. lia. }
  split.
  - constructor; [done|]. apply Forall_forall. intros y Hy. apply Hgt in Hy. unfold key_le. cbn [fst]. lia.
  - cbn [map fst]. apply NoDup_cons. split; [|done]. intros Hin.
    apply list_elem_of_In, in_map_iff in Hin as (y & Hy & Hin). apply list_elem_of_In, Hgt in Hin. lia.
Qed.

Lemma rows_at_elem (table : gmap (K * Z) A) k i x : (i, x) ∈ rows_at k table <-> table !! (k, i) = Some x.
Proof.
  unfold rows_at. rewrite <- elem_of_map_to_list. split.
  - intros Hin. apply list_elem_of_In, in_map_iff in Hin as ([[k' i'] x'] & [= -> ->] & Hin).
    apply list_elem_of_In, list_elem_of_filter in Hin as [Hk Hin]. cbn in Hk. by subst.
  - intros Hin. apply list_elem_of_In, in_map_iff. exists ((k, i), x). split; [done|].
    by apply list_elem_of_In, list_elem_of_filter.
Qed.

Lemma rows_at_NoDup (table : gmap (K * Z) A) k : NoDup (rows_at k table).
Proof.
  unfold rows_at. apply (NoDup_fmap_2_strong (fun kv : K * Z * A => (kv.1.2, kv.2))).
  - intros [[k1 i1] x1] [[k2 i2] x2] [Hk1 _]%list_elem_of_filter [Hk2 _]%list_elem_of_filter. cbn in *.
    by intros [= -> ->]; subst.
  - apply NoDup_filter, NoDup_map_to_list.
Qed.

Lemma lists_order (table : gmap (K * Z) A) k l : lists table k l -> order_by (rows_at k table) = numbered l.
Proof.
  intros Hl. destruct (numbered_sorted l) as [Hs Hn]. apply order_by_sorted; [done..|].
  apply NoDup_Permutation; [apply rows_at_NoDup|by apply (NoDup_fmap_1 fst)|].
  intros [i x]. rewrite rows_at_elem, numbered_lookup, (Hl i).
  destruct (Z.leb_spec 0 i); split; try done; [by intros []|lia].
Qed.

Lemma numbered_values l : map snd (numbered l) = l.
Proof.
  apply list_eq. intros i. unfold numbered. rewrite lookup_map, list_lookup_imap. by destruct (l !! i).
Qed.

(** Writing a list over the rows of [k]. *)
Fixpoint overwrite (k : K) (i : Z) (l : list A) (table : gmap (K * Z) A) : gmap (K * Z) A :=
  match l with
  | [] => table
  | x :: l => overwrite k (i + 1) l (<[(k, i) := x]> table)
  end.

Lemma overwrite_lookup k (i : Z) l (table : gmap (K * Z) A) k' (j : Z) :
  overwrite k i l table !! (k', j) =
    if bool_decide (k' = k) && (i <=? j)%Z && (j <? i + Z.of_nat (length l))%Z
    then l !! Z.to_nat (j - i) else table !! (k', j).
Proof.
  revert i table. induction l as [|x l IH]; intros i table; cbn [overwrite length].
  { destruct (bool_decide _); [|done]. cbn [andb].
    destruct (Z.leb_spec i j), (Z.ltb_spec j (i + Z.of_nat 0)); try done. lia. }
  rewrite IH. destruct (decide (k' = k)) as [->|Hk].
  - rewrite bool_decide_eq_true_2 by done. cbn [andb].
    destruct (decide (j = i)) as [->|Hj].
    + rewrite lookup_insert_eq, Z.leb_refl, (proj2 (Z.leb_gt (i + 1) i)) by lia. cbn [andb].
      rewrite (proj2 (Z.ltb_lt i _)) by lia. by rewrite Z.sub_diag.
    + rewrite lookup_insert_ne by congruence.
      destruct (Z.leb_spec (i + 1) j), (Z.leb_spec i j); try lia; cbn [andb]; [|done].
      replace (i + 1 + Z.of_nat (length l))%Z with (i + Z.of_nat (S (length l)))%Z by lia.
      destruct (Z.ltb_spec j (i + Z.of_nat (S (length l)))); [|done].
      replace (Z.to_nat (j - i)) with (S (Z.to_nat (j - (i + 1)))) by lia. done.
  - rewrite bool_decide_eq_false_2 by done. cbn [andb]. by rewrite lookup_insert_ne by congruence.
Qed.

Lemma overwrite_lists k l old (table : gmap (K * Z) A) :
  lists table k old -> lists (overwrite k 0 l table) k (l ++ drop (length l) old).
Proof.
  intros Ho i. rewrite overwrite_lookup, bool_decide_eq_true_2, (Ho i) by done. cbn [andb].
  destruct (Z.leb_spec 0 i); [|done]. cbn [andb]. rewrite Z.add_0_l, Z.sub_0_r.
  destruct (Z.ltb_spec i (Z.of_nat (length l))).
  - by rewrite lookup_app_l by lia.
  - rewrite lookup_app_r, lookup_drop by lia. f_equal. lia.
Qed.

Lemma overwrite_other k k' (i : Z) l l' (table : gmap (K * Z) A) :
  k' <> k -> lists table k' l' -> lists (overwrite k i l table) k' l'.
Proof. intros Hk Hl j. rewrite overwrite_lookup, bool_decide_eq_false_2 by done. apply Hl. Qed.

Lemma lists_empty k : lists ∅ k [].
Proof. intros i. rewrite lookup_empty. by case_match. Qed.

End Rows.

(** ** The block table as a list of blocks *)

Definition int64 (z : Z) : Prop := (- 2 ^ 63 <= z < 2 ^ 63)%Z.

Lemma db_int_ok z : int64 z -> db_int z = Ok z.
Proof.
  intros [H1 H2]. unfold db_int. by rewrite (proj2 (Z.leb_le _ _) H1), (proj2 (Z.ltb_lt _ _) H2).
Qed.

Lemma db_int_inv z z' : db_int z = Ok z' -> int64 z /\ z' = z.
Proof. unfold db_int, int64. destruct (_ && _) eqn:E; [|done]. intros [= <-]. bool_to_prop. lia. Qed.

Lemma insert_refs_overwrite epoch i hs table : insert_refs epoch i hs table = overwrite epoch i hs table.
Proof. revert i table. induction hs as [|h hs IH]; intros i table; [done|]. simpl. by rewrite IH. Qed.

Record blocks_are (s : BlockStore) (bs : list StoredBlock) : Prop := {
  ba_rows : Forall (fun b => bs_blocks s !! sb_epoch b = Some (row_of_block b) /\
                             lists (bs_transactions s) (sb_epoch b) (sb_transactions b)) bs;
  ba_only e : e ∉ map sb_epoch bs -> bs_blocks s !! e = None /\ lists (bs_transactions s) e [];
}.

Lemma blocks_are_new : blocks_are block_store_new [].
Proof. split; [constructor|]. intros e _. split; [apply lookup_empty|apply lists_empty]. Qed.

Lemma elem_of_epochs (bs : list StoredBlock) e :
  e ∈ map sb_epoch bs <-> exists b, b ∈ bs /\ sb_epoch b = e.
Proof.
  rewrite list_elem_of_In, in_map_iff. split; intros (b & H1 & H2); exists b; by rewrite list_elem_of_In in *.
Qed.

Lemma blocks_are_row s bs e row :
  blocks_are s bs -> bs_blocks s !! e = Some row -> exists b, b ∈ bs /\ sb_epoch b = e /\ row = row_of_block b.
Proof.
  intros [Hr Ho] E. destruct (decide (e ∈ map sb_epoch bs)) as [(b & Hb & <-)%elem_of_epochs|Hn].
  - exists b. split; [done|]. split; [done|]. rewrite Forall_forall in Hr. destruct (Hr b Hb) as [E' _]. congruence.
  - destruct (Ho e Hn). congruence.
Qed.

Lemma get_block_are s bs b : blocks_are s bs -> b ∈ bs -> int64 (sb_epoch b) -> get_block s (sb_epoch b) = Ok (Some b).
Proof.
  intros [Hr _] Hb He. rewrite Forall_forall in Hr. destruct (Hr b Hb) as [E Hl].
  unfold get_block. rewrite (db_int_ok _ He). cbn [mbind res_bind]. rewrite E. unfold block_tx_hashes.
  rewrite (lists_order _ _ _ Hl), numbered_values. by destruct b.
Qed.

Lemma get_block_none s bs e : blocks_are s bs -> e ∉ map sb_epoch bs -> int64 e -> get_block s e = Ok None.
Proof.
  intros [_ Ho] Hn He. unfold get_block. rewrite (db_int_ok _ He). cbn [mbind res_bind].
  by rewrite (proj1 (Ho e Hn)).
Qed.

Lemma store_block_are s bs b :
  blocks_are s bs -> int64 (sb_epoch b) -> int64 (sb_timestamp b) ->
  sb_epoch b ∉ map sb_epoch bs -> sb_block_hash b ∉ map sb_block_hash bs ->
  exists s', store_block s b = (s', true) /\ blocks_are s' (bs ++ [b]).
Proof.
  intros Hs He Ht Hn Hh. unfold store_block, insert_block.
  rewrite (db_int_ok _ He), (db_int_ok _ Ht). cbn [mbind res_bind].
  destruct (ba_only _ _ Hs _ Hn) as [E Hl]. rewrite E.
  destruct (existsb _ _) eqn:Ex.
  { apply existsb_exists in Ex as ([e row] & Hin & Heq%bool_decide_eq_true). cbn [snd] in Heq.
    apply list_elem_of_In, elem_of_map_to_list in Hin.
    destruct (blocks_are_row s bs e row Hs Hin) as (b' & Hb' & _ & ->). destruct Hh.
    apply list_elem_of_In, in_map_iff. exists b'. split; [done|by apply list_elem_of_In]. }
  eexists. split; [reflexivity|]. cbn [bs_blocks bs_transactions].
  rewrite insert_refs_overwrite. split; cbn [bs_blocks bs_transactions].
  - apply Forall_app. split.
    + apply Forall_forall. intros b' Hb'. destruct (proj1 (Forall_forall _ _) (ba_rows _ _ Hs) b' Hb') as [E' Hl'].
      assert (Hne : sb_epoch b' <> sb_epoch b).
      { intros Heq. apply Hn. apply elem_of_epochs. by exists b'. }
      rewrite lookup_insert_ne by congruence. split; [done|]. by apply overwrite_other.
    + constructor; [|done]. rewrite lookup_insert_eq. split; [done|].
      pose proof (overwrite_lists _ (sb_transactions b) _ _ Hl) as Hl'. by rewrite drop_nil, app_nil_r in Hl'.
  - intros e He'. rewrite map_app, elem_of_app in He'. cbn [map] in He'.
    assert (Hne : e <> sb_epoch b) by (intros ->; apply He'; right; by constructor).
    rewrite lookup_insert_ne by congruence. destruct (ba_only _ _ Hs e) as [? ?]; [tauto|].
    split; [done|]. by apply overwrite_other.
Qed.

(** Epochs in the order of the blocks. *)
Definition increasing (bs : list StoredBlock) : Prop := StronglySorted Z.lt (map sb_epoch bs).

Lemma increasing_NoDup bs : increasing bs -> NoDup (map sb_epoch bs).
Proof.
  unfold increasing. induction 1 as [|e l Hs IH Hf]; constructor; [|done]. intros Hin.
  rewrite Forall_forall in Hf. specialize (Hf e Hin). lia.
Qed.

Lemma epochs_are s bs : blocks_are s bs -> increasing bs -> epochs s = map sb_epoch bs.
Proof.
  intros Hs Hi. unfold epochs. set (rows := map (fun b => (sb_epoch b, row_of_block b)) bs).
  assert (Hf : map fst rows = map sb_epoch bs) by (unfold rows; rewrite map_map; done).
  rewrite (order_by_sorted _ rows); [done| | |].
  - rewrite Hf. by apply increasing_NoDup.
  - clear Hs Hf. unfold rows, increasing in *. induction bs as [|b bs IH]; [constructor|]. cbn [map] in *.
    inversion Hi as [|? ? Hi' Hlt]; subst. constructor; [by apply IH|].
    apply Forall_forall. intros x (b' & -> & Hb')%list_elem_of_fmap. unfold key_le. cbn [fst].
    rewrite Forall_forall in Hlt. apply Z.lt_le_incl, Hlt, elem_of_epochs. by exists b'.
  - assert (Hn : NoDup (map fst rows)) by (rewrite Hf; by apply increasing_NoDup).
    apply NoDup_Permutation; [apply NoDup_map_to_list|by apply (NoDup_fmap_1 fst)|].
    intros [e row]. rewrite elem_of_map_to_list. unfold rows. rewrite list_elem_of_fmap. split.
    + intros E. destruct (blocks_are_row _ _ _ _ Hs E) as (b & Hb & <- & ->). by exists b.
    + intros (b & [= -> ->] & Hb). by apply (proj1 (Forall_forall _ _) (ba_rows _ _ Hs) b Hb).
Qed.

Lemma latest_block_are s bs :
  blocks_are s bs -> increasing bs -> Forall (fun b => int64 (sb_epoch b)) bs -> get_latest_block s = Ok (last bs).
Proof.
  intros Hs Hi H64. unfold get_latest_block. rewrite (epochs_are s bs) by done.
  destruct bs as [|b bs _] using rev_ind; [done|]. rewrite map_app. cbn [map]. rewrite !last_snoc.
  apply Forall_app in H64 as [_ H64%Forall_inv].
  by apply (get_block_are s (bs ++ [b])); [|set_solver|].
Qed.

(** ** The transaction tables as a list of transactions *)

Definition outpoint_of (inp : TxInput) : bytes * Z := (ti_prev_tx_hash inp, ti_output_index inp).

(** An output as it comes back: without its data. *)
Definition strip (out : TxOutput) : TxOutput := mkTxOutput (to_value out) (to_address out) (to_lock_epoch out) [].

Definition unspent_row (out : TxOutput) : output_row :=
  mkOutputRow (to_value out) (to_address out) (to_lock_epoch out) false None.

Lemma insert_inputs_ok h i inputs table :
  Forall (fun inp => int64 (ti_output_index inp)) inputs ->
  insert_inputs h i inputs table = Ok (overwrite h i (map outpoint_of inputs) table).
Proof.
  intros Hf. revert i table. induction Hf as [|inp inputs Hi Hf IH]; intros i table; [done|].
  cbn [insert_inputs]. rewrite (db_int_ok _ Hi). cbn [mbind res_bind]. by rewrite IH.
Qed.

Lemma insert_outputs_ok h i outputs table :
  Forall (fun out => int64 (to_value out) /\ int64 (to_lock_epoch out)) outputs ->
  insert_outputs h i outputs table = Ok (overwrite h i (map unspent_row outputs) table).
Proof.
  intros Hf. revert i table. induction Hf as [|out outputs [Hv Hl] Hf IH]; intros i table; [done|].
  cbn [insert_outputs]. rewrite (db_int_ok _ Hv), (db_int_ok _ Hl). cbn [mbind res_bind]. by rewrite IH.
Qed.

(** A finalized block and its transactions with their hashes. *)
Abbreviation entry := (ConsensusBlock * list (bytes * Transaction))%type.

Section Laws.
Context `{Hashlib}.

(** Its integers fit SQLite's and it can be encoded. *)
Record storable (h : bytes) (tx : Transaction) : Prop := {
  so_hash : tx_hash tx = Ok h;
  so_row : exists row, row_of_tx tx = Ok row;
  so_inputs : Forall (fun inp => int64 (ti_output_index inp)) (tx_inputs tx);
  so_outputs : Forall (fun out => int64 (to_value out) /\ int64 (to_lock_epoch out)) (tx_outputs tx);
}.

Record tx_stored (s : TransactionStore) (h : bytes) (tx : Transaction) : Prop := {
  st_row : is_Some (ts_transactions s !! h);
  st_inputs : lists (ts_inputs s) h (map outpoint_of (tx_inputs tx));
  st_outputs : exists rows, lists (ts_outputs s) h rows /\ map output_of_row rows = map strip (tx_outputs tx);
}.

Definition absent (s : TransactionStore) (h : bytes) : Prop :=
  lists (ts_inputs s) h [] /\ lists (ts_outputs s) h [].

Lemma store_transaction_ok s h tx :
  storable h tx -> exists row, row_of_tx tx = Ok row /\ store_transaction s tx =
    (mkTransactionStore (<[h := row]> (ts_transactions s))
       (overwrite h 0 (map outpoint_of (tx_inputs tx)) (ts_inputs s))
       (overwrite h 0 (map unspent_row (tx_outputs tx)) (ts_outputs s)), true).
Proof.
  intros [Hh [row Hr] Hi Ho]. exists row. split; [done|]. unfold store_transaction. rewrite Hh, Hr.
  cbn [mbind res_bind]. by rewrite (insert_inputs_ok _ _ _ _ Hi), (insert_outputs_ok _ _ _ _ Ho).
Qed.

Lemma store_transaction_stored s h tx :
  storable h tx -> absent s h ->
  let s' := (store_transaction s tx).1 in
  tx_stored s' h tx /\ forall h', h' <> h ->
    (absent s h' -> absent s' h') /\ forall tx', tx_stored s h' tx' -> tx_stored s' h' tx'.
Proof.
  intros Hst [Hi Ho]. destruct (store_transaction_ok s h tx Hst) as (row & _ & E). rewrite E. cbn [fst]. split.
  - split; cbn [ts_transactions ts_inputs ts_outputs].
    + rewrite lookup_insert_eq. by eexists.
    + pose proof (overwrite_lists _ (map outpoint_of (tx_inputs tx)) _ _ Hi) as Hl. by rewrite drop_nil, app_nil_r in Hl.
    + pose proof (overwrite_lists _ (map unspent_row (tx_outputs tx)) _ _ Ho) as Hl. rewrite drop_nil, app_nil_r in Hl.
      eexists. split; [exact Hl|]. by rewrite map_map.
  - intros h' Hne. split.
    + intros [Hi' Ho']. split; cbn [ts_inputs ts_outputs]; by apply overwrite_other.
    + intros tx' [Hr' Hi' (rows & Ho' & Hm)]. split; cbn [ts_transactions ts_inputs ts_outputs].
      * by rewrite lookup_insert_ne by congruence.
      * by apply overwrite_other.
      * exists rows. split; [by apply overwrite_other|done].
Qed.

(** Marking changes no value, address or lock. *)
Lemma mark_stored s h' i t :
  let s' := (mark_output_spent s h' i t).1 in
  forall h, (absent s h -> absent s' h) /\ forall tx, tx_stored s h tx -> tx_stored s' h tx.
Proof.
  intros s' h. unfold s', mark_output_spent. destruct (db_int i) as [j|] eqn:Ei; [|done].
  apply db_int_inv in Ei as [_ ->]. cbn [mbind res_bind transact fst].
  set (f := fun r => mkOutputRow (or_value r) (or_address r) (or_lock_epoch r) true (Some t)).
  assert (Hl : forall rows, lists (ts_outputs s) h rows -> exists rows',
    lists (alter f (h', i) (ts_outputs s)) h rows' /\ map output_of_row rows' = map output_of_row rows /\
    length rows' = length rows).
  { intros rows Hrows. destruct (decide ((h', i) = (h, Z.of_nat (Z.to_nat i)))) as [E|Hne].
    - injection E as -> E. exists (alter f (Z.to_nat i) rows). split; [|split].
      + intros j. destruct (decide (j = i)) as [->|Hj].
        * rewrite lookup_alter_eq, (Hrows i), (proj2 (Z.leb_le 0 i)) by lia. by rewrite list_lookup_alter_eq.
        * rewrite lookup_alter_ne by congruence. rewrite (Hrows j). destruct (Z.leb_spec 0 j); [|done].
          by rewrite list_lookup_alter_ne by lia.
      + apply list_eq. intros n. rewrite !lookup_map. destruct (decide (Z.to_nat i = n)) as [<-|Hn].
        * rewrite list_lookup_alter_eq. by destruct (rows !! Z.to_nat i).
        * by rewrite list_lookup_alter_ne.
      + apply length_alter.
    - exists rows. split; [|done]. intros j. destruct (decide ((h', i) = (h, j))) as [E|Hne'].
      + injection E as -> ->. rewrite lookup_alter_eq, (Hrows j). destruct (Z.leb_spec 0 j); [|done].
        destruct Hne. f_equal. lia.
      + rewrite lookup_alter_ne by done. apply Hrows. }
  split.
  - intros [Hi Ho]. split; [done|]. cbn [ts_outputs]. destruct (Hl [] Ho) as (rows' & Hr & _ & Hlen).
    by destruct rows'.
  - intros tx [Hr Hi (rows & Ho & Hm)]. split; [done..|]. cbn [ts_outputs].
    destruct (Hl rows Ho) as (rows' & Hr' & Hm' & _). exists rows'. split; [done|]. by rewrite Hm'.
Qed.

(** The tables hold the listed transactions and nothing else. *)
Record holds (s : TransactionStore) (l : list (bytes * Transaction)) : Prop := {
  ho_stored h tx : (h, tx) ∈ l -> tx_stored s h tx;
  ho_only h : h ∉ map fst l -> absent s h;
}.

Lemma holds_new : holds transaction_store_new [].
Proof. split; [set_solver|]. intros h _. split; apply lists_empty. Qed.

Lemma holds_marks s l h inputs :
  holds s l -> holds (foldl (fun s inp => (mark_output_spent s (ti_prev_tx_hash inp) (ti_output_index inp) h).1) s inputs) l.
Proof.
  revert s. induction inputs as [|inp inputs IH]; intros s [H1 H2]; [done|]. cbn [foldl]. apply IH. split.
  - intros h' tx Hin. apply mark_stored. by apply H1.
  - intros h' Hn. apply mark_stored. by apply H2.
Qed.

Lemma store_transactions_holds s l l' :
  holds s l -> Forall (fun x => storable x.1 x.2) l' -> NoDup (map fst (l ++ l')) ->
  exists s', store_transactions s (map snd l') = (s', Ok (map fst l')) /\ holds s' (l ++ l').
Proof.
  revert s l. induction l' as [|[h tx] l' IH]; intros s l Hh Hst Hnd; [exists s; by rewrite app_nil_r|].
  apply Forall_cons in Hst as [Htx Hst]. cbn [fst snd] in Htx. cbn [map fst snd store_transactions].
  rewrite (so_hash _ _ Htx).
  assert (Hn : h ∉ map fst l).
  { rewrite map_app in Hnd. cbn [map fst] in Hnd. apply NoDup_app in Hnd as (_ & Hd & _). intros Hin.
    apply (Hd h Hin). by constructor. }
  destruct (store_transaction_stored s h tx Htx (ho_only _ _ Hh h Hn)) as [Hs1 Hs2].
  set (s1 := (store_transaction s tx).1) in *.
  assert (H1 : holds s1 (l ++ [(h, tx)])).
  { split.
    - intros h' tx' [Hin|[= -> ->]%list_elem_of_singleton]%elem_of_app; [|done]. apply Hs2; [|by apply (ho_stored _ _ Hh)].
      intros ->. apply Hn, list_elem_of_In, in_map_iff. exists (h, tx'). split; [done|by apply list_elem_of_In].
    - intros h' Hn'. rewrite map_app, elem_of_app in Hn'. cbn [map fst] in Hn'.
      assert (Hne : h' <> h) by (intros ->; apply Hn'; right; by constructor).
      apply Hs2; [done|]. apply (ho_only _ _ Hh). tauto. }
  apply (holds_marks _ _ h (tx_inputs tx)) in H1. set (s2 := foldl _ s1 (tx_inputs tx)) in *.
  destruct (IH s2 (l ++ [(h, tx)]) H1 Hst) as (s' & E & Hs'); [by rewrite <- app_assoc|].
  exists s'. rewrite E. cbn [mbind res_bind]. rewrite <- app_assoc in Hs'. done.
Qed.

(** ** Chains *)

Definition store_chain (m : StorageManager) (chain : list entry) : StorageManager :=
  foldl (fun m x => (store_block_with_transactions m x.1 (map snd x.2)).1) m chain.

(** The linked list of blocks that is expected in the database. *)
Fixpoint linked_blocks (prev : option bytes) (chain : list entry) : res (list StoredBlock) :=
  match chain with
  | [] => Ok []
  | (block, l) :: chain =>
      b ← from_consensus_block block (map fst l) prev;
      bs ← linked_blocks (Some (sb_block_hash b)) chain;
      Ok (b :: bs)
  end.

Record entry_ok (x : entry) : Prop := {
  eo_epoch : (0 <= cb_epoch x.1 < 2 ^ 63)%Z;
  eo_time : exists ms, to_ms (cb_finalization_time x.1) = Ok ms /\ int64 ms;
  eo_storable : Forall (fun y => storable y.1 y.2) x.2;
}.

(** Increasing epochs, different hashes of blocks and of transactions. *)
Record chain_ok (chain : list entry) : Prop := {
  co_entries : Forall entry_ok chain;
  co_epochs : StronglySorted Z.lt (map (fun x => cb_epoch x.1) chain);
  co_hashes : NoDup (map (fun x => cb_block_hash x.1) chain);
  co_transactions : NoDup (map fst (concat (map snd chain)));
}.

Lemma from_consensus_block_ok (x : entry) prev :
  entry_ok x -> exists b, from_consensus_block x.1 (map fst x.2) prev = Ok b /\
    sb_epoch b = cb_epoch x.1 /\ sb_block_hash b = cb_block_hash x.1 /\ sb_transactions b = map fst x.2 /\
    sb_prev_hash b = prev_or_zero prev /\ int64 (sb_timestamp b).
Proof.
  intros [_ (ms & Ems & Hms) _]. unfold from_consensus_block. rewrite Ems. cbn [mbind res_bind].
  eexists. split; [reflexivity|done].
Qed.

(** The hash that the next block links to. *)
Definition tip (prev : option bytes) (bs : list StoredBlock) : option bytes :=
  match last bs with Some b => Some (sb_block_hash b) | None => prev end.

Lemma linked_blocks_snoc prev chain x bs b :
  linked_blocks prev chain = Ok bs -> from_consensus_block x.1 (map fst x.2) (tip prev bs) = Ok b ->
  linked_blocks prev (chain ++ [x]) = Ok (bs ++ [b]).
Proof.
  revert prev bs. induction chain as [|[block l] chain IH]; intros prev bs E Eb.
  - injection E as <-. destruct x as [block l]. cbn in *. by rewrite Eb.
  - cbn [linked_blocks app] in *.
    destruct (from_consensus_block block (map fst l) prev) as [b0|]; [|done]. cbn [mbind res_bind] in *.
    destruct (linked_blocks _ chain) as [bs0|] eqn:E0; [|done]. injection E as <-.
    rewrite (IH _ bs0 E0); [done|]. unfold tip in *. rewrite last_cons in Eb. by destruct (last bs0).
Qed.

(** What the database holds after a chain is stored. *)
Record stored_chain (chain : list entry) (m : StorageManager) (bs : list StoredBlock) : Prop := {
  sc_linked : linked_blocks None chain = Ok bs;
  sc_epochs : map sb_epoch bs = map (fun x => cb_epoch x.1) chain;
  sc_hashes : map sb_block_hash bs = map (fun x => cb_block_hash x.1) chain;
  sc_refs : map sb_transactions bs = map (fun x => map fst x.2) chain;
  sc_blocks : blocks_are (sm_blocks m) bs;
  sc_transactions : holds (sm_transactions m) (concat (map snd chain));
  sc_current : get_current_epoch (sm_state m) = Ok (default 0%Z (last (map sb_epoch bs)));
}.

Lemma int64_epoch z : (0 <= z < 2 ^ 63)%Z -> int64 z.
Proof. unfold int64. lia. Qed.

Lemma get_set_current_epoch s epoch s' :
  set_current_epoch s epoch = Ok s' -> get_current_epoch s' = Ok epoch.
Proof.
  unfold set_current_epoch. intros E. inv_res. unfold get_current_epoch, get_state, set_chain_state.
  cbn [db_chain_state]. rewrite lookup_insert_eq. pose proof (pack_uint_length _ _ _ E0) as Hl.
  destruct a; [done|]. by eapply unpack_pack_uint.
Qed.

Lemma StronglySorted_snoc_lt (l : list Z) z : StronglySorted Z.lt (l ++ [z]) ->
  StronglySorted Z.lt l /\ Forall (fun y => y < z)%Z l.
Proof.
  induction l as [|y l IH]; intros Hs; [split; constructor|]. inversion Hs as [|? ? Hs' Hf]; subst.
  apply IH in Hs' as [H1 H2]. apply Forall_app in Hf as [Hf1 Hf2%Forall_inv]. split; by constructor.
Qed.

Lemma chain_ok_snoc chain x : chain_ok (chain ++ [x]) -> chain_ok chain /\ entry_ok x /\
  Forall (fun e => e < cb_epoch x.1)%Z (map (fun x => cb_epoch x.1) chain) /\
  cb_block_hash x.1 ∉ map (fun x => cb_block_hash x.1) chain /\
  NoDup (map fst (concat (map snd chain) ++ x.2)).
Proof.
  intros [H1 H2 H3 H4]. rewrite map_app in *. cbn [map] in *. apply Forall_app in H1 as [H1 Hx%Forall_inv].
  apply StronglySorted_snoc_lt in H2 as [H2 Hlt]. apply NoDup_app in H3 as (H3 & Hd & _).
  rewrite concat_app in H4. cbn [concat] in H4. rewrite app_nil_r in H4.
  assert (H5 := H4). rewrite map_app in H5. apply NoDup_app in H5 as (H5 & _ & _).
  split; [by split|]. split; [done|]. split; [done|].
  split; [|by rewrite <- map_app]. intros Hin. apply (Hd _ Hin). by constructor.
Qed.

Lemma set_current_epoch_ok s epoch :
  (0 <= epoch < 2 ^ 63)%Z -> exists s', set_current_epoch s epoch = Ok s'.
Proof. intros He. unfold set_current_epoch. rewrite pack_uint_ok by (simpl; lia). by eexists. Qed.

Lemma store_transactions_hashes s l :
  Forall (fun y => tx_hash y.2 = Ok y.1) l -> exists s', store_transactions s (map snd l) = (s', Ok (map fst l)).
Proof.
  intros Hf. revert s. induction Hf as [|[h tx] l Hh Hf IH]; intros s; [by exists s|].
  cbn [map fst snd store_transactions] in *. rewrite Hh.
  destruct (IH (foldl (fun s inp => (mark_output_spent s (ti_prev_tx_hash inp) (ti_output_index inp) h).1)
    (store_transaction s tx).1 (tx_inputs tx))) as (s' & E). rewrite E. by exists s'.
Qed.

(** Storing a finalized block reports success, whatever becomes of its row. *)
Lemma store_entry m bs x :
  blocks_are (sm_blocks m) bs -> increasing bs -> Forall (fun b => int64 (sb_epoch b)) bs -> entry_ok x ->
  exists ts b st, store_transactions (sm_transactions m) (map snd x.2) = (ts, Ok (map fst x.2)) /\
    from_consensus_block x.1 (map fst x.2) (sb_block_hash <$> last bs) = Ok b /\
    set_current_epoch (sm_state m) (cb_epoch x.1) = Ok st /\
    store_block_with_transactions m x.1 (map snd x.2) =
      (mkStorageManager (store_block (sm_blocks m) b).1 ts st (sm_utxo_set m), true).
Proof.
  intros Hm Hinc H64 Hx. destruct (store_transactions_hashes (sm_transactions m) x.2) as (ts & E).
  { eapply Forall_impl; [apply (eo_storable x Hx)|]. intros y Hy. apply (so_hash _ _ Hy). }
  destruct (from_consensus_block_ok x (sb_block_hash <$> last bs) Hx) as (b & Eb & _).
  destruct (set_current_epoch_ok (sm_state m) _ (eo_epoch x Hx)) as [st Est].
  exists ts, b, st. split; [done|]. split; [done|]. split; [done|].
  unfold store_block_with_transactions. rewrite E. cbn [sm_blocks sm_state sm_utxo_set mbind res_bind].
  rewrite (latest_block_are _ bs Hm Hinc H64). cbn [mbind res_bind]. rewrite Eb. cbn [sm_state]. by rewrite Est.
Qed.

Lemma stored_int64 chain (bs : list StoredBlock) :
  chain_ok chain -> map sb_epoch bs = map (fun x => cb_epoch x.1) chain -> Forall (fun b => int64 (sb_epoch b)) bs.
Proof.
  intros Hc E. apply (Forall_fmap sb_epoch int64 bs). change (Forall int64 (map sb_epoch bs)). rewrite E.
  apply Forall_fmap. eapply Forall_impl; [apply (co_entries _ Hc)|]. intros x Hx. apply int64_epoch, (eo_epoch x Hx).
Qed.

Lemma stored_increasing chain m bs : chain_ok chain -> stored_chain chain m bs -> increasing bs.
Proof. intros Hc Hs. unfold increasing. rewrite (sc_epochs _ _ _ Hs). apply Hc. Qed.

Lemma store_chain_snoc m chain x :
  store_chain m (chain ++ [x]) = (store_block_with_transactions (store_chain m chain) x.1 (map snd x.2)).1.
Proof. unfold store_chain. by rewrite foldl_app. Qed.

Lemma store_chain_ok chain : chain_ok chain -> exists bs, stored_chain chain (store_chain storage_new chain) bs.
Proof.
  induction chain as [|x chain IH] using rev_ind; intros Hc.
  { exists []. split; try done; [apply blocks_are_new|apply holds_new]. }
  apply chain_ok_snoc in Hc as (Hc & Hx & Hlt & Hh & Hnd). destruct (IH Hc) as [bs S].
  pose proof (stored_increasing _ _ _ Hc S) as Hinc. destruct S as [S1 S2 S3 S4 S5 S6 S7].
  rewrite store_chain_snoc. set (m := store_chain storage_new chain) in *.
  destruct (store_entry m bs x S5 Hinc (stored_int64 _ _ Hc S2) Hx) as (ts & b & st & E & Eb & Hst & ->). cbn [fst].
  destruct (store_transactions_holds (sm_transactions m) _ _ S6 (eo_storable x Hx) Hnd) as (ts' & E' & Hts).
  rewrite E in E'. injection E' as <-.
  destruct (from_consensus_block_ok x (sb_block_hash <$> last bs) Hx) as (b' & Eb' & B1 & B2 & B3 & B4 & B5).
  rewrite Eb in Eb'. injection Eb' as <-.
  destruct (store_block_are (sm_blocks m) bs b S5) as (s' & Es & Hs').
  { rewrite B1. by apply int64_epoch, Hx. }
  { done. }
  { rewrite B1, S2. intros Hin. rewrite Forall_forall in Hlt. specialize (Hlt _ Hin). lia. }
  { by rewrite B2, S3. }
  rewrite Es. exists (bs ++ [b]).
  split; cbn [sm_blocks sm_transactions sm_state fst];
    rewrite ?map_app; cbn [map]; rewrite ?S2, ?S3, ?S4, ?B1, ?B2, ?B3; try done.
  - apply linked_blocks_snoc; [done|]. rewrite <- Eb. f_equal; unfold tip; by destruct (last bs).
  - rewrite concat_app. cbn [concat]. by rewrite app_nil_r.
  - rewrite last_snoc. by eapply get_set_current_epoch.
Qed.

(** ** The chain in the database *)

Lemma linked_blocks_prev prev chain bs :
  linked_blocks prev chain = Ok bs ->
  (forall b, bs !! 0 = Some b -> sb_prev_hash b = prev_or_zero prev) /\
  forall i b b', bs !! i = Some b -> bs !! S i = Some b' -> sb_prev_hash b' = prev_or_zero (Some (sb_block_hash b)).
Proof.
  revert prev bs. induction chain as [|[block l] chain IH]; intros prev bs E; cbn [linked_blocks] in E.
  { by injection E as <-. }
  destruct (from_consensus_block block (map fst l) prev) as [b0|] eqn:E0; [|done]. cbn [mbind res_bind] in E.
  destruct (linked_blocks _ chain) as [bs0|] eqn:E1; [|done]. injection E as <-. destruct (IH _ _ E1) as [H1 H2].
  assert (Hb0 : sb_prev_hash b0 = prev_or_zero prev).
  { unfold from_consensus_block in E0. by destruct (to_ms _); [injection E0 as <-|]. }
  split; [by intros b [= <-]|]. intros [|i] b b' Hb Hb'; [injection Hb as <-; by apply H1|by apply (H2 i)].
Qed.

(** C26. The stored chain is linked.  After any chain of blocks with increasing epochs and different
    hashes was stored, every block is found under its epoch with the hashes of its transactions in order, the first
    links to zeros and every other to the hash of the one before it, and the latest block and
    the current epoch are those of the last one. *)
Theorem stored_chain_linked (chain : list entry) (Hchain : chain_ok chain) :
  let m := store_chain storage_new chain in
  exists bs,
    Forall2 (fun x b => get_block (sm_blocks m) (cb_epoch x.1) = Ok (Some b) /\
      sb_block_hash b = cb_block_hash x.1 /\ sb_transactions b = map fst x.2) chain bs /\
    (forall b, bs !! 0 = Some b -> sb_prev_hash b = zero32) /\
    (forall i b b', bs !! i = Some b -> bs !! S i = Some b' ->
       sb_prev_hash b' = prev_or_zero (Some (sb_block_hash b))) /\
    get_latest_block (sm_blocks m) = Ok (last bs) /\
    get_current_epoch (sm_state m) = Ok (default 0%Z (last (map (fun x => cb_epoch x.1) chain))).
Proof.
  intros m. destruct (store_chain_ok chain Hchain) as [bs [S1 S2 S3 S4 S5 S6 S7]]. fold m in S5, S6, S7.
  assert (Hinc : increasing bs) by (unfold increasing; rewrite S2; apply Hchain).
  pose proof (stored_int64 _ _ Hchain S2) as H64.
  exists bs. destruct (linked_blocks_prev _ _ _ S1) as [L1 L2]. split; [|split; [done|split; [done|split]]].
  - apply Forall2_same_length_lookup. split.
    { apply (f_equal length) in S2. by rewrite !length_map in S2. }
    intros i x b Hx Hb.
    assert (Hmap : forall {B} (f : StoredBlock -> B) (g : entry -> B), map f bs = map g chain -> f b = g x).
    { intros B f g E. apply (f_equal (.!! i)) in E. rewrite !lookup_map, Hb, Hx in E. by injection E. }
    pose proof (Hmap _ _ _ S2) as He. cbn beta in He. rewrite <- He. split.
    + apply (get_block_are _ bs); [done|by eapply list_elem_of_lookup_2|].
      rewrite Forall_forall in H64. apply H64. by eapply list_elem_of_lookup_2.
    + split; [exact (Hmap _ _ _ S3)|exact (Hmap _ _ _ S4)].
  - by apply latest_block_are.
  - by rewrite <- S2.
Qed.

(** ** What goes wrong *)

(** A second block of an epoch.  Storing another block of an epoch that has one reports
    success: the header of the first block stays, but its transactions are replaced, one by
    one from the first, by those of the second. *)
Theorem conflicting_block_mixes (s : BlockStore) (bs : list StoredBlock) (b1 b2 : StoredBlock)
    (Hs : blocks_are s bs) (Hb1 : b1 ∈ bs) (Hepoch : sb_epoch b2 = sb_epoch b1)
    (H1 : int64 (sb_epoch b2)) (H2 : int64 (sb_timestamp b2)) :
  exists s', store_block s b2 = (s', true) /\
    get_block s' (sb_epoch b1) = Ok (Some (mkStoredBlock (sb_epoch b1) (sb_block_hash b1) (sb_prev_hash b1)
      (sb_merkle_root b1) (sb_timestamp b1) (sb_proposer_id b1)
      (sb_transactions b2 ++ drop (length (sb_transactions b2)) (sb_transactions b1)) (sb_raw_data b1))).
Proof.
  destruct (proj1 (Forall_forall _ _) (ba_rows _ _ Hs) b1 Hb1) as [E Hl].
  unfold store_block, insert_block. rewrite (db_int_ok _ H1), (db_int_ok _ H2). cbn [mbind res_bind].
  rewrite Hepoch, E. eexists. split; [reflexivity|]. rewrite insert_refs_overwrite. unfold get_block.
  rewrite <- Hepoch, (db_int_ok _ H1), Hepoch. cbn [mbind res_bind bs_blocks]. rewrite E.
  unfold block_tx_hashes. cbn [bs_transactions].
  by rewrite (lists_order _ _ _ (overwrite_lists _ (sb_transactions b2) _ _ Hl)), numbered_values.
Qed.

(** Storing a transaction again.  After an output was marked as spent, storing its transaction
    a second time makes the database list it as unspent. *)
Theorem restore_resets_spent (s : TransactionStore) (h t : bytes) (tx : Transaction) (i : nat) (out : TxOutput)
    (Htx : storable h tx) (Hout : tx_outputs tx !! i = Some out) (Hi : int64 (Z.of_nat i)) :
  let s1 := (store_transaction s tx).1 in
  let s2 := (mark_output_spent s1 h (Z.of_nat i) t).1 in
  let s3 := (store_transaction s2 tx).1 in
  or_spent <$> ts_outputs s2 !! (h, Z.of_nat i) = Some true /\
  ((h, Z.of_nat i), unspent_row out) ∈ get_utxos_for_address s3 (to_address out).
Proof.
  assert (Hrow : forall s, ts_outputs (store_transaction s tx).1 !! (h, Z.of_nat i) = Some (unspent_row out)).
  { intros s0. destruct (store_transaction_ok s0 h tx Htx) as (row & _ & ->). cbn [fst ts_outputs].
    rewrite overwrite_lookup, bool_decide_eq_true_2, Z.sub_0_r, Nat2Z.id, lookup_map, Hout by done.
    rewrite (proj2 (Z.leb_le 0 _)), length_map by lia. pose proof (lookup_lt_Some _ _ _ Hout).
    by rewrite (proj2 (Z.ltb_lt _ _)) by lia. }
  intros s1 s2 s3. split.
  - unfold s2, mark_output_spent. rewrite (db_int_ok _ Hi). cbn [mbind res_bind transact fst ts_outputs].
    rewrite lookup_alter_eq. unfold s1. by rewrite Hrow.
  - unfold get_utxos_for_address. apply list_elem_of_filter. split; [done|]. by apply elem_of_map_to_list, Hrow.
Qed.

(** A block that is not there.  When a finalized block has the hash of a stored block of another
    epoch, the manager reports that it stored the block and advances the current epoch, but no
    block of that epoch is stored. *)
Theorem stored_block_may_be_lost (m : StorageManager) (bs : list StoredBlock) (x : entry) (old : StoredBlock)
    (Hm : blocks_are (sm_blocks m) bs) (Hinc : increasing bs) (H64 : Forall (fun b => int64 (sb_epoch b)) bs)
    (Hx : entry_ok x) (Hold : old ∈ bs) (Hhash : sb_block_hash old = cb_block_hash x.1)
    (Hnew : cb_epoch x.1 ∉ map sb_epoch bs) :
  exists m', store_block_with_transactions m x.1 (map snd x.2) = (m', true) /\
    sm_blocks m' = sm_blocks m /\ get_block (sm_blocks m') (cb_epoch x.1) = Ok None /\
    get_current_epoch (sm_state m') = Ok (cb_epoch x.1).
Proof.
  destruct (store_entry m bs x Hm Hinc H64 Hx) as (ts & b & st & _ & Eb & Hst & ->).
  destruct (from_consensus_block_ok x (sb_block_hash <$> last bs) Hx) as (b' & Eb' & B1 & B2 & _ & _ & B5).
  rewrite Eb in Eb'. injection Eb' as <-. assert (He := int64_epoch _ (eo_epoch x Hx)).
  assert (Es : store_block (sm_blocks m) b = (sm_blocks m, false)).
  { unfold store_block, insert_block. rewrite B1, (db_int_ok _ He), (db_int_ok _ B5). cbn [mbind res_bind].
    rewrite (proj1 (ba_only _ _ Hm _ Hnew)).
    assert (Hex : existsb (fun kv => bool_decide (br_block_hash kv.2 = sb_block_hash b)) (map_to_list (bs_blocks (sm_blocks m))) = true).
    { apply existsb_exists. exists (sb_epoch old, row_of_block old). split.
      - apply list_elem_of_In, elem_of_map_to_list. by apply (proj1 (Forall_forall _ _) (ba_rows _ _ Hm) old Hold).
      - apply bool_decide_eq_true_2. cbn. congruence. }
    by rewrite Hex. }
  rewrite Es. cbn [fst sm_blocks sm_state].
  eexists. split; [reflexivity|]. split; [done|].
  split; [by eapply get_block_none|]. by eapply get_set_current_epoch.
Qed.

End Laws.

(** Slashing does not last.  Registering a slashed validator again replaces its row, and it is
    active and not slashed. *)
Theorem reregister_clears_slashing (s : StateDB) (id address evidence : bytes) (reason : string)
    (stake zone amount epoch ms : Z) (now : float64) (row : validator_row)
    (Hrow : db_validators s !! id = Some row) (Hnow : to_ms now = Ok ms)
    (H64 : Forall int64 [stake; zone; amount; epoch; ms]) :
  exists s1 s2 row1 row2, slash_validator s id reason evidence amount epoch now = (s1, true) /\
    db_validators s1 !! id = Some row1 /\ vr_slashed row1 = true /\ vr_active row1 = false /\
    register_validator s1 id address stake zone epoch = (s2, true) /\
    db_validators s2 !! id = Some row2 /\ vr_slashed row2 = false /\ vr_active row2 = true.
Proof.
  rewrite !Forall_cons in H64. destruct H64 as (Hs & Hz & Ha & He & Hm & _).
  unfold slash_validator, register_validator. rewrite Hnow. cbn [mbind res_bind].
  rewrite (db_int_ok _ He), (db_int_ok _ Ha), (db_int_ok _ Hm). cbn [mbind res_bind transact].
  rewrite (db_int_ok _ Hs), (db_int_ok _ Hz). cbn [mbind res_bind transact].
  eexists _, _, _, _. split; [reflexivity|]. cbn [db_validators with_validators].
  rewrite lookup_alter_eq, Hrow. do 4 (split; [reflexivity|]). cbn [db_validators with_validators].
  rewrite lookup_insert_eq. by repeat split.
Qed.

(** ** Authentication roots *)

(** A call of the registry, with the epoch and transaction hash that the database adds. *)
Record auth_call := mkAuthCall {
  ac_op : registry_op;
  ac_epoch : Z;
  ac_tx_hash : option bytes;
}.

Definition auth_step (s : StateDB) (c : auth_call) : StateDB * res bool :=
  match ac_op c with
  | RRegister a root => register_auth s a root (ac_epoch c) (ac_tx_hash c)
  | RRotate a root => let '(s, b) := rotate_auth s a root (ac_epoch c) (ac_tx_hash c) in (s, Ok b)
  end.

Fixpoint auth_run (s : StateDB) (calls : list auth_call) : StateDB * list (res bool) :=
  match calls with
  | [] => (s, [])
  | c :: calls => let '(s, r) := auth_step s c in let '(s, l) := auth_run s calls in (s, r :: l)
  end.

Fixpoint registry_answers (r : AuthRegistry) (calls : list auth_call) : list bool :=
  match calls with
  | [] => []
  | c :: calls => (registry_step r (ac_op c)).2 :: registry_answers (registry_step r (ac_op c)).1 calls
  end.

(** The table and the registry agree on an address. *)
Definition agree (s : StateDB) (r : AuthRegistry) : Prop :=
  forall a, get_auth_root s a = Ledger.get_auth_root r a /\ is_address_registered s a = is_registered r a /\
    ar_rotation_count <$> db_auth s !! a = rotation_counts r !! a.

Lemma agree_put s r a root epoch t n :
  agree s r -> agree (with_auth s (<[a := mkAuthRow root epoch t n]> (db_auth s)))
    (mkAuthRegistry (<[a := root]> (auth_roots r)) ({[a]} ∪ registered_addresses r) (<[a := n]> (rotation_counts r))).
Proof.
  intros Ha a'. unfold get_auth_root, is_address_registered, Ledger.get_auth_root, is_registered, with_auth.
  cbn [db_auth auth_roots registered_addresses rotation_counts]. destruct (decide (a = a')) as [<-|Hne].
  - rewrite !lookup_insert_eq. split; [done|]. split; [|done]. rewrite !bool_decide_eq_true_2; [done|set_solver|by eexists].
  - rewrite !lookup_insert_ne by done. destruct (Ha a') as (H1 & H2 & H3). split; [exact H1|]. split; [|exact H3].
    unfold is_address_registered, is_registered in H2. rewrite H2. apply bool_decide_ext. set_solver.
Qed.

Lemma auth_step_agree s r c :
  agree s r -> int64 (ac_epoch c) -> (auth_step s c).2 = Ok (registry_step r (ac_op c)).2 /\
    agree (auth_step s c).1 (registry_step r (ac_op c)).1.
Proof.
  intros Ha He. destruct c as [[a root|a root] epoch t]; unfold auth_step, registry_step, register_auth, rotate_auth,
    register_via_tx, rotate_via_tx; cbn [ac_op ac_epoch ac_tx_hash] in *; rewrite (db_int_ok _ He);
    destruct (Ha a) as (_ & H2 & H3); unfold is_address_registered, is_registered in H2; rewrite <- H2;
    destruct (db_auth s !! a) as [row|]; cbn [fmap option_fmap option_map] in H3.
  - by rewrite bool_decide_eq_true_2 by (by eexists).
  - rewrite bool_decide_eq_false_2 by (by intros []). split; [done|]. by apply agree_put.
  - rewrite bool_decide_eq_true_2 in * by (by eexists). cbn [negb fst snd]. split; [done|].
    unfold lookup_default. rewrite <- H3. cbn [default from_option id].
    symmetry in H2. apply bool_decide_eq_true in H2.
    replace (registered_addresses r) with ({[a]} ∪ registered_addresses r) by set_solver. by apply agree_put.
  - by rewrite bool_decide_eq_false_2 by (by intros []).
Qed.

(** C36. The table of authentication roots is the registry.  Over any calls with 64-bit epochs, the
    database gives the answers of the registry in memory, and afterwards knows the same
    addresses with the same roots and the same numbers of rotations. *)
Theorem auth_table_refines_registry (calls : list auth_call) (H64 : Forall (fun c => int64 (ac_epoch c)) calls) :
  let '(s, answers) := auth_run state_db_new calls in
  answers = map Ok (registry_answers auth_registry_new calls) /\
  agree s (registry_run auth_registry_new (map ac_op calls)).
Proof.
  assert (Hgen : forall s r, agree s r -> let '(s', answers) := auth_run s calls in
    answers = map Ok (registry_answers r calls) /\ agree s' (registry_run r (map ac_op calls))).
  { induction H64 as [|c calls Hc H64' IH]; intros s r Ha; [by split|]. cbn [auth_run].
    destruct (auth_step_agree s r c Ha Hc) as [E Hs]. destruct (auth_step s c) as [s1 r1]. cbn [fst snd] in *. subst r1.
    specialize (IH s1 (registry_step r (ac_op c)).1 Hs). destruct (auth_run s1 calls) as [s2 l]. destruct IH as [-> Ha2].
    by split. }
  apply Hgen. intros a. unfold get_auth_root, is_address_registered, Ledger.get_auth_root, is_registered, state_db_new.
  cbn [db_auth auth_roots registered_addresses rotation_counts auth_registry_new]. rewrite !lookup_empty.
  split; [done|]. split; [|done]. rewrite !bool_decide_eq_false_2; [done|set_solver|by intros []].
Qed.

(** ** Sample runs *)

Section Samples.
#[local] Existing Instance toy_hashlib.

Definition ok_or_nil (r : res bytes) : bytes := match r with Ok h => h | Err _ => [] end.

Definition sample_mint : Transaction :=
  mkTransaction 1 COINBASE [] [mkTxOutput 700 [Byte.x0a] 0 [Byte.x01]; mkTxOutput 300 [Byte.x0b] 0 []] 0 5 0 [] None.

Definition mint_hash : bytes := ok_or_nil (tx_hash sample_mint).

Definition sample_spend : Transaction :=
  mkTransaction 1 TRANSFER [mkTxInput mint_hash 0 [] [] None (-1)] [mkTxOutput 690 [Byte.x0c] 0 []] 2 6 10 [] None.

Definition spend_hash : bytes := ok_or_nil (tx_hash sample_spend).

Definition sample_block (epoch : Z) (hash : bytes) : ConsensusBlock :=
  mkConsensusBlock epoch 0 (mkConsensusProposal [Byte.x01] epoch 0 [Byte.x02] ∅ [] [] (PInt 5) []) [] 100 100
    (float_of_Z 9) hash.

Definition sample_chain : list entry :=
  [(sample_block 0 [Byte.x05], [(mint_hash, sample_mint)]);
   (sample_block 2 [Byte.x06], [(spend_hash, sample_spend)])].

Lemma sample_mint_storable : storable mint_hash sample_mint.
Proof.
  split; [vm_compute; reflexivity|eexists; vm_compute; reflexivity|constructor|].
  repeat constructor; vm_compute; intros; discriminate.
Qed.

Lemma sample_spend_storable : storable spend_hash sample_spend.
Proof.
  split; [vm_compute; reflexivity|eexists; vm_compute; reflexivity| |]; repeat constructor; vm_compute; intros; discriminate.
Qed.

Lemma sample_entry_ok epoch hash h tx :
  (0 <= epoch < 2 ^ 63)%Z -> storable h tx -> entry_ok (sample_block epoch hash, [(h, tx)]).
Proof.
  intros He Htx. split; [done| |by apply Forall_singleton].
  exists 9000%Z. split; [vm_compute; reflexivity|]. split; [discriminate|reflexivity].
Qed.

Lemma sample_chain_ok : chain_ok sample_chain.
Proof.
  split.
  - apply Forall_cons. split; [apply sample_entry_ok; [lia|exact sample_mint_storable]|].
    apply Forall_singleton, sample_entry_ok; [lia|exact sample_spend_storable].
  - repeat constructor.
  - apply NoDup_cons. split; [|apply NoDup_singleton]. intros E%list_elem_of_singleton. discriminate E.
  - assert (Hne : mint_hash <> spend_hash) by (vm_compute; discriminate).
    change (NoDup [mint_hash; spend_hash]). apply NoDup_cons. split; [|apply NoDup_singleton].
    intros E%list_elem_of_singleton. exact (Hne E).
Qed.

Lemma stored_chain_linked_witness :
  let m := store_chain storage_new sample_chain in
  exists bs,
    Forall2 (fun x b => get_block (sm_blocks m) (cb_epoch x.1) = Ok (Some b) /\
      sb_block_hash b = cb_block_hash x.1 /\ sb_transactions b = map fst x.2) sample_chain bs /\
    (forall b, bs !! 0 = Some b -> sb_prev_hash b = zero32) /\
    (forall i b b', bs !! i = Some b -> bs !! S i = Some b' ->
       sb_prev_hash b' = prev_or_zero (Some (sb_block_hash b))) /\
    get_latest_block (sm_blocks m) = Ok (last bs) /\
    get_current_epoch (sm_state m) = Ok (default 0%Z (last (map (fun x => cb_epoch x.1) sample_chain))).
Proof. apply (stored_chain_linked sample_chain sample_chain_ok). Defined.

Definition stored_sample (hash : bytes) (hs : list bytes) : StoredBlock :=
  mkStoredBlock 3 hash zero32 [Byte.x02] 9000 [Byte.x01] hs [].

Lemma sample_store_are : blocks_are (store_block block_store_new (stored_sample [Byte.x05] [[Byte.x01]; [Byte.x02]])).1
  [stored_sample [Byte.x05] [[Byte.x01]; [Byte.x02]]].
Proof.
  destruct (store_block_are block_store_new [] (stored_sample [Byte.x05] [[Byte.x01]; [Byte.x02]]))
    as (s' & E & Hs); try apply blocks_are_new; try (split; [discriminate|reflexivity]); try (intros E; inversion E).
  by rewrite E.
Qed.

Lemma conflicting_block_mixes_witness :
  exists s', store_block (store_block block_store_new (stored_sample [Byte.x05] [[Byte.x01]; [Byte.x02]])).1
      (stored_sample [Byte.x06] [[Byte.x03]]) = (s', true) /\
    get_block s' 3 = Ok (Some (stored_sample [Byte.x05] [[Byte.x03]; [Byte.x02]])).
Proof.
  apply (conflicting_block_mixes _ _ (stored_sample [Byte.x05] [[Byte.x01]; [Byte.x02]])
    (stored_sample [Byte.x06] [[Byte.x03]]) sample_store_are).
  - by apply list_elem_of_singleton.
  - reflexivity.
  - split; [discriminate|reflexivity].
  - split; [discriminate|reflexivity].
Defined.

Lemma restore_resets_spent_witness :
  let s1 := (store_transaction transaction_store_new sample_mint).1 in
  let s2 := (mark_output_spent s1 mint_hash 1 spend_hash).1 in
  let s3 := (store_transaction s2 sample_mint).1 in
  or_spent <$> ts_outputs s2 !! (mint_hash, 1%Z) = Some true /\
  ((mint_hash, 1%Z), unspent_row (mkTxOutput 300 [Byte.x0b] 0 [])) ∈ get_utxos_for_address s3 [Byte.x0b].
Proof.
  apply (restore_resets_spent transaction_store_new mint_hash spend_hash sample_mint 1 (mkTxOutput 300 [Byte.x0b] 0 [])).
  - exact sample_mint_storable.
  - reflexivity.
  - split; [discriminate|reflexivity].
Defined.

Definition occupied : StorageManager :=
  mkStorageManager (store_block block_store_new (stored_sample [Byte.x05] [[Byte.x01]; [Byte.x02]])).1
    transaction_store_new state_db_new utxo_set_new.

Lemma stored_block_may_be_lost_witness :
  exists m', store_block_with_transactions occupied (sample_block 4 [Byte.x05]) [sample_mint] = (m', true) /\
    sm_blocks m' = sm_blocks occupied /\ get_block (sm_blocks m') 4 = Ok None /\
    get_current_epoch (sm_state m') = Ok 4%Z.
Proof.
  apply (stored_block_may_be_lost occupied [stored_sample [Byte.x05] [[Byte.x01]; [Byte.x02]]]
    (sample_block 4 [Byte.x05], [(mint_hash, sample_mint)]) (stored_sample [Byte.x05] [[Byte.x01]; [Byte.x02]])).
  - exact sample_store_are.
  - repeat constructor.
  - repeat constructor; discriminate.
  - apply sample_entry_ok; [lia|exact sample_mint_storable].
  - by apply list_elem_of_singleton.
  - reflexivity.
  - intros E%list_elem_of_singleton. discriminate E.
Defined.

Lemma reregister_clears_slashing_witness :
  exists s1 s2 row1 row2,
    slash_validator (register_validator state_db_new [Byte.x01] [Byte.x0a] 100 0 1).1 [Byte.x01] "equivocation"
      [Byte.x02] 10 2 (float_of_Z 9) = (s1, true) /\
    db_validators s1 !! [Byte.x01] = Some row1 /\ vr_slashed row1 = true /\ vr_active row1 = false /\
    register_validator s1 [Byte.x01] [Byte.x0a] 90 0 2 = (s2, true) /\
    db_validators s2 !! [Byte.x01] = Some row2 /\ vr_slashed row2 = false /\ vr_active row2 = true.
Proof.
  eapply (reregister_clears_slashing _ [Byte.x01] [Byte.x0a] [Byte.x02] "equivocation" 90 0 10 2 9000).
  - vm_compute. reflexivity.
  - vm_compute. reflexivity.
  - repeat constructor; discriminate.
Defined.

Lemma auth_table_refines_registry_witness :
  let calls := [mkAuthCall (RRegister [Byte.x0a] [Byte.x01]) 1 None; mkAuthCall (RRegister [Byte.x0a] [Byte.x02]) 2 None;
                mkAuthCall (RRotate [Byte.x0a] [Byte.x03]) 3 (Some [Byte.x07])] in
  let '(s, answers) := auth_run state_db_new calls in
  answers = [Ok true; Ok false; Ok true] /\ agree s (registry_run auth_registry_new (map ac_op calls)).
Proof.
  apply (auth_table_refines_registry [mkAuthCall (RRegister [Byte.x0a] [Byte.x01]) 1 None;
    mkAuthCall (RRegister [Byte.x0a] [Byte.x02]) 2 None; mkAuthCall (RRotate [Byte.x0a] [Byte.x03]) 3 (Some [Byte.x07])]).
  repeat constructor; discriminate.
Defined.

End Samples.
