(* ===== verification/StorageSchema.v ===== *)
(** * The schema of the storage

    SQLite neither types the columns nor, as the storage opens it, enforces the foreign keys of
    the schema in [src/src/storage.py].  The operations do: after any sequence of calls every
    integer fits its column, block hashes are unique, every reference of a block, input and
    output has the row it refers to, an output names its spender exactly when it is spent, and a
    validator is active exactly when it is not slashed ([storage_well_typed]). *)

From stdpp Require Import prelude list gmap strings.
From Stdlib Require Import Strings.Byte ZArith Lia.
From S2P Require Import Prelude.
From S2P Require Import PyFloat.
From S2P Require Import Crypto.
From S2P Require Import Transaction.
From S2P Require Import Ledger.
From S2P Require Import Consensus.
From S2P Require Import Storage.
From S2P Require Import StorageLaws.

Set Default Goal Selector "!".

(** ** Well-typed tables *)

Record blocks_typed (s : BlockStore) : Prop := {
  bt_rows : map_Forall (fun e r => int64 e /\ int64 (br_timestamp r) /\ (0 <= br_tx_count r)%Z) (bs_blocks s);
  bt_unique e e' r r' : bs_blocks s !! e = Some r -> bs_blocks s !! e' = Some r' ->
    br_block_hash r = br_block_hash r' -> e = e';
  bt_refs : map_Forall (fun k _ => is_Some (bs_blocks s !! k.1) /\ (0 <= k.2)%Z) (bs_transactions s);
}.

Definition tx_row_typed (r : tx_row) : Prop :=
  Forall int64 [tr_version r; tr_epoch r; tr_timestamp r; tr_fee r] /\ (0 <= tr_tx_type r <= 7)%Z /\
  (0 <= tr_input_count r)%Z /\ (0 <= tr_output_count r)%Z.

Record transactions_typed (s : TransactionStore) : Prop := {
  tt_rows : map_Forall (fun _ r => tx_row_typed r) (ts_transactions s);
  tt_inputs : map_Forall (fun k p => is_Some (ts_transactions s !! k.1) /\ (0 <= k.2)%Z /\ int64 p.2) (ts_inputs s);
  tt_outputs : map_Forall (fun k r => is_Some (ts_transactions s !! k.1) /\ (0 <= k.2)%Z /\
    int64 (or_value r) /\ int64 (or_lock_epoch r) /\ or_spent r = bool_decide (is_Some (or_spent_by r))) (ts_outputs s);
}.

Definition validator_typed (r : validator_row) : Prop :=
  Forall int64 [vr_stake r; vr_zone_id r; vr_registered_epoch r] /\ vr_active r = negb (vr_slashed r).

Record state_typed (s : StateDB) : Prop := {
  sd_validators : map_Forall (fun _ r => validator_typed r) (db_validators s);
  sd_entropy : map_Forall (fun e r => int64 e /\ int64 (er_sources_used r) /\ int64 (er_timestamp r)) (db_entropy s);
  sd_events : Forall (fun ev => Forall int64 [se_epoch ev; se_slash_amount ev; se_timestamp ev]) (db_slashing_events s);
  sd_auth : map_Forall (fun _ r => int64 (ar_epoch r) /\ (0 <= ar_rotation_count r)%Z) (db_auth s);
}.

Definition storage_typed (m : StorageManager) : Prop :=
  blocks_typed (sm_blocks m) /\ transactions_typed (sm_transactions m) /\ state_typed (sm_state m).

(** ** Histories of calls *)

Inductive storage_op :=
  | OpBlock (b : StoredBlock)
  | OpTransaction (tx : Transaction)
  | OpSpent (h : bytes) (output_index : Z) (spending_tx : bytes)
  | OpRegister (id address : bytes) (stake zone_id epoch : Z)
  | OpStake (id : bytes) (stake : Z)
  | OpSlash (id : bytes) (reason : string) (evidence_hash : bytes) (amount epoch : Z) (now : float64)
  | OpState (key : string) (value : bytes)
  | OpEpoch (epoch : Z)
  | OpEntropy (epoch : Z) (entropy : bytes) (sources_used : Z) (now : float64)
  | OpAuth (address root : bytes) (epoch : Z) (tx_hash : option bytes)
  | OpRotate (address root : bytes) (epoch : Z) (tx_hash : option bytes)
  | OpStore (block : ConsensusBlock) (transactions : list Transaction)
  | OpRebuild.

Definition on_state (m : StorageManager) (s : StateDB) : StorageManager :=
  mkStorageManager (sm_blocks m) (sm_transactions m) s (sm_utxo_set m).

(** An exception leaves the databases as they were. *)
Definition or_same {A} (x : A) (r : res A) : A := match r with Ok y => y | Err _ => x end.

Section Schema.
Context `{Hashlib}.

Definition storage_step (m : StorageManager) (op : storage_op) : StorageManager :=
  match op with
  | OpBlock b => mkStorageManager (store_block (sm_blocks m) b).1 (sm_transactions m) (sm_state m) (sm_utxo_set m)
  | OpTransaction tx =>
      mkStorageManager (sm_blocks m) (store_transaction (sm_transactions m) tx).1 (sm_state m) (sm_utxo_set m)
  | OpSpent h i t =>
      mkStorageManager (sm_blocks m) (mark_output_spent (sm_transactions m) h i t).1 (sm_state m) (sm_utxo_set m)
  | OpRegister id a stake zone epoch => on_state m (register_validator (sm_state m) id a stake zone epoch).1
  | OpStake id stake => on_state m (update_validator_stake (sm_state m) id stake).1
  | OpSlash id reason ev amount epoch now => on_state m (slash_validator (sm_state m) id reason ev amount epoch now).1
  | OpState key value => on_state m (set_chain_state (sm_state m) key value)
  | OpEpoch epoch => on_state m (or_same (sm_state m) (set_current_epoch (sm_state m) epoch))
  | OpEntropy epoch e n now => on_state m (or_same (sm_state m) (store_entropy (sm_state m) epoch e n now))
  | OpAuth a root epoch t => on_state m (register_auth (sm_state m) a root epoch t).1
  | OpRotate a root epoch t => on_state m (rotate_auth (sm_state m) a root epoch t).1
  | OpStore block txs => (store_block_with_transactions m block txs).1
  | OpRebuild => or_same m (rebuild_utxo_set m)
  end.

Definition storage_run (m : StorageManager) (ops : list storage_op) : StorageManager := foldl storage_step m ops.

(** ** Preservation *)

Lemma storage_new_typed : storage_typed storage_new.
Proof.
  split; [|split]; split; cbn; try apply map_Forall_empty; [|constructor].
  intros e e' r r' E. by rewrite lookup_empty in E.
Qed.

Lemma overwrite_Forall {K A} `{Countable K} (P : K * Z -> A -> Prop) (k : K) (i : Z) (l : list A) (table : gmap (K * Z) A) :
  map_Forall P table -> (forall j x, (i <= j)%Z -> x ∈ l -> P (k, j) x) -> map_Forall P (overwrite k i l table).
Proof.
  revert i table. induction l as [|x l IH]; intros i table Ht Hl; [done|]. cbn [overwrite]. apply IH.
  - apply map_Forall_insert_2; [apply Hl; [lia|by constructor]|done].
  - intros j y Hj Hy. apply Hl; [lia|by constructor].
Qed.

Lemma store_block_typed s b : blocks_typed s -> blocks_typed (store_block s b).1.
Proof.
  intros [H1 H2 H3]. unfold store_block, insert_block.
  destruct (db_int (sb_epoch b)) as [e|] eqn:Ee; [|done]. apply db_int_inv in Ee as [He ->].
  destruct (db_int (sb_timestamp b)) as [t|] eqn:Et; [|done]. apply db_int_inv in Et as [Ht ->].
  cbn [mbind res_bind]. destruct (bs_blocks s !! sb_epoch b) as [row|] eqn:E.
  - cbn [mbind res_bind transact fst]. rewrite insert_refs_overwrite. split; cbn [bs_blocks bs_transactions]; [done..|].
    apply overwrite_Forall; [done|]. intros j h Hj _. split; [by eexists|done].
  - destruct (existsb _ _) eqn:Ex; [done|]. cbn [mbind res_bind transact fst bs_blocks bs_transactions].
    assert (Hnew : forall e r, bs_blocks s !! e = Some r -> br_block_hash r <> sb_block_hash b).
    { intros e r Er Heq. rewrite <- not_true_iff_false in Ex. apply Ex, existsb_exists. exists (e, r).
      split; [by apply list_elem_of_In, elem_of_map_to_list|by apply bool_decide_eq_true_2]. }
    rewrite insert_refs_overwrite. split; cbn [bs_blocks bs_transactions].
    + apply map_Forall_insert_2; [|done]. split; [done|]. split; [done|]. cbn. apply zlen_nonneg.
    + intros e e' r r' [[<- <-]|[Hn Er]]%lookup_insert_Some [[<- <-]|[Hn' Er']]%lookup_insert_Some Heq; [done| | |by eapply H2].
      * by destruct (Hnew e' r' Er').
      * by destruct (Hnew e r Er).
    + apply overwrite_Forall.
      * intros k h Hk. destruct (H3 k h Hk) as [Hs ?]. split; [|done]. rewrite lookup_insert_is_Some'. by right.
      * intros j h Hj _. split; [|done]. cbn [fst]. rewrite lookup_insert_eq. by eexists.
Qed.

Lemma insert_inputs_typed (P : bytes * Z -> bytes * Z -> Prop) h i inputs table table' :
  insert_inputs h i inputs table = Ok table' -> map_Forall P table ->
  (forall j p, (i <= j)%Z -> int64 p.2 -> P (h, j) p) -> map_Forall P table'.
Proof.
  revert i table. induction inputs as [|inp inputs IH]; intros i table E Ht Hp; cbn [insert_inputs] in E.
  { by injection E as <-. }
  destruct (db_int _) as [z|] eqn:Ez; [|done]. apply db_int_inv in Ez as [Hz ->]. cbn [mbind res_bind] in E.
  apply (IH _ _ E); [apply map_Forall_insert_2; [by apply Hp|done]|]. intros j p Hj. apply Hp. lia.
Qed.

Lemma insert_outputs_typed (P : bytes * Z -> output_row -> Prop) h i outputs table table' :
  insert_outputs h i outputs table = Ok table' -> map_Forall P table ->
  (forall j v a l, (i <= j)%Z -> int64 v -> int64 l -> P (h, j) (mkOutputRow v a l false None)) -> map_Forall P table'.
Proof.
  revert i table. induction outputs as [|out outputs IH]; intros i table E Ht Hp; cbn [insert_outputs] in E.
  { by injection E as <-. }
  destruct (db_int (to_value out)) as [z|] eqn:Ez; [|done]. apply db_int_inv in Ez as [Hz ->]. cbn [mbind res_bind] in E.
  destruct (db_int (to_lock_epoch out)) as [z|] eqn:El; [|done]. apply db_int_inv in El as [Hl ->]. cbn [mbind res_bind] in E.
  apply (IH _ _ E); [apply map_Forall_insert_2; [by apply Hp|done]|]. intros j v a l Hj. apply Hp. lia.
Qed.

Lemma row_of_tx_typed tx row : row_of_tx tx = Ok row -> tx_row_typed row.
Proof.
  unfold row_of_tx. intros E. inv_res.
  repeat match goal with E : db_int _ = Ok _ |- _ => apply db_int_inv in E as [? ->] end.
  split; [by repeat (apply Forall_cons; split); [..|apply Forall_nil]|]. cbn. split; [by destruct (tx_type tx)|]. split; apply zlen_nonneg.
Qed.

Lemma store_transaction_typed s tx : transactions_typed s -> transactions_typed (store_transaction s tx).1.
Proof.
  intros [H1 H2 H3]. unfold store_transaction. destruct (tx_hash tx) as [h|]; [|done]. cbn [mbind res_bind].
  destruct (row_of_tx tx) as [row|] eqn:Er; [|done]. cbn [mbind res_bind].
  destruct (insert_inputs h 0 (tx_inputs tx) (ts_inputs s)) as [ins|] eqn:Ei; [|done]. cbn [mbind res_bind].
  destruct (insert_outputs h 0 (tx_outputs tx) (ts_outputs s)) as [outs|] eqn:Eo; [|done]. cbn [mbind res_bind transact fst].
  assert (Hh : is_Some (<[h:=row]> (ts_transactions s) !! h)) by (rewrite lookup_insert_eq; by eexists).
  split; cbn [ts_transactions ts_inputs ts_outputs].
  - apply map_Forall_insert_2; [by eapply row_of_tx_typed|done].
  - apply (insert_inputs_typed _ _ _ _ _ _ Ei); [|by intros].
    intros k p Hk. destruct (H2 k p Hk) as [? ?]. split; [|done]. rewrite lookup_insert_is_Some'. by right.
  - apply (insert_outputs_typed _ _ _ _ _ _ Eo); [|by intros].
    intros k r Hk. destruct (H3 k r Hk) as [? ?]. split; [|done]. rewrite lookup_insert_is_Some'. by right.
Qed.

Lemma map_Forall_alter {K A} `{Countable K} (P : K -> A -> Prop) f k (m : gmap K A) :
  map_Forall P m -> (forall x, P k x -> P k (f x)) -> map_Forall P (alter f k m).
Proof.
  intros Hm Hf k' x Hx. destruct (decide (k = k')) as [<-|Hne].
  - rewrite lookup_alter_eq in Hx. destruct (m !! k) as [y|] eqn:E; [|done]. injection Hx as <-. by apply Hf, Hm.
  - rewrite lookup_alter_ne in Hx by done. by apply Hm.
Qed.

Lemma mark_output_spent_typed s h i t : transactions_typed s -> transactions_typed (mark_output_spent s h i t).1.
Proof.
  intros [H1 H2 H3]. unfold mark_output_spent. destruct (db_int i) as [j|]; [|done]. cbn [mbind res_bind transact fst].
  split; cbn [ts_transactions ts_inputs ts_outputs]; [done..|]. apply map_Forall_alter; [done|].
  intros r (? & ? & ? & ? & ?). do 4 (split; [done|]). by cbn.
Qed.

Lemma store_transactions_typed s txs : transactions_typed s -> transactions_typed (store_transactions s txs).1.
Proof.
  revert s. induction txs as [|tx txs IH]; intros s Hs; [done|]. cbn [store_transactions].
  pose proof (store_transaction_typed s tx Hs) as H1. destruct (tx_hash tx) as [h|]; [|done].
  assert (H2 : transactions_typed (foldl (fun s inp => (mark_output_spent s (ti_prev_tx_hash inp) (ti_output_index inp) h).1)
    (store_transaction s tx).1 (tx_inputs tx))).
  { revert H1. generalize (store_transaction s tx).1. induction (tx_inputs tx) as [|inp l IHl]; intros s1 H1; [done|].
    cbn [foldl]. by apply IHl, mark_output_spent_typed. }
  specialize (IH _ H2). by destruct (store_transactions _ txs).
Qed.

(** Invert the bindings of a call's parameters. *)
Ltac db_inv :=
  repeat match goal with
  | |- context [db_int ?z] =>
      let y := fresh "z" in let E := fresh "E" in let Hz := fresh "Hz" in
      destruct (db_int z) as [y|] eqn:E; [apply db_int_inv in E as [Hz ->]|done]; cbn [mbind res_bind]
  end.

Ltac int64_list := repeat (apply Forall_cons; split); try apply Forall_nil; done.

Lemma register_validator_typed s id a stake zone epoch :
  state_typed s -> state_typed (register_validator s id a stake zone epoch).1.
Proof.
  intros [H1 H2 H3 H4]. unfold register_validator. db_inv. split; cbn; [|done..].
  apply map_Forall_insert_2; [|done]. split; [int64_list|done].
Qed.

Lemma update_validator_stake_typed s id stake : state_typed s -> state_typed (update_validator_stake s id stake).1.
Proof.
  intros [H1 H2 H3 H4]. unfold update_validator_stake. db_inv. split; cbn; [|done..].
  apply map_Forall_alter; [done|]. intros r [Hr Ha]. rewrite !Forall_cons in Hr. split; [|done].
  destruct Hr as (_ & ? & ? & _). int64_list.
Qed.

Lemma slash_validator_typed s id reason ev amount epoch now :
  state_typed s -> state_typed (slash_validator s id reason ev amount epoch now).1.
Proof.
  intros [H1 H2 H3 H4]. unfold slash_validator. destruct (to_ms now) as [ms|]; [|done]. cbn [mbind res_bind].
  db_inv. split; cbn; [|done| |done].
  - apply map_Forall_alter; [done|]. intros r [Hr Ha]. by split.
  - apply Forall_app. split; [done|]. apply Forall_singleton. int64_list.
Qed.

Lemma set_chain_state_typed s key value : state_typed s -> state_typed (set_chain_state s key value).
Proof. by intros []. Qed.

Lemma set_current_epoch_typed s epoch s' : set_current_epoch s epoch = Ok s' -> state_typed s -> state_typed s'.
Proof. unfold set_current_epoch. intros E Hs. inv_res. by apply set_chain_state_typed. Qed.

Lemma store_entropy_typed s epoch e n now :
  state_typed s -> state_typed (or_same s (store_entropy s epoch e n now)).
Proof.
  intros [H1 H2 H3 H4]. unfold store_entropy. destruct (to_ms now) as [ms|]; [|done]. cbn [mbind res_bind].
  db_inv. split; cbn; [done| |done..]. by apply map_Forall_insert_2.
Qed.

Lemma register_auth_typed s a root epoch t : state_typed s -> state_typed (register_auth s a root epoch t).1.
Proof.
  intros [H1 H2 H3 H4]. unfold register_auth. db_inv. destruct (db_auth s !! a); [done|].
  split; cbn; [done..|]. apply map_Forall_insert_2; [|done]. split; [done|]. cbn. lia.
Qed.

Lemma rotate_auth_typed s a root epoch t : state_typed s -> state_typed (rotate_auth s a root epoch t).1.
Proof.
  intros [H1 H2 H3 H4]. unfold rotate_auth. db_inv. destruct (db_auth s !! a) as [row|] eqn:E; [|done].
  split; cbn; [done..|]. apply map_Forall_insert_2; [|done]. split; [done|]. cbn.
  destruct (H4 a row E). lia.
Qed.

Lemma store_block_with_transactions_typed m block txs :
  storage_typed m -> storage_typed (store_block_with_transactions m block txs).1.
Proof.
  intros (H1 & H2 & H3). unfold store_block_with_transactions.
  pose proof (store_transactions_typed _ txs H2) as H2'. destruct (store_transactions _ txs) as [ts r]. cbn [fst] in H2'.
  destruct (_ ← _; _) as [b|]; [|done]. cbn [sm_blocks sm_state sm_utxo_set].
  pose proof (store_block_typed _ b H1) as H1'.
  destruct (set_current_epoch _ _) as [st|] eqn:E; [|done].
  split; [done|]. split; [done|]. by eapply set_current_epoch_typed.
Qed.

Lemma storage_step_typed m op : storage_typed m -> storage_typed (storage_step m op).
Proof.
  intros Hm. pose proof Hm as (H1 & H2 & H3). destruct op; cbn [storage_step on_state].
  - split; [by apply store_block_typed|done].
  - split; [done|]. split; [by apply store_transaction_typed|done].
  - split; [done|]. split; [by apply mark_output_spent_typed|done].
  - split; [done|]. split; [done|]. by apply register_validator_typed.
  - split; [done|]. split; [done|]. by apply update_validator_stake_typed.
  - split; [done|]. split; [done|]. by apply slash_validator_typed.
  - split; [done|]. split; [done|]. by apply set_chain_state_typed.
  - split; [done|]. split; [done|]. destruct (set_current_epoch _ _) eqn:E; [|done]. by eapply set_current_epoch_typed.
  - split; [done|]. split; [done|]. by apply store_entropy_typed.
  - split; [done|]. split; [done|]. by apply register_auth_typed.
  - split; [done|]. split; [done|]. by apply rotate_auth_typed.
  - by apply store_block_with_transactions_typed.
  - unfold rebuild_utxo_set. by destruct (rebuild_epochs _ _ _).
Qed.

(** C15. The databases stay well typed.  After any sequence of calls on a new storage, including
    those that fail, every integer column holds 64-bit integers and a type between 0 and 7,
    block hashes are unique, transaction references, inputs and outputs belong to rows that
    exist, an output names its spender exactly when it is spent, and a validator is active
    exactly when it is not slashed. *)
Theorem storage_well_typed (ops : list storage_op) : storage_typed (storage_run storage_new ops).
Proof.
  assert (Hgen : forall m, storage_typed m -> storage_typed (storage_run m ops)).
  { unfold storage_run. induction ops as [|op ops' IH]; intros m Hm; [done|]. by apply IH, storage_step_typed. }
  apply Hgen, storage_new_typed.
Qed.

End Schema.
