(* ===== verification/Blocks.v ===== *)
(** * Block production ([src/src/block_producer.py])

    Templates, producers, zone coordinators, the round-robin distribution over zones and the
    finalizer.  A producer refers to the zone's UTXO set, registry and mempool; here it is a
    record that holds them, and the coordinator passes its own and takes them back.  What the
    storage returns is an argument; [Zones.v] puts the storage in its place.  Main results: what
    a filled template contains ([fill_template_spec]); applying the block built from a template mints at most the block
    reward ([block_mints_reward]); a coinbase sent by a peer is included like any transaction
    ([pooled_coinbase_included]); the voted hash does not commit to the transactions
    ([proposal_hash_ignores_transactions]). *)

From stdpp Require Import prelude list gmap strings pretty sorting.
From Stdlib Require Import Strings.Byte ZArith Lia SpecFloat.
From S2P Require Import Prelude.
From S2P Require Import PyFloat.
From S2P Require Import Crypto.
From S2P Require Import Merkle.
From S2P Require Import Transaction.
From S2P Require Import Ledger.
From S2P Require Import TxValidation.
From S2P Require Import Mempool.
From S2P Require Import Consensus.

Set Default Goal Selector "!".

(** ** Constants *)

Definition MAX_BLOCK_SIZE : Z := 4 * 1024 * 1024.
Definition MAX_TXS_PER_BLOCK : Z := 1000.
Definition COINBASE_REWARD : Z := 5000000000.

(** ** Templates *)

(** [bt_tx_merkle_root] is whatever [MerkleTree.root] returned. *)
Record BlockTemplate := mkBlockTemplate {
  bt_epoch : Z;
  bt_proposer_id : bytes;
  bt_transactions : list Transaction;
  bt_tx_merkle_root : pyarg;
  bt_state_root : bytes;
  bt_total_fees : Z;
  bt_total_size : Z;
  bt_created_at : float64;
}.

Definition new_template (epoch : Z) (proposer_id : bytes) (now : float64) : BlockTemplate :=
  mkBlockTemplate epoch proposer_id [] (PBytes zero32) zero32 0 0 now.

Definition template_add (t : BlockTemplate) (tx : Transaction) : BlockTemplate * bool :=
  if (MAX_TXS_PER_BLOCK <=? zlen (bt_transactions t))%Z then (t, false)
  else if (MAX_BLOCK_SIZE <? bt_total_size t + tx_size tx)%Z then (t, false)
  else (mkBlockTemplate (bt_epoch t) (bt_proposer_id t) (bt_transactions t ++ [tx])
          (bt_tx_merkle_root t) (bt_state_root t) (bt_total_fees t + tx_fee tx)
          (bt_total_size t + tx_size tx) (bt_created_at t), true).

(** ** Producers *)

Record ProducerStats := mkProducerStats {
  blocks_produced : Z;
  txs_included : Z;
  txs_rejected : Z;
}.

(** [current_template] is only ever written and is left out. *)
Record BlockProducer := mkBlockProducer {
  bp_validator_id : bytes;
  bp_tx_validator : Validator;
  bp_mempool : Mempool;
  bp_stats : ProducerStats;
}.

(** A proposal with the attributes that [build_block] attaches to it. *)
Record BuiltProposal := mkBuiltProposal {
  built_proposal : ConsensusProposal;
  built_tx_merkle_root : pyarg;
  built_tx_count : Z;
  built_transactions : list Transaction;
}.

Section Blocks.
Context `{Hashlib}.

Definition compute_merkle_root (t : BlockTemplate) : res (BlockTemplate * pyarg) :=
  match bt_transactions t with
  | [] => Ok (t, PBytes zero32)
  | txs =>
      tx_hashes ← res_map tx_hash txs;
      tree ← merkle_new tx_hashes;
      root ← merkle_root tree;
      Ok (mkBlockTemplate (bt_epoch t) (bt_proposer_id t) (bt_transactions t) root
            (bt_state_root t) (bt_total_fees t) (bt_total_size t) (bt_created_at t), root)
  end.

Definition create_template (p : BlockProducer) (epoch : Z) (now : float64) : BlockTemplate :=
  new_template epoch (bp_validator_id p) now.

(** The loop over the candidates; an exception leaves the template and the pool as they are
    at that point. *)
Fixpoint fill_loop (v : Validator) (pool : Mempool) (t : BlockTemplate) (added rejected : Z)
    (candidates : list Transaction) : Mempool * BlockTemplate * res (Z * Z) :=
  match candidates with
  | [] => (pool, t, Ok (added, rejected))
  | tx :: candidates =>
      match validate_transaction v tx (bt_epoch t) with
      | Err e => (pool, t, Err e)
      | Ok (true, _) =>
          let '(t, fits) := template_add t tx in
          if fits then fill_loop v pool t (added + 1) rejected candidates
          else (pool, t, Ok (added, rejected))
      | Ok (false, _) =>
          match tx_hash tx with
          | Err e => (pool, t, Err e)
          | Ok h =>
              fill_loop v (remove_transaction pool h).1 t added (rejected + 1) candidates
          end
      end
  end.

Definition fill_template (p : BlockProducer) (t : BlockTemplate)
    : BlockProducer * BlockTemplate * res Z :=
  let candidates := get_transactions_for_block (bp_mempool p) MAX_BLOCK_SIZE in
  let '(pool, t, r) := fill_loop (bp_tx_validator p) (bp_mempool p) t 0 0 candidates in
  match r with
  | Err e => (mkBlockProducer (bp_validator_id p) (bp_tx_validator p) pool (bp_stats p), t, Err e)
  | Ok (added, rejected) =>
      (mkBlockProducer (bp_validator_id p) (bp_tx_validator p) pool
         (mkProducerStats (blocks_produced (bp_stats p)) (txs_included (bp_stats p) + added)
            (txs_rejected (bp_stats p) + rejected)), t, Ok added)
  end.

(** The random nonce and the time are arguments. *)
Definition create_coinbase (t : BlockTemplate) (reward_address : bytes) (now : float64)
    (nonce : bytes) : res Transaction :=
  let total_reward := (COINBASE_REWARD + bt_total_fees t)%Z in
  timestamp ← to_ms now;
  Ok (mkTransaction 1 COINBASE []
        [mkTxOutput total_reward reward_address (bt_epoch t + 100) []]
        (bt_epoch t) timestamp 0 nonce None).

(** [time.time()] is read for the coinbase and again for the proposal. *)
Definition build_block (p : BlockProducer) (t : BlockTemplate) (measurement_root : bytes)
    (reward_address : bytes) (now : float64) (nonce : bytes) (now' : float64)
    : BlockProducer * res BuiltProposal :=
  let built :=
    coinbase ← create_coinbase t reward_address now nonce;
    let all_txs := coinbase :: bt_transactions t in
    tx_hashes ← res_map tx_hash all_txs;
    tx_tree ← merkle_new tx_hashes;
    root ← merkle_root tx_tree;
    let proposal := mkConsensusProposal (bp_validator_id p) (bt_epoch t) 0 measurement_root ∅
                      [] [] (PFloat now') [] in
    Ok (mkBuiltProposal proposal root (zlen all_txs) all_txs) in
  match built with
  | Err e => (p, Err e)
  | Ok b =>
      (mkBlockProducer (bp_validator_id p) (bp_tx_validator p) (bp_mempool p)
         (mkProducerStats (blocks_produced (bp_stats p) + 1) (txs_included (bp_stats p))
            (txs_rejected (bp_stats p))), Ok b)
  end.

(** The first loop of [apply_block]. *)
Fixpoint apply_all (v : Validator) (txs : list Transaction) : Validator * res bool :=
  match txs with
  | [] => (v, Ok true)
  | tx :: txs =>
      let '(v, success) := apply_transaction v tx in
      match success with
      | Err e => (v, Err e)
      | Ok false => (v, Ok false)
      | Ok true => apply_all v txs
      end
  end.

(** Every exception becomes [False]; [store] is what [store_block_with_transactions] does when
    a storage is attached, and its result is ignored. *)
Definition apply_block `{!SetOrder bytes} (p : BlockProducer) (transactions : list Transaction)
    (store : option (res bool)) : BlockProducer * bool :=
  let with_validator v pool := mkBlockProducer (bp_validator_id p) v pool (bp_stats p) in
  let '(v, applied) := apply_all (bp_tx_validator p) transactions in
  match applied with
  | Err _ | Ok false => (with_validator v (bp_mempool p), false)
  | Ok true =>
      match res_map tx_hash transactions with
      | Err _ => (with_validator v (bp_mempool p), false)
      | Ok hashes =>
          let pool := (clear_confirmed (bp_mempool p) (list_to_set hashes)).1 in
          match store with
          | Some (Err _) => (with_validator v pool, false)
          | _ => (with_validator v pool, true)
          end
      end
  end.

(** ** Coordinators *)

(** What the coordinator reads of a validator node; [None] is a missing attribute. *)
Record ZoneValidator := mkZoneValidator {
  zv_zone_id : Z;
  zv_stake : option Z;
  zv_address : option bytes;
}.

Record BlockCoordinator := mkBlockCoordinator {
  bc_zone_id : Z;
  bc_validators : gmap bytes ZoneValidator;
  bc_tx_validator : Validator;            (* zone_utxo and auth_registry *)
  bc_zone_mempool : Mempool;
  bc_producers : gmap bytes ProducerStats;
  bc_current_proposer : option bytes;
}.

Definition getattr {A} (a : option A) : res A :=
  match a with Some a => Ok a | None => Err AttributeError end.

Definition proposer_score (entropy : bytes) (epoch : Z) (kv : bytes * ZoneValidator)
    : res (Z * bytes) :=
  e ← int_to_bytes 8 epoch;
  let score := be_decode (take 8 (sha3_256 (entropy ++ kv.1 ++ e))) in
  stake ← getattr (zv_stake kv.2);
  Ok ((score * stake)%Z, kv.1).

(** [(weighted_score, vid)] tuples, compared in order. *)
Definition score_cmp (x y : Z * bytes) : comparison :=
  cmp_then (Z.compare x.1 y.1) (bytes_cmp x.2 y.2).

Definition select_proposer (c : BlockCoordinator) (epoch : Z) (entropy : bytes)
    : BlockCoordinator * res bytes :=
  let zone_validators :=
    List.filter (fun kv => (zv_zone_id kv.2 =? bc_zone_id c)%Z) (map_to_list (bc_validators c)) in
  match zone_validators with
  | [] => (c, Ok [])
  | _ =>
      match res_map (proposer_score entropy epoch) zone_validators with
      | Err e => (c, Err e)
      | Ok scores =>
          match merge_sort (cmp_ge score_cmp) scores with
          | [] => (c, Err (IndexError "list index out of range"))
          | (_, vid) :: _ =>
              (mkBlockCoordinator (bc_zone_id c) (bc_validators c) (bc_tx_validator c)
                 (bc_zone_mempool c) (bc_producers c) (Some vid), Ok vid)
          end
      end
  end.

(** The coordinator after its producer has run. *)
Definition put_producer (c : BlockCoordinator) (p : BlockProducer) : BlockCoordinator :=
  mkBlockCoordinator (bc_zone_id c) (bc_validators c) (bp_tx_validator p) (bp_mempool p)
    (<[bp_validator_id p := bp_stats p]> (bc_producers c)) (bc_current_proposer c).

Definition produce_block (c : BlockCoordinator) (epoch : Z) (entropy : bytes)
    (measurements : gmap bytes bytes) (now : float64) (nonce : bytes) (now' : float64)
    : BlockCoordinator * res (option BuiltProposal) :=
  let '(c, selected) := select_proposer c epoch entropy in
  match selected with
  | Err e => (c, Err e)
  | Ok [] => (c, Ok None)
  | Ok proposer_id =>
      let p := mkBlockProducer proposer_id (bc_tx_validator c) (bc_zone_mempool c)
                 (lookup_default (mkProducerStats 0 0 0) (bc_producers c) proposer_id) in
      let '(p, t, filled) := fill_template p (create_template p epoch now) in
      let c := put_producer c p in
      match filled with
      | Err e => (c, Err e)
      | Ok _ =>
          let measurement_root := lookup_default zero32 measurements proposer_id in
          let reward_address :=
            match bc_validators c !! proposer_id with
            | Some validator => getattr (zv_address validator)
            | None => Ok proposer_id
            end in
          match reward_address with
          | Err e => (c, Err e)
          | Ok reward_address =>
              let '(p, built) := build_block p t measurement_root reward_address now nonce now' in
              (put_producer c p, b ← built; Ok (Some b))
          end
      end
  end.

Definition broadcast_transaction (c : BlockCoordinator) (tx : Transaction)
    : BlockCoordinator * res bool :=
  let '(pool, r) := add_transaction (bc_zone_mempool c) tx in
  (mkBlockCoordinator (bc_zone_id c) (bc_validators c) (bc_tx_validator c) pool
     (bc_producers c) (bc_current_proposer c), '(success, _) ← r; Ok success).

(** ** Distribution over zones *)

(** [ParallelBlockBuilder]: the coordinators by zone and the pending queue. *)
Record ParallelBlockBuilder := mkParallelBlockBuilder {
  pb_num_zones : Z;
  pb_coordinators : gmap Z BlockCoordinator;
  pb_pending_queue : list Transaction;
}.

Definition submit_transaction (b : ParallelBlockBuilder) (tx : Transaction)
    : ParallelBlockBuilder * bool :=
  (mkParallelBlockBuilder (pb_num_zones b) (pb_coordinators b) (pb_pending_queue b ++ [tx]), true).

(** The loop over [enumerate(pending)]; the queue is emptied before it. *)
Fixpoint distribute_loop (num_zones : Z) (coordinators : gmap Z BlockCoordinator)
    (distribution : gmap Z Z) (i : Z) (pending : list Transaction)
    : gmap Z BlockCoordinator * res (gmap Z Z) :=
  match pending with
  | [] => (coordinators, Ok distribution)
  | tx :: pending =>
      match py_mod i num_zones with
      | Err e => (coordinators, Err e)
      | Ok zone_id =>
          match coordinators !! zone_id with
          | None => distribute_loop num_zones coordinators distribution (i + 1)%Z pending
          | Some coordinator =>
              let '(coordinator, r) := broadcast_transaction coordinator tx in
              let coordinators := <[zone_id := coordinator]> coordinators in
              match r with
              | Err e => (coordinators, Err e)
              | Ok success =>
                  let distribution :=
                    if success then <[zone_id := (lookup_default 0 distribution zone_id + 1)%Z]> distribution
                    else distribution in
                  distribute_loop num_zones coordinators distribution (i + 1)%Z pending
              end
          end
      end
  end.

Definition distribute_transactions (b : ParallelBlockBuilder)
    : ParallelBlockBuilder * res (gmap Z Z) :=
  let distribution := (fun _ => 0%Z) <$> pb_coordinators b in
  let '(coordinators, r) :=
    distribute_loop (pb_num_zones b) (pb_coordinators b) distribution 0 (pb_pending_queue b) in
  (mkParallelBlockBuilder (pb_num_zones b) coordinators [], r).

End Blocks.

(** ** Finalizer *)

(** The blocks queued by epoch, the epochs already stored, and the current epoch last written to
    the chain state. *)
Record BlockFinalizer := mkBlockFinalizer {
  finalized_epochs : gset Z;
  pending_blocks : gmap Z (ConsensusBlock * list Transaction);
  chain_epoch : option Z;
}.

Definition queue_for_finalization (f : BlockFinalizer) (block : ConsensusBlock)
    (transactions : list Transaction) : BlockFinalizer :=
  mkBlockFinalizer (finalized_epochs f)
    (<[cb_epoch block := (block, transactions)]> (pending_blocks f)) (chain_epoch f).

(** [stored] is what the storage answers for the queued block, [set_epoch] what its
    [set_current_epoch] does. A [ConsensusProposal] has no attribute [entropy], so the last
    branch of the code is never taken. *)
Definition finalize (f : BlockFinalizer) (epoch : Z)
    (stored : ConsensusBlock -> list Transaction -> res bool) (set_epoch : Z -> res unit)
    : BlockFinalizer * res bool :=
  if bool_decide (epoch ∈ finalized_epochs f) then (f, Ok true)
  else match pending_blocks f !! epoch with
  | None => (f, Ok false)
  | Some (block, transactions) =>
      match stored block transactions with
      | Err e => (f, Err e)
      | Ok false => (f, Ok false)
      | Ok true =>
          let epochs := {[epoch]} ∪ finalized_epochs f in
          let pending := delete epoch (pending_blocks f) in
          match set_epoch epoch with
          | Err e => (mkBlockFinalizer epochs pending (chain_epoch f), Err e)
          | Ok _ => (mkBlockFinalizer epochs pending (Some epoch), Ok true)
          end
      end
  end.

(** ** What a filled template contains *)

Section BlockLemmas.
Context `{Hashlib}.

(** The totals are those of the transactions, and the limits hold. *)
Record template_ok (t : BlockTemplate) : Prop := {
  to_count : (zlen (bt_transactions t) <= MAX_TXS_PER_BLOCK)%Z;
  to_limit : (bt_total_size t <= MAX_BLOCK_SIZE)%Z;
  to_sizes : bt_total_size t = sumZ (map tx_size (bt_transactions t));
  to_fees : bt_total_fees t = sumZ (map tx_fee (bt_transactions t));
}.

Lemma template_ok_new e pid now : template_ok (new_template e pid now).
Proof. by split. Qed.

Lemma sumZ_snoc l x : sumZ (l ++ [x]) = (sumZ l + x)%Z.
Proof. rewrite sumZ_app. simpl. lia. Qed.

Lemma template_add_inv t tx t' :
  template_ok t -> template_add t tx = (t', true) ->
  template_ok t' /\ bt_transactions t' = bt_transactions t ++ [tx] /\ bt_epoch t' = bt_epoch t.
Proof.
  intros [Hc Hl Hs Hf]. unfold template_add.
  destruct (Z.leb_spec MAX_TXS_PER_BLOCK (zlen (bt_transactions t))); [done|].
  destruct (Z.ltb_spec MAX_BLOCK_SIZE (bt_total_size t + tx_size tx)); [done|].
  intros [= <-]. split; [|done].
  split; cbn [bt_transactions bt_total_size bt_total_fees].
  - unfold zlen in *. rewrite length_app. simpl. lia.
  - done.
  - rewrite map_app. cbn [map]. rewrite sumZ_snoc. lia.
  - rewrite map_app. cbn [map]. rewrite sumZ_snoc. lia.
Qed.

(** The loop appends a subsequence of the candidates, each of them valid. *)
Lemma fill_loop_spec v pool t added rejected cands pool' t' r :
  template_ok t -> fill_loop v pool t added rejected cands = (pool', t', r) ->
  template_ok t' /\ bt_epoch t' = bt_epoch t /\
  exists sel, sublist sel cands /\ bt_transactions t' = bt_transactions t ++ sel /\
    Forall (fun tx => exists reason, validate_transaction v tx (bt_epoch t) = Ok (true, reason)) sel /\
    (forall a rej, r = Ok (a, rej) -> a = added + zlen sel)%Z.
Proof.
  revert pool t added rejected.
  induction cands as [|tx cands IH]; intros pool t added rejected Ht Hf; simpl in Hf.
  { injection Hf as <- <- <-. split; [done|]. split; [done|]. exists [].
    rewrite app_nil_r. repeat split; [constructor|constructor|]. intros ? ? [= <- <-]. unfold zlen. simpl. lia. }
  destruct (validate_transaction v tx (bt_epoch t)) as [[valid reason]|] eqn:Ev.
  2:{ injection Hf as <- <- <-. split; [done|]. split; [done|]. exists [].
      rewrite app_nil_r. repeat split; [apply sublist_nil_l|constructor|done]. }
  destruct valid.
  - destruct (template_add t tx) as [t1 fits] eqn:Ea. destruct fits.
    + destruct (template_add_inv _ _ _ Ht Ea) as (Ht1 & Etx & Ee).
      destruct (IH _ _ _ _ Ht1 Hf) as (Ht' & Ee' & sel & Hsub & Etxs & Hval & Hadd).
      split; [done|]. split; [congruence|]. exists (tx :: sel). split; [by apply sublist_skip|].
      split; [by rewrite Etxs, Etx, <- app_assoc|]. split.
      * constructor; [by exists reason|]. by rewrite <- Ee.
      * intros a rej Hr. rewrite (Hadd a rej Hr). unfold zlen. simpl. lia.
    + injection Hf as <- <- <-. unfold template_add in Ea.
      assert (t1 = t) as -> by (repeat case_match; congruence).
      split; [done|]. split; [done|]. exists [].
      rewrite app_nil_r. repeat split; [apply sublist_nil_l|constructor|].
      intros ? ? [= <- <-]. unfold zlen. simpl. lia.
  - destruct (tx_hash tx) as [h|].
    + destruct (IH _ _ _ _ Ht Hf) as (Ht' & Ee' & sel & Hsub & Etxs & Hval & Hadd).
      split; [done|]. split; [done|]. exists sel. split; [by apply sublist_cons|]. done.
    + injection Hf as <- <- <-. split; [done|]. split; [done|]. exists [].
      rewrite app_nil_r. repeat split; [apply sublist_nil_l|constructor|done].
Qed.

Lemma fill_template_inv p t p' t' n :
  template_ok t -> fill_template p t = (p', t', Ok n) ->
  template_ok t' /\ bp_tx_validator p' = bp_tx_validator p /\
  exists sel,
    sublist sel (get_transactions_for_block (bp_mempool p) MAX_BLOCK_SIZE) /\
    bt_transactions t' = bt_transactions t ++ sel /\ n = zlen sel /\ bt_epoch t' = bt_epoch t /\
    Forall (fun tx => exists reason,
      validate_transaction (bp_tx_validator p) tx (bt_epoch t) = Ok (true, reason)) sel.
Proof.
  intros Ht. unfold fill_template.
  destruct (fill_loop _ _ _ _ _ _) as [[pool t1] r] eqn:E.
  destruct (fill_loop_spec _ _ _ _ _ _ _ _ _ Ht E) as (Ht' & Ee & sel & Hsub & Etx & Hval & Hadd).
  destruct r as [[a rej]|]; [|done]. intros [= <- <- <-]. split; [done|]. split; [done|].
  exists sel. repeat split; try done. by rewrite (Hadd a rej eq_refl).
Qed.

(** ** Applying a list of transactions *)

(** What makes a list of transactions applicable one after the other to a UTXO set. *)
Record applicable (s : UTXOSet) (txs : list Transaction) (hs : list bytes)
    (values : list (list Z)) : Prop := {
  ap_hashes : Forall2 (fun tx h => tx_hash tx = Ok h) txs hs;
  ap_values : Forall2 (fun tx vs => input_values s (tx_inputs tx) vs) txs values;
  ap_outputs : Forall (fun tx => tx_outputs tx <> []) txs;
  ap_rotations : Forall (fun tx => tx_type tx = ROTATE_AUTH -> tx_inputs tx <> []) txs;
  ap_distinct : Forall (fun tx => NoDup (outpoints tx)) txs;
  ap_nodup : NoDup hs;
  ap_fresh : Forall (fun h => forall j, utxos s !! (h, j) = None) hs;
  ap_disjoint : ForallOrdPairs (fun tx1 tx2 => forall k, k ∈ outpoints tx1 -> k ∉ outpoints tx2) txs;
}.

Lemma input_values_lookup s inputs vs k :
  input_values s inputs vs -> k ∈ inputs_outpoints inputs -> is_Some (utxos s !! k).
Proof.
  induction 1 as [|i x inputs vs (u & Hu & _) Hv IH]; simpl; [by intros ?%not_elem_of_nil|].
  intros [->|Hk]%elem_of_cons; [by exists u | by apply IH].
Qed.

(** Values are kept by a state that agrees on the named outputs. *)
Lemma input_values_agree s s' inputs vs :
  input_values s inputs vs ->
  (forall k, k ∈ inputs_outpoints inputs -> utxos s' !! k = utxos s !! k) ->
  input_values s' inputs vs.
Proof.
  intros Hv Heq. induction Hv as [|i x inputs vs (u & Hu & ?) Hv IH]; constructor.
  - exists u. rewrite Heq; [done|]. simpl. by left.
  - apply IH. intros k Hk. apply Heq. simpl. by right.
Qed.

Lemma apply_all_ok v txs hs values :
  applicable (v_utxo_set v) txs hs values ->
  exists v', apply_all v txs = (v', Ok true) /\
    supply (v_utxo_set v') =
      (supply (v_utxo_set v) - sumZ (map sumZ values) + sumZ (map total_output txs))%Z.
Proof.
  revert v hs values. induction txs as [|tx txs IH]; intros v hs values [Hh Hv Ho Hr Hd Hnd Hf Hdis].
  { apply Forall2_nil_inv_l in Hh as ->. apply Forall2_nil_inv_l in Hv as ->.
    exists v. split; [done|]. simpl. lia. }
  apply Forall2_cons_inv_l in Hh as (h & hs' & Hh & Hhs & ->).
  apply Forall2_cons_inv_l in Hv as (vs & values' & Hv & Hvs & ->).
  apply Forall_cons in Ho as [Ho1 Ho], Hr as [Hr1 Hr], Hd as [Hd1 Hd], Hf as [Hf1 Hf].
  inversion Hdis as [|? ? Hdis1 Hdis2]; subst.
  apply NoDup_cons in Hnd as [Hni Hnd].
  destruct (apply_transaction_ok v tx h vs) as (v1 & E & Hsup & _ & _ & Hkeep); try done.
  destruct (IH v1 hs' values') as (v' & E' & Hsup').
  { split; try done.
    - assert (Hall : Forall2 (fun tx2 vs2 => input_values (v_utxo_set v) (tx_inputs tx2) vs2 /\
        (forall k, k ∈ outpoints tx -> k ∉ outpoints tx2)) txs values').
      { apply Forall2_same_length_lookup_2; [by eapply Forall2_length|].
        intros i tx2 vs2 Hi2 Hi3. split; [exact (Forall2_lookup_lr _ _ _ _ _ _ Hvs Hi2 Hi3)|].
        exact (Forall_lookup_1 _ _ _ _ Hdis1 Hi2). }
      eapply Forall2_impl; [exact Hall|]. intros tx2 vs2 [Hv2 Hd2].
      eapply input_values_agree; [exact Hv2|]. intros k Hk. apply Hkeep.
      + intros Hk'. by eapply Hd2.
      + intros Heq. apply (input_values_lookup _ _ _ _ Hv2) in Hk as [u Hu].
        destruct k as [kh kj]. simpl in Heq. subst kh. by rewrite Hf1 in Hu.
    - apply Forall_forall. intros h2 Hh2 j. rewrite Hkeep.
      + rewrite Forall_forall in Hf. by apply Hf.
      + intros Hk. apply (input_values_lookup _ _ _ _ Hv) in Hk as [u Hu].
        rewrite Forall_forall in Hf. by rewrite (Hf h2 Hh2 j) in Hu.
      + simpl. intros ->. done. }
  exists v'. simpl. rewrite E. split; [done|]. rewrite Hsup', Hsup. simpl. lia.
Qed.

End BlockLemmas.

(** ** From the pool to a block *)

Section PoolToBlock.
Context `{Hashlib}.

Lemma sublist_Forall2_l {A B} (R : A -> B -> Prop) l1 l2 k2 :
  sublist l1 l2 -> Forall2 R l2 k2 -> exists k1, sublist k1 k2 /\ Forall2 R l1 k1.
Proof.
  intros Hs. revert k2. induction Hs as [|x l1 l2 Hs IH|x l1 l2 Hs IH]; intros k2 Hf.
  - exists []. split; [apply sublist_nil_l | constructor].
  - apply Forall2_cons_inv_l in Hf as (y & k2' & Hxy & Hf & ->).
    destruct (IH k2' Hf) as (k1 & Hk & Hf1). exists (y :: k1).
    split; [by apply sublist_skip | by constructor].
  - apply Forall2_cons_inv_l in Hf as (y & k2' & _ & Hf & ->).
    destruct (IH k2' Hf) as (k1 & Hk & Hf1). exists k1. split; [by apply sublist_cons|done].
Qed.

Lemma Forall2_left {A B} (R : A -> B -> Prop) (P : A -> Prop) l k :
  (forall x y, R x y -> P x) -> Forall2 R l k -> Forall P l.
Proof. intros HP. induction 1; constructor; eauto. Qed.

Lemma Forall2_right {A B} (R : A -> B -> Prop) (P : B -> Prop) l k :
  (forall x y, R x y -> P y) -> Forall2 R l k -> Forall P k.
Proof. intros HP. induction 1; constructor; eauto. Qed.

(** The selected transactions come with their distinct pool hashes. *)
Lemma selection_hashes p max_size sel :
  pool_ok p -> (0 <= max_size)%Z -> sublist sel (get_transactions_for_block p max_size) ->
  exists hs, NoDup hs /\ Forall2 (fun tx h => mp_transactions p !! h = Some tx) sel hs.
Proof.
  intros Hok Hmax Hsub.
  destruct (select_for_block_spec p max_size 0 (mp_priority p) Hmax) as (Hs & _ & _).
  pose proof (transitivity Hsub Hs) as Hsub'.
  assert (Hnd : NoDup (map snd (mp_priority p))).
  { rewrite (po_prio p Hok), map_map. apply NoDup_fst_map_to_list. }
  assert (Hall : forall e, e ∈ mp_priority p -> is_Some (mp_transactions p !! e.2)).
  { intros e He. rewrite (po_prio p Hok) in He.
    apply list_elem_of_fmap in He as ([h tx] & -> & Hin%elem_of_map_to_list). by exists tx. }
  assert (Hf : Forall2 (fun tx h => mp_transactions p !! h = Some tx)
                 (prio_transactions p (mp_priority p)) (map snd (mp_priority p))).
  { unfold prio_transactions. clear -Hall. induction (mp_priority p) as [|e l IH]; [constructor|].
    cbn [omap list_omap map]. destruct (Hall e ltac:(by left)) as [tx Htx]. rewrite Htx.
    constructor; [done|]. apply IH. intros e' He'. apply Hall. by right. }
  destruct (sublist_Forall2_l _ _ _ _ Hsub' Hf) as (hs & Hhs & Hf').
  exists hs. split; [|done]. by eapply sublist_NoDup.
Qed.

Lemma selection_disjoint p sel hs :
  pool_ok p -> NoDup hs -> Forall2 (fun tx h => mp_transactions p !! h = Some tx) sel hs ->
  ForallOrdPairs (fun tx1 tx2 => forall k, k ∈ outpoints tx1 -> k ∉ outpoints tx2) sel.
Proof.
  intros Hok Hnd Hf. induction Hf as [|tx h sel hs Hh Hf IH]; [constructor|].
  apply NoDup_cons in Hnd as [Hni Hnd]. constructor; [|by apply IH].
  apply Forall_forall. intros tx2 Htx2%list_elem_of_In k Hk Hk2.
  apply list_elem_of_In, list_elem_of_lookup in Htx2 as [i Hi].
  destruct (Forall2_lookup_l _ _ _ _ _ Hf Hi) as (h2 & Hh2 & Hl2).
  apply Hni. assert (h = h2) as -> by (by eapply (po_disjoint p Hok)).
  by eapply list_elem_of_lookup_2.
Qed.

(** An ordinary pooled transaction: not minted by the system, naming distinct outputs, with a
    hash that is new to the UTXO set. *)
Definition ordinary (s : UTXOSet) (h : bytes) (tx : Transaction) : Prop :=
  tx_type tx <> COINBASE /\ tx_type tx <> SLASH /\ NoDup (outpoints tx) /\
  forall j, utxos s !! (h, j) = None.

(** Validated ordinary transactions bring at least what they pay out. *)
Lemma validated_values v e sel :
  Forall (fun tx => exists reason, validate_transaction v tx e = Ok (true, reason)) sel ->
  Forall (fun tx => tx_type tx <> COINBASE /\ tx_type tx <> SLASH) sel ->
  exists values,
    Forall2 (fun tx vs => input_values (v_utxo_set v) (tx_inputs tx) vs) sel values /\
    (sumZ (map total_output sel) + sumZ (map tx_fee sel) <= sumZ (map sumZ values))%Z /\
    Forall (fun tx => tx_outputs tx <> [] /\ tx_inputs tx <> []) sel.
Proof.
  intros Hv Ht. induction Hv as [|tx sel [reason Hval] Hv IH].
  { exists []. repeat split; try constructor. simpl. lia. }
  apply Forall_cons in Ht as [[Hc Hs] Ht]. destruct (IH Ht) as (values & Hvs & Hsum & Hio).
  unfold validate_transaction in Hval. destruct (is_valid_structure tx) as [[] r] eqn:Est; [|done].
  destruct (is_valid_structure_iff tx) as [Hst _]. rewrite Est in Hst.
  destruct (proj1 Hst eq_refl) as (_ & [Hin|?] & _ & Hout & _); [|done]. clear Hst.
  simpl in Hval. do 2 (case_match; [done|]).
  destruct (validate_by_type_values _ _ _ _ Hval Hc Hs) as (sh & vs & _ & Hvals & Hle).
  exists (vs :: values). split; [by constructor|]. split; [simpl; lia|].
  constructor; [|done]. split; [|done]. intros Hn. rewrite Hn in Hout. simpl in Hout. lia.
Qed.

End PoolToBlock.

(** ** Properties *)

Section BlockProperties.
Context `{Hashlib} {order : SetOrder bytes}.

(** A template filled from a fresh one holds a subsequence of the pool's selection, at
    most 1000 transactions and 4 MiB, each of them accepted by the validator at the template's
    epoch; its totals are the sums over its transactions and the count returned is their
    number. *)
Theorem fill_template_spec (p p' : BlockProducer) (epoch : Z) (now : float64)
    (t' : BlockTemplate) (n : Z)
    (Hfill : fill_template p (create_template p epoch now) = (p', t', Ok n)) :
  sublist (bt_transactions t') (get_transactions_for_block (bp_mempool p) (4 * 1024 * 1024)) /\
  n = zlen (bt_transactions t') /\ (n <= 1000)%Z /\
  bt_total_size t' = sumZ (map tx_size (bt_transactions t')) /\
  (bt_total_size t' <= 4 * 1024 * 1024)%Z /\
  bt_total_fees t' = sumZ (map tx_fee (bt_transactions t')) /\
  Forall (fun tx => exists reason,
    validate_transaction (bp_tx_validator p) tx epoch = Ok (true, reason)) (bt_transactions t').
Proof.
  apply fill_template_inv in Hfill as ([Hc Hl Hs Hf] & _ & sel & Hsub & Etx & -> & _ & Hval);
    [|apply template_ok_new].
  simpl in Etx, Hval. rewrite Etx in *. done.
Qed.

(** C28. Producing and applying a block mints at most the block reward: with a pool that any
    history of additions and removals led to and that holds ordinary transactions, and a
    coinbase with a new hash, the block made of the coinbase and the filled template applies
    successfully to the very state it was validated against, and the supply grows by at most
    50 tokens (the fees the coinbase pays out are covered by the transactions). *)
Theorem block_mints_reward (mb : Z) (ops : list mempool_op) (p p' : BlockProducer) (epoch : Z)
    (now : float64) (t : BlockTemplate) (n : Z) (reward_address nonce h0 : bytes)
    (coinbase : Transaction)
    (Hmb : (0 <= mb)%Z) (Hops : Forall mempool_op_ok ops)
    (Hpool : bp_mempool p = mempool_run mb ops)
    (Hord : map_Forall (ordinary (v_utxo_set (bp_tx_validator p)))
              (mp_transactions (mempool_run mb ops)))
    (Hfill : fill_template p (create_template p epoch now) = (p', t, Ok n))
    (Hcb : create_coinbase t reward_address now nonce = Ok coinbase)
    (Hh0 : tx_hash coinbase = Ok h0)
    (Hnew : mp_transactions (mempool_run mb ops) !! h0 = None)
    (Hfresh : forall j, utxos (v_utxo_set (bp_tx_validator p)) !! (h0, j) = None) :
  exists p'', apply_block p' (coinbase :: bt_transactions t) None = (p'', true) /\
    (supply (v_utxo_set (bp_tx_validator p'')) <=
       supply (v_utxo_set (bp_tx_validator p)) + 5000000000)%Z.
Proof.
  pose proof (mempool_run_ok mb ops Hmb Hops) as Hok.
  apply fill_template_inv in Hfill as ([_ _ _ Hfees] & Ev & sel & Hsub & Etx & _ & _ & Hval);
    [|apply template_ok_new]. simpl in Etx, Hval. rewrite Etx in *. rewrite Hpool in Hsub.
  destruct (selection_hashes _ MAX_BLOCK_SIZE _ Hok ltac:(done) Hsub) as (hs & Hnd & Hsel).
  set (v := bp_tx_validator p) in *.
  assert (Hordl : Forall2 (fun tx h => ordinary (v_utxo_set v) h tx) sel hs).
  { eapply Forall2_impl; [exact Hsel|]. intros tx h Hl. by apply (Hord h). }
  destruct (validated_values v epoch sel) as (values & Hvals & Hle & Hio); [done| |].
  { eapply Forall2_left; [|exact Hordl]. by intros tx h (? & ? & _). }
  unfold create_coinbase in Hcb. apply bind_Ok_inv in Hcb as (timestamp & _ & Hcb).
  injection Hcb as <-. set (cb := mkTransaction 1 COINBASE [] _ _ _ _ _ _) in *.
  destruct (apply_all_ok v (cb :: sel) (h0 :: hs) ([] :: values)) as (v' & E & Hsup).
  { split.
    - constructor; [done|]. eapply Forall2_impl; [exact Hsel|]. intros tx h. apply po_key. done.
    - constructor; [constructor|done].
    - constructor; [done|]. eapply Forall_impl; [exact Hio|]. by intros tx [? _].
    - constructor; [done|]. eapply Forall_impl; [exact Hio|]. by intros tx [_ ?].
    - constructor; [constructor|]. eapply Forall2_left; [|exact Hordl].
      by intros tx h (_ & _ & ? & _).
    - constructor; [|done]. intros Hin. apply list_elem_of_lookup in Hin as [i Hi].
      destruct (Forall2_lookup_r _ _ _ _ _ Hsel Hi) as (tx & _ & Htx). congruence.
    - constructor; [done|]. eapply Forall2_right; [|exact Hordl].
      by intros tx h (_ & _ & _ & ?).
    - constructor; [|by eapply selection_disjoint].
      apply Forall_true. intros tx k. by intros ?%not_elem_of_nil. }
  unfold apply_block. rewrite Ev, E.
  assert (exists hashes, res_map tx_hash (cb :: sel) = Ok hashes) as [hashes ->].
  { exists (h0 :: hs). apply res_map_Ok. constructor; [done|].
    eapply Forall2_impl; [exact Hsel|]. intros tx h. apply po_key. done. }
  eexists. split; [reflexivity|]. cbn [bp_tx_validator]. rewrite Hsup. cbn [map sumZ foldr].
  unfold total_output at 1. cbn [cb tx_outputs map sumZ foldr to_value]. rewrite Hfees.
  unfold COINBASE_REWARD. unfold sumZ in *. lia.
Qed.

(** Anyone can mint through the pool: a coinbase transaction sent by a peer (at most 100
    tokens, for the current epoch) enters an empty pool and is included in the next template
    like any other transaction. *)
Theorem pooled_coinbase_included (p : BlockProducer) (epoch : Z) (now : float64)
    (tx : Transaction) (h : bytes)
    (Hcb : tx_type tx = COINBASE) (Hins : tx_inputs tx = [])
    (Hstruct : (is_valid_structure tx).1 = true) (Hepoch : tx_epoch tx = epoch)
    (Hvalue : (total_output tx <= 10000000000)%Z) (Hfee : (0 <= tx_fee tx < 2 ^ 64)%Z)
    (Hh : tx_hash tx = Ok h) :
  exists pool t,
    add_transaction (mempool_new 100) tx = (pool, Ok (true, "added")) /\
    (fill_template (mkBlockProducer (bp_validator_id p) (bp_tx_validator p) pool (bp_stats p))
       (create_template p epoch now)).1.2 = t /\
    bt_transactions t = [tx].
Proof.
  destruct (is_valid_structure_iff tx) as [Hst _].
  destruct (proj1 Hst Hstruct) as (_ & _ & _ & Hout & Hsize & _). clear Hst.
  pose proof (tx_size_pos tx) as Hpos. destruct (fee_rate_ok tx Hfee) as [x Hx].
  assert (exists pool, add_transaction (mempool_new 100) tx = (pool, Ok (true, "added")) /\
    mp_transactions pool = <[h := tx]> ∅ /\ mp_priority pool = [(x, tx_timestamp tx, h)])
    as (pool & Ea & Et & Ep).
  { unfold add_transaction. rewrite Hh. cbn [mempool_new mp_transactions mp_max_size mp_current_size].
    rewrite lookup_empty, bool_decide_false by (by intros []).
    destruct (Z.ltb_spec (100 * 1024 * 1024) (0 + tx_size tx)); [lia|].
    rewrite Hins. cbn [existsb foldl]. rewrite Hx. eexists. split; [reflexivity|]. done. }
  exists pool. eexists. split; [done|]. split; [reflexivity|].
  unfold fill_template, get_transactions_for_block. cbn [bp_mempool bp_tx_validator].
  rewrite Ep. cbn [select_for_block]. rewrite Et, lookup_insert_eq.
  destruct (Z.ltb_spec MAX_BLOCK_SIZE (0 + tx_size tx)) as [Hb|Hb]; [unfold MAX_BLOCK_SIZE in Hb; lia|].
  cbn [fill_loop create_template new_template bt_epoch].
  assert (Hval : validate_transaction (bp_tx_validator p) tx epoch = Ok (true, "valid")).
  { unfold validate_transaction. destruct (is_valid_structure tx) as [b r]. simpl in Hstruct.
    subst b. simpl. rewrite Hepoch.
    rewrite (proj2 (Z.ltb_ge _ _)), (proj2 (Z.ltb_ge _ _)) by lia.
    unfold validate_by_type. rewrite Hcb. unfold validate_coinbase. rewrite Hins.
    destruct (Z.eqb_spec (zlen (tx_outputs tx)) 0) as [Hz|_]; [unfold zlen in Hz; lia|].
    unfold total_output in Hvalue.
    destruct (Z.ltb_spec MAX_COINBASE_VALUE (sumZ (map to_value (tx_outputs tx)))) as [Hm|_];
      [unfold MAX_COINBASE_VALUE in Hm; lia|done]. }
  rewrite Hval. unfold template_add, create_template, new_template.
  cbn [bt_transactions bt_total_size]. change (MAX_TXS_PER_BLOCK <=? zlen [])%Z with false.
  rewrite (proj2 (Z.ltb_ge _ _) Hb). reflexivity.
Qed.

(** The hash that validators vote on does not commit to the block's transactions: two
    blocks built by the same proposer for the same epoch and measurement root have the same
    proposal hash, whatever their templates, rewards and times. *)
Theorem proposal_hash_ignores_transactions (p : BlockProducer) (t1 t2 : BlockTemplate)
    (measurement_root r1 r2 nonce1 nonce2 : bytes) (n1 n1' n2 n2' : float64)
    (p1 p2 : BlockProducer) (b1 b2 : BuiltProposal)
    (Hepoch : bt_epoch t1 = bt_epoch t2)
    (H1 : build_block p t1 measurement_root r1 n1 nonce1 n1' = (p1, Ok b1))
    (H2 : build_block p t2 measurement_root r2 n2 nonce2 n2' = (p2, Ok b2)) :
  proposal_hash (built_proposal b1) = proposal_hash (built_proposal b2) /\
  (exists c1, built_transactions b1 = c1 :: bt_transactions t1) /\
  (exists c2, built_transactions b2 = c2 :: bt_transactions t2).
Proof.
  unfold build_block in H1, H2.
  match type of H1 with context [match ?m with _ => _ end] => destruct m as [x1|] eqn:E1 end; [|done].
  match type of H2 with context [match ?m with _ => _ end] => destruct m as [x2|] eqn:E2 end; [|done].
  injection H1 as _ <-. injection H2 as _ <-. inv_res. cbn [built_proposal built_transactions].
  unfold proposal_hash. cbn [cp_proposer_id cp_epoch cp_round cp_measurement_root
    cp_transaction_root cp_state_root]. rewrite Hepoch. split; [done|]. split; by eexists.
Qed.

End BlockProperties.

(** ** Concrete runs *)

Section Demo.
#[local] Existing Instance counter_hashlib.

Definition demo_pool_ops : list mempool_op := [MAdd demo_transfer].

Definition demo_producer : BlockProducer :=
  mkBlockProducer (b: "prod") demo_validator (mempool_run 1 demo_pool_ops) (mkProducerStats 0 0 0).

Definition demo_filled : BlockProducer * BlockTemplate * res Z :=
  fill_template demo_producer (create_template demo_producer 5 one_second).

Lemma demo_filled_eq :
  fill_template demo_producer (create_template demo_producer 5 one_second) =
  (demo_filled.1.1, demo_filled.1.2, Ok 1%Z).
Proof.
  assert (E : demo_filled.2 = Ok 1%Z) by (vm_compute; reflexivity).
  rewrite <- E. unfold demo_filled. by destruct (fill_template _ _) as [[p t] r].
Qed.

Lemma fill_template_spec_witness : bt_transactions demo_filled.1.2 = [demo_transfer].
Proof.
  destruct (fill_template_spec demo_producer demo_filled.1.1 5 one_second demo_filled.1.2 1
              demo_filled_eq) as (_ & Hn & _).
  vm_compute. reflexivity.
Defined.

Definition demo_cb : Transaction :=
  match create_coinbase demo_filled.1.2 alice one_second (b: "nonce001") with
  | Ok tx => tx | Err _ => demo_transfer end.

Definition demo_cb_hash : bytes := match tx_hash demo_cb with Ok h => h | Err _ => [] end.

Lemma demo_pool_ordinary :
  map_Forall (ordinary (v_utxo_set demo_validator)) (mp_transactions (mempool_run 1 demo_pool_ops)).
Proof.
  assert (E : mp_transactions (mempool_run 1 demo_pool_ops)
    = {[demo_sh TRANSFER [0; 1]%Z [coin 30000 bob] := demo_transfer]}).
  { refine (bool_decide_unpack _ _). vm_compute. exact I. }
  rewrite E. apply map_Forall_singleton.
  split; [done|]. split; [done|]. split.
  - refine (bool_decide_unpack _ _). vm_compute. exact I.
  - intros j. apply demo_fresh. by vm_compute.
Qed.

Lemma block_mints_reward_witness :
  exists p'', @apply_block _ elements_order demo_filled.1.1
      (demo_cb :: bt_transactions demo_filled.1.2) None = (p'', true) /\
    (supply (v_utxo_set (bp_tx_validator p'')) <= 60000 + 5000000000)%Z.
Proof.
  destruct (@block_mints_reward _ elements_order 1 demo_pool_ops demo_producer demo_filled.1.1 5
              one_second demo_filled.1.2 1 alice (b: "nonce001") demo_cb_hash demo_cb)
    as (p'' & E & Hs).
  - lia.
  - repeat constructor; simpl; lia.
  - reflexivity.
  - exact demo_pool_ordinary.
  - exact demo_filled_eq.
  - vm_compute. reflexivity.
  - vm_compute. reflexivity.
  - refine (bool_decide_unpack _ _). vm_compute. exact I.
  - intros j. apply demo_fresh. by vm_compute.
  - exists p''. split; [exact E|]. eapply Z.le_trans; [exact Hs|]. by vm_compute.
Defined.

Definition minted_tx : Transaction :=
  mkTransaction 1 COINBASE [] [coin 10000000000 bob] 5 1700000000000 0 (b: "nonce002") None.

Lemma pooled_coinbase_included_witness :
  exists pool t, add_transaction (mempool_new 100) minted_tx = (pool, Ok (true, "added")) /\
    (fill_template (mkBlockProducer (b: "prod") demo_validator pool (mkProducerStats 0 0 0))
       (create_template demo_producer 5 one_second)).1.2 = t /\
    bt_transactions t = [minted_tx].
Proof.
  apply (pooled_coinbase_included demo_producer 5 one_second minted_tx
           (match tx_hash minted_tx with Ok h => h | Err _ => [] end)).
  - reflexivity.
  - reflexivity.
  - vm_compute. reflexivity.
  - reflexivity.
  - by vm_compute.
  - simpl. lia.
  - vm_compute. reflexivity.
Defined.

Definition demo_built (t : BlockTemplate) (reward : bytes) : res BuiltProposal :=
  (build_block demo_producer t (b: "root") reward one_second (b: "nonce003") one_second).2.

Definition empty_template : BlockTemplate := create_template demo_producer 5 one_second.

Lemma proposal_hash_ignores_transactions_witness :
  exists b1 b2, demo_built demo_filled.1.2 alice = Ok b1 /\ demo_built empty_template bob = Ok b2 /\
    proposal_hash (built_proposal b1) = proposal_hash (built_proposal b2) /\
    (built_tx_count b1, built_tx_count b2) = (2, 1)%Z.
Proof.
  assert (H1 : match demo_built demo_filled.1.2 alice with Ok b => (built_tx_count b =? 2)%Z | Err _ => false end = true)
    by (vm_compute; reflexivity).
  assert (H2 : match demo_built empty_template bob with Ok b => (built_tx_count b =? 1)%Z | Err _ => false end = true)
    by (vm_compute; reflexivity).
  unfold demo_built in *.
  destruct (build_block demo_producer demo_filled.1.2 _ _ _ _ _) as [p1 [b1|]] eqn:E1; [|discriminate H1].
  destruct (build_block demo_producer empty_template _ _ _ _ _) as [p2 [b2|]] eqn:E2; [|discriminate H2].
  exists b1, b2. split; [reflexivity|]. split; [reflexivity|].
  destruct (proposal_hash_ignores_transactions demo_producer demo_filled.1.2 empty_template
              (b: "root") alice bob (b: "nonce003") (b: "nonce003") one_second one_second one_second
              one_second p1 p2 b1 b2) as (Hh & _).
  - vm_compute. reflexivity.
  - exact E1.
  - exact E2.
  - split; [exact Hh|]. apply Z.eqb_eq in H1, H2. simpl in H1, H2. by rewrite H1, H2.
Defined.

End Demo.
