(* ===== verification/Recovery.v ===== *)
(** * Recovery from the database

    [StorageManager.rebuild_utxo_set] of [src/src/storage.py] against what it is to recover: the UTXO
    set that a node has in memory after [apply_block] of [src/src/block_producer.py] applied the
    blocks that it stored.  What comes back is this set with three losses ([rebuild_replays]):
    the data of the outputs, the stakes, and the epochs of the transactions, for which those of
    their blocks are taken.  (The authentication registry is not part of the set.) *)

From stdpp Require Import prelude list gmap strings sorting.
From Stdlib Require Import Strings.Byte ZArith Lia.
From S2P Require Import Prelude.
From S2P Require Import PyFloat.
From S2P Require Import Crypto.
From S2P Require Import Transaction.
From S2P Require Import Ledger.
From S2P Require Import TxValidation.
From S2P Require Import Consensus.
From S2P Require Import Storage.
From S2P Require Import StorageLaws.
From S2P Require Import Blocks.

Set Default Goal Selector "!".

(** ** What is recovered of a set in memory *)

Section Recovered.
Context (created : bytes -> Z).

(** An entry without its data, created in the epoch of the block. *)
Definition recovered_utxo (x : UTXO) : UTXO :=
  mkUTXO (u_tx_hash x) (u_output_index x) (strip (u_output x)) (created (u_tx_hash x))
    (u_is_spent x) (u_spent_by x).

(** The same entries and the same index; no stakes. *)
Definition recovered (s : UTXOSet) : UTXOSet := mkUTXOSet (recovered_utxo <$> utxos s) (by_address s) ∅.

Lemma recovered_new : recovered utxo_set_new = utxo_set_new.
Proof. unfold recovered, utxo_set_new. cbn. by rewrite fmap_empty. Qed.

Lemma recovered_add s h i out e :
  recovered (add_utxo s h i out e) = add_utxo (recovered s) h i (strip out) (created h).
Proof. unfold recovered, add_utxo. cbn. by rewrite fmap_insert. Qed.

Lemma recovered_spend s h i t : recovered (spend_utxo s h i t).1 = (spend_utxo (recovered s) h i t).1.
Proof.
  unfold spend_utxo. cbn [utxos recovered]. rewrite lookup_fmap.
  destruct (utxos s !! (h, i)) as [u|]; [|done]. cbn [fmap option_fmap option_map recovered_utxo u_is_spent].
  destruct (u_is_spent u); [done|]. unfold recovered. cbn. by rewrite fmap_insert.
Qed.

Lemma recovered_stakes tx s : recovered (apply_stakes tx s) = recovered s.
Proof.
  unfold apply_stakes. revert s. induction (tx_outputs tx) as [|out outs IH]; intros s; [done|].
  cbn [foldl]. rewrite IH. by destruct (tx_epoch tx <? to_lock_epoch out)%Z.
Qed.

(** Outputs of a transaction, added from position [i] on. *)
Definition add_outputs (h : bytes) (e : Z) (i : Z) (outs : list TxOutput) (s : UTXOSet) : UTXOSet :=
  foldl (fun s x => add_utxo s h (i + Z.of_nat x.1) x.2 e) s (imap pair outs).

Lemma add_outputs_cons h e i out outs s :
  add_outputs h e i (out :: outs) s = add_outputs h e (i + 1) outs (add_utxo s h i out e).
Proof.
  unfold add_outputs. cbn [imap foldl fst snd]. rewrite Z.add_0_r. generalize (add_utxo s h i out e) as s'.
  assert (E : imap (pair ∘ S) outs = (fun x : nat * TxOutput => (S x.1, x.2)) <$> imap pair outs).
  { rewrite fmap_imap. by apply imap_ext. }
  rewrite E. clear E s. induction (imap pair outs) as [|x l IH]; intros s; [done|]. cbn [fmap list_fmap foldl fst snd].
  rewrite <- IH. do 2 f_equal. lia.
Qed.

Lemma recovered_add_outputs h e i outs s :
  recovered (add_outputs h e i outs s) = add_outputs h (created h) i (map strip outs) (recovered s).
Proof.
  revert i s. induction outs as [|out outs IH]; intros i s; [done|]. cbn [map].
  by rewrite !add_outputs_cons, IH, recovered_add.
Qed.

Definition spend_all (t : bytes) (keys : list (bytes * Z)) (s : UTXOSet) : UTXOSet :=
  foldl (fun s k => (spend_utxo s k.1 k.2 t).1) s keys.

Lemma recovered_spend_all t keys s : recovered (spend_all t keys s) = spend_all t keys (recovered s).
Proof.
  unfold spend_all. revert s. induction keys as [|k keys IH]; intros s; [done|]. cbn [foldl].
  by rewrite IH, recovered_spend.
Qed.

End Recovered.

(** ** Adding and spending different outputs commute *)

Lemma add_spend_comm s h i out e h' i' t :
  (h', i') <> (h, i) ->
  (spend_utxo (add_utxo s h i out e) h' i' t).1 = add_utxo (spend_utxo s h' i' t).1 h i out e.
Proof.
  intros Hne. unfold spend_utxo, add_utxo. cbn [utxos by_address staked]. rewrite lookup_insert_ne by done.
  destruct (utxos s !! (h', i')) as [u|]; [|done]. destruct (u_is_spent u); [done|].
  cbn [fst utxos by_address staked mark_spent u_output]. f_equal; [by apply insert_insert_ne|].
  destruct (decide (to_address out = to_address (u_output u))) as [<-|Ha].
  - rewrite !lookup_default_insert_eq, !insert_insert_eq. f_equal. set_solver.
  - rewrite !lookup_default_insert_ne by done. by apply insert_insert_ne.
Qed.

Lemma add_outputs_spend h e i outs s h' i' t :
  h' <> h -> (spend_utxo (add_outputs h e i outs s) h' i' t).1 = add_outputs h e i outs (spend_utxo s h' i' t).1.
Proof.
  intros Hne. revert i s. induction outs as [|out outs IH]; intros i s; [done|].
  rewrite !add_outputs_cons, IH, add_spend_comm; [done|congruence].
Qed.

Lemma add_outputs_spend_all h e i outs t keys s :
  Forall (fun k => k.1 <> h) keys ->
  spend_all t keys (add_outputs h e i outs s) = add_outputs h e i outs (spend_all t keys s).
Proof.
  intros Hk. unfold spend_all. revert s. induction Hk as [|k keys Hne _ IH]; intros s; [done|]. cbn [foldl].
  rewrite add_outputs_spend by done. apply IH.
Qed.

(** ** The transactions in memory *)

Section Memory.
Context `{Hashlib}.

Lemma spend_inputs_all tx h s inputs s' :
  tx_hash tx = Ok h -> spend_inputs tx s inputs = (s', Ok true) ->
  s' = spend_all h (map outpoint_of inputs) s /\
  Forall (fun k => is_Some (utxos s !! k)) (map outpoint_of inputs) /\ dom (utxos s') = dom (utxos s).
Proof.
  intros Hh. revert s. induction inputs as [|inp inputs IH]; intros s; cbn [spend_inputs].
  { intros [= <-]. by repeat split. }
  rewrite Hh. destruct (spend_utxo s _ _ h) as [s1 [u|]] eqn:E; [|done].
  assert (Es : (spend_utxo s (ti_prev_tx_hash inp) (ti_output_index inp) h).1 = s1) by (by rewrite E).
  intros (-> & Hf & Hd)%IH. apply spend_utxo_inv in E as (v & Hv & _ & -> & Hu & _).
  assert (Hdom : dom (utxos s1) = dom (utxos s)).
  { rewrite Hu, dom_insert_L. apply elem_of_dom_2 in Hv. set_solver. }
  split; [|split; [|congruence]].
  - cbn [map spend_all foldl outpoint_of fst snd]. unfold spend_all. f_equal.
    exact (eq_sym Es).
  - cbn [map]. apply Forall_cons. split; [by exists v|].
    eapply Forall_impl; [exact Hf|]. intros k. rewrite <- !elem_of_dom. by rewrite Hdom.
Qed.

Lemma create_outputs_all tx h s i outs s' :
  tx_hash tx = Ok h -> create_outputs tx s i outs = (s', Ok tt) -> s' = add_outputs h (tx_epoch tx) i outs s.
Proof.
  intros Hh. revert s i. induction outs as [|out outs IH]; intros s i; cbn [create_outputs]; [by intros [= <-]|].
  rewrite Hh. intros ->%IH. by rewrite add_outputs_cons.
Qed.

Lemma add_outputs_keys h e i outs s k :
  k ∈ dom (utxos (add_outputs h e i outs s)) -> k ∈ dom (utxos s) \/ k.1 = h.
Proof.
  revert i s. induction outs as [|out outs IH]; intros i s; [by left|]. rewrite add_outputs_cons.
  intros [Hk|?]%IH; [|by right]. cbn [add_utxo utxos] in Hk. rewrite dom_insert_L in Hk.
  apply elem_of_union in Hk as [->%elem_of_singleton|?]; [by right|by left].
Qed.

(** What is applied: the outputs are created, the inputs spent, and perhaps stakes recorded. *)
Lemma apply_transaction_set v tx v' :
  apply_transaction v tx = (v', Ok true) -> exists s1 s2,
    spend_inputs tx (v_utxo_set v) (tx_inputs tx) = (s1, Ok true) /\
    create_outputs tx s1 0 (tx_outputs tx) = (s2, Ok tt) /\
    v_utxo_set v' = if bool_decide (tx_type tx = STAKE) then apply_stakes tx s2 else s2.
Proof.
  unfold apply_transaction. destruct (spend_inputs _ _ _) as [s1 [[|]|]]; [|done..].
  destruct (create_outputs _ _ _ _) as [s2 [[]|]] eqn:E2; [|done]. intros E. exists s1, s2. split; [done|]. split; [done|].
  destruct (tx_type tx); try (injection E as <-; done).
  - unfold apply_register in E. destruct (tx_outputs tx); [done|].
    destruct (derive_address _); [by injection E as <-|done].
  - unfold apply_rotate in E. destruct (tx_outputs tx); [done|]. destruct (tx_inputs tx); [done|].
    destruct (get_utxo _ _ _); [by injection E as <-|done].
Qed.

(** The hash of a transaction that is new. *)
Definition unused (v : Validator) (h : bytes) : Prop := forall k, k ∈ dom (utxos (v_utxo_set v)) -> k.1 <> h.

Lemma apply_transaction_recovered created v tx h v' :
  apply_transaction v tx = (v', Ok true) -> tx_hash tx = Ok h -> unused v h ->
  recovered created (v_utxo_set v') =
    spend_all h (map outpoint_of (tx_inputs tx))
      (add_outputs h (created h) 0 (map strip (tx_outputs tx)) (recovered created (v_utxo_set v))) /\
  forall h', h' <> h -> unused v h' -> unused v' h'.
Proof.
  intros (s1 & s2 & E1 & E2 & Ev)%apply_transaction_set Hh Hn.
  apply (spend_inputs_all _ h) in E1 as (E1 & Hf & Hd); [|done]. apply (create_outputs_all _ h) in E2; [|done].
  assert (Hu : recovered created (v_utxo_set v') = recovered created s2 /\ utxos (v_utxo_set v') = utxos s2).
  { rewrite Ev. case_bool_decide; [|done]. by rewrite recovered_stakes, apply_stakes_utxos. }
  destruct Hu as [-> Hu]. split.
  - rewrite E2, E1, recovered_add_outputs, recovered_spend_all, add_outputs_spend_all; [done|].
    eapply Forall_impl; [exact Hf|]. intros k Hk. by apply Hn, elem_of_dom.
  - intros h' Hne Hn' k. rewrite Hu, E2. intros [Hk|Hk]%add_outputs_keys; [|congruence].
    apply Hn'. by rewrite <- Hd.
Qed.

(** ** A block from the database and in memory *)

Lemma rebuild_transaction_stored ts e u h tx :
  tx_stored ts h tx -> rebuild_transaction ts e u h =
    spend_all h (map outpoint_of (tx_inputs tx)) (add_outputs h e 0 (map strip (tx_outputs tx)) u).
Proof.
  intros [[row Hr] Hi (rows & Ho & Hm)]. unfold rebuild_transaction, get_transaction. rewrite Hr.
  unfold get_outputs, get_inputs. rewrite (lists_order _ _ _ Ho), (lists_order _ _ _ Hi), numbered_values.
  rewrite <- (map_map snd output_of_row), numbered_values, Hm. done.
Qed.

Lemma rebuild_transactions_recovered created ts e l v v' :
  apply_all v (map snd l) = (v', Ok true) ->
  Forall (fun y => tx_stored ts y.1 y.2 /\ tx_hash y.2 = Ok y.1 /\ created y.1 = e) l ->
  NoDup (map fst l) -> Forall (unused v) (map fst l) ->
  foldl (rebuild_transaction ts e) (recovered created (v_utxo_set v)) (map fst l) =
    recovered created (v_utxo_set v') /\
  forall h, h ∉ map fst l -> unused v h -> unused v' h.
Proof.
  intros Ha Hf. revert v Ha. induction Hf as [|[h tx] l (Hs & Hh & He) Hf IH]; intros v Ha Hnd Hun.
  { injection Ha as <-. by split. }
  cbn [map fst snd apply_all foldl] in *. apply NoDup_cons in Hnd as [Hni Hnd]. apply Forall_cons in Hun as [Hn Hun].
  destruct (apply_transaction v tx) as [v1 [[|]|]] eqn:E1; try done.
  destruct (apply_transaction_recovered created v tx h v1 E1 Hh Hn) as [Hr Hk].
  rewrite (rebuild_transaction_stored _ _ _ _ tx Hs), <- He, <- Hr, He.
  destruct (IH v1 Ha Hnd) as [IH1 IH2].
  { rewrite Forall_forall in *. intros h' Hh'. apply Hk; [by intros ->|by apply Hun]. }
  split; [done|]. intros h' [Hne Hni']%not_elem_of_cons Hn'. apply IH2; [done|]. by apply Hk.
Qed.

Lemma apply_all_app v txs1 txs2 v' :
  apply_all v (txs1 ++ txs2) = (v', Ok true) ->
  exists v1, apply_all v txs1 = (v1, Ok true) /\ apply_all v1 txs2 = (v', Ok true).
Proof.
  revert v. induction txs1 as [|tx txs1 IH]; intros v Ha; [by exists v|]. cbn [app apply_all] in *.
  destruct (apply_transaction v tx) as [v1 [[|]|]]; try done. by apply IH.
Qed.

Lemma seq_increasing k n : StronglySorted Z.lt (map Z.of_nat (seq k n)).
Proof.
  revert k. induction n as [|n IH]; intros k; [constructor|]. cbn [seq map]. constructor; [apply IH|].
  apply Forall_forall. intros z (j & -> & Hj)%list_elem_of_fmap. apply elem_of_seq in Hj. lia.
Qed.

Lemma filter_increasing (P : Z -> Prop) `{!forall z, Decision (P z)} l :
  StronglySorted Z.lt l -> StronglySorted Z.lt (filter P l).
Proof.
  induction 1 as [|z l Hs IH Hf]; [constructor|]. rewrite filter_cons. case_decide; [|done].
  constructor; [done|]. rewrite Forall_forall in *. intros y [_ Hy]%list_elem_of_filter. by apply Hf.
Qed.

(** The range of the loop, cut down to the epochs that have a block. *)
Lemma range_epochs (l : list Z) n :
  StronglySorted Z.lt l -> Forall (fun e => 0 <= e < Z.of_nat n)%Z l ->
  filter (fun e => e ∈ l) (map Z.of_nat (seq 0 n)) = l.
Proof.
  intros Hs Hr. rewrite Forall_forall in Hr.
  apply (StronglySorted_unique_strong Z.lt); [intros; lia|apply filter_increasing, seq_increasing|done|].
  apply NoDup_Permutation.
  - apply NoDup_filter, NoDup_fmap_2; [by intros ? ? ?%Nat2Z.inj|apply NoDup_seq].
  - clear -Hs. induction Hs as [|z l Hs IH Hf]; constructor; [|done]. intros Hin. rewrite Forall_forall in Hf.
    specialize (Hf z Hin). lia.
  - intros e. rewrite list_elem_of_filter. split; [by intros []|]. intros He. split; [done|].
    specialize (Hr e He). apply list_elem_of_fmap. exists (Z.to_nat e). split; [lia|]. apply elem_of_seq. lia.
Qed.

Lemma height_range s bs :
  blocks_are s bs -> increasing bs -> Forall (fun e => 0 <= e < 2 ^ 63)%Z (map sb_epoch bs) ->
  let n := Z.of_nat (Z.to_nat (get_chain_height s + 1)) in
  Forall (fun e => 0 <= e < n)%Z (map sb_epoch bs) /\ (n <= 2 ^ 63)%Z.
Proof.
  intros Hb Hinc Hr n. subst n. unfold get_chain_height. rewrite (epochs_are _ bs) by done.
  unfold increasing in Hinc. destruct (map sb_epoch bs) as [|z l _] using rev_ind; [split; [constructor|simpl; lia]|].
  rewrite last_snoc. cbn [default from_option id]. apply StronglySorted_snoc_lt in Hinc as [_ Hlt].
  apply Forall_app in Hr as [Hr Hz%Forall_inv]. split; [|lia].
  apply Forall_app. split; [|constructor; [lia|done]].
  rewrite Forall_forall in *. intros e He. specialize (Hlt e He). specialize (Hr e He). cbn beta in *. lia.
Qed.

Definition rebuild_at (m : StorageManager) (u : UTXOSet) (e : Z) : UTXOSet :=
  match get_block (sm_blocks m) e with
  | Ok (Some b) => foldl (rebuild_transaction (sm_transactions m) e) u (sb_transactions b)
  | _ => u
  end.

Lemma rebuild_epochs_at m u es :
  Forall int64 es -> rebuild_epochs m u es = Ok (foldl (rebuild_at m) u es).
Proof.
  intros Hf. revert u. induction Hf as [|e es He Hf IH]; intros u; [done|]. cbn [rebuild_epochs foldl].
  unfold rebuild_epoch, rebuild_at at 2, get_block. rewrite (db_int_ok _ He). cbn [mbind res_bind].
  destruct (bs_blocks (sm_blocks m) !! e); cbn [mbind res_bind]; apply IH.
Qed.

Lemma rebuild_at_filter m bs u es :
  blocks_are (sm_blocks m) bs -> Forall int64 es ->
  foldl (rebuild_at m) u es = foldl (rebuild_at m) u (filter (fun e => e ∈ map sb_epoch bs) es).
Proof.
  intros Hb Hf. revert u. induction Hf as [|e es He Hf IH]; intros u; [done|]. rewrite filter_cons.
  cbn [foldl]. destruct (decide (e ∈ map sb_epoch bs)) as [Hin|Hn]; cbn [foldl]; rewrite IH; [done|].
  unfold rebuild_at at 2. by rewrite (get_block_none _ _ _ Hb Hn He).
Qed.

(** A block that was read back replays as it was applied, and so do the blocks of a chain. *)
Lemma rebuild_chain created m bs :
  blocks_are (sm_blocks m) bs ->
  forall chain' bs' v v', incl bs' bs -> Forall (fun b => int64 (sb_epoch b)) bs' ->
  map sb_epoch bs' = map (fun x => cb_epoch x.1) chain' ->
  map sb_transactions bs' = map (fun x => map fst x.2) chain' ->
  Forall (fun x => Forall (fun y => tx_stored (sm_transactions m) y.1 y.2 /\ tx_hash y.2 = Ok y.1 /\
    created y.1 = cb_epoch x.1) x.2) chain' ->
  NoDup (map fst (concat (map snd chain'))) -> Forall (unused v) (map fst (concat (map snd chain'))) ->
  apply_all v (map snd (concat (map snd chain'))) = (v', Ok true) ->
  foldl (rebuild_at m) (recovered created (v_utxo_set v)) (map sb_epoch bs') = recovered created (v_utxo_set v').
Proof.
  intros Hb chain'. induction chain' as [|x chain' IH]; intros [|b bs'] v v' Hi Hint He Hr Hf Hnd Hun Ha; try done.
  { cbn in Ha. by injection Ha as <-. }
  cbn [map foldl concat] in *. injection He as He He'. injection Hr as Hr Hr'.
  apply Forall_cons in Hint as [Hib Hint]. apply Forall_cons in Hf as [Hx Hf].
  rewrite map_app in *. apply NoDup_app in Hnd as (Hnd1 & Hd & Hnd2). apply Forall_app in Hun as [Hun1 Hun2].
  apply apply_all_app in Ha as (v1 & Ha1 & Ha2).
  destruct (rebuild_transactions_recovered created (sm_transactions m) (sb_epoch b) x.2 v v1 Ha1) as [E Hk]; [|done..|].
  { by rewrite He. }
  unfold rebuild_at at 2. rewrite (get_block_are _ bs b Hb) by (done || (apply list_elem_of_In, Hi; by left)).
  rewrite Hr, E. apply IH; try done; [intros y Hy; apply Hi; by right|].
  rewrite Forall_forall in *. intros h Hh. apply Hk; [|by apply Hun2]. intros Hin. by apply (Hd h).
Qed.

(** The epoch of the block that a transaction is in. *)
Definition block_epochs (chain : list entry) : gmap bytes Z :=
  list_to_map (concat (map (fun x => map (fun y => (y.1, cb_epoch x.1)) x.2) chain)).

Definition block_epoch (chain : list entry) (h : bytes) : Z := default 0%Z (block_epochs chain !! h).

Lemma block_epoch_ok chain x y :
  NoDup (map fst (concat (map snd chain))) -> x ∈ chain -> y ∈ x.2 -> block_epoch chain y.1 = cb_epoch x.1.
Proof.
  intros Hnd Hx Hy. unfold block_epoch, block_epochs. set (l := concat _).
  assert (Hl : map fst l = map fst (concat (map snd chain))).
  { subst l. clear. induction chain as [|x chain IH]; [done|]. cbn [map concat]. rewrite !map_app, IH, map_map. done. }
  rewrite (elem_of_list_to_map_1 l y.1 (cb_epoch x.1)); [done|by rewrite <- Hl in Hnd|].
  apply list_elem_of_In, in_concat. exists (map (fun y => (y.1, cb_epoch x.1)) x.2). split.
  - apply in_map_iff. exists x. split; [done|by apply list_elem_of_In].
  - apply in_map_iff. exists y. split; [done|by apply list_elem_of_In].
Qed.

(** The hypotheses of [rebuild_chain] hold of a stored chain. *)
Lemma chain_transactions chain m bs :
  chain_ok chain -> stored_chain chain m bs ->
  Forall (fun x => Forall (fun y => tx_stored (sm_transactions m) y.1 y.2 /\ tx_hash y.2 = Ok y.1 /\
    block_epoch chain y.1 = cb_epoch x.1) x.2) chain.
Proof.
  intros Hc Hs. apply Forall_forall. intros x Hx. apply Forall_forall. intros y Hy.
  pose proof (co_entries _ Hc) as He. rewrite Forall_forall in He.
  pose proof (eo_storable x (He x Hx)) as Hst. rewrite Forall_forall in Hst. split; [|split].
  - apply (ho_stored _ _ (sc_transactions _ _ _ Hs)). rewrite <- surjective_pairing.
    apply list_elem_of_In, in_concat. exists x.2.
    split; [apply in_map; by apply list_elem_of_In|by apply list_elem_of_In].
  - apply (so_hash _ _ (Hst y Hy)).
  - apply block_epoch_ok; [apply Hc|done..].
Qed.

(** C7. Recovery restores the UTXO set up to what is not stored.  Let a node with an empty UTXO set
    apply the transactions of a chain of blocks, with increasing epochs and different hashes of
    blocks and of transactions, and store the blocks.  Then [rebuild_utxo_set] ends without an
    exception, and its set has the entries and the address index of the set in memory: the same
    outpoints with the same values, addresses, lock epochs and spent marks.  It differs in three
    points: the outputs have no data, each was created in the epoch of its block, not of its
    transaction, and no stakes are recorded. *)
Theorem rebuild_replays (chain : list entry) (v v' : Validator) (Hchain : chain_ok chain)
    (Hv : v_utxo_set v = utxo_set_new)
    (Happly : apply_all v (map snd (concat (map snd chain))) = (v', Ok true)) :
  exists m', rebuild_utxo_set (store_chain storage_new chain) = Ok m' /\
    sm_utxo_set m' = recovered (block_epoch chain) (v_utxo_set v') /\
    sm_blocks m' = sm_blocks (store_chain storage_new chain).
Proof.
  destruct (store_chain_ok chain Hchain) as [bs Hs]. pose proof (chain_transactions chain _ bs Hchain Hs) as Htx.
  destruct Hs as [S1 S2 S3 S4 S5 S6 S7].
  set (m := store_chain storage_new chain) in *. unfold rebuild_utxo_set.
  assert (Hinc : increasing bs) by (unfold increasing; rewrite S2; apply Hchain).
  assert (Hr : Forall (fun e => 0 <= e < 2 ^ 63)%Z (map sb_epoch bs)).
  { rewrite S2. apply Forall_fmap. eapply Forall_impl; [apply (co_entries _ Hchain)|]. intros x Hx. apply (eo_epoch x Hx). }
  pose proof (stored_int64 _ _ Hchain S2) as H64.
  destruct (height_range _ _ S5 Hinc Hr) as [Hn Hmax].
  set (n := Z.to_nat (get_chain_height (sm_blocks m) + 1)) in *.
  assert (Hes : Forall int64 (map Z.of_nat (seq 0 n))).
  { apply Forall_fmap, Forall_forall. intros j Hj. apply elem_of_seq in Hj. unfold int64. simpl. lia. }
  rewrite (rebuild_epochs_at m _ _ Hes), (rebuild_at_filter m bs _ _ S5 Hes), range_epochs by done.
  cbn [mbind res_bind]. eexists. split; [reflexivity|]. split; [|done]. cbn [sm_utxo_set].
  rewrite <- (recovered_new (block_epoch chain)), <- Hv.
  apply (rebuild_chain _ m bs S5 chain bs); try done; [apply incl_refl|apply Hchain|].
  apply Forall_forall. intros h _ k. rewrite Hv. cbn. rewrite dom_empty_L. by intros ?%elem_of_empty.
Qed.

End Memory.

(** ** Sample run *)

Section Samples.
#[local] Existing Instance toy_hashlib.

Definition sample_memory : Validator := mkValidator utxo_set_new auth_registry_new.

Definition sample_applied : Validator := (apply_all sample_memory [sample_mint; sample_spend]).1.

Lemma rebuild_replays_witness :
  exists m', rebuild_utxo_set (store_chain storage_new sample_chain) = Ok m' /\
    sm_utxo_set m' = recovered (block_epoch sample_chain) (v_utxo_set sample_applied) /\
    sm_blocks m' = sm_blocks (store_chain storage_new sample_chain).
Proof.
  apply (rebuild_replays sample_chain sample_memory sample_applied sample_chain_ok); [reflexivity|].
  assert (E : (apply_all sample_memory [sample_mint; sample_spend]).2 = Ok true) by (vm_compute; reflexivity).
  unfold sample_applied. change (map snd _) with [sample_mint; sample_spend].
  by rewrite (surjective_pairing (apply_all sample_memory [sample_mint; sample_spend])), E.
Defined.

(** The first output is spent after recovery, the second is not; the data of the first is lost. *)
Example sample_recovered :
  let u := recovered (block_epoch sample_chain) (v_utxo_set sample_applied) in
  (fun x => (u_is_spent x, to_data (u_output x), u_epoch_created x)) <$> get_utxo u mint_hash 0 = Some (true, [], 0%Z) /\
  (fun x => (u_is_spent x, to_data (u_output x), u_epoch_created x)) <$> get_utxo (v_utxo_set sample_applied) mint_hash 0 =
    Some (true, [Byte.x01], 0%Z) /\
  u_is_spent <$> get_utxo u mint_hash 1 = Some false.
Proof. vm_compute. done. Qed.

End Samples.
