(* ===== verification/Zones.v ===== *)
(** * Production over zones and finalization into the storage

    The rest of [src/src/block_producer.py]: the builder that lets the coordinators of all zones
    produce in parallel, the statistics, and the finalizer on the database of [Storage.v], of
    which [Blocks.finalize] only sees the answers.  Main results: every pending transaction is
    offered to one zone, in order, and to no other ([distribution_by_position]); zones neither
    help nor harm each other, whatever order the jobs complete in
    ([parallel_production_isolated]); finalizing a chain of blocks stores exactly that chain
    ([finalizer_stores_chain]). *)

From stdpp Require Import prelude list gmap strings sorting.
From Stdlib Require Import Strings.Byte ZArith Lia.
From S2P Require Import Prelude.
From S2P Require Import PyFloat.
From S2P Require Import Crypto.
From S2P Require Import Transaction.
From S2P Require Import Ledger.
From S2P Require Import TxValidation.
From S2P Require Import Mempool.
From S2P Require Import Consensus.
From S2P Require Import Storage.
From S2P Require Import StorageLaws.
From S2P Require Import Blocks.

Set Default Goal Selector "!".

Section Zones.
Context `{Hashlib}.

(** ** Parallel production *)

Definition add_coordinator (b : ParallelBlockBuilder) (zone_id : Z) (c : BlockCoordinator)
    : ParallelBlockBuilder :=
  mkParallelBlockBuilder (pb_num_zones b) (<[zone_id := c]> (pb_coordinators b)) (pb_pending_queue b).

(** What the job of a zone reads: the clock twice and a nonce. *)
Record JobInputs := mkJobInputs {
  ji_now : float64;
  ji_nonce : bytes;
  ji_now' : float64;
}.

Definition zone_job (epoch : Z) (entropy : bytes) (measurements : gmap Z (gmap bytes bytes))
    (inputs : Z -> JobInputs) (zone_id : Z) (c : BlockCoordinator)
    : BlockCoordinator * res (option BuiltProposal) :=
  produce_block c epoch entropy (lookup_default ∅ measurements zone_id) (ji_now (inputs zone_id))
    (ji_nonce (inputs zone_id)) (ji_now' (inputs zone_id)).

(** [as_completed]: the jobs in the order in which they complete.  A job changes its own
    coordinator only; an exception in it is printed and the others go on. *)
Fixpoint collect_results (job : Z -> BlockCoordinator -> BlockCoordinator * res (option BuiltProposal))
    (coordinators : gmap Z BlockCoordinator) (completed : list Z)
    : gmap Z BlockCoordinator * list BuiltProposal :=
  match completed with
  | [] => (coordinators, [])
  | zone_id :: completed =>
      match coordinators !! zone_id with
      | None => collect_results job coordinators completed
      | Some c =>
          let '(c, r) := job zone_id c in
          let '(coordinators, proposals) := collect_results job (<[zone_id := c]> coordinators) completed in
          (coordinators, match r with Ok (Some p) => p :: proposals | _ => proposals end)
      end
  end.

Definition produce_blocks_parallel (b : ParallelBlockBuilder) (epoch : Z) (entropy : bytes)
    (measurements : gmap Z (gmap bytes bytes)) (inputs : Z -> JobInputs) (completed : list Z)
    : ParallelBlockBuilder * res (list BuiltProposal) :=
  match distribute_transactions b with
  | (b, Err e) => (b, Err e)
  | (b, Ok _) =>
      let '(coordinators, proposals) :=
        collect_results (zone_job epoch entropy measurements inputs) (pb_coordinators b) completed in
      (mkParallelBlockBuilder (pb_num_zones b) coordinators (pb_pending_queue b), Ok proposals)
  end.

(** ** Statistics *)

Record ZoneStats := mkZoneStats {
  zs_zone_id : Z;
  zs_validators : Z;
  zs_mempool_size : Z;
  zs_mempool_fees : Z;
  zs_blocks_produced : Z;
  zs_txs_included : Z;
  zs_txs_rejected : Z;
  zs_utxo_count : Z;
}.

Definition get_zone_stats (c : BlockCoordinator) : ZoneStats :=
  let producers := map snd (map_to_list (bc_producers c)) in
  mkZoneStats (bc_zone_id c) (Z.of_nat (size (bc_validators c)))
    (Z.of_nat (size (mp_transactions (bc_zone_mempool c))))
    (Mempool.total_fees (bc_zone_mempool c))
    (sumZ (map blocks_produced producers)) (sumZ (map txs_included producers))
    (sumZ (map txs_rejected producers)) (Z.of_nat (size (utxos (v_utxo_set (bc_tx_validator c))))).

Record ThroughputStats := mkThroughputStats {
  ths_zones : Z;
  ths_total_mempool : Z;
  ths_blocks_produced : Z;
  ths_txs_included : Z;
  ths_workers : Z;
}.

Definition get_throughput_stats (b : ParallelBlockBuilder) (workers_per_zone : Z) : ThroughputStats :=
  let stats := map (fun kv => get_zone_stats kv.2) (map_to_list (pb_coordinators b)) in
  mkThroughputStats (pb_num_zones b) (sumZ (map zs_mempool_size stats)) (sumZ (map zs_blocks_produced stats))
    (sumZ (map zs_txs_included stats)) (pb_num_zones b * workers_per_zone).

(** ** The finalizer on its storage *)

(** [BlockFinalizer.finalize] with the storage it writes to. *)
Definition finalize_stored (f : BlockFinalizer) (m : StorageManager) (epoch : Z)
    : BlockFinalizer * StorageManager * res bool :=
  if bool_decide (epoch ∈ finalized_epochs f) then (f, m, Ok true)
  else match pending_blocks f !! epoch with
  | None => (f, m, Ok false)
  | Some (block, transactions) =>
      let '(m, success) := store_block_with_transactions m block transactions in
      if success then
        let epochs := {[epoch]} ∪ finalized_epochs f in
        let pending := delete epoch (pending_blocks f) in
        match set_current_epoch (sm_state m) epoch with
        | Err e => (mkBlockFinalizer epochs pending (chain_epoch f), m, Err e)
        | Ok state =>
            (mkBlockFinalizer epochs pending (Some epoch),
             mkStorageManager (sm_blocks m) (sm_transactions m) state (sm_utxo_set m), Ok true)
        end
      else (f, m, Ok false)
  end.

Record FinalizationStatus := mkFinalizationStatus {
  fst_finalized_count : Z;
  fst_pending_count : Z;
  fst_latest_finalized : Z;
  fst_chain_height : Z;
}.

Definition get_finalization_status (f : BlockFinalizer) (m : StorageManager) : FinalizationStatus :=
  mkFinalizationStatus (Z.of_nat (size (finalized_epochs f))) (Z.of_nat (size (pending_blocks f)))
    (match elements (finalized_epochs f) with [] => (-1)%Z | e :: es => foldr Z.max e es end)
    (get_chain_height (sm_blocks m)).

End Zones.

(** ** Who is offered what *)

Section Distribution.
Context `{Hashlib}.

(** The transactions at the positions of a zone, counted from [i]. *)
Fixpoint offered (num_zones zone_id i : Z) (pending : list Transaction) : list Transaction :=
  match pending with
  | [] => []
  | tx :: pending =>
      if bool_decide (i mod num_zones = zone_id)%Z then tx :: offered num_zones zone_id (i + 1) pending
      else offered num_zones zone_id (i + 1) pending
  end.

(** A coordinator takes transactions one after the other, counting those that its pool accepts. *)
Fixpoint offer_all (c : BlockCoordinator) (txs : list Transaction) : BlockCoordinator * Z :=
  match txs with
  | [] => (c, 0%Z)
  | tx :: txs =>
      let '(c, r) := broadcast_transaction c tx in
      let '(c, accepted) := offer_all c txs in
      (c, match r with Ok true => (accepted + 1)%Z | _ => accepted end)
  end.

(** A transaction that the pool can hash and rate. *)
Definition ratable (tx : Transaction) : Prop :=
  is_Ok (tx_hash tx) /\ (0 <= tx_fee tx < 2 ^ 64)%Z.

Lemma broadcast_ok c tx : ratable tx -> exists c' s, broadcast_transaction c tx = (c', Ok s).
Proof.
  intros [[h Eh] [r Er]%fee_rate_ok]. unfold broadcast_transaction, add_transaction. rewrite Eh.
  repeat case_match; simplify_eq; cbn [mbind res_bind]; eauto.
Qed.

Lemma distribute_loop_spec num_zones coordinators distribution i pending :
  (0 < num_zones)%Z -> Forall ratable pending ->
  (forall z, is_Some (distribution !! z) <-> is_Some (coordinators !! z)) ->
  exists coordinators' distribution',
    distribute_loop num_zones coordinators distribution i pending = (coordinators', Ok distribution') /\
    forall z, coordinators' !! z = (fun c => (offer_all c (offered num_zones z i pending)).1) <$> coordinators !! z /\
      distribution' !! z =
        (c ← coordinators !! z; k ← distribution !! z;
         Some (k + (offer_all c (offered num_zones z i pending)).2)%Z).
Proof.
  intros Hn Hp. revert coordinators distribution i.
  induction Hp as [|tx pending Htx Hp IH]; intros coordinators distribution i Hd; cbn [distribute_loop].
  { eexists _, _. split; [reflexivity|]. intros z. cbn [offered offer_all]. split.
    - by destruct (coordinators !! z).
    - destruct (coordinators !! z) as [c|] eqn:Ec; cbn [mbind option_bind].
      + destruct (proj2 (Hd z)) as [k ->]; [by rewrite Ec|]. cbn. f_equal. lia.
      + destruct (distribution !! z) eqn:Ez; [|done]. destruct (proj1 (Hd z)) as [c Hc]; [by rewrite Ez|congruence]. }
  unfold py_mod. rewrite (proj2 (Z.eqb_neq _ _)) by lia. set (zone := (i mod num_zones)%Z).
  destruct (coordinators !! zone) as [c|] eqn:Ec.
  - destruct (broadcast_ok c tx Htx) as (c' & s & Eb). rewrite Eb.
    destruct (proj2 (Hd zone)) as [k Hk]; [by rewrite Ec|].
    set (d := if s then _ else _).
    assert (Hdz : d !! zone = Some (k + if s then 1 else 0)%Z).
    { unfold d. destruct s; [|by rewrite Hk, Z.add_0_r]. rewrite lookup_insert_eq. unfold lookup_default. by rewrite Hk. }
    assert (Hdo : forall z, z <> zone -> d !! z = distribution !! z).
    { intros z Hz. unfold d. destruct s; [|done]. by rewrite lookup_insert_ne. }
    destruct (IH (<[zone := c']> coordinators) d (i + 1)%Z) as (cs & ds & -> & Hspec).
    { intros z. destruct (decide (z = zone)) as [->|Hz]; [by rewrite Hdz, lookup_insert_eq; split; eauto|].
      by rewrite Hdo, lookup_insert_ne by done. }
    exists cs, ds. split; [done|]. intros z. destruct (Hspec z) as [H1 H2]. rewrite H1, H2. cbn [offered].
    destruct (decide (z = zone)) as [->|Hz].
    + rewrite lookup_insert_eq, Hdz, bool_decide_eq_true_2, Ec, Hk by done. cbn [fmap option_fmap option_map mbind option_bind offer_all].
      rewrite Eb. destruct (offer_all c' _) as [c'' a]. split; [done|]. cbn [snd]. f_equal. destruct s; lia.
    + rewrite lookup_insert_ne, Hdo, bool_decide_eq_false_2 by done. done.
  - destruct (IH coordinators distribution (i + 1)%Z Hd) as (cs & ds & -> & Hspec).
    exists cs, ds. split; [done|]. intros z. destruct (Hspec z) as [H1 H2]. rewrite H1, H2. cbn [offered].
    destruct (decide (z = zone)) as [->|Hz]; [by rewrite Ec|]. by rewrite bool_decide_eq_false_2.
Qed.

(** Every pending transaction goes to one zone.  With at least one zone and transactions that
    the pools can hash and rate, the distribution succeeds and empties the queue; the
    coordinator of zone [z] is offered exactly the transactions at the positions congruent to
    [z], in their order, and the reported number is that of the ones its pool accepted.  A
    transaction whose zone has no coordinator is offered to nobody. *)
Theorem distribution_by_position (b : ParallelBlockBuilder) (Hzones : (0 < pb_num_zones b)%Z)
    (Htxs : Forall ratable (pb_pending_queue b)) :
  exists b' d, distribute_transactions b = (b', Ok d) /\ pb_pending_queue b' = [] /\
    forall z, let share := offered (pb_num_zones b) z 0 (pb_pending_queue b) in
      pb_coordinators b' !! z = (fun c => (offer_all c share).1) <$> pb_coordinators b !! z /\
      d !! z = (fun c => (offer_all c share).2) <$> pb_coordinators b !! z.
Proof.
  unfold distribute_transactions. set (d0 := (fun _ => 0%Z) <$> pb_coordinators b).
  destruct (distribute_loop_spec (pb_num_zones b) (pb_coordinators b) d0 0 (pb_pending_queue b) Hzones Htxs)
    as (cs & d & -> & Hspec).
  { intros z. unfold d0. by rewrite lookup_fmap, fmap_is_Some. }
  eexists _, d. split; [reflexivity|]. split; [done|]. intros z. cbv zeta. destruct (Hspec z) as [H1 H2].
  split; [exact H1|]. rewrite H2. unfold d0. rewrite lookup_fmap.
  by destruct (pb_coordinators b !! z).
Qed.

(** ** Parallel production *)

(** The proposal that a job returns, if it returns one. *)
Definition produced (r : res (option BuiltProposal)) : option BuiltProposal :=
  match r with Ok (Some p) => Some p | _ => None end.

(** The proposal of a zone's job, if the zone has a coordinator and the job returns one. *)
Definition zone_result (job : Z -> BlockCoordinator -> BlockCoordinator * res (option BuiltProposal))
    (coordinators : gmap Z BlockCoordinator) (zone_id : Z) : option BuiltProposal :=
  c ← coordinators !! zone_id; produced (job zone_id c).2.

Lemma zone_results_insert job coordinators zone c l :
  zone ∉ l -> omap (M:=list) (zone_result job (<[zone := c]> coordinators)) l =
    omap (M:=list) (zone_result job coordinators) l.
Proof.
  intros Hl. apply list_omap_ext, Forall2_same_length_lookup_2; [done|]. intros i z z' Hz Hz'.
  simplify_eq. unfold zone_result. rewrite lookup_insert_ne; [done|]. intros ->.
  by apply Hl, (list_elem_of_lookup_2 _ i).
Qed.

Lemma collect_results_spec job coordinators completed :
  NoDup completed ->
  (forall z, (collect_results job coordinators completed).1 !! z =
     (fun c => if decide (z ∈ completed) then (job z c).1 else c) <$> coordinators !! z) /\
  (collect_results job coordinators completed).2 = omap (M:=list) (zone_result job coordinators) completed.
Proof.
  revert coordinators. induction completed as [|zone completed IH]; intros coordinators Hnd; cbn [collect_results].
  { split; [|done]. intros z. cbn [fst]. destruct (coordinators !! z) as [c|]; [|done]. cbn [fmap option_fmap option_map].
    destruct (decide (z ∈ [])) as [Hin|]; [by apply elem_of_nil in Hin|done]. }
  apply NoDup_cons in Hnd as [Hz Hnd]. cbn [omap list_omap].
  unfold zone_result at 1. destruct (coordinators !! zone) as [c|] eqn:Ec.
  - destruct (job zone c) as [c' r] eqn:Ej. destruct (IH (<[zone := c']> coordinators) Hnd) as [H1 H2].
    destruct (collect_results job _ completed) as [cs ps]. cbn [fst snd] in *. split.
    + intros z. rewrite H1. destruct (decide (z = zone)) as [->|Hne].
      * rewrite lookup_insert_eq, Ec. cbn. rewrite decide_False by done. rewrite decide_True by (by left). by rewrite Ej.
      * rewrite lookup_insert_ne by done. destruct (coordinators !! z); [|done]. cbn. f_equal.
        repeat case_decide; try done; set_solver.
    + rewrite H2, zone_results_insert by done. cbn [mbind option_bind]. rewrite Ej. unfold produced. cbn [snd].
      by destruct r as [[p|]|].
  - destruct (IH coordinators Hnd) as [H1 H2]. split; [|done]. intros z. rewrite H1.
    destruct (coordinators !! z) eqn:E; [|done]. cbn. f_equal. repeat case_decide; try done; set_solver.
Qed.

(** Zones do not interfere.  Whatever order the jobs of all zones complete in, each zone's
    coordinator ends where its own job takes it from the distributed state, and the result
    holds the proposals of the jobs that return one, in completion order: a job that raises or
    has no proposer costs its own zone's proposal only. *)
Theorem parallel_production_isolated (b b1 : ParallelBlockBuilder) (d : gmap Z Z) (epoch : Z)
    (entropy : bytes) (measurements : gmap Z (gmap bytes bytes)) (inputs : Z -> JobInputs) (completed : list Z)
    (Hd : distribute_transactions b = (b1, Ok d))
    (Hcompleted : completed ≡ₚ elements (dom (pb_coordinators b1))) :
  let job := zone_job epoch entropy measurements inputs in
  exists b' proposals, produce_blocks_parallel b epoch entropy measurements inputs completed = (b', Ok proposals) /\
    (forall z, pb_coordinators b' !! z = (fun c => (job z c).1) <$> pb_coordinators b1 !! z) /\
    proposals = omap (M:=list) (zone_result job (pb_coordinators b1)) completed.
Proof.
  intros job. unfold produce_blocks_parallel. rewrite Hd. fold job.
  assert (Hnd : NoDup completed) by (rewrite Hcompleted; apply NoDup_elements).
  destruct (collect_results_spec job (pb_coordinators b1) completed Hnd) as [H1 H2].
  destruct (collect_results job _ completed) as [cs ps]. cbn [fst snd] in *.
  eexists _, ps. split; [reflexivity|]. split; [|done]. intros z. cbn [pb_coordinators]. rewrite H1.
  destruct (pb_coordinators b1 !! z) as [c|] eqn:Ec; [|done]. cbn. rewrite decide_True; [done|].
  rewrite Hcompleted, elem_of_elements. apply elem_of_dom. by rewrite Ec.
Qed.

End Distribution.

(** ** Finalizing a chain *)

Section Finalizer.
Context `{Hashlib}.

Definition finalizer_new : BlockFinalizer := mkBlockFinalizer ∅ ∅ None.

Definition queue_chain (f : BlockFinalizer) (chain : list entry) : BlockFinalizer :=
  foldl (fun f x => queue_for_finalization f x.1 (map snd x.2)) f chain.

Fixpoint finalize_all (f : BlockFinalizer) (m : StorageManager) (epochs : list Z)
    : BlockFinalizer * StorageManager * list (res bool) :=
  match epochs with
  | [] => (f, m, [])
  | epoch :: epochs =>
      let '(f, m, r) := finalize_stored f m epoch in
      let '(f, m, answers) := finalize_all f m epochs in
      (f, m, r :: answers)
  end.

Definition entry_epoch (x : entry) : Z := cb_epoch x.1.

Definition queued (chain : list entry) : gmap Z (ConsensusBlock * list Transaction) :=
  list_to_map (map (fun x => (entry_epoch x, (x.1, map snd x.2))) chain).

Lemma queued_keys chain : (map (fun x => (entry_epoch x, (x.1, map snd x.2))) chain).*1 = map entry_epoch chain.
Proof. exact (map_map _ fst chain). Qed.

Lemma queued_lookup_None chain e : e ∉ map entry_epoch chain -> queued chain !! e = None.
Proof. intros He. apply not_elem_of_list_to_map_1. by rewrite queued_keys. Qed.

Lemma queued_cons x chain : queued (x :: chain) = <[entry_epoch x := (x.1, map snd x.2)]> (queued chain).
Proof. done. Qed.

Lemma chain_ok_app_l chain chain' : chain_ok (chain ++ chain') -> chain_ok chain.
Proof.
  induction chain' as [|x chain' IH] using rev_ind; [by rewrite app_nil_r|].
  rewrite app_assoc. intros Hc. apply IH. by apply chain_ok_snoc in Hc as [Hc _].
Qed.

Lemma chain_ok_epochs_NoDup chain : chain_ok chain -> NoDup (map entry_epoch chain).
Proof.
  intros Hc. pose proof (co_epochs _ Hc) as Hs. unfold entry_epoch. induction Hs as [|e l Hs IH Hf]; constructor; [|done].
  intros Hin. rewrite Forall_forall in Hf. specialize (Hf e Hin). lia.
Qed.

Lemma queue_chain_spec chain :
  chain_ok chain -> queue_chain finalizer_new chain = mkBlockFinalizer ∅ (queued chain) None.
Proof.
  induction chain as [|x chain IH] using rev_ind; [done|]. intros Hc.
  pose proof (chain_ok_epochs_NoDup _ Hc) as Hnd. unfold queue_chain. rewrite foldl_app. cbn [foldl].
  fold (queue_chain finalizer_new chain). rewrite IH by (by eapply chain_ok_app_l).
  unfold queue_for_finalization, queued. cbn [finalized_epochs pending_blocks chain_epoch]. f_equal.
  rewrite map_app. cbn [map]. rewrite list_to_map_snoc; [done|]. rewrite queued_keys.
  rewrite map_app in Hnd. apply NoDup_app in Hnd as (_ & Hd & _). intros Hin. apply (Hd _ Hin). by left.
Qed.

(** Storing the block writes the current epoch, and the finalizer writes it again. *)
Lemma set_current_epoch_again s s' epoch : set_current_epoch s epoch = Ok s' -> set_current_epoch s' epoch = Ok s'.
Proof.
  unfold set_current_epoch. destruct (pack_uint 8 epoch) as [data|]; [|done]. cbn [mbind res_bind].
  intros [= <-]. f_equal. unfold set_chain_state. cbn. by rewrite insert_insert_eq.
Qed.

Lemma finalize_stored_step f m bs x chain :
  blocks_are (sm_blocks m) bs -> increasing bs -> Forall (fun b => int64 (sb_epoch b)) bs -> entry_ok x ->
  entry_epoch x ∉ finalized_epochs f -> entry_epoch x ∉ map entry_epoch chain -> pending_blocks f = queued (x :: chain) ->
  finalize_stored f m (entry_epoch x) =
    (mkBlockFinalizer ({[entry_epoch x]} ∪ finalized_epochs f) (queued chain) (Some (entry_epoch x)),
     (store_block_with_transactions m x.1 (map snd x.2)).1, Ok true).
Proof.
  intros Hm Hinc H64 Hx Hn Hc Hp. unfold finalize_stored.
  rewrite bool_decide_eq_false_2, Hp, queued_cons, lookup_insert_eq by done.
  destruct (store_entry m bs x Hm Hinc H64 Hx) as (ts & b & st & _ & _ & Hst & ->).
  change (cb_epoch x.1) with (entry_epoch x) in Hst. cbn [sm_state fst].
  rewrite (set_current_epoch_again _ _ _ Hst), delete_insert_id; [done|]. by apply queued_lookup_None.
Qed.

Lemma finalize_all_spec chain chain' f :
  chain_ok (chain ++ chain') -> finalized_epochs f = list_to_set (map entry_epoch chain) -> pending_blocks f = queued chain' ->
  exists f', finalize_all f (store_chain storage_new chain) (map entry_epoch chain') =
      (f', store_chain storage_new (chain ++ chain'), map (fun _ => Ok true) chain') /\
    finalized_epochs f' = list_to_set (map entry_epoch (chain ++ chain')) /\ pending_blocks f' = ∅.
Proof.
  revert chain f. induction chain' as [|x chain' IH]; intros chain f Hc Hf Hp.
  { exists f. by rewrite app_nil_r. }
  assert (Ha : chain ++ x :: chain' = (chain ++ [x]) ++ chain') by by rewrite <- app_assoc.
  pose proof (chain_ok_epochs_NoDup _ Hc) as Hnd. rewrite map_app in Hnd. cbn [map] in Hnd.
  apply NoDup_app in Hnd as (_ & Hd & [Hx' _]%NoDup_cons).
  rewrite Ha in *. pose proof (chain_ok_app_l _ _ Hc) as [Hc0 [Hx _]]%chain_ok_snoc.
  destruct (store_chain_ok chain Hc0) as [bs S]. cbn [map finalize_all].
  rewrite (finalize_stored_step f _ bs x chain' (sc_blocks _ _ _ S) (stored_increasing _ _ _ Hc0 S)
    (stored_int64 _ _ Hc0 (sc_epochs _ _ _ S)) Hx); [| |done|done].
  2:{ rewrite Hf, elem_of_list_to_set. intros Hin. apply (Hd _ Hin). by left. }
  rewrite <- store_chain_snoc.
  destruct (IH (chain ++ [x]) (mkBlockFinalizer ({[entry_epoch x]} ∪ finalized_epochs f) (queued chain') (Some (entry_epoch x))) Hc)
    as (f' & -> & H1 & H2); [|done|by exists f'].
  cbn [finalized_epochs]. rewrite Hf, map_app. cbn [map]. set_solver.
Qed.

(** C34. Finalizing a chain stores it.  When the blocks of a chain are queued with their
    transactions and their epochs are finalized in order, every call reports success, the
    storage is the one that storing the chain block by block gives, nothing remains queued, and
    finalizing one of the epochs again changes nothing. *)
Theorem finalizer_stores_chain (chain : list entry) (Hchain : chain_ok chain) :
  exists f m, finalize_all (queue_chain finalizer_new chain) storage_new (map entry_epoch chain) =
      (f, m, map (fun _ => Ok true) chain) /\
    m = store_chain storage_new chain /\ pending_blocks f = ∅ /\
    (forall e, e ∈ finalized_epochs f <-> e ∈ map entry_epoch chain) /\
    forall e, e ∈ map entry_epoch chain -> finalize_stored f m e = (f, m, Ok true).
Proof.
  rewrite (queue_chain_spec _ Hchain).
  destruct (finalize_all_spec [] chain (mkBlockFinalizer ∅ (queued chain) None) Hchain) as (f & E & H1 & H2); [done..|].
  assert (Hf : forall e, e ∈ finalized_epochs f <-> e ∈ map entry_epoch chain).
  { intros e. by rewrite H1, elem_of_list_to_set. }
  exists f, (store_chain storage_new chain). split; [exact E|]. split; [done|]. split; [done|]. split; [done|].
  intros e He%Hf. unfold finalize_stored. by rewrite bool_decide_eq_true_2.
Qed.

(** The finalizer with its storage is the finalizer with the answers of that storage. *)
Lemma finalize_stored_refines f m epoch block transactions :
  let stored := store_block_with_transactions m block transactions in
  (forall p, pending_blocks f !! epoch = Some p -> p = (block, transactions)) ->
  let '(f', _, r) := finalize_stored f m epoch in
  finalize f epoch (fun _ _ => Ok stored.2) (fun e => _ ← set_current_epoch (sm_state stored.1) e; Ok tt) = (f', r).
Proof.
  intros stored Hp. unfold finalize_stored, finalize. destruct (bool_decide _); [done|].
  destruct (pending_blocks f !! epoch) as [p|]; [|done]. rewrite (Hp p eq_refl). cbn beta iota.
  fold stored. destruct stored as [m1 []]; [|done]. cbn [fst snd].
  by destruct (set_current_epoch (sm_state m1) epoch).
Qed.

End Finalizer.

(** ** Sample runs *)

Section Samples.
#[local] Existing Instance toy_hashlib.

Definition sample_coordinator (zone_id : Z) : BlockCoordinator :=
  mkBlockCoordinator zone_id ∅ demo_validator (mempool_new 1) ∅ None.

(** Three zones, of which the last has no coordinator. *)
Definition sample_builder : ParallelBlockBuilder :=
  foldl (fun b tx => (submit_transaction b tx).1)
    (add_coordinator (add_coordinator (mkParallelBlockBuilder 3 ∅ []) 0 (sample_coordinator 0)) 1 (sample_coordinator 1))
    [demo_transfer; sample_mint; sample_spend; sample_spend; demo_transfer].

Lemma sample_ratable : Forall ratable (pb_pending_queue sample_builder).
Proof.
  assert (Hr : forall tx h, tx_hash tx = Ok h -> (0 <= tx_fee tx < 2 ^ 64)%Z -> ratable tx).
  { intros tx h Hh Hf. split; [by exists h|done]. }
  assert (H1 : ratable sample_spend).
  { eapply Hr; [vm_compute; reflexivity|]. split; [discriminate|reflexivity]. }
  assert (H2 : ratable sample_mint).
  { eapply Hr; [vm_compute; reflexivity|]. split; [discriminate|reflexivity]. }
  assert (H3 : ratable demo_transfer).
  { eapply Hr; [vm_compute; reflexivity|]. split; [discriminate|reflexivity]. }
  change (Forall ratable [demo_transfer; sample_mint; sample_spend; sample_spend; demo_transfer]).
  repeat apply List.Forall_cons; [assumption..|apply List.Forall_nil].
Qed.

Lemma distribution_by_position_witness :
  exists b' d, distribute_transactions sample_builder = (b', Ok d) /\ pb_pending_queue b' = [] /\
    forall z, let share := offered 3 z 0 (pb_pending_queue sample_builder) in
      pb_coordinators b' !! z = (fun c => (offer_all c share).1) <$> pb_coordinators sample_builder !! z /\
      d !! z = (fun c => (offer_all c share).2) <$> pb_coordinators sample_builder !! z.
Proof. apply (distribution_by_position sample_builder); [reflexivity|exact sample_ratable]. Defined.

(** Both coordinators are offered two transactions, and the third transaction is lost. *)
Example sample_distribution :
  match distribute_transactions sample_builder with
  | (b, Ok d) => (d !! 0, d !! 1, d !! 2)%Z = (Some 2, Some 2, None)%Z /\
      offered 3 2 0 (pb_pending_queue sample_builder) = [sample_spend]
  | _ => False
  end.
Proof. vm_compute. by split. Qed.

Lemma finalizer_stores_chain_witness :
  exists f m, finalize_all (queue_chain finalizer_new sample_chain) storage_new (map entry_epoch sample_chain) =
      (f, m, [Ok true; Ok true]) /\
    m = store_chain storage_new sample_chain /\ pending_blocks f = ∅ /\
    (forall e, e ∈ finalized_epochs f <-> e ∈ [0; 2]%Z) /\
    forall e, e ∈ [0; 2]%Z -> finalize_stored f m e = (f, m, Ok true).
Proof. apply (finalizer_stores_chain sample_chain sample_chain_ok). Defined.

(** Finalized twice, the chain is at height 2 with both epochs finalized. *)
Example sample_status :
  let '(f, m, _) := finalize_all (queue_chain finalizer_new sample_chain) storage_new [0; 2; 2]%Z in
  get_finalization_status f m = mkFinalizationStatus 2 0 2 2.
Proof. vm_compute. reflexivity. Qed.

End Samples.
