(* ===== verification/KeyManager.v ===== *)
(** * Wallet keys ([KeyPair] and [KeyManager] of [src/src/wallet.py], lines 36-234)

    A key manager owns the authentication tree of the current batch, prepares the next batch
    and switches to it, and keeps the one-time pairs of the older interface.  Main results:
    over every history of calls the signatures verify against the root of the batch they were
    made in, no one-time key is used twice across batches, and the published next root is the
    root of the next batch ([key_manager_sound]); one-time pairs sign at most once
    ([cached_pair_signs_once]); the master seed that stays in the object re-creates every past
    batch ([master_seed_recovers_batches]). *)

From stdpp Require Import prelude list gmap strings.
From Stdlib Require Import Strings.Byte ZArith Lia.
From S2P Require Import Prelude.
From S2P Require Import PyFloat.
From S2P Require Import Crypto.
From S2P Require Import Wots.
From S2P Require Import Merkle.
From S2P Require Import TemporalAuth.

Set Default Goal Selector "!".

(** ** Data *)

Record KeyPair := mkKeyPair {
  kp_epoch : Z;
  kp_private_key : bytes;
  kp_public_key : bytes;
  kp_address : bytes;
  kp_used : bool;
}.

(** [km_next] is the triple [_next_batch_seed], [_next_auth_tree], [_next_auth_root], which
    are set and cleared together.  A pair in [key_cache] is named by its epoch and its position
    in that epoch's list; the code passes the object itself around. *)
Record KeyManager := mkKeyManager {
  km_master_seed : bytes;
  km_inner_hash : bytes;
  km_address : bytes;
  km_batch_seed : bytes;
  km_auth_tree : TemporalAuthTree;
  km_batch_number : Z;
  km_next : option (bytes * TemporalAuthTree * pyarg);
  km_is_registered : bool;
  km_key_cache : gmap Z (list KeyPair);
  km_current_epoch : Z;
  km_key_index : Z;
}.

Definition with_tree (km : KeyManager) (t : TemporalAuthTree) : KeyManager :=
  mkKeyManager (km_master_seed km) (km_inner_hash km) (km_address km) (km_batch_seed km) t
    (km_batch_number km) (km_next km) (km_is_registered km) (km_key_cache km)
    (km_current_epoch km) (km_key_index km).

Definition with_cache (km : KeyManager) (cache : gmap Z (list KeyPair)) (key_index : Z)
    : KeyManager :=
  mkKeyManager (km_master_seed km) (km_inner_hash km) (km_address km) (km_batch_seed km)
    (km_auth_tree km) (km_batch_number km) (km_next km) (km_is_registered km) cache
    (km_current_epoch km) key_index.

Section KeyManager.
Context `{Hashlib}.

(** ** Construction *)

(** [KeyManager(master_seed)]; [random] is what [secure_random(64)] returns when there is no
    seed or an empty one. *)
Definition key_manager_new (master_seed : option bytes) (random : bytes) : res KeyManager :=
  let seed := match master_seed with Some ((_ :: _) as s) => s | _ => random end in
  i ← py_concat [PBytes (b: "address_inner"); PBytes seed];
  let inner_hash := sha3_512 i in
  o ← py_concat [PBytes (b: "address_outer"); PBytes inner_hash];
  let address := sha3_512 o in
  batch_seed ← derive_initial_batch_seed seed;
  tree ← temporal_auth_new batch_seed;
  Ok (mkKeyManager seed inner_hash address batch_seed tree 0 None false ∅ 0 0).

(** ** Temporal keys *)

Definition km_auth_root (km : KeyManager) : res pyarg := auth_root (km_auth_tree km).

Definition should_rotate (km : KeyManager) : bool :=
  (remaining_keys (km_auth_tree km) <=? 10)%Z.

Definition mark_registered (km : KeyManager) : KeyManager :=
  mkKeyManager (km_master_seed km) (km_inner_hash km) (km_address km) (km_batch_seed km)
    (km_auth_tree km) (km_batch_number km) (km_next km) true (km_key_cache km)
    (km_current_epoch km) (km_key_index km).

Definition temporal_sign (km : KeyManager) (message : bytes) : KeyManager * res auth_sig :=
  if negb (km_is_registered km) then
    (km, Err (ValueError "Address not registered. Must register before temporal signing."))
  else
    let '(t, r) := sign (km_auth_tree km) message in (with_tree km t, r).

Definition temporal_sign_rotation (km : KeyManager) (message : bytes)
    : KeyManager * res auth_sig :=
  if negb (km_is_registered km) then
    (km, Err (ValueError "Address not registered. Cannot rotate unregistered address."))
  else
    let '(t, r) := sign_rotation (km_auth_tree km) message in (with_tree km t, r).

Definition with_next (km : KeyManager) (next : option (bytes * TemporalAuthTree * pyarg))
    : KeyManager :=
  mkKeyManager (km_master_seed km) (km_inner_hash km) (km_address km) (km_batch_seed km)
    (km_auth_tree km) (km_batch_number km) next (km_is_registered km) (km_key_cache km)
    (km_current_epoch km) (km_key_index km).

Definition prepare_rotation (km : KeyManager) : KeyManager * res pyarg :=
  match (next_seed ← derive_next_batch_seed (km_batch_seed km);
         next_tree ← temporal_auth_new next_seed;
         next_root ← auth_root next_tree;
         Ok (next_seed, next_tree, next_root)) with
  | Err e => (km, Err e)
  | Ok next => (with_next km (Some next), Ok next.2)
  end.

(** The destroyed tree is dropped: nothing refers to it afterwards. *)
Definition execute_rotation (km : KeyManager) : KeyManager * res unit :=
  match km_next km with
  | None => (km, Err (ValueError "Must call prepare_rotation() first"))
  | Some (next_seed, next_tree, _) =>
      (mkKeyManager (km_master_seed km) (km_inner_hash km) (km_address km) next_seed next_tree
         (km_batch_number km + 1) None (km_is_registered km) (km_key_cache km)
         (km_current_epoch km) (km_key_index km), Ok tt)
  end.

Definition get_wots_keypair_for_registration (km : KeyManager) : res (bytes * bytes) :=
  d ← py_concat [PBytes (km_master_seed km); PBytes (b: "registration_key")];
  keygen (sha3_512 d).

(** ** The older interface *)

Definition evolve_to_epoch (km : KeyManager) (target_epoch : Z) : KeyManager :=
  mkKeyManager (km_master_seed km) (km_inner_hash km) (km_address km) (km_batch_seed km)
    (km_auth_tree km) (km_batch_number km) (km_next km) (km_is_registered km) (km_key_cache km)
    target_epoch (km_key_index km).

(** The pair is appended to its epoch's list; its position is returned with it. *)
Definition generate_keypair (km : KeyManager) (epoch : Z) : KeyManager * res (nat * KeyPair) :=
  match py_concat [PBytes (km_batch_seed km); PBytes (b: "legacy_keypair"); PInt epoch;
                   PInt (km_key_index km)] with
  | Err e => (km, Err e)
  | Ok d =>
      let km := with_cache km (km_key_cache km) (km_key_index km + 1)%Z in
      match ('(private_key, public_key) ← keygen (sha3_512 d);
             a ← py_concat [PBytes (b: "address"); PBytes (slice 0 64 public_key)];
             Ok (mkKeyPair epoch private_key public_key (sha3_512 a) false)) with
      | Err e => (km, Err e)
      | Ok keypair =>
          let pairs := lookup_default [] (km_key_cache km) epoch in
          (with_cache km (<[epoch := pairs ++ [keypair]]> (km_key_cache km)) (km_key_index km),
           Ok (length pairs, keypair))
      end
  end.

(** The first pair of a list that has not signed, with its position. *)
Fixpoint find_unused (i : nat) (pairs : list KeyPair) : option (nat * KeyPair) :=
  match pairs with
  | [] => None
  | kp :: pairs => if kp_used kp then find_unused (S i) pairs else Some (i, kp)
  end.

Definition get_unused_keypair (km : KeyManager) (epoch : Z) : KeyManager * res (nat * KeyPair) :=
  match km_key_cache km !! epoch with
  | Some pairs =>
      match find_unused 0 pairs with
      | Some found => (km, Ok found)
      | None => generate_keypair km epoch
      end
  | None => generate_keypair km epoch
  end.

(** [sign(message, keypair)] on the object it mutates. *)
Definition legacy_sign (message : bytes) (keypair : KeyPair) : KeyPair * res bytes :=
  if kp_used keypair then (keypair, Err (ValueError "Cannot reuse WOTS+ key"))
  else
    (mkKeyPair (kp_epoch keypair) (kp_private_key keypair) (kp_public_key keypair)
       (kp_address keypair) true, Ok (wots_sign message (kp_private_key keypair))).

(** [sign] on the pair at a position of the cache. *)
Definition sign_cached (km : KeyManager) (epoch : Z) (i : nat) (message : bytes)
    : KeyManager * option (res bytes) :=
  match km_key_cache km !! epoch with
  | None => (km, None)
  | Some pairs =>
      match pairs !! i with
      | None => (km, None)
      | Some keypair =>
          let '(keypair, r) := legacy_sign message keypair in
          (with_cache km (<[epoch := <[i := keypair]> pairs]> (km_key_cache km)) (km_key_index km),
           Some r)
      end
  end.

End KeyManager.

(** ** Histories of calls *)

Inductive km_op :=
  | KRegister
  | KSign (message : bytes)
  | KRotationSign (message : bytes)
  | KPrepare
  | KExecute
  | KEvolve (epoch : Z)
  | KGetUnused (epoch : Z)
  | KLegacySign (epoch : Z) (i : nat) (message : bytes).

(** What a call hands out: a signature of the batch it was made in, the root of the next
    batch, a signature of a one-time pair. *)
Inductive km_event :=
  | EvSig (batch : Z) (message : bytes) (s : auth_sig)
  | EvNext (batch : Z) (root : pyarg)
  | EvLegacy (epoch : Z) (i : nat) (message signature : bytes).

Section KeyManagerRuns.
Context `{Hashlib}.

Definition sig_event (km : KeyManager) (m : bytes) (r : res auth_sig) : list km_event :=
  match r with Ok s => [EvSig (km_batch_number km) m s] | Err _ => [] end.

Definition km_step (km : KeyManager) (op : km_op) : KeyManager * list km_event :=
  match op with
  | KRegister => (mark_registered km, [])
  | KSign m => let (km', r) := temporal_sign km m in (km', sig_event km m r)
  | KRotationSign m => let (km', r) := temporal_sign_rotation km m in (km', sig_event km m r)
  | KPrepare =>
      let (km', r) := prepare_rotation km in
      (km', match r with Ok root => [EvNext (km_batch_number km) root] | Err _ => [] end)
  | KExecute => ((execute_rotation km).1, [])
  | KEvolve e => (evolve_to_epoch km e, [])
  | KGetUnused e => ((get_unused_keypair km e).1, [])
  | KLegacySign e i m =>
      let (km', r) := sign_cached km e i m in
      (km', match r with Some (Ok s) => [EvLegacy e i m s] | _ => [] end)
  end.

Fixpoint km_run (km : KeyManager) (ops : list km_op) : KeyManager * list km_event :=
  match ops with
  | [] => (km, [])
  | op :: ops =>
      let '(km, evs) := km_step km op in
      let '(km, evs') := km_run km ops in (km, evs ++ evs')
  end.

(** ** Batches *)

Definition initial_seed (master : bytes) : bytes := sha3_512 (b: "batch_initial" ++ master).

Definition next_seed (seed : bytes) : bytes := sha3_512 (b: "batch_next" ++ seed).

(** The seed of the [n]-th batch of a master seed. *)
Definition batch_seed (master : bytes) (n : nat) : bytes :=
  Nat.iter n next_seed (initial_seed master).

Lemma batch_seed_S master n : next_seed (batch_seed master n) = batch_seed master (S n).
Proof. reflexivity. Qed.

(** The root that a fresh tree on the seed has. *)
Definition batch_root (seed : bytes) : bytes :=
  match (t ← temporal_auth_new seed; auth_root t) with Ok (PBytes r) => r | _ => [] end.

Lemma derive_initial_ok master : derive_initial_batch_seed master = Ok (initial_seed master).
Proof.
  unfold derive_initial_batch_seed, initial_seed. by rewrite py_concat_2.
Qed.

Lemma derive_next_ok seed : derive_next_batch_seed seed = Ok (next_seed seed).
Proof.
  unfold derive_next_batch_seed, next_seed. by rewrite py_concat_2.
Qed.

(** A tree of the batch whose first [k] usable and [r] rotation keys are spent. *)
Definition live_tree (seed : bytes) (k r : nat) (t : TemporalAuthTree) : Prop :=
  exists tree, t = mkTemporalAuthTree seed k r (Some tree) /\
    merkle_root tree = Ok (PBytes (batch_root seed)) /\
    forall k r m i, i < TOTAL_KEYS_PER_BATCH ->
      exists s, sign_with_index (mkTemporalAuthTree seed k r (Some tree)) m i = Ok s /\
        as_key_index s = i /\
        verify_against_root m (as_signature s) (as_public_key s) (as_proof s) (batch_root seed) = true /\
        sig_wf s.

Lemma fresh_tree seed : exists t, temporal_auth_new seed = Ok t /\ live_tree seed 0 0 t.
Proof.
  destruct (temporal_auth_new_ok seed) as (tree & root & E & Er & Hs).
  assert (batch_root seed = root) as Hroot.
  { unfold batch_root. rewrite E. unfold mbind, res_bind, auth_root. cbn [ta_auth_tree].
    rewrite Er. reflexivity. }
  eexists. split; [exact E|]. exists tree. rewrite Hroot. split; [reflexivity|]. split; [exact Er|].
  intros k r m i Hi. destruct (Hs k r m i Hi) as (s & H1 & H2 & _ & H3 & H4).
  exists s. split; [exact H1|]. split; [exact H2|]. split; [exact H3|exact H4].
Qed.

Lemma live_tree_root seed k r t :
  live_tree seed k r t -> auth_root t = Ok (PBytes (batch_root seed)).
Proof. intros (tree & -> & E & _). exact E. Qed.

Lemma live_sign seed k r t m :
  live_tree seed k r t ->
  let '(t', res) := sign t m in
  if k <? USABLE_KEYS then
    live_tree seed (S k) r t' /\ exists s, res = Ok s /\ as_key_index s = k /\
      verify_against_root m (as_signature s) (as_public_key s) (as_proof s) (batch_root seed) = true /\
      sig_wf s
  else t' = t /\ exists e, res = Err e.
Proof.
  intros (tree & -> & Er & Hs). unfold sign. cbn [ta_key_index ta_batch_seed ta_rotation_index ta_auth_tree].
  assert (TOTAL_KEYS_PER_BATCH = USABLE_KEYS + RESERVED_ROTATION) as HT by done.
  destruct (Nat.leb_spec USABLE_KEYS k) as [Hk|Hk];
    destruct (Nat.ltb_spec k USABLE_KEYS); try lia.
  - split; [done|by eexists].
  - split.
    + exists tree. split; [by rewrite Nat.add_1_r|]. split; [exact Er|exact Hs].
    + apply Hs. lia.
Qed.

Lemma live_sign_rotation seed k r t m :
  live_tree seed k r t ->
  let '(t', res) := sign_rotation t m in
  if r <? RESERVED_ROTATION then
    live_tree seed k (S r) t' /\ exists s, res = Ok s /\ as_key_index s = USABLE_KEYS + r /\
      verify_against_root m (as_signature s) (as_public_key s) (as_proof s) (batch_root seed) = true /\
      sig_wf s
  else t' = t /\ exists e, res = Err e.
Proof.
  intros (tree & -> & Er & Hs). unfold sign_rotation.
  cbn [ta_key_index ta_batch_seed ta_rotation_index ta_auth_tree].
  assert (TOTAL_KEYS_PER_BATCH = USABLE_KEYS + RESERVED_ROTATION) as HT by done.
  destruct (Nat.leb_spec RESERVED_ROTATION r) as [Hk|Hk];
    destruct (Nat.ltb_spec r RESERVED_ROTATION); try lia.
  - split; [done|by eexists].
  - split.
    + exists tree. split; [by rewrite Nat.add_1_r|]. split; [exact Er|exact Hs].
    + apply Hs. lia.
Qed.

(** ** The invariant *)

(** The manager holds batch [n] of its master seed, and possibly a fresh tree of the next. *)
Record km_inv (master : bytes) (n k r : nat) (km : KeyManager) : Prop := {
  ki_master : km_master_seed km = master;
  ki_number : km_batch_number km = Z.of_nat n;
  ki_seed : km_batch_seed km = batch_seed master n;
  ki_tree : live_tree (batch_seed master n) k r (km_auth_tree km);
  ki_next : forall seed t root, km_next km = Some (seed, t, root) ->
    seed = batch_seed master (S n) /\ live_tree seed 0 0 t /\ root = PBytes (batch_root seed);
}.

Lemma km_inv_new seed random km :
  key_manager_new seed random = Ok km -> km_inv (km_master_seed km) 0 0 0 km.
Proof.
  unfold key_manager_new. set (s := match seed with Some _ => _ | None => _ end).
  rewrite derive_initial_ok. destruct (fresh_tree (initial_seed s)) as (t & E & Ht).
  intros Hk. inv_res. rewrite E in *. inv_res. by split.
Qed.

Lemma key_manager_new_ok seed random :
  exists km, key_manager_new seed random = Ok km /\ km_is_registered km = false /\
    km_key_cache km = ∅ /\ length (km_inner_hash km) = 64 /\
    km_address km = sha3_512 (b: "address_outer" ++ km_inner_hash km).
Proof.
  unfold key_manager_new. set (s := match seed with Some _ => _ | None => _ end).
  rewrite !py_concat_2. unfold mbind, res_bind. rewrite py_concat_2, derive_initial_ok.
  destruct (fresh_tree (initial_seed s)) as (t & -> & _).
  eexists. split; [reflexivity|].
  split; [reflexivity|]. split; [reflexivity|]. split; [apply sha3_512_length|reflexivity].
Qed.

(** Changes that leave the keys alone. *)
Lemma km_inv_same master n k r km km' :
  km_inv master n k r km -> km_master_seed km' = km_master_seed km ->
  km_batch_number km' = km_batch_number km -> km_batch_seed km' = km_batch_seed km ->
  km_auth_tree km' = km_auth_tree km -> km_next km' = km_next km -> km_inv master n k r km'.
Proof.
  intros [] E1 E2 E3 E4 E5. split; rewrite ?E1, ?E2, ?E3, ?E4, ?E5; done.
Qed.

Lemma prepare_rotation_ok master n k r km :
  km_inv master n k r km ->
  exists t, let seed := batch_seed master (S n) in
    prepare_rotation km =
      (with_next km (Some (seed, t, PBytes (batch_root seed))), Ok (PBytes (batch_root seed))) /\
    live_tree seed 0 0 t.
Proof.
  intros [_ _ Hseed _ _]. destruct (fresh_tree (batch_seed master (S n))) as (t & E & Ht).
  exists t. split; [|exact Ht]. unfold prepare_rotation.
  rewrite Hseed, derive_next_ok, bind_Ok, batch_seed_S, E,
    bind_Ok, (live_tree_root _ _ _ _ Ht), bind_Ok.
  reflexivity.
Qed.

Lemma with_next_inv master n k r km t :
  km_inv master n k r km -> live_tree (batch_seed master (S n)) 0 0 t ->
  km_inv master n k r (with_next km
    (Some (batch_seed master (S n), t, PBytes (batch_root (batch_seed master (S n)))))).
Proof.
  intros Hi Ht. constructor; [apply Hi|apply Hi|apply Hi|exact (ki_tree _ _ _ _ _ Hi)|].
  intros seed t' root Hn. cbn [with_next km_next] in Hn. injection Hn as <- <- <-.
  split; [reflexivity|]. split; [exact Ht|reflexivity].
Qed.

Lemma execute_rotation_ok master n k r km next :
  km_inv master n k r km -> km_next km = Some next ->
  exists km', execute_rotation km = (km', Ok tt) /\ km_inv master (S n) 0 0 km' /\
    km_is_registered km' = km_is_registered km /\ km_address km' = km_address km.
Proof.
  intros Hi En. unfold execute_rotation. rewrite En. destruct next as [[seed t] root].
  destruct (ki_next _ _ _ _ _ Hi _ _ _ En) as (-> & Ht & _).
  eexists. split; [reflexivity|]. split; [|by split].
  constructor; cbn [km_master_seed km_batch_number km_batch_seed km_auth_tree km_next].
  - apply Hi.
  - rewrite (ki_number _ _ _ _ _ Hi). lia.
  - reflexivity.
  - exact Ht.
  - intros ? ? ? [=].
Qed.

Lemma generate_keypair_same km e :
  let km' := (generate_keypair km e).1 in
  km_master_seed km' = km_master_seed km /\ km_batch_number km' = km_batch_number km /\
  km_batch_seed km' = km_batch_seed km /\ km_auth_tree km' = km_auth_tree km /\
  km_next km' = km_next km.
Proof. unfold generate_keypair. by repeat case_match. Qed.

Lemma get_unused_same km e :
  (get_unused_keypair km e).1 = km \/ (get_unused_keypair km e).1 = (generate_keypair km e).1.
Proof. unfold get_unused_keypair. repeat case_match; auto. Qed.

(** ** Events *)

(** The one-time keys that signed: batch and index. *)
Definition sig_keys (evs : list km_event) : list (Z * nat) :=
  omap (fun ev => match ev with EvSig b _ s => Some (b, as_key_index s) | _ => None end) evs.

(** What an event promises to whoever receives it. *)
Definition event_ok (master : bytes) (ev : km_event) : Prop :=
  match ev with
  | EvSig b m s => exists n, b = Z.of_nat n /\
      verify_against_root m (as_signature s) (as_public_key s) (as_proof s)
        (batch_root (batch_seed master n)) = true
  | EvNext b root => exists n, b = Z.of_nat n /\ root = PBytes (batch_root (batch_seed master (S n)))
  | EvLegacy _ _ _ _ => True
  end.

(** The keys that may still sign in a state. *)
Definition key_left (n k r : nat) (key : Z * nat) : Prop :=
  key.2 < TOTAL_KEYS_PER_BATCH /\
  ((Z.of_nat n < key.1)%Z \/
   key.1 = Z.of_nat n /\
     (k <= key.2 < USABLE_KEYS \/ USABLE_KEYS + r <= key.2 < TOTAL_KEYS_PER_BATCH)).

Lemma km_step_inv master n k r km op :
  km_inv master n k r km ->
  let '(km', evs) := km_step km op in
  Forall (event_ok master) evs /\
  exists n' k' r', km_inv master n' k' r' km' /\
    (forall key, key_left n' k' r' key -> key_left n k r key) /\
    (sig_keys evs = [] \/
     exists key, sig_keys evs = [key] /\ key_left n k r key /\ ~ key_left n' k' r' key).
Proof.
  intros Hi. assert (TOTAL_KEYS_PER_BATCH = USABLE_KEYS + RESERVED_ROTATION) as HT by done.
  assert (Hsame : forall km', km_master_seed km' = km_master_seed km /\
      km_batch_number km' = km_batch_number km /\ km_batch_seed km' = km_batch_seed km /\
      km_auth_tree km' = km_auth_tree km /\ km_next km' = km_next km -> km_inv master n k r km').
  { intros km' (? & ? & ? & ? & ?). by eapply km_inv_same. }
  assert (Hquiet : forall km', km_inv master n k r km' -> exists n' k' r', km_inv master n' k' r' km' /\
    (forall key, key_left n' k' r' key -> key_left n k r key) /\
    (sig_keys [] = [] \/
     exists key, sig_keys [] = [key] /\ key_left n k r key /\ ~ key_left n' k' r' key)).
  { intros km' Hi'. exists n, k, r. split; [exact Hi'|]. split; [done|by left]. }
  destruct op as [|m|m| | |e|e|e i m]; cbn [km_step].
  - split; [done|]. apply Hquiet, Hsame. done.
  - unfold temporal_sign. destruct (negb _); [split; [done|]; by apply Hquiet|].
    pose proof (live_sign _ _ _ _ m (ki_tree _ _ _ _ _ Hi)) as Hs.
    destruct (sign _ m) as [t' res]. destruct (Nat.ltb_spec k USABLE_KEYS).
    + destruct Hs as (Ht & s & -> & Hk & Hv & _). split.
      { constructor; [|done]. exists n. split; [apply Hi|exact Hv]. }
      exists n, (S k), r. split; [destruct Hi; constructor; assumption|].
      split; [intros [b i]; unfold key_left; cbn [fst snd]; lia|].
      right. eexists. split; [reflexivity|]. rewrite Hk, (ki_number _ _ _ _ _ Hi).
      unfold key_left. cbn [fst snd]. lia.
    + destruct Hs as (-> & e & ->). split; [done|]. apply Hquiet, Hsame. done.
  - unfold temporal_sign_rotation. destruct (negb _); [split; [done|]; by apply Hquiet|].
    pose proof (live_sign_rotation _ _ _ _ m (ki_tree _ _ _ _ _ Hi)) as Hs.
    destruct (sign_rotation _ m) as [t' res]. destruct (Nat.ltb_spec r RESERVED_ROTATION).
    + destruct Hs as (Ht & s & -> & Hk & Hv & _). split.
      { constructor; [|done]. exists n. split; [apply Hi|exact Hv]. }
      exists n, k, (S r). split; [destruct Hi; constructor; assumption|].
      split; [intros [b i]; unfold key_left; cbn [fst snd]; lia|].
      right. eexists. split; [reflexivity|]. rewrite Hk, (ki_number _ _ _ _ _ Hi).
      unfold key_left. cbn [fst snd]. lia.
    + destruct Hs as (-> & e & ->). split; [done|]. apply Hquiet, Hsame. done.
  - destruct (prepare_rotation_ok _ _ _ _ _ Hi) as (t & -> & Ht). split.
    { constructor; [|done]. exists n. split; [apply Hi|done]. }
    exists n, k, r. split; [|split; [done|by left]].
    by apply with_next_inv.
  - split; [done|]. destruct (km_next km) as [next|] eqn:En.
    + destruct (execute_rotation_ok _ _ _ _ _ _ Hi En) as (km' & -> & Hi' & _).
      exists (S n), 0, 0. split; [exact Hi'|]. split; [|by left].
      intros [b i]. unfold key_left. cbn [fst snd]. lia.
    + unfold execute_rotation. rewrite En. by apply Hquiet.
  - split; [done|]. apply Hquiet, Hsame. done.
  - split; [done|]. apply Hquiet.
    destruct (get_unused_same km e) as [->| ->]; [done|]. apply Hsame, generate_keypair_same.
  - unfold sign_cached, legacy_sign.
    destruct (km_key_cache km !! e) as [pairs|]; [|split; [done|]; by apply Hquiet].
    destruct (pairs !! i) as [kp|]; [|split; [done|]; by apply Hquiet].
    destruct (kp_used kp); (split; [by repeat constructor|]); apply Hquiet, Hsame; done.
Qed.

Lemma km_run_inv master n k r km ops :
  km_inv master n k r km ->
  let '(km', evs) := km_run km ops in
  Forall (event_ok master) evs /\ (exists n' k' r', km_inv master n' k' r' km') /\
  NoDup (sig_keys evs) /\ Forall (key_left n k r) (sig_keys evs).
Proof.
  revert n k r km. induction ops as [|op ops IH]; intros n k r km Hi; cbn [km_run].
  { split; [done|]. split; [by exists n, k, r|]. split; constructor. }
  pose proof (km_step_inv _ _ _ _ _ op Hi) as Hs. destruct (km_step km op) as [km1 evs1].
  destruct Hs as (Hev & n' & k' & r' & Hi' & Hmono & Hkeys). specialize (IH _ _ _ _ Hi').
  destruct (km_run km1 ops) as [km2 evs2]. destruct IH as (Hev2 & Hfin & Hnd & Hleft).
  split; [by apply Forall_app|]. split; [exact Hfin|].
  unfold sig_keys in *. rewrite omap_app.
  destruct Hkeys as [->|(key & -> & Hk & Hnk)]; simpl.
  - split; [done|]. eapply Forall_impl; [exact Hleft|]. apply Hmono.
  - split.
    + constructor; [|done]. intros Hin. rewrite Forall_forall in Hleft. by apply Hnk, Hleft.
    + constructor; [done|]. eapply Forall_impl; [exact Hleft|]. apply Hmono.
Qed.

End KeyManagerRuns.

(** ** One-time pairs *)

Section LegacyPairs.
Context `{Hashlib}.

(** The pair at a position of the cache. *)
Definition pair_at (km : KeyManager) (epoch : Z) (i : nat) : option KeyPair :=
  lookup_default [] (km_key_cache km) epoch !! i.

(** The signatures that one-time pairs made: which pair, message, signature. *)
Definition legacy_sigs (evs : list km_event) : list (Z * nat * bytes * bytes) :=
  omap (fun ev => match ev with EvLegacy e i m s => Some (e, i, m, s) | _ => None end) evs.

(** Every pair of the cache is a WOTS+ pair. *)
Definition cache_ok (km : KeyManager) : Prop :=
  forall e i kp, pair_at km e i = Some kp ->
    exists seed, kp_private_key kp = wots_sk seed /\ kp_public_key kp = wots_pk seed.

(** Pairs stay, keep their keys, and stay used. *)
Definition cache_grows (km km' : KeyManager) : Prop :=
  forall e i kp, pair_at km e i = Some kp ->
    exists kp', pair_at km' e i = Some kp' /\ kp_public_key kp' = kp_public_key kp /\
      (kp_used kp = true -> kp_used kp' = true).

#[export] Instance cache_grows_preorder : PreOrder cache_grows.
Proof.
  split.
  - intros km e i kp Hp. by exists kp.
  - intros a b c Hab Hbc e i kp Hp. destruct (Hab e i kp Hp) as (kp1 & H1 & E1 & U1).
    destruct (Hbc e i kp1 H1) as (kp2 & H2 & E2 & U2). exists kp2.
    split; [done|]. split; [congruence|auto].
Qed.

Lemma pair_at_same km km' : km_key_cache km' = km_key_cache km -> cache_ok km ->
  cache_ok km' /\ cache_grows km km'.
Proof.
  intros E Hc. unfold cache_ok, cache_grows, pair_at in *. rewrite E. split; [exact Hc|].
  intros e i kp Hp. by exists kp.
Qed.

Lemma generate_keypair_cache km e :
  cache_ok km -> cache_ok (generate_keypair km e).1 /\ cache_grows km (generate_keypair km e).1.
Proof.
  intros Hc. unfold generate_keypair. destruct (py_concat _) as [d|]; [|by apply pair_at_same].
  rewrite keygen_spec, bind_Ok. destruct (py_concat _) as [a|]; [|by apply pair_at_same].
  rewrite bind_Ok. set (kp0 := mkKeyPair _ _ _ _ _). cbn [fst].
  assert (Hat : forall e' i kp, pair_at (with_cache km
      (<[e := lookup_default [] (km_key_cache km) e ++ [kp0]]> (km_key_cache km))
      (km_key_index km + 1)) e' i = Some kp <->
      pair_at km e' i = Some kp \/
      (e' = e /\ i = length (lookup_default [] (km_key_cache km) e) /\ kp = kp0)).
  { intros e' i kp. unfold pair_at. cbn [with_cache km_key_cache].
    destruct (decide (e' = e)) as [->|Hne].
    - rewrite lookup_default_insert_eq, lookup_snoc_Some. split.
      + intros [[_ ?]|[-> <-]]; auto.
      + intros [Hl|(_ & -> & ->)]; [left; split; [by eapply lookup_lt_Some|done]|by right].
    - rewrite lookup_default_insert_ne by done. split; [by left|]. by intros [?|(-> & _)]. }
  split.
  - intros e' i kp [Hp|(-> & -> & ->)]%Hat; [by eapply Hc|]. by eexists.
  - intros e' i kp Hp. exists kp. split; [apply Hat; by left|done].
Qed.

(** Signing with a position of the cache: it works once, and marks the pair. *)
Lemma sign_cached_spec km e i m :
  let '(km', r) := sign_cached km e i m in
  match pair_at km e i with
  | None => km' = km /\ r = None
  | Some kp =>
      (forall e' i', (e', i') <> (e, i) -> pair_at km' e' i' = pair_at km e' i') /\
      (exists kp', pair_at km' e i = Some kp' /\ kp_used kp' = true /\
         kp_public_key kp' = kp_public_key kp /\ kp_private_key kp' = kp_private_key kp) /\
      r = Some (if kp_used kp then Err (ValueError "Cannot reuse WOTS+ key")
                else Ok (wots_sign m (kp_private_key kp)))
  end.
Proof.
  unfold sign_cached, pair_at, lookup_default.
  destruct (km_key_cache km !! e) as [pairs|] eqn:Ee; simpl; [|done].
  destruct (pairs !! i) as [kp|] eqn:Ei; simpl; [|done].
  set (kp1 := (legacy_sign m kp).1).
  assert (Hk : kp_used kp1 = true /\ kp_public_key kp1 = kp_public_key kp /\
               kp_private_key kp1 = kp_private_key kp).
  { unfold kp1, legacy_sign. by destruct (kp_used kp) eqn:?. }
  assert (Hr : (legacy_sign m kp).2 = if kp_used kp then Err (ValueError "Cannot reuse WOTS+ key")
                else Ok (wots_sign m (kp_private_key kp))).
  { unfold legacy_sign. by destruct (kp_used kp). }
  destruct (legacy_sign m kp) as [kp2 r]. simpl in kp1, Hr. subst kp1 r.
  cbn [with_cache km_key_cache]. split; [|split; [|done]].
  - intros e' i' Hne. destruct (decide (e' = e)) as [->|He].
    + rewrite lookup_insert_eq, Ee. simpl. apply list_lookup_insert_ne. congruence.
    + by rewrite lookup_insert_ne.
  - exists kp2. rewrite lookup_insert_eq. simpl. split; [|done].
    apply list_lookup_insert_eq. by eapply lookup_lt_Some.
Qed.

Lemma km_step_cache km op :
  cache_ok km ->
  let '(km', evs) := km_step km op in
  cache_ok km' /\ cache_grows km km' /\
  (legacy_sigs evs = [] \/
   exists e i m s kp, legacy_sigs evs = [(e, i, m, s)] /\ pair_at km e i = Some kp /\
     kp_used kp = false /\ wots_verify m s (kp_public_key kp) = true /\
     exists kp', pair_at km' e i = Some kp' /\ kp_used kp' = true).
Proof.
  intros Hc.
  assert (Hq : forall km' evs, km_key_cache km' = km_key_cache km -> legacy_sigs evs = [] ->
    cache_ok km' /\ cache_grows km km' /\ (legacy_sigs evs = [] \/
   exists e i m s kp, legacy_sigs evs = [(e, i, m, s)] /\ pair_at km e i = Some kp /\
     kp_used kp = false /\ wots_verify m s (kp_public_key kp) = true /\
     exists kp', pair_at km' e i = Some kp' /\ kp_used kp' = true)).
  { intros km' evs E El. destruct (pair_at_same km km' E Hc) as [? ?]. auto. }
  destruct op as [|m|m| | |e|e|e i m]; cbn [km_step].
  - by apply Hq.
  - unfold temporal_sign. destruct (negb _); [by apply Hq|].
    destruct (sign _ m) as [t [s|]]; by apply Hq.
  - unfold temporal_sign_rotation. destruct (negb _); [by apply Hq|].
    destruct (sign_rotation _ m) as [t [s|]]; by apply Hq.
  - unfold prepare_rotation. destruct (derive_next_batch_seed _) as [x|]; [|by apply Hq].
    rewrite bind_Ok. destruct (temporal_auth_new x) as [t|]; [|by apply Hq].
    rewrite bind_Ok. destruct (auth_root t) as [root|]; by apply Hq.
  - apply Hq; [|done]. unfold execute_rotation. by destruct (km_next km) as [[[? ?] ?]|].
  - by apply Hq.
  - destruct (get_unused_same km e) as [->| ->]; [by apply Hq|].
    destruct (generate_keypair_cache km e Hc). auto.
  - pose proof (sign_cached_spec km e i m) as Hs. destruct (sign_cached km e i m) as [km' r].
    destruct (pair_at km e i) as [kp|] eqn:Ep; [|destruct Hs as [-> ->]; by apply Hq].
    destruct Hs as (Hother & (kp' & Ep' & Hu & Hpub & Hpriv) & ->).
    split; [|split].
    + intros e' i' kp0 Hp. destruct (decide ((e', i') = (e, i))) as [[= -> ->]|Hne].
      * rewrite Ep' in Hp. injection Hp as <-. rewrite Hpub, Hpriv. by eapply Hc.
      * rewrite Hother in Hp by done. by eapply Hc.
    + intros e' i' kp0 Hp. destruct (decide ((e', i') = (e, i))) as [[= -> ->]|Hne].
      * rewrite Ep in Hp. injection Hp as <-. by exists kp'.
      * exists kp0. by rewrite Hother.
    + destruct (kp_used kp) eqn:Eu; [by left|]. right. eexists e, i, m, _, kp.
      split; [reflexivity|]. split; [done|]. split; [done|]. split; [|by exists kp'].
      destruct (Hc e i kp Ep) as (seed & -> & ->). eapply wots_correct, keygen_spec.
Qed.

Lemma km_run_cache km ops :
  cache_ok km ->
  let '(km', evs) := km_run km ops in
  cache_ok km' /\ cache_grows km km' /\
  NoDup (map (fun x => (x.1.1.1, x.1.1.2)) (legacy_sigs evs)) /\
  Forall (fun '(e, i, m, s) => exists kp', pair_at km' e i = Some kp' /\
     wots_verify m s (kp_public_key kp') = true /\
     forall kp, pair_at km e i = Some kp -> kp_used kp = false) (legacy_sigs evs).
Proof.
  revert km. induction ops as [|op ops IH]; intros km Hc; cbn [km_run].
  { split; [done|]. split; [reflexivity|]. split; constructor. }
  pose proof (km_step_cache km op Hc) as Hs. destruct (km_step km op) as [km1 evs1].
  destruct Hs as (Hc1 & Hg1 & Hl). specialize (IH km1 Hc1).
  destruct (km_run km1 ops) as [km2 evs2]. destruct IH as (Hc2 & Hg2 & Hnd & Hall).
  split; [done|]. split; [by etrans|]. unfold legacy_sigs in *. rewrite omap_app.
  assert (Hall' : Forall (fun '(e, i, m, s) => exists kp', pair_at km2 e i = Some kp' /\
     wots_verify m s (kp_public_key kp') = true /\
     forall kp, pair_at km e i = Some kp -> kp_used kp = false)
       (omap (fun ev => match ev with EvLegacy e i m s => Some (e, i, m, s) | _ => None end) evs2)).
  { eapply Forall_impl; [exact Hall|]. intros [[[e i] m] s] (kp' & Ep' & Hv & Hu).
    exists kp'. split; [done|]. split; [done|]. intros kp Ep.
    destruct (Hg1 e i kp Ep) as (kp1 & Ep1 & _ & Hmono). specialize (Hu kp1 Ep1).
    destruct (kp_used kp); [|done]. by rewrite (Hmono eq_refl) in Hu. }
  destruct Hl as [->|(e & i & m & s & kp & -> & Ep & Hu & Hv & kp1 & Ep1 & Hu1)]; [done|].
  simpl. split.
  - constructor; [|done]. intros ([[[e' i'] m'] s'] & [= -> ->] & Hin)%list_elem_of_fmap.
    rewrite Forall_forall in Hall. destruct (Hall _ Hin) as (_ & _ & _ & Hfresh).
    by rewrite (Hfresh kp1 Ep1) in Hu1.
  - constructor; [|done].
    destruct (Hg1 e i kp Ep) as (kpa & Epa & Epub & _).
    destruct (Hg2 e i kpa Epa) as (kpb & Epb & Epub' & _).
    exists kpb. split; [done|]. split; [congruence|]. intros kp' [= <-]%(eq_trans (eq_sym Ep)). done.
Qed.

End LegacyPairs.

(** ** Properties *)

Section KeyManagerProperties.
Context `{Hashlib}.

(** The seed of batch [n], derived with the code's functions. *)
Lemma batch_seed_derived master n :
  Nat.iter n (fun s => s ← s; derive_next_batch_seed s) (derive_initial_batch_seed master)
  = Ok (batch_seed master n).
Proof.
  induction n as [|n IH]; [apply derive_initial_ok|].
  by rewrite Nat.iter_succ, IH, bind_Ok, derive_next_ok.
Qed.

(** C8. A key manager can always be created.  Over any sequence of calls on it: every temporal
    signature verifies against the root of the batch it was made in; every root handed out by
    [prepare_rotation] is the root of the next batch; no one-time key, named by batch and
    index, signs twice, rotations included; and the current root is always that of the current
    batch. *)
Theorem key_manager_sound (master_seed : option bytes) (random : bytes) :
  exists km, key_manager_new master_seed random = Ok km /\
  forall ops, let '(km', evs) := km_run km ops in
    Forall (event_ok (km_master_seed km)) evs /\
    NoDup (sig_keys evs) /\ Forall (fun key => key.2 < 1024) (sig_keys evs) /\
    exists n, km_batch_number km' = Z.of_nat n /\
      km_auth_root km' = Ok (PBytes (batch_root (batch_seed (km_master_seed km) n))).
Proof.
  destruct (key_manager_new_ok master_seed random) as (km & E & _ & Hcache & _). exists km. split; [exact E|].
  intros ops. pose proof (km_run_inv _ _ _ _ _ ops (km_inv_new _ _ _ E)) as Hrun.
  destruct (km_run km ops) as [km' evs]. destruct Hrun as (Hev & (n & k & r & Hi) & Hnd & Hleft).
  split; [exact Hev|]. split; [exact Hnd|]. split.
  - eapply Forall_impl; [exact Hleft|]. by intros [b i] [Hlt _].
  - exists n. split; [apply Hi|]. eapply live_tree_root. apply Hi.
Qed.

(** One-time pairs of the older interface: over any sequence of calls on a new manager, no
    pair makes two signatures, and each signature it made verifies under the public key that
    the cache holds for it in the end. *)
Theorem cached_pair_signs_once (master_seed : option bytes) (random : bytes) :
  exists km, key_manager_new master_seed random = Ok km /\
  forall ops, let '(km', evs) := km_run km ops in
    NoDup (map (fun x => (x.1.1.1, x.1.1.2)) (legacy_sigs evs)) /\
    forall e i m s, (e, i, m, s) ∈ legacy_sigs evs ->
      exists kp, pair_at km' e i = Some kp /\ wots_verify m s (kp_public_key kp) = true.
Proof.
  destruct (key_manager_new_ok master_seed random) as (km & E & _ & Hcache & _). exists km. split; [exact E|].
  clear E. assert (Hc : cache_ok km).
  { intros e i kp. unfold pair_at, lookup_default. by rewrite Hcache, lookup_empty. }
  intros ops. pose proof (km_run_cache km ops Hc) as Hrun.
  destruct (km_run km ops) as [km' evs]. destruct Hrun as (_ & _ & Hnd & Hall).
  split; [exact Hnd|]. intros e i m s Hin. rewrite Forall_forall in Hall.
  destruct (Hall _ Hin) as (kp & Ep & Hv & _). exists kp. split; [exact Ep|exact Hv].
Qed.

(** What [execute_rotation] destroys stays derivable: after any sequence of calls, the
    master seed kept in the object still derives the seed of every batch, past ones included,
    and a tree built from it signs any message so that it verifies against that batch's root,
    with whichever of its 1024 keys. *)
Theorem master_seed_recovers_batches (master_seed : option bytes) (random : bytes) :
  exists km, key_manager_new master_seed random = Ok km /\
  forall ops n i m, i < 1024 ->
    let km' := (km_run km ops).1 in
    exists seed t s,
      Nat.iter n (fun s => s ← s; derive_next_batch_seed s)
        (derive_initial_batch_seed (km_master_seed km')) = Ok seed /\
      seed = batch_seed (km_master_seed km) n /\
      temporal_auth_new seed = Ok t /\ sign_with_index t m i = Ok s /\
      verify_against_root m (as_signature s) (as_public_key s) (as_proof s)
        (batch_root (batch_seed (km_master_seed km) n)) = true.
Proof.
  destruct (key_manager_new_ok master_seed random) as (km & E & _ & Hcache & _). exists km. split; [exact E|].
  intros ops n i m Hi km'. pose proof (km_run_inv _ _ _ _ _ ops (km_inv_new _ _ _ E)) as Hrun.
  unfold km'. destruct (km_run km ops) as [k evs]. destruct Hrun as (_ & (? & ? & ? & Hk) & _).
  cbn [fst]. rewrite (ki_master _ _ _ _ _ Hk), batch_seed_derived.
  destruct (fresh_tree (batch_seed (km_master_seed km) n)) as (t & Et & (tree & -> & _ & Hs)).
  destruct (Hs 0 0 m i Hi) as (s & Es & _ & Hv & _).
  eexists _, _, s. split; [reflexivity|]. split; [reflexivity|]. split; [exact Et|].
  split; [exact Es|exact Hv].
Qed.

End KeyManagerProperties.

(** Trees of 1024 keys are never computed by conversion in the clients' proofs. *)
#[global] Opaque temporal_auth_new batch_root.
