(* ===== verification/Wallet.v ===== *)
(** * The wallet ([src/src/wallet.py], lines 28-34 and 237-724)

    Coin selection, the six kinds of transaction a wallet builds, their signing with temporal
    or one-time keys, and the tracking of submitted and confirmed transactions.  Main result:
    coin selection is largest-first, minimal and exact ([select_utxos_spec]); how the built
    transactions fare on a node is in WalletProtocol. *)

From stdpp Require Import prelude list gmap strings sorting.
From Stdlib Require Import Strings.Byte ZArith Lia Floats.SpecFloat.
From S2P Require Import Prelude.
From S2P Require Import Dict.
From S2P Require Import PyFloat.
From S2P Require Import Crypto.
From S2P Require Import Wots.
From S2P Require Import Merkle.
From S2P Require Import TemporalAuth.
From S2P Require Import Transaction.
From S2P Require Import Ledger.
From S2P Require Import TxValidation.
From S2P Require Import KeyManager.

Set Default Goal Selector "!".

(** ** Constants and data *)

Definition WALLET_VERSION : Z := 1.
Definition DEFAULT_FEE_RATE : Z := 10.
Definition STAKING_LOCK_EPOCHS : Z := 100.

Record WalletConfig := mkWalletConfig {
  wc_name : string;
  wc_network : string;
  wc_fee_rate : Z;
  wc_auto_consolidate : bool;
}.

Definition default_config : WalletConfig :=
  mkWalletConfig "default" "testnet" DEFAULT_FEE_RATE true.

(** [utxos] and [pending_txs] are dictionaries in insertion order: the order of the first
    decides ties in coin selection. *)
Record Wallet := mkWallet {
  w_config : WalletConfig;
  w_key_manager : KeyManager;
  w_utxos : dict outpoint UTXO;
  w_pending_txs : dict bytes Transaction;
  w_tx_history : list bytes;
  w_current_epoch : Z;
  w_staked_amount : Z;
  w_stake_unlock_epoch : Z;
}.

Definition w_address (w : Wallet) : bytes := km_address (w_key_manager w).

Definition with_keys (w : Wallet) (km : KeyManager) : Wallet :=
  mkWallet (w_config w) km (w_utxos w) (w_pending_txs w) (w_tx_history w) (w_current_epoch w)
    (w_staked_amount w) (w_stake_unlock_epoch w).

Definition with_utxos (w : Wallet) (d : dict outpoint UTXO) : Wallet :=
  mkWallet (w_config w) (w_key_manager w) d (w_pending_txs w) (w_tx_history w)
    (w_current_epoch w) (w_staked_amount w) (w_stake_unlock_epoch w).

Definition with_pending (w : Wallet) (p : dict bytes Transaction) (history : list bytes) : Wallet :=
  mkWallet (w_config w) (w_key_manager w) (w_utxos w) p history (w_current_epoch w)
    (w_staked_amount w) (w_stake_unlock_epoch w).

(** ** Balances and coin selection *)

(** The values of [self.utxos] that pass the two tests, in order. *)
Definition get_spendable_utxos (w : Wallet) : list UTXO :=
  List.filter (spendable (w_current_epoch w)) (map snd (w_utxos w)).

Definition balance (w : Wallet) : Z :=
  foldl (fun total kv =>
      if spendable (w_current_epoch w) kv.2 then (total + to_value (u_output kv.2))%Z else total)
    0%Z (w_utxos w).

Definition pending_balance (w : Wallet) : Z :=
  foldl (fun total kv =>
      foldl (fun total out =>
          if bool_decide (to_address out = w_address w) then (total + to_value out)%Z else total)
        total (tx_outputs kv.2))
    0%Z (w_pending_txs w).

Definition total_balance (w : Wallet) : Z := (balance w + pending_balance w)%Z.

Definition wallet_add_utxo (w : Wallet) (tx_hash : bytes) (output_index : Z) (output : TxOutput)
    (epoch : Z) : Wallet :=
  with_utxos w (dict_set (tx_hash, output_index)
                  (mkUTXO tx_hash output_index output epoch false None) (w_utxos w)).

Definition wallet_spend_utxo (w : Wallet) (tx_hash : bytes) (output_index : Z) (spending_tx : bytes)
    : Wallet * bool :=
  match dict_get (tx_hash, output_index) (w_utxos w) with
  | None => (w, false)
  | Some utxo =>
      if u_is_spent utxo then (w, false)
      else (with_utxos w (dict_set (tx_hash, output_index) (mark_spent spending_tx utxo) (w_utxos w)),
            true)
  end.

(** [sort(key=value, reverse=True)] is stable, as is [merge_sort]: equal values keep their
    order. *)
Definition value_cmp (x y : UTXO) : comparison :=
  Z.compare (to_value (u_output x)) (to_value (u_output y)).

Definition sort_by_value (l : list UTXO) : list UTXO := merge_sort (cmp_ge value_cmp) l.

(** The accumulating loop: it stops after the first output that reaches [needed]. *)
Fixpoint select_loop (needed total : Z) (utxos : list UTXO) : list UTXO * Z :=
  match utxos with
  | [] => ([], total)
  | utxo :: utxos =>
      let total := (total + to_value (u_output utxo))%Z in
      if (needed <=? total)%Z then ([utxo], total)
      else let '(selected, total) := select_loop needed total utxos in (utxo :: selected, total)
  end.

Definition select_utxos (w : Wallet) (target_amount fee_estimate : Z) : list UTXO * Z :=
  select_loop (target_amount + fee_estimate) 0 (sort_by_value (get_spendable_utxos w)).

Section Wallet.
Context `{Hashlib}.

(** ** Signing *)

(** An input without signature and key. *)
Definition unsigned_input (u : UTXO) : TxInput :=
  mkTxInput (u_tx_hash u) (u_output_index u) [] [] None (-1).

Fixpoint sign_temporal (km : KeyManager) (signing_hash : bytes) (inputs : list TxInput)
    : KeyManager * res (list TxInput) :=
  match inputs with
  | [] => (km, Ok [])
  | inp :: inputs =>
      let (km, r) := temporal_sign km signing_hash in
      match r with
      | Err e => (km, Err e)
      | Ok s =>
          let inp := mkTxInput (ti_prev_tx_hash inp) (ti_output_index inp) (as_signature s)
                       (as_public_key s) (Some (as_proof s)) (Z.of_nat (as_key_index s)) in
          let (km, rest) := sign_temporal km signing_hash inputs in
          (km, rest ← rest; Ok (inp :: rest))
      end
  end.

Fixpoint sign_legacy (km : KeyManager) (epoch : Z) (signing_hash : bytes) (inputs : list TxInput)
    : KeyManager * res (list TxInput) :=
  match inputs with
  | [] => (km, Ok [])
  | inp :: inputs =>
      let (km, r) := get_unused_keypair km epoch in
      match r with
      | Err e => (km, Err e)
      | Ok (i, keypair) =>
          let (km, r) := sign_cached km epoch i signing_hash in
          match r with
          | None => (km, Err KeyError)    (* the pair is in the cache: not reached *)
          | Some (Err e) => (km, Err e)
          | Some (Ok signature) =>
              let inp := mkTxInput (ti_prev_tx_hash inp) (ti_output_index inp) signature
                           (kp_public_key keypair) (ti_auth_proof inp) (ti_auth_key_index inp) in
              let (km, rest) := sign_legacy km epoch signing_hash inputs in
              (km, rest ← rest; Ok (inp :: rest))
          end
      end
  end.

Definition with_inputs (tx : Transaction) (inputs : list TxInput) : Transaction :=
  mkTransaction (tx_version tx) (tx_type tx) inputs (tx_outputs tx) (tx_epoch tx)
    (tx_timestamp tx) (tx_fee tx) (tx_nonce tx) (tx_cached tx).

(** [_sign_inputs(tx)]: the wallet after it and the transaction with its signed inputs. *)
Definition sign_inputs (w : Wallet) (tx : Transaction) : Wallet * res Transaction :=
  match signing_hash tx with
  | Err e => (w, Err e)
  | Ok sh =>
      let (km, inputs) :=
        if km_is_registered (w_key_manager w) then
          sign_temporal (w_key_manager w) sh (tx_inputs tx)
        else sign_legacy (w_key_manager w) (w_current_epoch w) sh (tx_inputs tx) in
      (with_keys w km, inputs ← inputs; Ok (with_inputs tx inputs))
  end.

(** ** Building transactions *)

Definition estimate_fee (w : Wallet) (num_inputs num_outputs : Z) : Z :=
  let input_size := (2144 + 2144 + 320 + 40)%Z in
  ((50 + num_inputs * input_size + num_outputs * 80) * wc_fee_rate (w_config w))%Z.

(** The change output, if it is worth one. *)
Definition change_outputs (w : Wallet) (change : Z) : list TxOutput :=
  if (DUST_THRESHOLD <=? change)%Z then [mkTxOutput change (w_address w) 0 []] else [].

(** The last lines of every builder: construct, sign, return. *)
Definition build_signed (w : Wallet) (ty : TxType) (inputs : list TxInput) (outputs : list TxOutput)
    (fee : Z) (now : float64) (nonce : bytes) : Wallet * res (option Transaction) :=
  match to_ms now with
  | Err e => (w, Err e)
  | Ok timestamp =>
      let tx := mkTransaction 1 ty inputs outputs (w_current_epoch w) timestamp fee nonce None in
      let (w, tx) := sign_inputs w tx in
      (w, tx ← tx; Ok (Some tx))
  end.

Definition create_transfer (w : Wallet) (recipient : bytes) (amount : Z) (fee : option Z)
    (now : float64) (nonce : bytes) : Wallet * res (option Transaction) :=
  if (amount <? DUST_THRESHOLD)%Z then (w, Ok None)
  else
    let fee := match fee with
               | Some fee => fee
               | None =>
                   let input_size := (2144 + 2144 + 320 + 40)%Z in
                   let estimated_size := (50 + input_size + 2 * 80)%Z in
                   (estimated_size * wc_fee_rate (w_config w))%Z
               end in
    let '(utxos, total_input) := select_utxos w amount fee in
    if (total_input <? amount + fee)%Z then (w, Ok None)
    else
      let outputs := mkTxOutput amount recipient 0 []
                       :: change_outputs w (total_input - amount - fee) in
      build_signed w TRANSFER (map unsigned_input utxos) outputs fee now nonce.

Definition create_stake (w : Wallet) (amount lock_epochs : Z) (now : float64) (nonce : bytes)
    : Wallet * res (option Transaction) :=
  if (amount <? DUST_THRESHOLD)%Z then (w, Ok None)
  else
    let fee := estimate_fee w 1 2 in
    let '(utxos, total_input) := select_utxos w amount fee in
    if (total_input <? amount + fee)%Z then (w, Ok None)
    else
      let lock_epoch := (w_current_epoch w + lock_epochs)%Z in
      let outputs := mkTxOutput amount (w_address w) lock_epoch []
                       :: change_outputs w (total_input - amount - fee) in
      build_signed w STAKE (map unsigned_input utxos) outputs fee now nonce.

(** The mature stakes: unspent, with a positive lock epoch that has passed. *)
Definition mature_stakes (w : Wallet) : list UTXO :=
  List.filter (fun u => negb (u_is_spent u) && (0 <? to_lock_epoch (u_output u))%Z
                        && (to_lock_epoch (u_output u) <=? w_current_epoch w)%Z)
    (map snd (w_utxos w)).

Definition create_unstake (w : Wallet) (now : float64) (nonce : bytes)
    : Wallet * res (option Transaction) :=
  let staked_utxos := mature_stakes w in
  let total_staked := sumZ (map (fun u => to_value (u_output u)) staked_utxos) in
  match staked_utxos with
  | [] => (w, Ok None)
  | _ =>
      let fee := estimate_fee w (zlen staked_utxos) 1 in
      let outputs := [mkTxOutput (total_staked - fee) (w_address w) 0 []] in
      build_signed w UNSTAKE (map unsigned_input staked_utxos) outputs fee now nonce
  end.

Definition create_data_tx (w : Wallet) (data : bytes) (fee : option Z) (now : float64)
    (nonce : bytes) : Wallet * res (option Transaction) :=
  if (1000 <? zlen data)%Z then (w, Ok None)
  else
    let fee := match fee with Some fee => fee | None => estimate_fee w 1 2 end in
    let '(utxos, total_input) := select_utxos w 0 fee in
    if (total_input <? fee)%Z then (w, Ok None)
    else
      let outputs := mkTxOutput 0 (w_address w) 0 data :: change_outputs w (total_input - fee) in
      build_signed w DATA (map unsigned_input utxos) outputs fee now nonce.

(** ** Registration and rotation *)

(** [inner_hash + auth_root]. *)
Definition bytes_arg (a : pyarg) : res bytes :=
  match a with PBytes b => Ok b | _ => Err TypeError end.

(** The signed input of a registration: the first selected output under the registration
    key. *)
Definition create_registration_tx (w : Wallet) (fee : option Z) (now : float64) (nonce : bytes)
    : res (option Transaction) :=
  if km_is_registered (w_key_manager w) then Ok None
  else
    let fee := match fee with
               | Some fee => fee
               | None => ((50 + 4400 + 80 + 128) * wc_fee_rate (w_config w))%Z
               end in
    let '(utxos, total_input) := select_utxos w 0 fee in
    if (total_input <? fee)%Z then Ok None
    else
      root ← km_auth_root (w_key_manager w);
      auth_root ← bytes_arg root;
      let reg_data := km_inner_hash (w_key_manager w) ++ auth_root in
      '(reg_priv, reg_pub) ← get_wots_keypair_for_registration (w_key_manager w);
      match utxos with
      | [] => Err (IndexError "list index out of range")
      | utxo :: _ =>
          let outputs := mkTxOutput 0 (w_address w) 0 reg_data
                           :: change_outputs w (total_input - fee) in
          timestamp ← to_ms now;
          let inp := mkTxInput (u_tx_hash utxo) (u_output_index utxo) [] reg_pub None (-1) in
          let tx := mkTransaction 1 REGISTER [inp] outputs (w_current_epoch w) timestamp fee
                      nonce None in
          sh ← signing_hash tx;
          let inp := mkTxInput (u_tx_hash utxo) (u_output_index utxo) (wots_sign sh reg_priv)
                       reg_pub None (-1) in
          Ok (Some (with_inputs tx [inp]))
      end.

(** [sibling + bytes([is_right])] for each step of a path. *)
Fixpoint pack_proof (proof : merkle_proof) : res bytes :=
  match proof with
  | [] => Ok []
  | (sibling, is_right) :: proof =>
      d ← one_byte is_right;
      rest ← pack_proof proof;
      Ok (sibling ++ d ++ rest)
  end.

(** The extended [public_key] field of a rotation: key, path with its length, key index. *)
Definition pack_rotation_key (pub : bytes) (proof : merkle_proof) (key_index : Z) : res bytes :=
  proof_bytes ← pack_proof proof;
  n ← pack_uint 2 (zlen proof_bytes);
  i ← pack_uint 4 key_index;
  Ok (pub ++ n ++ proof_bytes ++ i).

Definition create_rotation_tx (w : Wallet) (fee : option Z) (now : float64) (nonce : bytes)
    : Wallet * res (option Transaction) :=
  if negb (km_is_registered (w_key_manager w)) then (w, Ok None)
  else
    let (km, r) := prepare_rotation (w_key_manager w) in
    let w := with_keys w km in
    match r with
    | Err e => (w, Err e)
    | Ok new_auth_root =>
        let fee := match fee with
                   | Some fee => fee
                   | None => ((50 + 4400 + 80 + 64) * wc_fee_rate (w_config w))%Z
                   end in
        let '(utxos, total_input) := select_utxos w 0 fee in
        if (total_input <? fee)%Z then (w, Ok None)
        else match utxos with
        | [] => (w, Err (IndexError "list index out of range"))
        | utxo :: _ =>
            match (root ← bytes_arg new_auth_root;
                   timestamp ← to_ms now;
                   let outputs := mkTxOutput 0 (w_address w) 0 root
                                    :: change_outputs w (total_input - fee) in
                   let tx := mkTransaction 1 ROTATE_AUTH [unsigned_input utxo] outputs
                               (w_current_epoch w) timestamp fee nonce None in
                   sh ← signing_hash tx;
                   Ok (tx, sh)) with
            | Err e => (w, Err e)
            | Ok (tx, sh) =>
                let (km, s) := temporal_sign_rotation (w_key_manager w) sh in
                (with_keys w km,
                 s ← s;
                 pk_field ← pack_rotation_key (as_public_key s) (as_proof s)
                              (Z.of_nat (as_key_index s));
                 Ok (Some (with_inputs tx
                       [mkTxInput (u_tx_hash utxo) (u_output_index utxo) (as_signature s)
                          pk_field None (-1)])))
            end
        end
    end.

Definition confirm_rotation (w : Wallet) : Wallet * res unit :=
  let '(km, r) := execute_rotation (w_key_manager w) in (with_keys w km, r).

(** ** Tracking *)

Definition submit_transaction (w : Wallet) (tx : Transaction) : Wallet * res unit :=
  match tx_hash tx with
  | Err e => (w, Err e)
  | Ok h =>
      let w := with_pending w (dict_set h tx (w_pending_txs w)) (w_tx_history w) in
      (foldl (fun w inp => (wallet_spend_utxo w (ti_prev_tx_hash inp) (ti_output_index inp) h).1)
         w (tx_inputs tx), Ok tt)
  end.

Definition is_our_address (w : Wallet) (address : bytes) : bool :=
  existsb (fun kv => existsb (fun kp => bool_decide (kp_address kp = address)) kv.2)
    (map_to_list (km_key_cache (w_key_manager w))).

(** The loop over [enumerate(tx.outputs)]. *)
Fixpoint claim_outputs (w : Wallet) (tx : Transaction) (i : Z) (outputs : list TxOutput)
    : Wallet * res unit :=
  match outputs with
  | [] => (w, Ok tt)
  | out :: outputs =>
      if bool_decide (to_address out = w_address w) || is_our_address w (to_address out) then
        match tx_hash tx with
        | Err e => (w, Err e)
        | Ok h => claim_outputs (wallet_add_utxo w h i out (tx_epoch tx)) tx (i + 1)%Z outputs
        end
      else claim_outputs w tx (i + 1)%Z outputs
  end.

Definition confirm_transaction (w : Wallet) (h : bytes) : Wallet * res unit :=
  match dict_get h (w_pending_txs w) with
  | None => (w, Ok tt)
  | Some tx =>
      claim_outputs (with_pending w (dict_del h (w_pending_txs w)) (w_tx_history w ++ [h]))
        tx 0 (tx_outputs tx)
  end.

Definition sync_epoch (w : Wallet) (epoch : Z) : Wallet :=
  if (w_current_epoch w <? epoch)%Z then
    mkWallet (w_config w) (evolve_to_epoch (w_key_manager w) epoch) (w_utxos w) (w_pending_txs w)
      (w_tx_history w) epoch (w_staked_amount w) (w_stake_unlock_epoch w)
  else w.

(** [Wallet(config, master_seed)]. *)
Definition wallet_new (config : option WalletConfig) (master_seed : option bytes) (random : bytes)
    : res Wallet :=
  km ← key_manager_new master_seed random;
  Ok (mkWallet (default default_config config) km [] [] [] 0 0 0).

(** What [to_dict] exports. *)
Record WalletExport := mkWalletExport {
  we_version : Z;
  we_name : string;
  we_network : string;
  we_fee_rate : Z;
  we_address : string;
  we_current_epoch : Z;
  we_balance : Z;
  we_staked_amount : Z;
  we_utxo_count : Z;
  we_pending_count : Z;
  we_tx_history_count : Z;
}.

Definition wallet_to_dict (w : Wallet) : WalletExport :=
  mkWalletExport WALLET_VERSION (wc_name (w_config w)) (wc_network (w_config w))
    (wc_fee_rate (w_config w)) (hex (w_address w)) (w_current_epoch w) (balance w)
    (w_staked_amount w) (zlen (w_utxos w)) (zlen (w_pending_txs w)) (zlen (w_tx_history w)).

End Wallet.

(** ** Coin selection *)

Definition utxo_value (u : UTXO) : Z := to_value (u_output u).

Definition values (l : list UTXO) : Z := sumZ (map utxo_value l).

Lemma balance_values w : balance w = values (get_spendable_utxos w).
Proof.
  unfold balance, values, get_spendable_utxos. rewrite <- (Z.add_0_l (sumZ _)).
  generalize 0%Z. induction (w_utxos w) as [|[k u] d IH]; intros a; simpl; [lia|].
  rewrite IH. destruct (spendable _ u); simpl; [unfold utxo_value; lia|done].
Qed.

Lemma values_nil : values [] = 0%Z.
Proof. done. Qed.

Lemma values_cons u l : values (u :: l) = (to_value (u_output u) + values l)%Z.
Proof. done. Qed.

Lemma values_app l1 l2 : values (l1 ++ l2) = (values l1 + values l2)%Z.
Proof. unfold values. by rewrite map_app, sumZ_app. Qed.

#[export] Instance values_Permutation : Proper ((≡ₚ) ==> (=)) values.
Proof. intros l1 l2 Hp. unfold values. by rewrite Hp. Qed.

Lemma select_loop_spec needed total l :
  let '(sel, t) := select_loop needed total l in
  t = (total + values sel)%Z /\
  (exists rest, l = sel ++ rest /\ (rest = [] \/ needed <= t)%Z) /\
  (forall p u, sel = p ++ [u] -> p <> [] -> total + values p < needed)%Z.
Proof.
  revert total. induction l as [|u l IH]; intros total; cbn [select_loop].
  { rewrite values_nil. split; [lia|]. split; [exists []; auto|]. by intros []. }
  destruct (Z.leb_spec needed (total + to_value (u_output u))) as [Hle|Hlt].
  { rewrite values_cons, values_nil. split; [lia|]. split; [exists l; auto|].
    intros [|a [|b p]] u' E Hp; [done|discriminate E|discriminate E]. }
  specialize (IH (total + to_value (u_output u))%Z).
  destruct (select_loop needed _ l) as [sel t]. destruct IH as (-> & (rest & -> & Hr) & Hmin).
  rewrite values_cons. split; [lia|]. split; [exists rest; split; [done|]; destruct Hr; [by left|right; lia]|].
  intros [|a p] u' E Hp; [done|]. injection E as <- E. destruct p as [|b p].
  - rewrite values_cons, values_nil. lia.
  - apply Hmin in E; [|done]. rewrite values_cons. lia.
Qed.

Lemma sort_by_value_perm l : sort_by_value l ≡ₚ l.
Proof. apply merge_sort_Permutation. Qed.

#[export] Instance value_cmp_lawful : LawfulCmp value_cmp.
Proof. exact (cmp_on_lawful (fun u => to_value (u_output u)) Z.compare _). Qed.

Lemma sort_by_value_sorted l :
  StronglySorted (fun x y => utxo_value y <= utxo_value x)%Z (sort_by_value l).
Proof.
  unfold sort_by_value. pose proof (cmp_ge_total value_cmp _) as Htot.
  pose proof (cmp_ge_trans value_cmp _) as Htr.
  pose proof (StronglySorted_merge_sort (cmp_ge value_cmp) l) as Hs.
  induction Hs as [|x l' _ IH Hx]; constructor; [done|].
  eapply Forall_impl; [exact Hx|]. intros y. unfold cmp_ge, value_cmp, utxo_value.
  destruct (Z.compare_spec (to_value (u_output x)) (to_value (u_output y))); lia || done.
Qed.

(** What a selection is made of. *)
Definition spendable_in (w : Wallet) (u : UTXO) : Prop :=
  exists key, (key, u) ∈ w_utxos w /\ u_is_spent u = false /\
    (to_lock_epoch (u_output u) <= w_current_epoch w)%Z.

Lemma get_spendable_elem w u : u ∈ get_spendable_utxos w <-> spendable_in w u.
Proof.
  unfold get_spendable_utxos, spendable_in. rewrite list_elem_of_In, filter_In.
  unfold spendable. rewrite andb_true_iff, negb_true_iff, Z.leb_le, in_map_iff. split.
  - intros [([key u'] & <- & Hin) [Hs Hl]]. exists key. split; [by apply list_elem_of_In|done].
  - intros (key & Hin & Hs & Hl). split; [|done]. exists (key, u). split; [done|].
    by apply list_elem_of_In.
Qed.

(** The selected outputs are spendable ones of the wallet, each once, and suffice if the
    balance does. *)
Lemma select_utxos_sound w target fee :
  let '(sel, total) := select_utxos w target fee in
  (exists rest, sel ++ rest ≡ₚ get_spendable_utxos w) /\ total = values sel /\
  ((target + fee <= balance w)%Z -> (target + fee <= total)%Z).
Proof.
  unfold select_utxos. rewrite balance_values. pose proof (sort_by_value_perm (get_spendable_utxos w)) as Hp.
  pose proof (select_loop_spec (target + fee) 0 (sort_by_value (get_spendable_utxos w))) as Hs.
  destruct (select_loop _ _ _) as [sel total]. destruct Hs as (-> & (rest & E & Hr) & _).
  rewrite E in Hp. rewrite <- Hp. split; [by exists rest; rewrite Hp|]. split; [lia|]. rewrite values_app.
  destruct Hr as [->|Hr]; [rewrite values_nil|]; lia.
Qed.


(** ** Properties *)

(** Coin selection takes the largest spendable outputs first, stops as soon as target and
    fee are covered (dropping the last one would not cover them), takes everything when the
    whole balance does not cover them, and reports the exact total. *)
Theorem select_utxos_spec (w : Wallet) (target fee : Z) :
  let '(sel, total) := select_utxos w target fee in
  (exists rest, sel ++ rest ≡ₚ get_spendable_utxos w /\
     Forall (fun x => Forall (fun y => utxo_value y <= utxo_value x)%Z rest) sel /\
     (rest = [] \/ target + fee <= total)%Z) /\
  StronglySorted (fun x y => utxo_value y <= utxo_value x)%Z sel /\ total = values sel /\
  (forall p u, sel = p ++ [u] -> p <> [] -> values p < target + fee)%Z /\
  (target + fee <= balance w -> target + fee <= total)%Z.
Proof.
  pose proof (select_utxos_sound w target fee) as Hs. unfold select_utxos in *.
  pose proof (select_loop_spec (target + fee) 0 (sort_by_value (get_spendable_utxos w))) as Hl.
  pose proof (sort_by_value_sorted (get_spendable_utxos w)) as Hsort.
  pose proof (sort_by_value_perm (get_spendable_utxos w)) as Hperm.
  destruct (select_loop _ _ _) as [sel total]. destruct Hl as (_ & (rest & E & Hr) & Hmin).
  destruct Hs as (_ & Ht & Henough). rewrite E in Hsort, Hperm.
  split; [exists rest; split; [done|]; split; [|done]|].
  - clear -Hsort. induction sel as [|x sel IH]; [constructor|]. simpl in Hsort.
    inversion Hsort as [|? ? Hs Hx]; subst. constructor; [|by apply IH].
    by apply Forall_app in Hx as [_ Hx].
  - split; [|split; [exact Ht|split; [exact Hmin|exact Henough]]].
    clear -Hsort. induction sel as [|x sel IH]; [constructor|]. simpl in Hsort.
    inversion Hsort as [|? ? Hs Hx]; subst. constructor; [by apply IH|].
    by apply Forall_app in Hx as [Hx _].
Qed.
