(* ===== verification/WalletProtocol.v ===== *)
(** * Wallet and node together

    What becomes of the transactions of [Wallet] on a node that validates and applies them with
    [TxValidation].  [in_step] relates the two states: the node has the wallet's coins and the
    root of the wallet's current batch.  Main results: a default-fee transfer is accepted
    exactly when it has at most 11 inputs ([transfer_accepted]); registering brings a new wallet
    in step ([registration_protocol]); rotating keeps it in step with the next batch
    ([rotation_protocol]). *)

From stdpp Require Import prelude list gmap strings sorting.
From Stdlib Require Import Strings.Byte ZArith Lia Floats.SpecFloat.
From S2P Require Import Prelude.
From S2P Require Import Dict.
From S2P Require Import PyFloat.
From S2P Require Import Crypto.
From S2P Require Import Wots.
From S2P Require Import Merkle.
From S2P Require Import TemporalAuth.
From S2P Require Import Transaction.
From S2P Require Import Ledger.
From S2P Require Import TxValidation.
From S2P Require Import KeyManager.
From S2P Require Import Wallet.

Set Default Goal Selector "!".

(** ** Signing *)

Section WalletLemmas.
Context `{Hashlib}.

(** A signed version of an input: same outpoint, and a temporal signature under [root]. *)
Definition signed_under (root sh : bytes) (i i' : TxInput) : Prop :=
  ti_prev_tx_hash i' = ti_prev_tx_hash i /\ ti_output_index i' = ti_output_index i /\
  length (ti_signature i') = 2144 /\ length (ti_public_key i') = 2144 /\
  exists proof, ti_auth_proof i' = Some proof /\ length proof = 10 /\
    verify_against_root sh (ti_signature i') (ti_public_key i') proof root = true.

Lemma verify_against_root_inv m s pk proof root :
  verify_against_root m s pk proof root = true ->
  wots_verify m s pk = true /\ verify_proof (sha3_256 pk) proof root = true.
Proof. unfold verify_against_root. by destruct (wots_verify m s pk). Qed.

Lemma temporal_sign_ok master n k r km m :
  km_inv master n k r km -> km_is_registered km = true -> k < USABLE_KEYS ->
  exists t s, temporal_sign km m = (with_tree km t, Ok s) /\
    km_inv master n (S k) r (with_tree km t) /\
    verify_against_root m (as_signature s) (as_public_key s) (as_proof s)
      (batch_root (batch_seed master n)) = true /\ sig_wf s.
Proof.
  intros Hi Hreg Hk. unfold temporal_sign. rewrite Hreg. cbn [negb].
  pose proof (live_sign _ _ _ _ m (ki_tree _ _ _ _ _ Hi)) as Hs.
  destruct (sign _ m) as [t res]. rewrite (proj2 (Nat.ltb_lt _ _) Hk) in Hs.
  destruct Hs as (Ht & s & -> & _ & Hv & Hwf). exists t, s.
  split; [reflexivity|]. split; [destruct Hi; constructor; assumption|]. split; assumption.
Qed.

Lemma temporal_sign_rotation_ok master n k r km m :
  km_inv master n k r km -> km_is_registered km = true -> r < RESERVED_ROTATION ->
  exists t s, temporal_sign_rotation km m = (with_tree km t, Ok s) /\
    km_inv master n k (S r) (with_tree km t) /\ as_key_index s = USABLE_KEYS + r /\
    verify_against_root m (as_signature s) (as_public_key s) (as_proof s)
      (batch_root (batch_seed master n)) = true /\ sig_wf s.
Proof.
  intros Hi Hreg Hk. unfold temporal_sign_rotation. rewrite Hreg. cbn [negb].
  pose proof (live_sign_rotation _ _ _ _ m (ki_tree _ _ _ _ _ Hi)) as Hs.
  destruct (sign_rotation _ m) as [t res]. rewrite (proj2 (Nat.ltb_lt _ _) Hk) in Hs.
  destruct Hs as (Ht & s & -> & Hidx & Hv & Hwf). exists t, s.
  split; [reflexivity|]. split; [destruct Hi; constructor; assumption|]. split; [exact Hidx|].
  split; assumption.
Qed.

Lemma sign_temporal_ok master n sh inputs : forall k r km,
  km_inv master n k r km -> km_is_registered km = true -> k + length inputs <= USABLE_KEYS ->
  exists km' inputs', sign_temporal km sh inputs = (km', Ok inputs') /\
    km_inv master n (k + length inputs) r km' /\
    km_is_registered km' = true /\ km_address km' = km_address km /\
    Forall2 (signed_under (batch_root (batch_seed master n)) sh) inputs inputs'.
Proof.
  induction inputs as [|inp inputs IH]; intros k r km Hi Hreg Hk; cbn [sign_temporal].
  { exists km, []. rewrite Nat.add_0_r. split; [done|]. split; [exact Hi|]. by repeat split. }
  cbn [length] in Hk. destruct (temporal_sign_ok _ _ _ _ km sh Hi Hreg) as (t & s & -> & Hi' & Hv & Hwf).
  { lia. }
  destruct (IH (S k) r (with_tree km t)) as (km' & inputs' & -> & Hi'' & Hreg' & Haddr & Hf);
    [exact Hi'|exact Hreg|lia|].
  eexists km', (_ :: inputs'). split; [reflexivity|]. cbn [length]. rewrite Nat.add_succ_r.
  split; [exact Hi''|]. split; [exact Hreg'|]. split; [exact Haddr|]. constructor; [|exact Hf].
  destruct Hwf as (Hs & Hp & Hl & _ & _). split; [done|]. split; [done|].
  split; [exact Hs|]. split; [exact Hp|]. exists (as_proof s). split; [reflexivity|].
  split; [exact Hl|exact Hv].
Qed.

(** ** Wallet and node in step *)

(** The node has every output that the wallet considers unspent, at the wallet's address. *)
Record coins_ok (w : Wallet) (v : Validator) : Prop := {
  is_wf : dict_wf (w_utxos w);
  is_utxos : forall key u, (key, u) ∈ w_utxos w -> u_is_spent u = false ->
    key = (u_tx_hash u, u_output_index u) /\ (0 <= u_output_index u < 2 ^ 64)%Z /\
    to_address (u_output u) = w_address w /\
    exists u', utxos (v_utxo_set v) !! key = Some u' /\ u_is_spent u' = false /\
      u_output u' = u_output u;
}.

(** The registered wallet holds batch [n] with [k] and [r] keys spent, and the node has that
    batch's root for its address. *)
Record in_step (w : Wallet) (v : Validator) (master : bytes) (n k r : nat) : Prop := {
  is_coins : coins_ok w v;
  is_keys : km_inv master n k r (w_key_manager w);
  is_registered_flag : km_is_registered (w_key_manager w) = true;
  is_reg : is_registered (v_auth_registry v) (w_address w) = true;
  is_root : get_auth_root (v_auth_registry v) (w_address w)
            = Some (batch_root (batch_seed master n));
}.

Definition outpoint_of (u : UTXO) : outpoint := (u_tx_hash u, u_output_index u).

Lemma spendable_outpoints_NoDup w v master n k r :
  in_step w v master n k r -> NoDup (map outpoint_of (get_spendable_utxos w)).
Proof.
  intros Hst. pose proof (is_wf _ _ (is_coins _ _ _ _ _ _ Hst)) as Hwf. pose proof (is_utxos _ _ (is_coins _ _ _ _ _ _ Hst)) as Hu.
  unfold dict_wf, dict_keys, get_spendable_utxos in *. clear Hst.
  induction (w_utxos w) as [|[key u] d IH]; [constructor|]. simpl in Hwf |- *.
  apply NoDup_cons in Hwf as [Hni Hwf].
  assert (Hu' : forall key u, (key, u) ∈ d -> u_is_spent u = false -> key = outpoint_of u).
  { intros key' u' Hin Hs. by destruct (Hu key' u' ltac:(by right) Hs) as (-> & _). }
  specialize (IH Hwf ltac:(intros; apply Hu; [by right|done])).
  destruct (spendable (w_current_epoch w) u) eqn:Es; [|exact IH]. simpl. constructor; [|exact IH].
  intros (u' & Eq & Hin)%list_elem_of_fmap. apply list_elem_of_In, filter_In in Hin as [Hin Hs'].
  unfold spendable in Es, Hs'. apply andb_true_iff in Es as [Es _], Hs' as [Hs' _].
  apply negb_true_iff in Es, Hs'.
  apply in_map_iff in Hin as ([key' u''] & <- & Hin). simpl in *. apply list_elem_of_In in Hin.
  destruct (Hu key u ltac:(by left) Es) as (-> & _). apply Hni. rewrite <- (Hu' _ _ Hin Hs') in Eq.
  apply list_elem_of_fmap. exists (key', u''). by split.
Qed.

(** Signed inputs over spendable outputs are what validation wants. *)
Lemma signed_inputs_ok w v master n k r sh sel inputs :
  in_step w v master n k r -> Forall (spendable_in w) sel ->
  Forall2 (signed_under (batch_root (batch_seed master n)) sh) (map unsigned_input sel) inputs ->
  Forall2 (input_ok v (w_current_epoch w) sh) inputs (map utxo_value sel).
Proof.
  intros Hst Hsel. revert inputs. induction Hsel as [|u sel (key & Hin & Hs & Hl) Hsel IH]; intros inputs Hf.
  { apply Forall2_nil_inv_l in Hf as ->. constructor. }
  apply Forall2_cons_inv_l in Hf as (i & inputs' & Hi & Hf & ->). constructor; [|by apply IH].
  destruct Hi as (E1 & E2 & _ & _ & proof & Ep & Hlen & Hv).
  apply verify_against_root_inv in Hv as [Hw Hvp].
  destruct (is_utxos _ _ (is_coins _ _ _ _ _ _ Hst) key u Hin Hs) as (-> & _ & Haddr & u' & Hu' & Hs' & Eo).
  cbn [unsigned_input ti_prev_tx_hash ti_output_index] in E1, E2. exists u'.
  split; [unfold get_utxo; by rewrite E1, E2|]. split; [done|]. rewrite Eo. split; [done|].
  split; [done|]. split; [|done]. intros _. exists proof, (batch_root (batch_seed master n)).
  split; [done|]. split; [by destruct proof|]. split; [|done]. rewrite Haddr. apply Hst.
Qed.

Lemma in_step_keys w v master n k r k' r' km :
  in_step w v master n k r -> km_inv master n k' r' km ->
  km_is_registered km = true -> km_address km = w_address w ->
  in_step (with_keys w km) v master n k' r'.
Proof.
  intros [[] ] Hi Hreg Ha.
  constructor; [constructor| | | |]; cbn [w_key_manager with_keys w_utxos]; try assumption;
    unfold w_address; cbn [w_key_manager with_keys]; rewrite Ha; assumption.
Qed.

(** The structural size of a transaction with temporal inputs. *)
Lemma signed_sizes root sh sel inputs :
  Forall2 (signed_under root sh) (map unsigned_input sel) inputs ->
  sumZ (map ti_size inputs) = (4348 * zlen sel)%Z.
Proof.
  revert inputs. induction sel as [|u sel IH]; intros inputs Hf.
  { by apply Forall2_nil_inv_l in Hf as ->. }
  apply Forall2_cons_inv_l in Hf as (i & inputs' & Hi & Hf & ->). simpl. rewrite (IH _ Hf).
  destruct Hi as (_ & _ & Hs & Hp & proof & Ep & Hl & _).
  unfold ti_size. rewrite Ep, sumZ_map_const. unfold zlen in *. rewrite Hs, Hp, Hl.
  cbn [length]. lia.
Qed.

(** Outputs, counts and times of a built transaction fit their fields. *)
Record build_ok (w : Wallet) (outputs : list TxOutput) (fee : Z) (now : float64) (ts : Z) : Prop := {
  bo_outputs : Forall (fun o => 0 <= to_value o < 2 ^ 64 /\ 0 <= to_lock_epoch o < 2 ^ 64 /\
                                zlen (to_data o) < 65536)%Z outputs;
  bo_count : length outputs <= 16;
  bo_epoch : (0 <= w_current_epoch w < 2 ^ 64)%Z;
  bo_now : to_ms now = Ok ts;
  bo_ts : (0 <= ts < 2 ^ 64)%Z;
  bo_fee : (0 <= fee < 2 ^ 64)%Z;
}.

Lemma unsigned_fit w v master n k r ty sel outputs fee now ts nonce :
  in_step w v master n k r -> Forall (spendable_in w) sel -> length sel <= USABLE_KEYS ->
  build_ok w outputs fee now ts ->
  fields_fit (mkTransaction 1 ty (map unsigned_input sel) outputs (w_current_epoch w) ts fee
                nonce None).
Proof.
  intros Hst Hsel Hlen [Ho Hc He _ Ht Hf]. unfold USABLE_KEYS, TOTAL_KEYS_PER_BATCH in Hlen.
  constructor; cbn [tx_version tx_inputs tx_outputs tx_epoch tx_timestamp tx_fee]; try assumption.
  - lia.
  - apply Forall_fmap. eapply Forall_impl; [exact Hsel|]. intros u (key & Hin & Hs & _).
    by destruct (is_utxos _ _ (is_coins _ _ _ _ _ _ Hst) key u Hin Hs) as (_ & Hidx & _).
  - unfold zlen. rewrite length_map. lia.
Qed.

Lemma build_signed_ok w v master n k r ty sel outputs fee now ts nonce :
  in_step w v master n k r -> Forall (spendable_in w) sel -> k + length sel <= USABLE_KEYS ->
  build_ok w outputs fee now ts ->
  exists km tx sh,
    build_signed w ty (map unsigned_input sel) outputs fee now nonce
      = (with_keys w km, Ok (Some tx)) /\
    in_step (with_keys w km) v master n (k + length sel) r /\
    tx = mkTransaction 1 ty (tx_inputs tx) outputs (w_current_epoch w) ts fee nonce None /\
    signing_hash tx = Ok sh /\
    Forall2 (signed_under (batch_root (batch_seed master n)) sh)
      (map unsigned_input sel) (tx_inputs tx).
Proof.
  intros Hst Hsel Hk Hb.
  destruct (signing_hash_ok _ (unsigned_fit w v master n k r ty sel outputs fee now ts nonce Hst Hsel
              ltac:(lia) Hb)) as (sh & Esh).
  unfold build_signed. rewrite (bo_now _ _ _ _ _ Hb). unfold sign_inputs. rewrite Esh.
  rewrite (is_registered_flag _ _ _ _ _ _ Hst). cbn [tx_inputs].
  destruct (sign_temporal_ok master n sh (map unsigned_input sel) k r (w_key_manager w))
    as (km & inputs & -> & Hi & Hreg & Haddr & Hf); [apply Hst|apply Hst|by rewrite length_map|].
  rewrite length_map in Hi.
  eexists km, _, sh. split; [reflexivity|]. split; [by eapply in_step_keys|].
  split; [reflexivity|]. split; [|exact Hf]. rewrite <- Esh. apply signing_hash_inputs; try reflexivity.
  cbn [tx_inputs with_inputs]. eapply Forall2_impl; [exact Hf|]. by intros i i' (-> & -> & _).
Qed.

End WalletLemmas.

(** ** Submitting and confirming *)

(** The parts of a wallet that tracking leaves alone. *)
Definition same_frame (w w' : Wallet) : Prop :=
  w_config w' = w_config w /\ w_key_manager w' = w_key_manager w /\
  w_current_epoch w' = w_current_epoch w.

Section Tracking.
Context `{Hashlib}.

#[export] Instance same_frame_preorder : PreOrder same_frame.
Proof.
  split; [by intros w|]. intros a b c (? & ? & ?) (? & ? & ?). repeat split; congruence.
Qed.

Lemma wallet_spend_spec w hh i h :
  dict_wf (w_utxos w) ->
  let w' := (wallet_spend_utxo w hh i h).1 in
  dict_wf (w_utxos w') /\ same_frame w w' /\ w_pending_txs w' = w_pending_txs w /\
  forall key u, (key, u) ∈ w_utxos w' -> u_is_spent u = false ->
    (key, u) ∈ w_utxos w /\ key <> (hh, i).
Proof.
  intros Hwf. unfold wallet_spend_utxo.
  destruct (dict_get (hh, i) (w_utxos w)) as [u0|] eqn:Eg.
  2:{ split; [done|]. split; [done|]. split; [done|]. intros key u Hin _. split; [done|].
      intros ->. apply (dict_get_elem _ _ _ Hwf) in Hin. congruence. }
  destruct (u_is_spent u0) eqn:Es; cbn [fst].
  { split; [done|]. split; [done|]. split; [done|]. intros key u Hin Hs. split; [done|].
    intros ->. apply (dict_get_elem _ _ _ Hwf) in Hin. congruence. }
  assert (Hwf' := dict_set_wf (hh, i) (mark_spent h u0) _ Hwf).
  split; [exact Hwf'|]. split; [done|]. split; [done|]. intros key u Hin Hs.
  cbn [with_utxos w_utxos] in Hin. apply (dict_get_elem _ _ _ Hwf') in Hin.
  destruct (decide (key = (hh, i))) as [->|Hne].
  - rewrite dict_get_set_eq in Hin. injection Hin as <-. done.
  - rewrite dict_get_set_ne in Hin by done. split; [by apply dict_get_elem|done].
Qed.

Lemma spend_fold_spec h inputs : forall w, dict_wf (w_utxos w) ->
  let w' := foldl (fun w inp =>
    (wallet_spend_utxo w (ti_prev_tx_hash inp) (ti_output_index inp) h).1) w inputs in
  dict_wf (w_utxos w') /\ same_frame w w' /\ w_pending_txs w' = w_pending_txs w /\
  forall key u, (key, u) ∈ w_utxos w' -> u_is_spent u = false ->
    (key, u) ∈ w_utxos w /\
    key ∉ map (fun i => (ti_prev_tx_hash i, ti_output_index i)) inputs.
Proof.
  induction inputs as [|inp inputs IH]; intros w Hwf; cbn [foldl map].
  { split; [done|]. split; [done|]. split; [done|]. intros key u Hin _. split; [done|].
    by intros ?%not_elem_of_nil. }
  destruct (wallet_spend_spec w (ti_prev_tx_hash inp) (ti_output_index inp) h Hwf)
    as (Hwf1 & Hf1 & Hp1 & Hin1).
  destruct (IH _ Hwf1) as (Hwf2 & Hf2 & Hp2 & Hin2). split; [done|].
  split; [by etrans|]. split; [congruence|]. intros key u Hin Hs.
  destruct (Hin2 key u Hin Hs) as [Hk Hni]. destruct (Hin1 key u Hk Hs) as [Hk' Hne].
  split; [done|]. by rewrite not_elem_of_cons.
Qed.

Lemma claim_outputs_spec tx h outputs : forall w i, tx_hash tx = Ok h ->
  dict_wf (w_utxos w) -> km_key_cache (w_key_manager w) = ∅ ->
  exists w', claim_outputs w tx i outputs = (w', Ok tt) /\
  dict_wf (w_utxos w') /\ same_frame w w' /\
  forall key u, (key, u) ∈ w_utxos w' ->
    (key, u) ∈ w_utxos w \/
    exists j out, outputs !! j = Some out /\ key = (h, i + Z.of_nat j)%Z /\
      u = mkUTXO h (i + Z.of_nat j) out (tx_epoch tx) false None /\ to_address out = w_address w.
Proof.
  induction outputs as [|out outputs IH]; intros w i Hh Hwf Hc; cbn [claim_outputs].
  { exists w. split; [done|]. split; [done|]. split; [done|]. by left. }
  assert (Hour : is_our_address w (to_address out) = false).
  { unfold is_our_address. by rewrite Hc, map_to_list_empty. }
  rewrite Hour, orb_false_r. destruct (bool_decide_reflect (to_address out = w_address w)) as [Ha|Ha].
  - rewrite Hh. destruct (IH (wallet_add_utxo w h i out (tx_epoch tx)) (i + 1)%Z Hh)
      as (w' & E & Hwf' & Hf & Hin); [by apply dict_set_wf|done|].
    exists w'. split; [exact E|]. split; [exact Hwf'|]. split; [exact Hf|].
    intros key u Hk. destruct (Hin key u Hk) as [Hk'|(j & o & Hj & -> & -> & Ho)].
    + cbn [wallet_add_utxo with_utxos w_utxos] in Hk'.
      apply dict_get_elem in Hk'; [|by apply dict_set_wf].
      destruct (decide (key = (h, i))) as [->|Hne].
      * rewrite dict_get_set_eq in Hk'. injection Hk' as <-. right. exists 0, out.
        rewrite Z.add_0_r. done.
      * rewrite dict_get_set_ne in Hk' by done. left. by apply dict_get_elem.
    + right. exists (S j), o. replace (i + Z.of_nat (S j))%Z with (i + 1 + Z.of_nat j)%Z by lia. done.
  - destruct (IH w (i + 1)%Z Hh Hwf Hc) as (w' & E & Hwf' & Hf & Hin).
    exists w'. split; [exact E|]. split; [exact Hwf'|]. split; [exact Hf|].
    intros key u Hk. destruct (Hin key u Hk) as [Hk'|(j & o & Hj & -> & -> & Ho)]; [by left|].
    right. exists (S j), o. replace (i + Z.of_nat (S j))%Z with (i + 1 + Z.of_nat j)%Z by lia. done.
Qed.

(** A transaction that the node applied and the wallet submitted and confirmed keeps the
    wallet's coins those of the node. *)
Lemma settle_coins w v v' tx h :
  coins_ok w v -> tx_hash tx = Ok h -> km_key_cache (w_key_manager w) = ∅ ->
  length (tx_outputs tx) <= 16 ->
  (forall j, utxos (v_utxo_set v) !! (h, j) = None) ->
  (forall j out, tx_outputs tx !! j = Some out -> utxos (v_utxo_set v') !! (h, Z.of_nat j) =
       Some (mkUTXO h (Z.of_nat j) out (tx_epoch tx) false None)) ->
  (forall k, k ∉ outpoints tx -> k.1 <> h ->
       utxos (v_utxo_set v') !! k = utxos (v_utxo_set v) !! k) ->
  exists w1 w2, submit_transaction w tx = (w1, Ok tt) /\ confirm_transaction w1 h = (w2, Ok tt) /\
    coins_ok w2 v' /\ same_frame w w2.
Proof.
  intros [Hwf Hu] Hh Hc Hlen Hfresh Hnew Hkeep. unfold submit_transaction. rewrite Hh.
  set (w0 := with_pending w (dict_set h tx (w_pending_txs w)) (w_tx_history w)).
  destruct (spend_fold_spec h (tx_inputs tx) w0 Hwf) as (Hwf1 & Hf1 & Hp1 & Hin1).
  set (w1 := foldl _ w0 (tx_inputs tx)) in *.
  assert (Hg : dict_get h (w_pending_txs w1) = Some tx) by (rewrite Hp1; apply dict_get_set_eq).
  unfold confirm_transaction. destruct Hf1 as (Hfc & Hfk & Hfe).
  destruct (claim_outputs_spec tx h (tx_outputs tx)
    (with_pending w1 (dict_del h (w_pending_txs w1)) (w_tx_history w1 ++ [h])) 0 Hh Hwf1)
    as (w2 & E & Hwf2 & (Hgc & Hgk & Hge) & Hin2).
  { cbn [with_pending w_key_manager]. by rewrite Hfk. }
  cbn [with_pending w_config w_key_manager w_current_epoch] in Hgc, Hgk, Hge.
  assert (Haddr : w_address w2 = w_address w) by (unfold w_address; by rewrite Hgk, Hfk).
  exists w1, w2. split; [done|]. rewrite Hg. split; [exact E|].
  split; [|exact (conj (eq_trans Hgc Hfc) (conj (eq_trans Hgk Hfk) (eq_trans Hge Hfe)))].
  constructor; [exact Hwf2|]. intros key u Hk Hs. rewrite Haddr.
  destruct (Hin2 key u Hk) as [Hk1|(j & out & Hj & -> & -> & Ha)].
  - cbn [with_pending w_utxos] in Hk1. destruct (Hin1 key u Hk1 Hs) as [Hk0 Hni].
    destruct (Hu key u Hk0 Hs) as (-> & Hidx & Had & u' & Hu' & Hs' & Ho).
    split; [done|]. split; [done|]. split; [done|]. exists u'. split; [|done].
    rewrite Hkeep; [done|exact Hni|]. simpl. intros Eh. rewrite Eh, Hfresh in Hu'. done.
  - rewrite Z.add_0_l. cbn [u_tx_hash u_output_index u_output]. split; [done|].
    pose proof (lookup_lt_Some _ _ _ Hj). split; [lia|]. split.
    + rewrite Ha. unfold w_address. cbn [with_pending w_key_manager]. by rewrite Hfk.
    + eexists. split; [by apply Hnew|]. done.
Qed.

End Tracking.

(** ** The packed key of a rotation *)

Lemma one_byte_bit d : (d = 0 \/ d = 1)%Z -> one_byte d = Ok [byte_of_Z d] /\ byte_val (byte_of_Z d) = d.
Proof. intros [-> | ->]; done. Qed.

Lemma pack_proof_ok proof :
  Forall step_wf proof -> exists pb, pack_proof proof = Ok pb /\ length pb = 33 * length proof /\
    forall pre fuel, length proof <= fuel ->
      parse_rotation_proof fuel (pre ++ pb) (length pre) = Ok proof.
Proof.
  induction 1 as [|[s d] proof [Hs Hd] _ (pb & IH1 & IH2 & IH3)].
  { exists []. split; [done|]. split; [done|]. intros pre fuel _. rewrite app_nil_r.
    destruct fuel; cbn [parse_rotation_proof]; by rewrite (proj2 (Nat.leb_gt _ _)) by lia. }
  cbn [fst snd] in Hs, Hd. destruct (one_byte_bit d Hd) as [Eb Ev].
  exists (s ++ [byte_of_Z d] ++ pb). cbn [pack_proof]. rewrite Eb, bind_Ok, IH1, bind_Ok.
  split; [done|]. split; [rewrite !length_app; cbn [length]; lia|].
  intros pre [|fuel] Hf; cbn [length] in Hf; [lia|]. cbn [parse_rotation_proof].
  rewrite (proj2 (Nat.leb_le _ _)) by (rewrite !length_app; cbn [length]; lia).
  replace (pre ++ s ++ [byte_of_Z d] ++ pb) with ((pre ++ s ++ [byte_of_Z d]) ++ pb)
    by (rewrite <- !app_assoc; done).
  replace (length pre + 33) with (length (pre ++ s ++ [byte_of_Z d]))
    by (rewrite !length_app; cbn [length]; lia).
  rewrite IH3 by lia. rewrite bind_Ok. f_equal. f_equal.
  rewrite <- !app_assoc. rewrite slice_mid by lia. f_equal.
  rewrite lookup_app_r, lookup_app_r by lia.
  replace (length pre + 32 - length pre - length s) with 0 by lia. exact Ev.
Qed.

(** What the wallet packs the validator unpacks. *)
Lemma pack_parse_rotation_key pub proof i :
  length pub = 2144 -> Forall step_wf proof -> length proof <= 1000 -> (0 <= i < 2 ^ 32)%Z ->
  exists pk, pack_rotation_key pub proof i = Ok pk /\ length pk = 2150 + 33 * length proof /\
    parse_rotation_key pk = Ok (inr (pub, proof, i)).
Proof.
  intros Hpub Hwf Hlen Hi. destruct (pack_proof_ok proof Hwf) as (pb & Epb & Lpb & Hparse).
  unfold pack_rotation_key. rewrite Epb, bind_Ok.
  assert (Hn : (0 <= zlen pb < 256 ^ Z.of_nat 2)%Z) by (unfold zlen; lia).
  rewrite (pack_uint_ok 2), bind_Ok, (pack_uint_ok 4), bind_Ok by (done || lia).
  eexists. split; [reflexivity|].
  split; [rewrite !length_app, !be_encode_length; lia|].
  unfold parse_rotation_key. change (67 * 32) with 2144.
  rewrite !length_app, !be_encode_length, Hpub.
  rewrite (proj2 (Nat.ltb_ge _ _)) by lia.
  rewrite (slice_prefix 2144) by done.
  rewrite (unpack_field 2), bind_Ok by (done || lia).
  assert (Z.to_nat (zlen pb) = length pb) as -> by (unfold zlen; lia).
  rewrite (proj2 (Nat.ltb_ge _ _)) by lia.
  rewrite !(app_assoc pub (be_encode 2 (zlen pb))).
  rewrite (slice_mid _ _ _ pb) by (rewrite ?length_app, ?be_encode_length; lia).
  rewrite !app_assoc, <- (app_nil_r (be_encode 4 i)).
  rewrite (unpack_field 4), bind_Ok by (rewrite ?length_app, ?be_encode_length; lia).
  pose proof (Hparse [] (length pb) ltac:(lia)) as E. cbn [app length] in E. by rewrite E, bind_Ok.
Qed.

(** ** Properties *)

Section WalletProperties.
Context `{Hashlib}.

Lemma values_sub w sel rest :
  Forall (fun kv => 0 <= to_value (u_output kv.2))%Z (w_utxos w) ->
  sel ++ rest ≡ₚ get_spendable_utxos w -> (0 <= values sel <= balance w)%Z.
Proof.
  intros Hv Hp. rewrite balance_values, <- Hp, values_app.
  assert (Hn : Forall (fun u => 0 <= utxo_value u)%Z (sel ++ rest)).
  { rewrite Hp. apply Forall_forall. intros u (key & Hin & _)%get_spendable_elem.
    rewrite Forall_forall in Hv. by apply Hv in Hin. }
  apply Forall_app in Hn as [Hn1 Hn2].
  assert (0 <= values sel)%Z by (apply sumZ_nonneg, Forall_fmap; exact Hn1).
  assert (0 <= values rest)%Z by (apply sumZ_nonneg, Forall_fmap; exact Hn2). lia.
Qed.

Lemma selection_spendable w sel rest :
  sel ++ rest ≡ₚ get_spendable_utxos w -> Forall (spendable_in w) sel.
Proof.
  intros Hp. apply Forall_forall. intros u Hu. apply get_spendable_elem. rewrite <- Hp.
  apply elem_of_app. by left.
Qed.

Lemma change_outputs_spec w change :
  let outs := change_outputs w change in
  (0 <= change < 2 ^ 64)%Z ->
  length outs <= 1 /\ Forall (fun o => 546 <= to_value o < 2 ^ 64 /\ to_lock_epoch o = 0 /\
                                       to_data o = [] /\ to_address o = w_address w)%Z outs /\
  (sumZ (map to_value outs) <= change < sumZ (map to_value outs) + 546)%Z.
Proof.
  unfold change_outputs, DUST_THRESHOLD. intros Hc. destruct (Z.leb_spec 546 change); simpl.
  - split; [done|]. split; [repeat constructor; simpl; lia|lia].
  - split; [lia|]. split; [constructor|lia].
Qed.

(** The structural check on a built transaction, in arithmetic. *)
Lemma built_structure w v master n k r ty sel outputs fee now ts nonce inputs sh root :
  in_step w v master n k r -> ty <> COINBASE -> sel <> [] ->
  build_ok w outputs fee now ts -> outputs <> [] ->
  Forall (fun o => 546 <= to_value o \/ to_value o = 0)%Z outputs ->
  Forall2 (signed_under root sh) (map unsigned_input sel) inputs ->
  let size := (36 + 4348 * zlen sel + sumZ (map to_size outputs))%Z in
  (is_valid_structure (mkTransaction 1 ty inputs outputs (w_current_epoch w) ts fee nonce None)).1
    = true <->
  (length sel <= 16 /\ (size <= 65536)%Z /\ (size <= fee)%Z).
Proof.
  intros Hst Hty Hsel Hb Hout Hdust Hf size.
  destruct (is_valid_structure_iff (mkTransaction 1 ty inputs outputs (w_current_epoch w) ts fee
              nonce None)) as [-> _].
  unfold tx_size. cbn [tx_version tx_inputs tx_outputs tx_type tx_fee].
  rewrite (signed_sizes _ _ _ _ Hf). fold size.
  pose proof (Forall2_length _ _ _ Hf) as Hlen. rewrite length_map in Hlen. rewrite <- Hlen.
  assert (Hne : inputs <> []) by (intros ->; by destruct sel).
  assert (Ho : 1 <= length outputs) by (destruct outputs; [done|simpl; lia]).
  replace (1 + 1 + 1 + 1 + 8 + 8 + 8 + 8 + 4348 * zlen sel + sumZ (map to_size outputs))%Z
    with size by (unfold size; lia).
  pose proof (bo_count _ _ _ _ _ Hb). split.
  - intros (_ & _ & ? & _ & ? & _ & [?|?]); [lia|done].
  - intros (? & ? & ?). split; [done|]. split; [by left|]. split; [lia|]. split; [lia|].
    split; [done|]. split; [done|by left].
Qed.

(** Accepted inputs name distinct outputs. *)
Lemma selected_outpoints_NoDup w v master n k r sel rest root sh inputs :
  in_step w v master n k r -> sel ++ rest ≡ₚ get_spendable_utxos w ->
  Forall2 (signed_under root sh) (map unsigned_input sel) inputs ->
  NoDup (map (fun i => (ti_prev_tx_hash i, ti_output_index i)) inputs).
Proof.
  intros Hst Hp Hf.
  assert (map (fun i => (ti_prev_tx_hash i, ti_output_index i)) inputs = map outpoint_of sel) as ->.
  { revert inputs Hf. clear. induction sel as [|u sel IH]; intros inputs Hf.
    - by apply Forall2_nil_inv_l in Hf as ->.
    - apply Forall2_cons_inv_l in Hf as (i & inputs' & (E1 & E2 & _) & Hf & ->).
      simpl. rewrite (IH _ Hf), E1, E2. done. }
  pose proof (spendable_outpoints_NoDup _ _ _ _ _ _ Hst) as Hnd. rewrite <- Hp, map_app in Hnd.
  by apply NoDup_app in Hnd as (Hnd & _).
Qed.

(** A transfer over spendable outputs is accepted exactly when it has at most 11 inputs. *)
Lemma transfer_validity w v master n k r sel amount recipient change now ts nonce tx sh :
  in_step w v master n k r -> Forall (spendable_in w) sel ->
  build_ok w (mkTxOutput amount recipient 0 [] :: change) 48580 now ts ->
  length change <= 1 -> Forall (fun o => 546 <= to_value o /\ to_data o = [])%Z change -> (546 <= amount)%Z ->
  tx = mkTransaction 1 TRANSFER (tx_inputs tx) (mkTxOutput amount recipient 0 [] :: change)
         (w_current_epoch w) ts 48580 nonce None ->
  signing_hash tx = Ok sh ->
  Forall2 (signed_under (batch_root (batch_seed master n)) sh) (map unsigned_input sel) (tx_inputs tx) ->
  (total_output tx + tx_fee tx <= values sel)%Z ->
  validate_transaction v tx (tx_epoch tx) = Ok (true, "valid") <-> length sel <= 11.
Proof.
  intros Hst Hsel Hb Hc1 Hc2 Hamount Etx Esh Hf Hval.
  assert (Hne : sel <> []).
  { intros ->. rewrite values_nil, Etx in Hval. unfold total_output in Hval.
    cbn [tx_outputs tx_fee map sumZ foldr to_value] in Hval.
    assert (0 <= foldr Z.add 0 (map to_value change))%Z; [|lia].
    clear -Hc2. induction Hc2 as [|o l [] _ IH]; cbn [map foldr]; lia. }
  assert (Hsizes : (82 <= sumZ (map to_size (mkTxOutput amount recipient 0 [] :: change)) <= 164)%Z).
  { simpl. change (to_size (mkTxOutput amount recipient 0 [])) with 82%Z.
    destruct change as [|c [|]]; simpl in *; [lia| |lia].
    apply Forall_cons in Hc2 as [[_ Hd] _]. unfold to_size. rewrite Hd. unfold zlen. simpl. lia. }
  assert (Hdust : Forall (fun o => 546 <= to_value o \/ to_value o = 0)%Z
                    (mkTxOutput amount recipient 0 [] :: change)).
  { constructor; [by left|]. eapply Forall_impl; [exact Hc2|]. intros o (? & _). by left. }
  pose proof (built_structure w v master n k r TRANSFER sel _ _ _ _ nonce (tx_inputs tx) sh _ Hst
    ltac:(done) Hne Hb ltac:(done) Hdust Hf) as Hstr. cbv zeta in Hstr. rewrite <- Etx in Hstr.
  unfold validate_transaction. destruct (is_valid_structure tx) as [ok reason] eqn:Eok. cbn [fst] in Hstr.
  assert (Hiff : ok = true <-> length sel <= 11) by (rewrite Hstr; unfold zlen in *; lia).
  destruct ok; cbn [negb].
  2:{ split; [done|]. intros Hle. by apply Hiff in Hle. }
  split; [by intros _; apply Hiff|]. intros _.
  rewrite Z.ltb_irrefl, (proj2 (Z.ltb_ge _ _)) by lia. unfold validate_by_type.
  assert (tx_type tx = TRANSFER) as -> by (by rewrite Etx). assert (Hep : tx_epoch tx = w_current_epoch w) by (by rewrite Etx).
  apply validate_transfer_iff. split; [done|]. exists sh, (map utxo_value sel).
  split; [exact Esh|]. rewrite Hep. split; [by eapply signed_inputs_ok|]. exact Hval.
Qed.

(** C9. A transfer built by a registered wallet in step with a node, at the default fee rate and
    with enough funds and keys, pays the amount to the recipient, returns the change (less at
    most a dust remainder) and leaves the wallet in step.  The node accepts it exactly when at
    most 11 outputs were selected: the fee is computed for one input, and from 12 inputs on it
    is below the node's minimum. *)
Theorem transfer_accepted (w : Wallet) (v : Validator) (master : bytes) (n k r : nat)
    (recipient nonce : bytes) (amount : Z) (now : float64) (ts : Z)
    (Hst : in_step w v master n k r) (Hrate : wc_fee_rate (w_config w) = 10%Z)
    (Hamount : (546 <= amount)%Z) (Hfunds : (amount + 48580 <= balance w)%Z)
    (Hmax : (balance w < 2 ^ 64)%Z)
    (Hvalues : Forall (fun kv => 0 <= to_value (u_output kv.2))%Z (w_utxos w))
    (Hepoch : (0 <= w_current_epoch w < 2 ^ 64)%Z) (Hnow : to_ms now = Ok ts)
    (Hts : (0 <= ts < 2 ^ 64)%Z)
    (Hkeys : k + length (select_utxos w amount 48580).1 <= 1022) :
  let sel := (select_utxos w amount 48580).1 in
  exists w' tx change, create_transfer w recipient amount None now nonce = (w', Ok (Some tx)) /\
    tx_type tx = TRANSFER /\ tx_fee tx = 48580%Z /\
    tx_outputs tx = mkTxOutput amount recipient 0 [] :: change /\
    Forall (fun o => to_address o = w_address w) change /\
    (total_output tx + tx_fee tx <= values sel < total_output tx + tx_fee tx + 546)%Z /\
    NoDup (outpoints tx) /\ in_step w' v master n (k + length sel) r /\
    (validate_transaction v tx (w_current_epoch w) = Ok (true, "valid") <-> length sel <= 11).
Proof.
  unfold create_transfer, DUST_THRESHOLD. rewrite (proj2 (Z.ltb_ge _ _) Hamount), Hrate.
  change ((50 + (2144 + 2144 + 320 + 40) + 2 * 80) * 10)%Z with 48580%Z. cbv zeta.
  pose proof (select_utxos_sound w amount 48580) as Hs.
  destruct (select_utxos w amount 48580) as [sel total]. destruct Hs as ((rest & Hp) & -> & Henough).
  specialize (Henough Hfunds). cbn [fst] in *. rewrite (proj2 (Z.ltb_ge _ _) Henough).
  destruct (values_sub w sel rest Hvalues Hp) as [Hv0 Hv1].
  set (change := change_outputs w (values sel - amount - 48580)).
  destruct (change_outputs_spec w (values sel - amount - 48580) ltac:(lia)) as (Hc1 & Hc2 & Hc3).
  fold change in Hc1, Hc2, Hc3.
  assert (Hb : build_ok w (mkTxOutput amount recipient 0 [] :: change) 48580 now ts).
  { constructor; try assumption; [|simpl; lia|lia]. constructor; [cbn [to_value to_lock_epoch to_data length]; unfold zlen; cbn [length]; lia|].
    eapply Forall_impl; [exact Hc2|]. intros o (? & -> & -> & _). unfold zlen. simpl. lia. }
  pose proof (selection_spendable w sel rest Hp) as Hsel.
  destruct (build_signed_ok w v master n k r TRANSFER sel _ _ _ _ nonce Hst Hsel Hkeys Hb)
    as (km & tx & sh & -> & Hst' & Etx & Esh & Hf).
  assert (Htot : total_output tx = (amount + sumZ (map to_value change))%Z) by (by rewrite Etx).
  exists (with_keys w km), tx, change. split; [reflexivity|].
  assert (Htf : tx_fee tx = 48580%Z) by (by rewrite Etx).
  assert (Hty : tx_type tx = TRANSFER) by (by rewrite Etx).
  assert (Hep : tx_epoch tx = w_current_epoch w) by (by rewrite Etx).
  assert (Hou : tx_outputs tx = mkTxOutput amount recipient 0 [] :: change) by (by rewrite Etx).
  rewrite Htot, Htf, Hou.
  split; [done|]. split; [done|]. split; [done|].
  split; [eapply Forall_impl; [exact Hc2|]; by intros o (_ & _ & _ & ?)|].
  split; [lia|]. split; [by eapply selected_outpoints_NoDup|]. split; [exact Hst'|].
  rewrite <- Hep. apply (transfer_validity w v master n k r sel amount recipient change now ts nonce tx sh); try done.
  - eapply Forall_impl; [exact Hc2|]. intros o (? & _ & ? & _). split; [lia|done].
  - rewrite Htot, Htf. lia.
Qed.

(** A selection that one output satisfies consists of the largest one. *)
Lemma select_single w target fee u :
  spendable_in w u -> (target + fee <= to_value (u_output u))%Z ->
  exists u0, select_utxos w target fee = ([u0], to_value (u_output u0)) /\ spendable_in w u0 /\
    (target + fee <= to_value (u_output u0))%Z.
Proof.
  intros Hu Hle. unfold select_utxos. pose proof (sort_by_value_perm (get_spendable_utxos w)) as Hp.
  pose proof (sort_by_value_sorted (get_spendable_utxos w)) as Hs.
  apply get_spendable_elem in Hu. rewrite <- Hp in Hu.
  destruct (sort_by_value (get_spendable_utxos w)) as [|u0 l]; [by apply not_elem_of_nil in Hu|].
  assert (H0 : (to_value (u_output u) <= to_value (u_output u0))%Z).
  { apply elem_of_cons in Hu as [->|Hu]; [lia|]. inversion Hs as [|? ? _ Hall]; subst.
    rewrite Forall_forall in Hall. by apply Hall. }
  exists u0. cbn [select_loop]. rewrite Z.add_0_l, (proj2 (Z.leb_le _ _)) by lia.
  split; [done|]. split; [|lia]. apply get_spendable_elem. rewrite <- Hp. by left.
Qed.

Lemma fold_proof_length proof x : length x = 32 -> length (foldl proof_step x proof) = 32.
Proof.
  revert x. induction proof as [|[s d] proof IH]; intros x Hx; [done|]. simpl. apply IH.
  destruct (negb _); apply sha3_256_length.
Qed.

Lemma batch_root_length seed : length (batch_root seed) = 32.
Proof.
  destruct (fresh_tree seed) as (t & _ & (tree & _ & _ & Hs)).
  destruct (Hs 0 0 [] 0) as (s & _ & _ & Hv & _); [unfold TOTAL_KEYS_PER_BATCH; lia|].
  apply verify_against_root_inv in Hv as [_ Hv].
  rewrite verify_proof_digest in Hv by apply sha3_256_length.
  apply bool_decide_eq_true in Hv. rewrite <- Hv. apply fold_proof_length, sha3_256_length.
Qed.

(** Preparing a rotation keeps the wallet in step. *)
Lemma in_step_prepared w v master n k r t :
  in_step w v master n k r -> live_tree (batch_seed master (S n)) 0 0 t ->
  in_step (with_keys w (with_next (w_key_manager w)
    (Some (batch_seed master (S n), t, PBytes (batch_root (batch_seed master (S n)))))))
    v master n k r.
Proof.
  intros Hst Ht. eapply in_step_keys; [exact Hst| |apply Hst|done].
  apply with_next_inv; [apply Hst|exact Ht].
Qed.

(** What validation of a rotation checks, on the transaction the wallet builds. *)
Lemma validate_rotate_ok v tx e sh u u' root_old root_new outs sg pk pub proof idx :
  tx_inputs tx = [mkTxInput (u_tx_hash u) (u_output_index u) sg pk None (-1)] ->
  tx_outputs tx = mkTxOutput 0 (to_address (u_output u')) 0 root_new :: outs ->
  length root_new = 32 ->
  utxos (v_utxo_set v) !! outpoint_of u = Some u' -> u_is_spent u' = false ->
  (to_lock_epoch (u_output u') <= e)%Z ->
  is_registered (v_auth_registry v) (to_address (u_output u')) = true ->
  get_auth_root (v_auth_registry v) (to_address (u_output u')) = Some root_old ->
  parse_rotation_key pk = Ok (inr (pub, proof, idx)) -> (1022 <= idx)%Z ->
  signing_hash tx = Ok sh -> verify_against_root sh sg pub proof root_old = true ->
  (total_output tx + tx_fee tx <= to_value (u_output u'))%Z ->
  validate_rotate_auth v tx e = Ok (true, "valid").
Proof.
  intros Ei Eo Hl Hu Hs Hlock Hreg Hroot Hpk Hidx Esh Hv Hval.
  unfold validate_rotate_auth. rewrite Ei, Eo. cbn [to_data ti_prev_tx_hash ti_output_index ti_public_key ti_signature].
  unfold zlen. rewrite Hl. cbn [Z.of_nat negb Z.eqb]. change (Z.of_nat 32 =? 32)%Z with true. cbn [negb].
  unfold get_utxo, outpoint_of in *. rewrite Hu, Hs, (proj2 (Z.ltb_ge _ _)) by lia.
  rewrite Hreg. cbn [negb]. rewrite Hpk, bind_Ok, Esh, bind_Ok, Hroot, Hv. cbn [negb].
  by rewrite (proj2 (Z.ltb_ge _ _)), (proj2 (Z.ltb_ge _ _)) by lia.
Qed.

(** The rotation transaction: one input, the largest output, signed with a rotation key; the
    prepared batch waits in the key manager. *)
Lemma create_rotation_ok w v master n k r nonce now ts u :
  in_step w v master n k r -> r < 2 -> wc_fee_rate (w_config w) = 10%Z ->
  spendable_in w u -> (45940 <= to_value (u_output u))%Z ->
  Forall (fun kv => to_value (u_output kv.2) < 2 ^ 64)%Z (w_utxos w) ->
  (0 <= w_current_epoch w < 2 ^ 64)%Z -> to_ms now = Ok ts -> (0 <= ts < 2 ^ 64)%Z ->
  exists km tx sh u0 s pk change next,
    create_rotation_tx w None now nonce = (with_keys w km, Ok (Some tx)) /\
    tx = mkTransaction 1 ROTATE_AUTH
           [mkTxInput (u_tx_hash u0) (u_output_index u0) (as_signature s) pk None (-1)]
           (mkTxOutput 0 (w_address w) 0 (batch_root (batch_seed master (S n))) :: change)
           (w_current_epoch w) ts 45940 nonce None /\
    signing_hash tx = Ok sh /\ spendable_in w u0 /\
    length change <= 1 /\ Forall (fun o => 546 <= to_value o /\ to_data o = [])%Z change /\
    (sumZ (map to_value change) + 45940 <= to_value (u_output u0))%Z /\
    verify_against_root sh (as_signature s) (as_public_key s) (as_proof s)
      (batch_root (batch_seed master n)) = true /\
    length (as_signature s) = 2144 /\ length pk = 2480 /\
    parse_rotation_key pk = Ok (inr (as_public_key s, as_proof s, Z.of_nat (1022 + r))) /\
    km_inv master n k (S r) km /\ km_next km = Some next /\ km_is_registered km = true /\
    km_address km = w_address w /\ km_key_cache km = km_key_cache (w_key_manager w).
Proof.
  intros Hst Hr Hrate Hu Hfee Hmax Hepoch Hnow Hts.
  destruct (prepare_rotation_ok _ _ _ _ _ (is_keys _ _ _ _ _ _ Hst)) as (t & Eprep & Ht).
  cbv zeta in Eprep, Ht. set (root := batch_root (batch_seed master (S n))) in *.
  pose proof (in_step_prepared w v master n k r t Hst Ht) as Hst1. fold root in Hst1.
  set (km1 := with_next (w_key_manager w) _) in *. set (w1 := with_keys w km1) in *.
  destruct (select_single w1 0 45940 u Hu Hfee) as (u0 & Esel & Hu0 & Hfee0).
  pose proof Hu0 as (key & Hin & Hs & Hlock).
  destruct (is_utxos _ _ (is_coins _ _ _ _ _ _ Hst1) key u0 Hin Hs) as (Ekey & Hidx & Haddr & u' & Hu' & Hs' & Eo).
  assert (Hv0 : (to_value (u_output u0) < 2 ^ 64)%Z).
  { rewrite Forall_forall in Hmax. by apply (Hmax (key, u0)). }
  set (change := change_outputs w1 (to_value (u_output u0) - 45940)).
  destruct (change_outputs_spec w1 (to_value (u_output u0) - 45940) ltac:(lia)) as (Hc1 & Hc2 & Hc3).
  fold change in Hc1, Hc2, Hc3.
  pose proof (batch_root_length (batch_seed master (S n))) as Hl. fold root in Hl.
  set (outs := mkTxOutput 0 (w_address w1) 0 root :: change).
  assert (Hb : build_ok w1 outs 45940 now ts).
  { constructor; try assumption; [|unfold outs; cbn [length]; lia|lia]. constructor.
    - cbn [to_value to_lock_epoch to_data]. unfold zlen. rewrite Hl. lia.
    - eapply Forall_impl; [exact Hc2|]. intros o (? & -> & -> & _). unfold zlen. cbn [length]. lia. }
  destruct (signing_hash_ok _ (unsigned_fit w1 v master n k r ROTATE_AUTH [u0] outs 45940 now ts nonce Hst1
     ltac:(by repeat constructor) ltac:(unfold USABLE_KEYS, TOTAL_KEYS_PER_BATCH, RESERVED_ROTATION; cbn [length]; lia) Hb))
    as (sh & Esh).
  destruct (temporal_sign_rotation_ok _ _ _ _ km1 sh (is_keys _ _ _ _ _ _ Hst1)
     (is_registered_flag _ _ _ _ _ _ Hst1) Hr) as (t2 & s & Esig & Hi2 & Hidx2 & Hver & (Hsl & Hpl & Hprl & Hwf & _)).
  destruct (pack_parse_rotation_key (as_public_key s) (as_proof s) (Z.of_nat (as_key_index s)) Hpl Hwf)
    as (pk & Epk & Lpk & Hparse); [lia|rewrite Hidx2; unfold USABLE_KEYS, TOTAL_KEYS_PER_BATCH, RESERVED_ROTATION; lia|].
  set (tx0 := mkTransaction 1 ROTATE_AUTH [unsigned_input u0] outs (w_current_epoch w1) ts 45940 nonce None).
  set (tx := with_inputs tx0 [mkTxInput (u_tx_hash u0) (u_output_index u0) (as_signature s) pk None (-1)]).
  assert (Etx : create_rotation_tx w None now nonce = (with_keys w (with_tree km1 t2), Ok (Some tx))).
  { unfold create_rotation_tx. rewrite (is_registered_flag _ _ _ _ _ _ Hst). cbn [negb].
    rewrite Eprep. fold root km1 w1. change (w_config w1) with (w_config w). rewrite Hrate.
    change ((50 + 4400 + 80 + 64) * 10)%Z with 45940%Z. rewrite Esel.
    rewrite (proj2 (Z.ltb_ge _ _)) by lia. cbn [bytes_arg]. rewrite bind_Ok, Hnow, bind_Ok.
    fold change outs tx0. cbn [map] in Esh. fold tx0 in Esh. rewrite Esh, bind_Ok.
    cbn [w_key_manager w1 with_keys]. rewrite Esig, bind_Ok, Epk, bind_Ok. done. }
  assert (Eh : signing_hash tx = Ok sh).
  { rewrite <- Esh. apply signing_hash_inputs; try reflexivity. by repeat constructor. }
  eexists _, tx, sh, u0, s, pk, change, _. split; [exact Etx|]. split; [reflexivity|].
  split; [exact Eh|]. split; [exact Hu0|]. split; [exact Hc1|].
  split; [eapply Forall_impl; [exact Hc2|]; intros o (? & _ & ? & _); split; [lia|done]|].
  split; [lia|]. split; [exact Hver|]. split; [exact Hsl|]. split; [by rewrite Lpk, Hprl|].
  split; [by rewrite Hparse, Hidx2|]. split; [exact Hi2|]. split; [reflexivity|].
  split; [exact (is_registered_flag _ _ _ _ _ _ Hst)|]. by split.
Qed.

(** The node accepts such a rotation. *)
Lemma rotation_valid v tx e sh u0 u' root_old root_new sg pk pub proof r change addr ts nonce :
  tx = mkTransaction 1 ROTATE_AUTH [mkTxInput (u_tx_hash u0) (u_output_index u0) sg pk None (-1)]
         (mkTxOutput 0 addr 0 root_new :: change) e ts 45940 nonce None ->
  utxos (v_utxo_set v) !! outpoint_of u0 = Some u' -> u_is_spent u' = false ->
  u_output u' = u_output u0 -> to_address (u_output u0) = addr ->
  (to_lock_epoch (u_output u0) <= e)%Z -> length root_new = 32 ->
  is_registered (v_auth_registry v) addr = true ->
  get_auth_root (v_auth_registry v) addr = Some root_old ->
  parse_rotation_key pk = Ok (inr (pub, proof, Z.of_nat (1022 + r))) ->
  length sg = 2144 -> length pk = 2480 ->
  signing_hash tx = Ok sh -> verify_against_root sh sg pub proof root_old = true ->
  length change <= 1 -> Forall (fun o => 546 <= to_value o /\ to_data o = [])%Z change ->
  (sumZ (map to_value change) + 45940 <= to_value (u_output u0))%Z ->
  validate_transaction v tx e = Ok (true, "valid").
Proof.
  intros Etx Hu Hs Eo Ha Hlock Hl Hreg Hroot Hpk Hsg Hlpk Esh Hv Hc1 Hc2 Hc3.
  assert (Hstr : (is_valid_structure tx).1 = true).
  { apply is_valid_structure_iff. unfold tx_size. rewrite Etx.
    cbn [tx_version tx_inputs tx_outputs tx_type tx_fee map sumZ foldr length].
    unfold ti_size. cbn [ti_signature ti_public_key ti_auth_proof]. unfold to_size at 1 3.
    cbn [to_data]. unfold zlen. rewrite Hsg, Hlpk, Hl.
    assert (Hsz : (0 <= foldr Z.add 0 (map to_size change) <= 82)%Z).
    { destruct change as [|c [|]]; cbn [map foldr length] in *; [lia| |lia].
      apply Forall_cons in Hc2 as [[_ Hd] _]. unfold to_size, zlen. rewrite Hd. cbn [length]. lia. }
    split; [done|]. split; [by left|]. split; [lia|]. split; [lia|]. split; [lia|]. split; [|lia].
    constructor; [by right|]. eapply Forall_impl; [exact Hc2|]. intros o [? _]. by left. }
  unfold validate_transaction. destruct (is_valid_structure tx) as [ok reason]. cbn [fst] in Hstr.
  rewrite Hstr. cbn [negb].
  assert (Ee : tx_epoch tx = e) by (by rewrite Etx). rewrite Ee, Z.ltb_irrefl, (proj2 (Z.ltb_ge _ _)) by lia.
  assert (Ety : tx_type tx = ROTATE_AUTH) by (by rewrite Etx).
  unfold validate_by_type. rewrite Ety.
  rewrite <- Eo in Ha, Hlock, Hc3. subst addr.
  eapply validate_rotate_ok; try eassumption; try (by rewrite Etx). lia.
Qed.

Lemma coins_ok_keys w v km :
  coins_ok w v -> km_address km = w_address w -> coins_ok (with_keys w km) v.
Proof.
  intros [Hwf Hu] Ha. constructor; [exact Hwf|]. cbn [with_keys w_utxos].
  unfold w_address at 1. cbn [with_keys w_key_manager]. rewrite Ha. exact Hu.
Qed.

Lemma rotate_registered reg a root :
  is_registered reg a = true -> is_registered (rotate_via_tx reg a root).1 a = true.
Proof.
  unfold is_registered, rotate_via_tx. intros Hr. rewrite Hr. cbn [negb fst registered_addresses]. exact Hr.
Qed.

Lemma rotate_root reg a root :
  is_registered reg a = true -> get_auth_root (rotate_via_tx reg a root).1 a = Some root.
Proof.
  unfold is_registered, get_auth_root, rotate_via_tx. intros ->. cbn [negb fst auth_roots].
  apply lookup_insert_eq.
Qed.

Lemma register_registered reg a root :
  is_registered reg a = false -> is_registered (register_via_tx reg a root).1 a = true.
Proof.
  unfold is_registered, register_via_tx. intros ->. cbn [fst registered_addresses].
  apply bool_decide_eq_true. set_solver.
Qed.

Lemma register_root reg a root :
  is_registered reg a = false -> get_auth_root (register_via_tx reg a root).1 a = Some root.
Proof.
  unfold is_registered, get_auth_root, register_via_tx. intros ->. cbn [fst auth_roots].
  apply lookup_insert_eq.
Qed.

(** Applying a rotation registers the root it carries for the address of the spent output. *)
Lemma rotation_registry v v' tx u0 u' addr sg pk root e ts nonce change h :
  tx = mkTransaction 1 ROTATE_AUTH [mkTxInput (u_tx_hash u0) (u_output_index u0) sg pk None (-1)]
         (mkTxOutput 0 addr 0 root :: change) e ts 45940 nonce None ->
  length root = 32 -> utxos (v_utxo_set v) !! outpoint_of u0 = Some u' -> to_address (u_output u') = addr ->
  (forall k, k ∈ outpoints tx ->
     exists u, utxos (v_utxo_set v) !! k = Some u /\ utxos (v_utxo_set v') !! k = Some (mark_spent h u)) ->
  apply_transaction v tx = (v', Ok true) ->
  v_auth_registry v' = (rotate_via_tx (v_auth_registry v) addr root).1.
Proof.
  intros Etx Hl Hu' Ha Hspent Eapp. pose proof (apply_transaction_registry v tx v' Eapp) as Hr.
  rewrite Etx in Hr. cbn [tx_type] in Hr.
  destruct Hr as (out0 & outs & inp & ins & u2 & [= <- <-] & [= <- <-] & Hu2 & ->).
  destruct (Hspent (outpoint_of u0)) as (u3 & Hu3 & Hm); [rewrite Etx; by left|].
  unfold outpoint_of in Hu', Hu3, Hm. rewrite Hu' in Hu3. injection Hu3 as <-. cbn [ti_prev_tx_hash ti_output_index] in Hu2.
  rewrite Hm in Hu2. injection Hu2 as <-. cbn [mark_spent u_output to_data]. rewrite Ha.
  rewrite <- (app_nil_r root) at 1. by rewrite slice_prefix.
Qed.

(** C12. The rotation protocol.  A registered wallet in step with a node that has a rotation key
    left and an output worth the fee builds a rotation that the node accepts; once the node has
    applied it and the wallet has submitted, confirmed and switched, the wallet holds the next
    batch, with all its keys, and is again in step: the node's root is the new batch's. *)
Theorem rotation_protocol (w : Wallet) (v : Validator) (master : bytes) (n k r : nat)
    (nonce : bytes) (now : float64) (ts : Z) (u : UTXO)
    (Hst : in_step w v master n k r) (Hr : r < 2) (Hrate : wc_fee_rate (w_config w) = 10%Z)
    (Hcache : km_key_cache (w_key_manager w) = ∅)
    (Hu : spendable_in w u) (Hfee : (45940 <= to_value (u_output u))%Z)
    (Hmax : Forall (fun kv => to_value (u_output kv.2) < 2 ^ 64)%Z (w_utxos w))
    (Hepoch : (0 <= w_current_epoch w < 2 ^ 64)%Z) (Hnow : to_ms now = Ok ts)
    (Hts : (0 <= ts < 2 ^ 64)%Z) :
  exists w1 tx h, create_rotation_tx w None now nonce = (w1, Ok (Some tx)) /\
    validate_transaction v tx (w_current_epoch w) = Ok (true, "valid") /\ tx_hash tx = Ok h /\
    ((forall j, utxos (v_utxo_set v) !! (h, j) = None) ->
     exists v' w2 w3 w4, apply_transaction v tx = (v', Ok true) /\
       submit_transaction w1 tx = (w2, Ok tt) /\ confirm_transaction w2 h = (w3, Ok tt) /\
       confirm_rotation w3 = (w4, Ok tt) /\ in_step w4 v' master (S n) 0 0).
Proof.
  destruct (create_rotation_ok w v master n k r nonce now ts u Hst Hr Hrate Hu Hfee Hmax Hepoch Hnow Hts)
    as (km & tx & sh & u0 & s & pk & change & next & Ecreate & Etx & Esh & Hu0 & Hc1 & Hc2 & Hc3 &
        Hver & Hsl & Hpl & Hparse & Hi & Hnext & Hreg & Haddr & Hcc).
  pose proof Hu0 as (key & Hin & Hs & Hlock).
  destruct (is_utxos _ _ (is_coins _ _ _ _ _ _ Hst) key u0 Hin Hs) as (-> & Hidx & Ha & u' & Hu' & Hs' & Eo).
  exists (with_keys w km), tx, sh. split; [exact Ecreate|].
  assert (Hval : validate_transaction v tx (w_current_epoch w) = Ok (true, "valid")).
  { exact (rotation_valid v tx _ sh u0 u' _ _ _ pk _ _ r change _ ts nonce Etx Hu' Hs' Eo Ha Hlock
      (batch_root_length _) (is_reg _ _ _ _ _ _ Hst) (is_root _ _ _ _ _ _ Hst) Hparse Hsl Hpl Esh
      Hver Hc1 Hc2 Hc3). }
  assert (Hh : tx_hash tx = Ok sh).
  { assert (Hc : tx_cached tx = None) by (by rewrite Etx). unfold tx_hash. by rewrite Hc. }
  split; [exact Hval|]. split; [exact Hh|]. intros Hfresh.
  assert (Hout : tx_outputs tx = mkTxOutput 0 (w_address w) 0 (batch_root (batch_seed master (S n)))
                                   :: change) by (by rewrite Etx).
  assert (Hop : outpoints tx = [outpoint_of u0]) by (by rewrite Etx).
  assert (Hiv : input_values (v_utxo_set v) (tx_inputs tx) [to_value (u_output u')]).
  { rewrite Etx. constructor; [by exists u'|constructor]. }
  assert (Hin0 : tx_inputs tx <> []) by (by rewrite Etx).
  destruct (apply_transaction_ok v tx sh [to_value (u_output u')] Hh) as (v' & Eapp & _ & Hspent & Hnew & Hkeep);
    [by rewrite Hout|by intros _|exact Hiv|rewrite Hop; apply NoDup_singleton|exact Hfresh|].
  assert (Hroot : v_auth_registry v' = (rotate_via_tx (v_auth_registry v) (w_address w)
                    (batch_root (batch_seed master (S n)))).1).
  { apply (rotation_registry v v' tx u0 u' _ (as_signature s) pk _ _ ts nonce change sh Etx (batch_root_length _) Hu');
      [by rewrite Eo|exact Hspent|exact Eapp]. }
  destruct (settle_coins (with_keys w km) v v' tx sh) as (w2 & w3 & E2 & E3 & Hcoins & Hframe);
    [apply coins_ok_keys; [apply Hst|exact Haddr]|exact Hh|exact (eq_trans Hcc Hcache)
    |rewrite Hout; cbn [length]; lia
    |exact Hfresh|exact Hnew|exact Hkeep|].
  destruct Hframe as (_ & Hk3 & _). cbn [with_keys w_key_manager] in Hk3.
  destruct (execute_rotation_ok _ _ _ _ _ _ Hi Hnext) as (km' & Eex & Hi' & Hreg' & Haddr').
  exists v', w2, w3, (with_keys w3 km'). split; [exact Eapp|]. split; [exact E2|]. split; [exact E3|].
  split; [unfold confirm_rotation; by rewrite Hk3, Eex|].
  assert (Ha' : w_address (with_keys w3 km') = w_address w)
    by (unfold w_address at 1; cbn [with_keys w_key_manager]; congruence).
  constructor.
  - apply coins_ok_keys; [exact Hcoins|]. unfold w_address. rewrite Hk3. exact Haddr'.
  - exact Hi'.
  - cbn [with_keys w_key_manager]. congruence.
  - rewrite Ha', Hroot. apply rotate_registered, Hst.
  - rewrite Ha', Hroot. apply rotate_root, Hst.
Qed.

(** A wallet that is not registered yet, with the node's view of its coins. *)
Record before_registration (w : Wallet) (v : Validator) (master : bytes) : Prop := {
  br_coins : coins_ok w v;
  br_keys : km_inv master 0 0 0 (w_key_manager w);
  br_flag : km_is_registered (w_key_manager w) = false;
  br_address : derive_address (km_inner_hash (w_key_manager w)) = Ok (w_address w);
  br_inner : length (km_inner_hash (w_key_manager w)) = 64;
  br_free : is_registered (v_auth_registry v) (w_address w) = false;
}.

Definition reg_tx (w : Wallet) (u0 : UTXO) (sg pk root : bytes) (change : list TxOutput)
    (ts : Z) (nonce : bytes) : Transaction :=
  mkTransaction 1 REGISTER [mkTxInput (u_tx_hash u0) (u_output_index u0) sg pk None (-1)]
    (mkTxOutput 0 (w_address w) 0 (km_inner_hash (w_key_manager w) ++ root) :: change)
    (w_current_epoch w) ts 46580 nonce None.

Lemma create_registration_ok w v master nonce now ts u :
  before_registration w v master -> wc_fee_rate (w_config w) = 10%Z ->
  spendable_in w u -> (46580 <= to_value (u_output u))%Z ->
  Forall (fun kv => to_value (u_output kv.2) < 2 ^ 64)%Z (w_utxos w) ->
  (0 <= w_current_epoch w < 2 ^ 64)%Z -> to_ms now = Ok ts -> (0 <= ts < 2 ^ 64)%Z ->
  exists sh u0 sg pk change,
    let tx := reg_tx w u0 sg pk (batch_root (batch_seed master 0)) change ts nonce in
    create_registration_tx w None now nonce = Ok (Some tx) /\
    signing_hash tx = Ok sh /\ spendable_in w u0 /\ length change <= 1 /\
    Forall (fun o => 546 <= to_value o /\ to_data o = [])%Z change /\
    (sumZ (map to_value change) + 46580 <= to_value (u_output u0))%Z /\
    wots_verify sh sg pk = true /\ length sg = 2144 /\ length pk = 2144 /\
    change = change_outputs w (to_value (u_output u0) - 46580).
Proof.
  intros [Hcoins Hkeys Hflag Hda Hinner _] Hrate Hu Hfee Hmax Hepoch Hnow Hts.
  destruct (select_single w 0 46580 u Hu Hfee) as (u0 & Esel & Hu0 & Hfee0).
  pose proof Hu0 as (key & Hin & Hs & _).
  destruct (is_utxos _ _ Hcoins key u0 Hin Hs) as (-> & Hidx & _).
  assert (Hv0 : (to_value (u_output u0) < 2 ^ 64)%Z).
  { rewrite Forall_forall in Hmax. by apply Hmax in Hin. }
  set (change := change_outputs w (to_value (u_output u0) - 46580)).
  destruct (change_outputs_spec w (to_value (u_output u0) - 46580) ltac:(lia)) as (Hc1 & Hc2 & Hc3).
  fold change in Hc1, Hc2, Hc3.
  pose proof (live_tree_root _ _ _ _ (ki_tree _ _ _ _ _ Hkeys)) as Eroot.
  set (root := batch_root (batch_seed master 0)) in *.
  assert (Hl : length root = 32) by apply batch_root_length.
  destruct (keygen (sha3_512 (km_master_seed (w_key_manager w) ++ b: "registration_key")))
    as [[sk pk]|] eqn:Ekey; [|by rewrite keygen_spec in Ekey].
  destruct (keygen_length _ _ _ Ekey) as [Hsk Hpk].
  assert (Hfit : fields_fit (reg_tx w u0 [] pk root change ts nonce)).
  { constructor; cbn [reg_tx tx_version tx_inputs tx_outputs tx_epoch tx_timestamp tx_fee].
    - lia.
    - constructor; [exact Hidx|constructor].
    - constructor.
      + cbn [to_value to_lock_epoch to_data]. unfold zlen. rewrite length_app, Hl, Hinner. lia.
      + eapply Forall_impl; [exact Hc2|]. intros o (? & -> & -> & _). unfold zlen. cbn [length]. lia.
    - unfold zlen. cbn [length]. lia.
    - exact Hepoch.
    - exact Hts.
    - lia. }
  destruct (signing_hash_ok _ Hfit) as (sh & Esh).
  exists sh, u0, (wots_sign sh sk), pk, change. cbv zeta. split.
  { unfold create_registration_tx. rewrite Hflag, Hrate.
    change ((50 + 4400 + 80 + 128) * 10)%Z with 46580%Z. rewrite Esel, (proj2 (Z.ltb_ge _ _)) by lia.
    unfold km_auth_root. rewrite Eroot, bind_Ok. cbn [bytes_arg]. rewrite bind_Ok.
    unfold get_wots_keypair_for_registration. rewrite py_concat_2, bind_Ok, Ekey, bind_Ok, Hnow, bind_Ok.
    fold change. unfold reg_tx in Esh. rewrite Esh, bind_Ok. done. }
  split; [rewrite <- Esh; apply signing_hash_inputs; try reflexivity; by repeat constructor|].
  split; [exact Hu0|]. split; [exact Hc1|].
  split; [eapply Forall_impl; [exact Hc2|]; intros o (? & _ & ? & _); split; [lia|done]|].
  split; [lia|]. split; [by eapply wots_correct|]. split; [by apply wots_sign_length|].
  split; [exact Hpk|done].
Qed.

Lemma registration_valid w v master u0 sh sg pk change ts nonce :
  let root := batch_root (batch_seed master 0) in
  let tx := reg_tx w u0 sg pk root change ts nonce in
  before_registration w v master -> spendable_in w u0 -> signing_hash tx = Ok sh ->
  length change <= 1 -> Forall (fun o => 546 <= to_value o /\ to_data o = [])%Z change ->
  (sumZ (map to_value change) + 46580 <= to_value (u_output u0))%Z ->
  wots_verify sh sg pk = true -> length sg = 2144 -> length pk = 2144 ->
  validate_transaction v tx (w_current_epoch w) = Ok (true, "valid").
Proof.
  intros root tx [Hcoins Hkeys Hflag Hda Hinner Hfree] Hu0 Esh Hc1 Hc2 Hc3 Hv Hsg Hpk.
  assert (Hl : length root = 32) by apply batch_root_length.
  destruct Hu0 as (key & Hin & Hs & Hlock).
  destruct (is_utxos _ _ Hcoins key u0 Hin Hs) as (-> & _ & Ha & u' & Hu' & Hs' & Eo).
  assert (Hstr : (is_valid_structure tx).1 = true).
  { apply is_valid_structure_iff. unfold tx_size.
    cbn [tx reg_tx tx_version tx_inputs tx_outputs tx_type tx_fee map sumZ foldr length].
    unfold ti_size. cbn [ti_signature ti_public_key ti_auth_proof]. unfold to_size at 1 3.
    cbn [to_data]. unfold zlen. rewrite Hsg, Hpk, length_app, Hl, Hinner.
    assert (Hsz : (0 <= foldr Z.add 0 (map to_size change) <= 82)%Z).
    { destruct change as [|c [|]]; cbn [map foldr length] in *; [lia| |lia].
      apply Forall_cons in Hc2 as [[_ Hd] _]. unfold to_size, zlen. rewrite Hd. cbn [length]. lia. }
    split; [done|]. split; [by left|]. split; [lia|]. split; [lia|]. split; [lia|]. split; [|lia].
    constructor; [by right|]. eapply Forall_impl; [exact Hc2|]. intros o [? _]. by left. }
  unfold validate_transaction. destruct (is_valid_structure tx) as [ok reason]. cbn [fst] in Hstr.
  rewrite Hstr. cbn [negb tx reg_tx tx_epoch].
  rewrite Z.ltb_irrefl, (proj2 (Z.ltb_ge _ _)) by lia.
  unfold validate_by_type, validate_register. unfold tx, reg_tx in *.
  cbn [tx_type tx_inputs tx_outputs to_data].
  unfold zlen. rewrite length_app, Hl, Hinner. change (Z.of_nat (64 + 32) =? 96)%Z with true. cbn [negb].
  rewrite slice_prefix by done. rewrite Hda, bind_Ok. cbn [ti_prev_tx_hash ti_output_index].
  unfold get_utxo. rewrite Hu', Hs', Eo, bool_decide_true by done. cbn [negb].
  rewrite (proj2 (Z.ltb_ge _ _)) by lia. rewrite Esh, bind_Ok.
  cbn [ti_signature ti_public_key]. rewrite Hv. cbn [negb]. rewrite Hfree, (proj2 (Z.ltb_ge _ _)); [done|].
  unfold total_output. cbn [tx_outputs tx_fee map sumZ foldr to_value]. unfold sumZ in Hc3. lia.
Qed.

(** Applying a registration registers the root it carries. *)
Lemma reg_tx_registry w v v' master u0 sg pk root change ts nonce :
  before_registration w v master -> length root = 32 ->
  apply_transaction v (reg_tx w u0 sg pk root change ts nonce) = (v', Ok true) ->
  v_auth_registry v' = (register_via_tx (v_auth_registry v) (w_address w) root).1.
Proof.
  intros Hbr Hl Eapp. destruct (apply_transaction_registry v _ v' Eapp) as (out0 & outs & a & Eo' & Ea & ->).
  injection Eo' as <- <-. cbn [to_data] in *.
  rewrite slice_prefix in Ea by apply Hbr. rewrite (br_address _ _ _ Hbr) in Ea. injection Ea as <-.
  rewrite (slice_app_r _ _ 64) by (apply Hbr || lia).
  change (64 - 64) with 0. change (96 - 64) with 32.
  rewrite <- (app_nil_r root) at 1. by rewrite slice_prefix.
Qed.

Definition mark_wallet (w : Wallet) : Wallet := with_keys w (mark_registered (w_key_manager w)).

(** The registration protocol.  A new wallet with an output worth the fee, whose address the
    node does not have yet, builds a registration that the node accepts; once the node has
    applied it and the wallet has submitted and confirmed it and is marked as registered, wallet
    and node are in step: the node has the root of the wallet's first batch. *)
Theorem registration_protocol (w : Wallet) (v : Validator) (master nonce : bytes) (now : float64)
    (ts : Z) (u : UTXO)
    (Hbr : before_registration w v master) (Hrate : wc_fee_rate (w_config w) = 10%Z)
    (Hcache : km_key_cache (w_key_manager w) = ∅)
    (Hu : spendable_in w u) (Hfee : (46580 <= to_value (u_output u))%Z)
    (Hmax : Forall (fun kv => to_value (u_output kv.2) < 2 ^ 64)%Z (w_utxos w))
    (Hepoch : (0 <= w_current_epoch w < 2 ^ 64)%Z) (Hnow : to_ms now = Ok ts)
    (Hts : (0 <= ts < 2 ^ 64)%Z) :
  exists tx h, create_registration_tx w None now nonce = Ok (Some tx) /\
    validate_transaction v tx (w_current_epoch w) = Ok (true, "valid") /\ tx_hash tx = Ok h /\
    ((forall j, utxos (v_utxo_set v) !! (h, j) = None) ->
     exists v' w1 w2, apply_transaction v tx = (v', Ok true) /\
       submit_transaction w tx = (w1, Ok tt) /\ confirm_transaction w1 h = (w2, Ok tt) /\
       in_step (mark_wallet w2) v' master 0 0 0).
Proof.
  destruct (create_registration_ok w v master nonce now ts u Hbr Hrate Hu Hfee Hmax Hepoch Hnow Hts)
    as (sh & u0 & sg & pk & change & Ecreate & Esh & Hu0 & Hc1 & Hc2 & Hc3 & Hv & Hsg & Hpk & _).
  set (root := batch_root (batch_seed master 0)) in *.
  set (tx := reg_tx w u0 sg pk root change ts nonce) in *.
  assert (Hh : tx_hash tx = Ok sh) by exact Esh.
  exists tx, sh. split; [exact Ecreate|].
  split; [by apply (registration_valid w v master u0 sh)|]. split; [exact Hh|]. intros Hfresh.
  destruct Hu0 as (key & Hin & Hs & Hlock).
  destruct (is_utxos _ _ (br_coins _ _ _ Hbr) key u0 Hin Hs) as (-> & _ & Ha & u' & Hu' & Hs' & Eo).
  destruct (apply_transaction_ok v tx sh [to_value (u_output u')] Hh) as (v' & Eapp & _ & Hspent & Hnew & Hkeep).
  { done. }
  { done. }
  { constructor; [by exists u'|constructor]. }
  { apply NoDup_singleton. }
  { exact Hfresh. }
  assert (Hreg : v_auth_registry v' = (register_via_tx (v_auth_registry v) (w_address w) root).1).
  { exact (reg_tx_registry w v v' master u0 sg pk root change ts nonce Hbr (batch_root_length _) Eapp). }
  destruct (settle_coins w v v' tx sh (br_coins _ _ _ Hbr) Hh Hcache) as (w1 & w2 & E1 & E2 & Hcoins & Hframe).
  { cbn [tx reg_tx tx_outputs length]. lia. }
  { exact Hfresh. }
  { exact Hnew. }
  { exact Hkeep. }
  destruct Hframe as (_ & Hk & _).
  exists v', w1, w2. split; [exact Eapp|]. split; [exact E1|]. split; [exact E2|].
  assert (Ha' : w_address (mark_wallet w2) = w_address w).
  { unfold mark_wallet, w_address. cbn [with_keys w_key_manager mark_registered km_address]. by rewrite Hk. }
  constructor.
  - apply coins_ok_keys; [exact Hcoins|done].
  - unfold mark_wallet. cbn [with_keys w_key_manager]. rewrite Hk. eapply km_inv_same; [apply Hbr|done..].
  - done.
  - rewrite Ha', Hreg. by apply register_registered, (br_free _ _ _ Hbr).
  - rewrite Ha', Hreg. by apply register_root, (br_free _ _ _ Hbr).
Qed.

End WalletProperties.

(** ** Concrete runs *)

Section Demo.
#[local] Existing Instance toy_hashlib.

Definition one_second : float64 := S754_finite false 4503599627370496 (-52).

Definition demo_hash : bytes := replicate 32 Byte.x77.

Definition demo_coin (km : KeyManager) : TxOutput := mkTxOutput 200000 (km_address km) 0 [].

(** A wallet with one coin, and a node that has it. *)
Definition demo_wallet (km : KeyManager) : Wallet :=
  mkWallet default_config km
    [((demo_hash, 0%Z), mkUTXO demo_hash 0 (demo_coin km) 1 false None)] [] [] 5 0 0.

Definition demo_node (km : KeyManager) (reg : AuthRegistry) : Validator :=
  mkValidator (add_utxo utxo_set_new demo_hash 0 (demo_coin km) 1) reg.

Lemma demo_coins_ok km reg : coins_ok (demo_wallet km) (demo_node km reg).
Proof.
  constructor; [apply NoDup_singleton|]. intros key u Hin _.
  apply list_elem_of_singleton in Hin. injection Hin as -> ->.
  split; [done|]. split; [done|]. split; [done|].
  eexists. split; [apply lookup_insert_eq|done].
Qed.

Lemma demo_spendable km :
  spendable_in (demo_wallet km) (mkUTXO demo_hash 0 (demo_coin km) 1 false None).
Proof. exists (demo_hash, 0%Z). split; [by left|]. split; [done|]. simpl. lia. Qed.

Lemma registration_protocol_witness :
  exists w v tx, create_registration_tx w None one_second (b: "nonce000") = Ok (Some tx) /\
    validate_transaction v tx 5 = Ok (true, "valid").
Proof.
  destruct (key_manager_new_ok (Some (b: "seed")) []) as (km & E & Hflag & Hcache & Hinner & Ha).
  pose proof (km_inv_new _ _ _ E) as Hi. clear E.
  destruct (registration_protocol (demo_wallet km) (demo_node km auth_registry_new)
              (km_master_seed km) (b: "nonce000") one_second 1000
              (mkUTXO demo_hash 0 (demo_coin km) 1 false None)) as (tx & h & Hc & Hv & _).
  - constructor; [apply demo_coins_ok|exact Hi|exact Hflag| |exact Hinner|done].
    unfold derive_address. rewrite py_concat_2, bind_Ok. unfold w_address.
    cbn [demo_wallet w_key_manager]. by rewrite Ha.
  - reflexivity.
  - exact Hcache.
  - apply demo_spendable.
  - cbn. lia.
  - repeat constructor.
  - cbn. lia.
  - by vm_compute.
  - lia.
  - exists (demo_wallet km), (demo_node km auth_registry_new), tx. split; [exact Hc|exact Hv].
Defined.

(** The registered wallet and its node. *)
Definition demo_registry (km : KeyManager) : AuthRegistry :=
  (register_via_tx auth_registry_new (km_address km)
     (batch_root (batch_seed (km_master_seed km) 0))).1.

Lemma demo_in_step km :
  km_inv (km_master_seed km) 0 0 0 km ->
  in_step (mark_wallet (demo_wallet km)) (demo_node km (demo_registry km)) (km_master_seed km) 0 0 0.
Proof.
  intros Hi. constructor.
  - apply coins_ok_keys; [apply demo_coins_ok|done].
  - eapply km_inv_same; [exact Hi|done..].
  - done.
  - by apply register_registered.
  - by apply register_root.
Qed.

Lemma transfer_accepted_witness :
  exists w v w' tx, create_transfer w (b: "bob") 100000 None one_second (b: "nonce000")
      = (w', Ok (Some tx)) /\
    validate_transaction v tx 5 = Ok (true, "valid").
Proof.
  destruct (key_manager_new_ok (Some (b: "seed")) []) as (km & E & Hflag & Hcache & _).
  pose proof (km_inv_new _ _ _ E) as Hi. clear E.
  set (w := mark_wallet (demo_wallet km)).
  assert (Hsel : (select_utxos w 100000 48580).1 = [mkUTXO demo_hash 0 (demo_coin km) 1 false None])
    by reflexivity.
  destruct (transfer_accepted w (demo_node km (demo_registry km)) (km_master_seed km) 0 0 0
              (b: "bob") (b: "nonce000") 100000 one_second 1000)
    as (w' & tx & change & Hc & _ & _ & _ & _ & _ & _ & _ & Hv).
  - by apply demo_in_step.
  - reflexivity.
  - lia.
  - cbn. lia.
  - cbn. lia.
  - repeat constructor. cbn. lia.
  - cbn. lia.
  - by vm_compute.
  - lia.
  - rewrite Hsel. cbn [length]. lia.
  - exists w, (demo_node km (demo_registry km)), w', tx. split; [exact Hc|]. apply Hv.
    rewrite Hsel. cbn [length]. lia.
Defined.

Lemma rotation_protocol_witness :
  exists w v w' tx, create_rotation_tx w None one_second (b: "nonce000") = (w', Ok (Some tx)) /\
    validate_transaction v tx 5 = Ok (true, "valid").
Proof.
  destruct (key_manager_new_ok (Some (b: "seed")) []) as (km & E & Hflag & Hcache & _).
  pose proof (km_inv_new _ _ _ E) as Hi. clear E.
  set (w := mark_wallet (demo_wallet km)).
  destruct (rotation_protocol w (demo_node km (demo_registry km)) (km_master_seed km) 0 0 0
              (b: "nonce000") one_second 1000 (mkUTXO demo_hash 0 (demo_coin km) 1 false None))
    as (w' & tx & h & Hc & Hv & _).
  - by apply demo_in_step.
  - lia.
  - reflexivity.
  - exact Hcache.
  - apply demo_spendable.
  - cbn. lia.
  - repeat constructor.
  - cbn. lia.
  - by vm_compute.
  - lia.
  - exists w, (demo_node km (demo_registry km)), w', tx. split; [exact Hc|exact Hv].
Defined.

End Demo.
