(* ===== verification/LiveDemo.v ===== *)
(** * The live demonstration

    [src/run_live.py]: two wallets are funded and registered with one node, the first signs with
    its one-time keys, rotates to its next batch and signs again, and a third wallet spends all
    its keys.  Every [assert] of the script raises [AssertionError] here; what the script prints
    is left out, except whether the exhausted wallet raised.  The clock, the nonces and the random
    seeds are the [DemoInput].  Main result: the script ends, with nothing raised but the error it
    catches, unless one of the hashes that it relies on collides ([live_demo_verifies]); at its end
    the node still has the root that the first wallet has left. *)

From stdpp Require Import prelude list gmap strings pretty sorting.
From Stdlib Require Import Strings.Byte ZArith Lia Floats.SpecFloat.
From S2P Require Import Prelude.
From S2P Require Import Dict.
From S2P Require Import Text.
From S2P Require Import PyFloat.
From S2P Require Import Crypto.
From S2P Require Import Wots.
From S2P Require Import Merkle.
From S2P Require Import TemporalAuth.
From S2P Require Import Transaction.
From S2P Require Import Ledger.
From S2P Require Import TxValidation.
From S2P Require Import KeyManager.
From S2P Require Import Wallet.
From S2P Require Import WalletProtocol.

Set Default Goal Selector "!".

Section LiveDemo.
Context {hashlib : Hashlib}.

(** ** The script *)

(** What the environment supplies: three random seeds, and for each transaction that a wallet
    builds the time and the nonce. *)
Record DemoInput := mkDemoInput {
  di_alice_seed : bytes;
  di_bob_seed : bytes;
  di_exhaust_seed : bytes;
  di_alice_reg : float64 * bytes;
  di_bob_reg : float64 * bytes;
  di_rotation : float64 * bytes;
}.

Definition py_assert (c : bool) (msg : string) : res unit :=
  if c then Ok tt else Err (AssertionError msg).

(** [a.hex()]: only bytes have the method. *)
Definition py_hex (a : pyarg) : res unit :=
  match a with PBytes _ => Ok tt | _ => Err AttributeError end.

Definition named_config (name : string) : WalletConfig := mkWalletConfig name "testnet" DEFAULT_FEE_RATE true.

Definition alice_fund : bytes := sha3_256 (b: "alice_coinbase").
Definition bob_fund : bytes := sha3_256 (b: "bob_coinbase").

Definition coin (w : Wallet) (value : Z) : TxOutput := mkTxOutput value (w_address w) 0 [].

(** The coinbase, credited on both sides. *)
Definition fund (v : Validator) (w : Wallet) (fund_hash : bytes) (value : Z) : Validator * Wallet :=
  (mkValidator (add_utxo (v_utxo_set v) fund_hash 0 (coin w value) 0) (v_auth_registry v),
   wallet_add_utxo w fund_hash 0 (coin w value) 0).

(** "Credit change back". *)
Fixpoint credit_change (w : Wallet) (tx : Transaction) (i : Z) (outputs : list TxOutput) : res Wallet :=
  match outputs with
  | [] => Ok w
  | out :: outputs =>
      if (0 <? to_value out)%Z && bool_decide (to_address out = w_address w) then
        h ← tx_hash tx;
        credit_change (wallet_add_utxo w h i out 0) tx (i + 1)%Z outputs
      else credit_change w tx (i + 1)%Z outputs
  end.

(** Step 1, for one wallet. *)
Definition demo_register (v : Validator) (w : Wallet) (name : string) (env : float64 * bytes)
    : res (Validator * Wallet) :=
  reg ← create_registration_tx w None env.1 env.2;
  match reg with
  | None => Err (AssertionError (name ++ " registration tx failed"))
  | Some reg =>
      '(valid, reason) ← validate_transaction v reg 0;
      _ ← py_assert valid (name ++ " registration invalid: " ++ reason);
      let '(v, applied) := apply_transaction v reg in
      _ ← applied;
      let w := with_keys w (mark_registered (w_key_manager w)) in
      let '(w, submitted) := submit_transaction w reg in
      _ ← submitted;
      w ← credit_change w reg 0 (tx_outputs reg);
      root ← km_auth_root (w_key_manager w);
      _ ← py_hex root;
      Ok (v, w)
  end.

(** [verify_against_root(..., root)]: a digest never equals [None] or an [int]. *)
Definition verify_with (message : bytes) (s : auth_sig) (root : option bytes) : bool :=
  match root with
  | Some root => verify_against_root message (as_signature s) (as_public_key s) (as_proof s) root
  | None => false
  end.

Definition root_arg (a : pyarg) : option bytes :=
  match a with PBytes b => Some b | _ => None end.

Definition transfer_message (i : nat) : bytes := b: "transfer_" ++ dec_text (Z.of_nat i) ++ b: "_to_bob".

(** Step 2: each message is signed and verified against the root of the registry. *)
Fixpoint demo_sign (km : KeyManager) (root : option bytes) (range : list nat) : res KeyManager :=
  match range with
  | [] => Ok km
  | i :: range =>
      let msg := transfer_message i in
      let '(km, s) := temporal_sign km msg in
      s ← s;
      _ ← py_assert (verify_with msg s root) ("Temporal auth verification failed for msg " ++ pretty i);
      demo_sign km root range
  end.

(** Step 3.  The rotation is confirmed by the wallet alone: no node sees the transaction. *)
Definition demo_rotate (w : Wallet) (env : float64 * bytes) : res Wallet :=
  old_root ← km_auth_root (w_key_manager w);
  _ ← py_hex old_root;
  let '(w, rot) := create_rotation_tx w None env.1 env.2 in
  rot ← rot;
  match rot with
  | None => Err (AssertionError "Rotation tx creation failed")
  | Some rot_tx =>
      _ ← tx_hash rot_tx;
      match tx_outputs rot_tx with
      | [] => Err (IndexError "list index out of range")
      | _ :: _ =>
          let '(w, confirmed) := confirm_rotation w in
          _ ← confirmed;
          root ← km_auth_root (w_key_manager w);
          _ ← py_hex root;
          _ ← py_assert (remaining_keys (km_auth_tree (w_key_manager w)) =? Z.of_nat USABLE_KEYS)%Z "";
          let msg := b: "post_rotation_transfer" in
          let '(km, s) := temporal_sign (w_key_manager w) msg in
          s ← s;
          _ ← py_assert (verify_with msg s (root_arg root)) "Post-rotation signing failed";
          _ ← py_assert (negb (verify_with msg s (root_arg old_root)))
                "Old root should not verify new batch signatures";
          Ok (with_keys w km)
      end
  end.

Fixpoint use_keys (km : KeyManager) (messages : list bytes) : res KeyManager :=
  match messages with
  | [] => Ok km
  | msg :: messages => let '(km, s) := temporal_sign km msg in _ ← s; use_keys km messages
  end.

(** Step 4: [true] if the error was raised and caught. *)
Definition demo_exhaust (seed : bytes) : res bool :=
  w ← wallet_new (Some (named_config "exhaust")) (Some seed) [];
  km ← use_keys (mark_registered (w_key_manager w))
         (map (fun i => b: "k" ++ dec_text (Z.of_nat i)) (seq 0 USABLE_KEYS));
  match (temporal_sign km (b: "overflow")).2 with
  | Ok _ => Ok false
  | Err (ValueError _) => Ok true
  | Err e => Err e
  end.

(** The end of the script. *)
Record DemoState := mkDemoState {
  ds_validator : Validator;
  ds_alice : Wallet;
  ds_bob : Wallet;
  ds_exhausted : bool;
}.

(** [main]; the mempool it creates is never used. *)
Definition live_demo (i : DemoInput) : res DemoState :=
  let v := mkValidator utxo_set_new auth_registry_new in
  alice ← wallet_new (Some (named_config "Alice")) (Some (di_alice_seed i)) [];
  bob ← wallet_new (Some (named_config "Bob")) (Some (di_bob_seed i)) [];
  let '(v, alice) := fund v alice alice_fund 100000000 in
  let '(v, bob) := fund v bob bob_fund 50000000 in
  '(v, alice) ← demo_register v alice "Alice" (di_alice_reg i);
  '(v, bob) ← demo_register v bob "Bob" (di_bob_reg i);
  _ ← py_assert (is_registered (v_auth_registry v) (w_address alice)) "";
  _ ← py_assert (is_registered (v_auth_registry v) (w_address bob)) "";
  km ← demo_sign (w_key_manager alice) (get_auth_root (v_auth_registry v) (w_address alice))
         (seq 0 5);
  alice ← demo_rotate (with_keys alice km) (di_rotation i);
  exhausted ← demo_exhaust (di_exhaust_seed i);
  Ok (mkDemoState v alice bob exhausted).

(** ** The wallets *)

(** A new wallet with one coin. *)
Definition funded_wallet (name : string) (km : KeyManager) (fund_hash : bytes) (value : Z) : Wallet :=
  mkWallet (named_config name) km
    [((fund_hash, 0%Z), mkUTXO fund_hash 0 (mkTxOutput value (km_address km) 0 []) 0 false None)] [] [] 0 0 0.

(** The same wallet once the registration [tx] with hash [h] is submitted and its change
    credited. *)
Definition registered_wallet (name : string) (km : KeyManager) (fund_hash : bytes) (value : Z)
    (h : bytes) (tx : Transaction) : Wallet :=
  mkWallet (named_config name) (mark_registered km)
    [((fund_hash, 0%Z), mkUTXO fund_hash 0 (mkTxOutput value (km_address km) 0 []) 0 true (Some h));
     ((h, 1%Z), mkUTXO h 1 (mkTxOutput (value - 46580) (km_address km) 0 []) 0 false None)]
    [(h, tx)] [] 0 0 0.

Definition ok_option {A : Type} (r : res A) : option A :=
  match r with Ok x => Some x | Err _ => None end.

(** The hash of the registration that the wallet builds. *)
Definition reg_hash (w : Wallet) (env : float64 * bytes) : option bytes :=
  tx ← ok_option (create_registration_tx w None env.1 env.2);
  tx ← tx;
  ok_option (tx_hash tx).

(** A fresh key manager of the seed. *)
Record fresh_keys (seed : bytes) (km : KeyManager) : Prop := {
  fk_inv : km_inv seed 0 0 0 km;
  fk_flag : km_is_registered km = false;
  fk_cache : km_key_cache km = ∅;
  fk_inner : length (km_inner_hash km) = 64;
  fk_address : derive_address (km_inner_hash km) = Ok (km_address km);
}.

Lemma new_wallet name seed : exists km,
  wallet_new (Some (named_config name)) (Some seed) [] = Ok (mkWallet (named_config name) km [] [] [] 0 0 0) /\
  fresh_keys seed km.
Proof.
  destruct (key_manager_new_ok (Some seed) []) as (km & E & Hflag & Hcache & Hinner & Ha).
  exists km. unfold wallet_new. rewrite E, bind_Ok. split; [done|]. constructor; [|done|done|done|].
  - assert (Hm : km_master_seed km = seed).
    { unfold key_manager_new in E. inv_res. by destruct seed. }
    rewrite <- Hm. by apply (km_inv_new _ _ _ E).
  - unfold derive_address. rewrite py_concat_2, bind_Ok. by rewrite Ha.
Qed.

Lemma funded_spendable name km f value u :
  spendable_in (funded_wallet name km f value) u <->
  u = mkUTXO f 0 (mkTxOutput value (km_address km) 0 []) 0 false None.
Proof.
  split.
  - intros (key & Hin & _). apply list_elem_of_singleton in Hin. by injection Hin.
  - intros ->. exists (f, 0%Z). split; [by left|]. split; [done|]. cbn. lia.
Qed.

(** The node has the coin, and not yet the address. *)
Lemma funded_before v name seed km f value u :
  fresh_keys seed km -> utxos (v_utxo_set v) !! (f, 0%Z) = Some u -> u_is_spent u = false ->
  u_output u = mkTxOutput value (km_address km) 0 [] ->
  is_registered (v_auth_registry v) (km_address km) = false ->
  before_registration (funded_wallet name km f value) v seed.
Proof.
  intros [Hi Hflag Hcache Hinner Ha] Hu Hs Ho Hfree. constructor; try assumption.
  constructor; [apply NoDup_singleton|]. intros key u' Hin _.
  apply list_elem_of_singleton in Hin. injection Hin as -> ->.
  split; [done|]. split; [done|]. split; [done|]. by exists u.
Qed.

Lemma credit_registration w tx h reg change :
  tx_hash tx = Ok h -> tx_outputs tx = [reg; change] -> to_value reg = 0%Z -> (0 < to_value change)%Z -> to_address change = w_address w ->
  credit_change w tx 0 (tx_outputs tx) = Ok (wallet_add_utxo w h 1 change 0).
Proof.
  intros Hh -> Hr Hc Ha. cbn [credit_change]. rewrite Hr, (proj2 (Z.ltb_lt _ _) Hc), (bool_decide_true _ Ha).
  cbn [Z.ltb Z.compare andb]. by rewrite Hh, bind_Ok.
Qed.

Lemma submit_coin name km f value h tx inp :
  tx_hash tx = Ok h -> tx_inputs tx = [inp] -> ti_prev_tx_hash inp = f -> ti_output_index inp = 0%Z ->
  submit_transaction (with_keys (funded_wallet name km f value) (mark_registered km)) tx =
    (mkWallet (named_config name) (mark_registered km)
       [((f, 0%Z), mkUTXO f 0 (mkTxOutput value (km_address km) 0 []) 0 true (Some h))] [(h, tx)] [] 0 0 0, Ok tt).
Proof.
  intros Hh Hi <- Hidx. unfold submit_transaction. rewrite Hh, Hi. cbn [foldl]. rewrite Hidx.
  unfold wallet_spend_utxo, funded_wallet. cbn [with_keys with_pending w_utxos dict_get].
  rewrite decide_True by done. cbn [u_is_spent fst with_utxos dict_set w_utxos]. by rewrite decide_True by done.
Qed.

(** Step 1: the wallet's registration is valid, and leaves one output of change. *)
Lemma demo_register_ok v name seed km f value env ts u :
  fresh_keys seed km -> utxos (v_utxo_set v) !! (f, 0%Z) = Some u -> u_is_spent u = false ->
  u_output u = mkTxOutput value (km_address km) 0 [] ->
  is_registered (v_auth_registry v) (km_address km) = false ->
  (47126 <= value < 2 ^ 64)%Z -> to_ms env.1 = Ok ts -> (0 <= ts < 2 ^ 64)%Z ->
  let w := funded_wallet name km f value in
  let root := batch_root (batch_seed seed 0) in
  exists h, reg_hash w env = Some h /\
    (h <> f -> (forall j, utxos (v_utxo_set v) !! (h, j) = None) ->
     exists v' tx, demo_register v w name env = Ok (v', registered_wallet name km f value h tx) /\
       v_auth_registry v' = (register_via_tx (v_auth_registry v) (km_address km) root).1 /\
       utxos (v_utxo_set v') !! (h, 1%Z) =
         Some (mkUTXO h 1 (mkTxOutput (value - 46580) (km_address km) 0 []) 0 false None) /\
       forall k, k <> (f, 0%Z) -> k.1 <> h -> utxos (v_utxo_set v') !! k = utxos (v_utxo_set v) !! k).
Proof.
  intros Hk Hu Hs Ho Hfree Hval Hnow Hts w root.
  assert (Hbr := funded_before v name seed km f value u Hk Hu Hs Ho Hfree). fold w in Hbr.
  set (u0 := mkUTXO f 0 (mkTxOutput value (km_address km) 0 []) 0 false None).
  assert (Hu0 : spendable_in w u0) by (by apply funded_spendable).
  destruct (create_registration_ok w v seed env.2 env.1 ts u0 Hbr eq_refl Hu0)
    as (sh & u1 & sg & pk & change & Ecreate & Esh & Hu1 & Hc1 & Hc2 & Hc3 & Hv & Hsg & Hpk & Ech); try done.
  { cbn. lia. }
  { repeat constructor. cbn. lia. }
  apply funded_spendable in Hu1 as ->. fold u0 in Ecreate, Esh, Hc3, Ech.
  unfold change_outputs, DUST_THRESHOLD in Ech. rewrite (proj2 (Z.leb_le _ _)) in Ech by (cbn; lia).
  set (tx := reg_tx w u0 sg pk root change ts env.2) in *. subst change.
  change (create_registration_tx w None env.1 env.2 = Ok (Some tx)) in Ecreate.
  assert (Hh : tx_hash tx = Ok sh) by exact Esh.
  assert (Evalid : validate_transaction v tx 0 = Ok (true, "valid"))
    by exact (registration_valid w v seed u0 sh sg pk _ ts env.2 Hbr Hu0 Esh Hc1 Hc2 Hc3 Hv Hsg Hpk).
  exists sh. split.
  { unfold reg_hash. rewrite Ecreate. cbn [ok_option mbind option_bind]. by rewrite Hh. }
  intros Hne Hfresh.
  destruct (apply_transaction_ok v tx sh [value] Hh) as (v' & Eapp & _ & _ & Hnew & Hkeep); try done.
  { constructor; [|constructor]. exists u. cbn. by rewrite Ho. }
  { apply NoDup_singleton. }
  exists v', tx. split.
  { unfold demo_register. rewrite Ecreate, bind_Ok.
    rewrite Evalid, bind_Ok.
    cbn [py_assert]. rewrite bind_Ok, Eapp, bind_Ok. change (w_key_manager w) with km.
    unfold w. rewrite (submit_coin name km f value sh tx _ Hh eq_refl eq_refl eq_refl), bind_Ok.
    rewrite (credit_registration _ tx sh _ _ Hh eq_refl); [|done|cbn; lia|done]. rewrite bind_Ok.
    unfold wallet_add_utxo. cbn [with_utxos w_key_manager w_utxos dict_set].
    rewrite decide_False by (by intros [= ->]). cbn [dict_set].
    unfold km_auth_root. cbn [mark_registered km_auth_tree].
    by rewrite (live_tree_root _ _ _ _ (ki_tree _ _ _ _ _ (fk_inv _ _ Hk))). }
  split.
  { exact (reg_tx_registry w v v' seed u0 sg pk root _ ts env.2 Hbr (batch_root_length _) Eapp). }
  split; [exact (Hnew 1 _ eq_refl)|]. intros k Hk1 Hk2. apply Hkeep; [|done].
  cbn. rewrite list_elem_of_singleton. done.
Qed.

Lemma registered_in_step v name seed km f value h tx u :
  fresh_keys seed km -> h <> f -> utxos (v_utxo_set v) !! (h, 1%Z) = Some u -> u_is_spent u = false ->
  u_output u = mkTxOutput (value - 46580) (km_address km) 0 [] ->
  is_registered (v_auth_registry v) (km_address km) = true ->
  get_auth_root (v_auth_registry v) (km_address km) = Some (batch_root (batch_seed seed 0)) ->
  in_step (registered_wallet name km f value h tx) v seed 0 0 0.
Proof.
  intros Hk Hne Hu Hs Ho Hreg Hroot. constructor; try done.
  - constructor.
    + unfold dict_wf, dict_keys. cbn. apply NoDup_cons. split; [|apply NoDup_singleton].
      rewrite list_elem_of_singleton. by intros [= ->].
    + intros key u' Hin Hsp. apply elem_of_cons in Hin as [[= -> ->]|Hin]; [done|].
      apply list_elem_of_singleton in Hin. injection Hin as -> ->.
      split; [done|]. split; [done|]. split; [done|]. exists u. split; [exact Hu|]. by split.
  - eapply km_inv_same; [apply Hk|done..].
Qed.

(** ** Signing *)

(** Every message of the loop is verified. *)
Lemma demo_sign_ok seed n r range : forall k km,
  km_inv seed n k r km -> km_is_registered km = true -> k + length range <= USABLE_KEYS ->
  exists t, demo_sign km (Some (batch_root (batch_seed seed n))) range = Ok (with_tree km t) /\
    km_inv seed n (k + length range) r (with_tree km t).
Proof.
  induction range as [|i range IH]; intros k km Hi Hreg Hk; cbn [demo_sign length] in *.
  { exists (km_auth_tree km). rewrite Nat.add_0_r. by destruct km. }
  destruct (temporal_sign_ok seed n k r km (transfer_message i) Hi Hreg) as (t & s & -> & Hi' & Hv & _); [lia|].
  rewrite bind_Ok. cbn [verify_with]. rewrite Hv. cbn [py_assert]. rewrite bind_Ok.
  destruct (IH (S k) _ Hi' Hreg) as (t' & E & Hi2); [lia|].
  exists t'. split; [exact E|]. by rewrite <- Nat.add_succ_comm.
Qed.

Lemma use_keys_ok seed n r messages : forall k km,
  km_inv seed n k r km -> km_is_registered km = true -> k + length messages <= USABLE_KEYS ->
  exists t, use_keys km messages = Ok (with_tree km t) /\
    km_inv seed n (k + length messages) r (with_tree km t).
Proof.
  induction messages as [|m messages IH]; intros k km Hi Hreg Hk; cbn [use_keys length] in *.
  { exists (km_auth_tree km). rewrite Nat.add_0_r. by destruct km. }
  destruct (temporal_sign_ok seed n k r km m Hi Hreg) as (t & s & -> & Hi' & _); [lia|].
  rewrite bind_Ok. destruct (IH (S k) _ Hi' Hreg) as (t' & E & Hi2); [lia|].
  exists t'. split; [exact E|]. by rewrite <- Nat.add_succ_comm.
Qed.

(** A batch without keys does not sign, and does not rotate by itself. *)
Lemma exhausted_raises seed n r km m :
  km_inv seed n USABLE_KEYS r km -> km_is_registered km = true ->
  temporal_sign km m = (km, Err (ValueError "All usable keys exhausted. Must rotate batch before signing.")).
Proof.
  intros Hi Hreg. unfold temporal_sign. rewrite Hreg. cbn [negb].
  destruct (ki_tree _ _ _ _ _ Hi) as (tree & E & _). unfold sign. rewrite E. cbn [ta_key_index].
  rewrite Nat.leb_refl, <- E. by destruct km.
Qed.

(** Step 4 always ends with the error caught. *)
Lemma demo_exhaust_ok seed : demo_exhaust seed = Ok true.
Proof.
  unfold demo_exhaust. destruct (new_wallet "exhaust" seed) as (km & -> & Hk). rewrite bind_Ok. cbn [w_key_manager].
  assert (Hi : km_inv seed 0 0 0 (mark_registered km)) by (eapply km_inv_same; [apply Hk|done..]).
  set (messages := map _ (seq 0 USABLE_KEYS)).
  assert (Hl : length messages = USABLE_KEYS) by (unfold messages; by rewrite length_map, length_seq).
  destruct (use_keys_ok seed 0 0 messages 0 _ Hi eq_refl) as (t & -> & Hi2); [rewrite Hl; lia|].
  rewrite bind_Ok. rewrite Hl, Nat.add_0_l in Hi2. by rewrite (exhausted_raises _ _ _ _ _ Hi2 eq_refl).
Qed.

(** ** The rotation *)

Lemma fresh_batch_keys seed n r km :
  km_inv seed n 0 r km -> remaining_keys (km_auth_tree km) = Z.of_nat USABLE_KEYS.
Proof.
  intros Hi. destruct (ki_tree _ _ _ _ _ Hi) as (tree & -> & _). unfold remaining_keys. cbn [ta_key_index]. lia.
Qed.

(** A signature that verifies against one root verifies against no other. *)
Lemma verify_one_root m s root root' :
  verify_against_root m (as_signature s) (as_public_key s) (as_proof s) root = true -> root <> root' ->
  verify_against_root m (as_signature s) (as_public_key s) (as_proof s) root' = false.
Proof.
  intros [Hw Hv]%verify_against_root_inv Hne. unfold verify_against_root. rewrite Hw. cbn [negb].
  unfold verify_proof in *. apply bool_decide_eq_true in Hv. apply bool_decide_eq_false. by rewrite Hv.
Qed.

(** Step 3: the wallet ends in its next batch with one key used. *)
Lemma demo_rotate_ok w v seed n k env ts u :
  in_step w v seed n k 0 -> wc_fee_rate (w_config w) = 10%Z -> spendable_in w u ->
  (45940 <= to_value (u_output u))%Z ->
  Forall (fun kv => to_value (u_output kv.2) < 2 ^ 64)%Z (w_utxos w) ->
  (0 <= w_current_epoch w < 2 ^ 64)%Z -> to_ms env.1 = Ok ts -> (0 <= ts < 2 ^ 64)%Z ->
  batch_root (batch_seed seed (S n)) <> batch_root (batch_seed seed n) ->
  exists km, demo_rotate w env = Ok (with_keys w km) /\ km_inv seed (S n) 1 0 km /\ km_address km = w_address w.
Proof.
  intros Hst Hrate Hu Hfee Hmax Hepoch Hnow Hts Hroots.
  destruct (create_rotation_ok w v seed n k 0 env.2 env.1 ts u Hst ltac:(lia) Hrate Hu Hfee Hmax Hepoch Hnow Hts)
    as (km & tx & sh & u0 & s & pk & change & next & Ecreate & Etx & Esh & _ & _ & _ & _ & _ & _ & _ & _ & Hi &
        Hnext & Hreg & Haddr & _).
  assert (Hh : tx_hash tx = Ok sh) by (unfold tx_hash; by rewrite Etx in Esh |- *).
  destruct (execute_rotation_ok _ _ _ _ _ _ Hi Hnext) as (km1 & Eexec & Hi1 & Hreg1 & Haddr1).
  destruct (temporal_sign_ok _ _ _ _ _ (b: "post_rotation_transfer") Hi1) as (t & s1 & Esig & Hi2 & Hv & _);
    [by rewrite Hreg1|unfold USABLE_KEYS, TOTAL_KEYS_PER_BATCH, RESERVED_ROTATION; lia|].
  exists (with_tree km1 t). split; [|split; [exact Hi2|]].
  2:{ cbn [with_tree km_address]. by rewrite Haddr1. }
  unfold demo_rotate, km_auth_root. rewrite (live_tree_root _ _ _ _ (ki_tree _ _ _ _ _ (is_keys _ _ _ _ _ _ Hst))), bind_Ok.
  cbn [py_hex]. rewrite bind_Ok, Ecreate, bind_Ok, Hh, bind_Ok, Etx. cbn [tx_outputs].
  unfold confirm_rotation. cbn [with_keys w_key_manager]. rewrite Eexec, bind_Ok.
  cbn [with_keys w_key_manager]. rewrite (live_tree_root _ _ _ _ (ki_tree _ _ _ _ _ Hi1)), bind_Ok.
  cbn [py_hex]. rewrite bind_Ok, (fresh_batch_keys _ _ _ _ Hi1), Z.eqb_refl. cbn [py_assert].
  rewrite bind_Ok, Esig, bind_Ok. cbn [root_arg verify_with]. rewrite Hv. cbn [py_assert].
  rewrite bind_Ok, (verify_one_root _ _ _ _ Hv Hroots). by destruct w.
Qed.

(** ** The whole script *)

(** The hash of the registration that a wallet of the seed builds in the script. *)
Definition demo_reg_hash (name : string) (seed fund_hash : bytes) (value : Z) (env : float64 * bytes)
    : option bytes :=
  w ← ok_option (wallet_new (Some (named_config name)) (Some seed) []);
  reg_hash (fund (mkValidator utxo_set_new auth_registry_new) w fund_hash value).2 env.

Definition demo_address (seed : bytes) : option bytes :=
  w_address <$> ok_option (wallet_new None (Some seed) []).

(** The four transactions of the script. *)
Definition demo_hashes (i : DemoInput) : list (option bytes) :=
  [Some alice_fund; Some bob_fund;
   demo_reg_hash "Alice" (di_alice_seed i) alice_fund 100000000 (di_alice_reg i);
   demo_reg_hash "Bob" (di_bob_seed i) bob_fund 50000000 (di_bob_reg i)].

(** Two of them have one hash, or the wallets one address, or two batches one root. *)
Definition demo_collision (i : DemoInput) : Prop :=
  ~ NoDup (demo_hashes i) \/ demo_address (di_alice_seed i) = demo_address (di_bob_seed i) \/
  batch_root (batch_seed (di_alice_seed i) 1) = batch_root (batch_seed (di_alice_seed i) 0).

Lemma demo_address_ok name seed km :
  wallet_new (Some (named_config name)) (Some seed) [] = Ok (mkWallet (named_config name) km [] [] [] 0 0 0) ->
  demo_address seed = Some (km_address km).
Proof.
  unfold demo_address, wallet_new. destruct (key_manager_new _ _) as [km'|]; [|done].
  rewrite bind_Ok. intros E. injection E as ->. by rewrite bind_Ok.
Qed.

Lemma register_other_root reg a a' root :
  a <> a' -> get_auth_root (register_via_tx reg a root).1 a' = get_auth_root reg a' /\
             is_registered (register_via_tx reg a root).1 a' = is_registered reg a'.
Proof.
  intros Hne. unfold get_auth_root, is_registered, register_via_tx.
  destruct (bool_decide (a ∈ registered_addresses reg)); [done|]. cbn [fst auth_roots registered_addresses].
  rewrite lookup_insert_ne by done. split; [done|]. apply bool_decide_ext. set_solver.
Qed.

(** Step 1 for both: each wallet is in step with the node. *)
Lemma demo_registrations i ts1 ts2 v kma kmb :
  let alice := funded_wallet "Alice" kma alice_fund 100000000 in
  let bob := funded_wallet "Bob" kmb bob_fund 50000000 in
  v = (fund (fund (mkValidator utxo_set_new auth_registry_new) alice alice_fund 100000000).1
         bob bob_fund 50000000).1 ->
  fresh_keys (di_alice_seed i) kma -> fresh_keys (di_bob_seed i) kmb -> km_address kma <> km_address kmb ->
  NoDup [Some alice_fund; Some bob_fund; reg_hash alice (di_alice_reg i); reg_hash bob (di_bob_reg i)] ->
  to_ms (di_alice_reg i).1 = Ok ts1 -> (0 <= ts1 < 2 ^ 64)%Z ->
  to_ms (di_bob_reg i).1 = Ok ts2 -> (0 <= ts2 < 2 ^ 64)%Z ->
  exists h1 h2 tx1 tx2 v1 v2, h1 <> alice_fund /\
    let alice' := registered_wallet "Alice" kma alice_fund 100000000 h1 tx1 in
    let bob' := registered_wallet "Bob" kmb bob_fund 50000000 h2 tx2 in
    demo_register v alice "Alice" (di_alice_reg i) = Ok (v1, alice') /\
    demo_register v1 bob "Bob" (di_bob_reg i) = Ok (v2, bob') /\
    in_step alice' v2 (di_alice_seed i) 0 0 0 /\ in_step bob' v2 (di_bob_seed i) 0 0 0.
Proof.
  intros alice bob Ev Hka Hkb Hab Hnd Hn1 Ht1 Hn2 Ht2.
  apply NoDup_cons in Hnd as [Hna Hnd]. apply NoDup_cons in Hnd as [Hnb Hnd].
  apply NoDup_cons in Hnd as [Hnr _]. rewrite not_elem_of_cons, not_elem_of_cons, not_elem_of_cons in Hna.
  rewrite not_elem_of_cons, not_elem_of_cons in Hnb. rewrite not_elem_of_cons in Hnr.
  assert (Hfunds : alice_fund <> bob_fund) by (intros E; rewrite E in Hna; by destruct Hna as [[]]).
  assert (Hva : utxos (v_utxo_set v) !! (alice_fund, 0%Z) =
    Some (mkUTXO alice_fund 0 (mkTxOutput 100000000 (km_address kma) 0 []) 0 false None)).
  { rewrite Ev. cbn [fund fst v_utxo_set add_utxo utxos]. rewrite lookup_insert_ne by (by intros [= E]).
    apply lookup_insert_eq. }
  destruct (demo_register_ok v "Alice" (di_alice_seed i) kma alice_fund 100000000 (di_alice_reg i) ts1 _ Hka Hva)
    as (h1 & Eh1 & Hreg1); try done; [by rewrite Ev|]. fold alice in Eh1, Hreg1.
  assert (Hfree : forall k : outpoint, k.1 <> alice_fund -> k.1 <> bob_fund -> utxos (v_utxo_set v) !! k = None).
  { intros [h j] H1 H2. rewrite Ev. cbn [fund fst v_utxo_set add_utxo utxos]. cbn in H1, H2.
    by rewrite !lookup_insert_ne by congruence. }
  rewrite Eh1 in Hna, Hnb, Hnr.
  assert (H1a : h1 <> alice_fund) by (destruct_and?; congruence). assert (H1b : h1 <> bob_fund) by (destruct_and?; congruence).
  destruct (Hreg1 H1a) as (v1 & tx1 & E1 & Hr1 & Hc1 & Hk1); [intros j; by apply Hfree|].
  assert (Hvb : utxos (v_utxo_set v1) !! (bob_fund, 0%Z) =
    Some (mkUTXO bob_fund 0 (mkTxOutput 50000000 (km_address kmb) 0 []) 0 false None)).
  { rewrite Hk1 by (cbn; congruence). rewrite Ev. apply lookup_insert_eq. }
  assert (Hnew : v_auth_registry v = auth_registry_new) by (by rewrite Ev).
  destruct (register_other_root (v_auth_registry v) (km_address kma) (km_address kmb)
    (batch_root (batch_seed (di_alice_seed i) 0)) Hab) as [_ Hbob].
  destruct (demo_register_ok v1 "Bob" (di_bob_seed i) kmb bob_fund 50000000 (di_bob_reg i) ts2 _ Hkb Hvb)
    as (h2 & Eh2 & Hreg2); try done; [by rewrite Hr1, Hbob, Hnew|]. fold bob in Eh2, Hreg2.
  rewrite Eh2 in Hna, Hnb, Hnr.
  assert (H2a : h2 <> alice_fund) by (destruct_and?; congruence). assert (H2b : h2 <> bob_fund) by (destruct_and?; congruence).
  assert (H21 : h2 <> h1) by (destruct_and?; congruence).
  destruct (Hreg2 H2b) as (v2 & tx2 & E2 & Hr2 & Hc2 & Hk2).
  { intros j. rewrite Hk1 by (cbn; congruence). by apply Hfree. }
  exists h1, h2, tx1, tx2, v1, v2. split; [exact H1a|]. cbv zeta. split; [exact E1|]. split; [exact E2|].
  destruct (register_other_root (v_auth_registry v1) (km_address kmb) (km_address kma)
    (batch_root (batch_seed (di_bob_seed i) 0)) (not_eq_sym Hab)) as [Har Hal].
  rewrite <- (Hk2 (h1, 1%Z)) in Hc1 by (cbn; congruence). split.
  - refine (registered_in_step v2 _ _ _ _ _ _ _ _ Hka H1a Hc1 eq_refl eq_refl _ _).
    + rewrite Hr2, Hal, Hr1. apply register_registered. by rewrite Hnew.
    + rewrite Hr2, Har, Hr1. apply register_root. by rewrite Hnew.
  - refine (registered_in_step v2 _ _ _ _ _ _ _ _ Hkb H2b Hc2 eq_refl eq_refl _ _).
    + rewrite Hr2. apply register_registered. by rewrite Hr1, Hbob, Hnew.
    + rewrite Hr2. apply register_root. by rewrite Hr1, Hbob, Hnew.
Qed.

(** Steps 2 and 3. *)
Lemma demo_signing v name seed km0 f value h tx env ts :
  let w := registered_wallet name km0 f value h tx in
  in_step w v seed 0 0 0 -> (92520 <= value < 2 ^ 64)%Z -> to_ms env.1 = Ok ts -> (0 <= ts < 2 ^ 64)%Z ->
  batch_root (batch_seed seed 1) <> batch_root (batch_seed seed 0) ->
  exists t km, demo_sign (w_key_manager w) (Some (batch_root (batch_seed seed 0))) (seq 0 5)
      = Ok (with_tree (w_key_manager w) t) /\
    km_inv seed 1 1 0 km /\
    demo_rotate (with_keys w (with_tree (w_key_manager w) t)) env = Ok (with_keys w km) /\
    km_address km = w_address w.
Proof.
  intros w Hst Hval Hnow Hts Hroots.
  destruct (demo_sign_ok seed 0 0 (seq 0 5) 0 (w_key_manager w) (is_keys _ _ _ _ _ _ Hst) eq_refl)
    as (t & -> & Hi5); [unfold USABLE_KEYS, TOTAL_KEYS_PER_BATCH, RESERVED_ROTATION; cbn [length seq]; lia|].
  exists t. set (w5 := with_keys w (with_tree (w_key_manager w) t)).
  assert (Hst5 : in_step w5 v seed 0 5 0) by (by apply (in_step_keys w v _ 0 0 0)).
  assert (Hu : spendable_in w5 (mkUTXO h 1 (mkTxOutput (value - 46580) (km_address km0) 0 []) 0 false None)).
  { exists (h, 1%Z). split; [right; by left|]. split; [done|]. cbn. lia. }
  destruct (demo_rotate_ok w5 v seed 0 5 env ts _ Hst5 eq_refl Hu) as (km & E & Hi & Ha);
    [cbn; lia| |cbn; lia|exact Hnow|exact Hts|exact Hroots|].
  - constructor; [cbn; lia|]. constructor; [cbn; lia|constructor].
  - exists km. split; [reflexivity|]. split; [exact Hi|]. split; [exact E|exact Ha].
Qed.

Lemma collide_or_not (l : list (option bytes)) (a a' : option bytes) (r r' : bytes) :
  (~ NoDup l \/ a = a' \/ r = r') \/ (NoDup l /\ a <> a' /\ r <> r').
Proof.
  destruct (decide (NoDup l)); [|tauto]. destruct (decide (a = a')); [tauto|]. destruct (decide (r = r')); tauto.
Qed.

(** C30. The live demonstration ends as it should.  Whatever the seeds and nonces, if the clock
    can be packed, the script ends: both registrations are accepted, the five messages and the
    one after the rotation are verified, the old root rejects the latter, and the exhausted wallet
    raises; or else two hashes collide that the script relies on.  But the rotation was never given
    to the node: at the end Alice signs with her second batch, and the node still has the root of
    her first. *)
Theorem live_demo_verifies (i : DemoInput) (ts1 ts2 ts3 : Z)
    (Hnow1 : to_ms (di_alice_reg i).1 = Ok ts1) (Hts1 : (0 <= ts1 < 2 ^ 64)%Z)
    (Hnow2 : to_ms (di_bob_reg i).1 = Ok ts2) (Hts2 : (0 <= ts2 < 2 ^ 64)%Z)
    (Hnow3 : to_ms (di_rotation i).1 = Ok ts3) (Hts3 : (0 <= ts3 < 2 ^ 64)%Z) :
  demo_collision i \/
  exists s, live_demo i = Ok s /\ ds_exhausted s = true /\
    km_inv (di_alice_seed i) 1 1 0 (w_key_manager (ds_alice s)) /\
    get_auth_root (v_auth_registry (ds_validator s)) (w_address (ds_alice s))
      = Some (batch_root (batch_seed (di_alice_seed i) 0)) /\
    in_step (ds_bob s) (ds_validator s) (di_bob_seed i) 0 0 0.
Proof.
  destruct (collide_or_not (demo_hashes i) (demo_address (di_alice_seed i)) (demo_address (di_bob_seed i))
    (batch_root (batch_seed (di_alice_seed i) 1)) (batch_root (batch_seed (di_alice_seed i) 0)))
    as [Hc|(Hnd & Hab & Hroots)]; [by left|right].
  destruct (new_wallet "Alice" (di_alice_seed i)) as (kma & Ea & Hka).
  destruct (new_wallet "Bob" (di_bob_seed i)) as (kmb & Eb & Hkb).
  rewrite (demo_address_ok _ _ _ Ea), (demo_address_ok _ _ _ Eb) in Hab.
  unfold demo_hashes, demo_reg_hash in Hnd. rewrite Ea, Eb in Hnd.
  unfold live_demo. rewrite Ea, bind_Ok, Eb, bind_Ok.
  set (alice := funded_wallet "Alice" kma alice_fund 100000000). set (bob := funded_wallet "Bob" kmb bob_fund 50000000).
  set (v := (fund (fund (mkValidator utxo_set_new auth_registry_new) alice alice_fund 100000000).1
               bob bob_fund 50000000).1).
  destruct (demo_registrations i ts1 ts2 v kma kmb eq_refl Hka Hkb ltac:(congruence) Hnd Hnow1 Hts1 Hnow2 Hts2)
    as (h1 & h2 & tx1 & tx2 & v1 & v2 & H1a & E1 & E2 & Hsa & Hsb).
  set (alice1 := registered_wallet "Alice" kma alice_fund 100000000 h1 tx1) in *.
  set (bob1 := registered_wallet "Bob" kmb bob_fund 50000000 h2 tx2) in *.
  match goal with |- exists s, ?l = Ok s /\ _ => change l with
    ('(v, alice) ← demo_register v alice "Alice" (di_alice_reg i);
     '(v, bob) ← demo_register v bob "Bob" (di_bob_reg i);
     _ ← py_assert (is_registered (v_auth_registry v) (w_address alice)) "";
     _ ← py_assert (is_registered (v_auth_registry v) (w_address bob)) "";
     km ← demo_sign (w_key_manager alice) (get_auth_root (v_auth_registry v) (w_address alice)) (seq 0 5);
     alice ← demo_rotate (with_keys alice km) (di_rotation i);
     exhausted ← demo_exhaust (di_exhaust_seed i);
     Ok (mkDemoState v alice bob exhausted)) end.
  fold alice bob in E1, E2. rewrite E1, bind_Ok, E2, bind_Ok.
  rewrite (is_reg _ _ _ _ _ _ Hsa), (is_reg _ _ _ _ _ _ Hsb), (is_root _ _ _ _ _ _ Hsa). cbn [py_assert].
  rewrite bind_Ok, bind_Ok.
  destruct (demo_signing v2 "Alice" (di_alice_seed i) kma alice_fund 100000000 h1 tx1 (di_rotation i) ts3
    Hsa ltac:(lia) Hnow3 Hts3 Hroots) as (t & km & Es & Hi & E3 & Ha).
  fold alice1 in Es, E3, Ha. rewrite Es, bind_Ok, E3.
  rewrite bind_Ok, demo_exhaust_ok, bind_Ok. eexists. split; [reflexivity|]. split; [done|].
  cbn [ds_alice ds_validator ds_bob w_key_manager with_keys]. split; [exact Hi|]. split; [|exact Hsb].
  unfold w_address at 1. cbn [with_keys w_key_manager]. rewrite Ha. exact (is_root _ _ _ _ _ _ Hsa).
Qed.

End LiveDemo.

(** ** A concrete run *)

Section Demo.
#[local] Existing Instance toy_hashlib.

Definition sample_input : DemoInput :=
  mkDemoInput (replicate 64 Byte.x01) (replicate 64 Byte.x02) (replicate 64 Byte.x03)
    (one_second, b: "nonce001") (one_second, b: "nonce002") (one_second, b: "nonce003").

Lemma live_demo_verifies_witness :
  demo_collision sample_input \/
  exists s, live_demo sample_input = Ok s /\ ds_exhausted s = true /\
    get_auth_root (v_auth_registry (ds_validator s)) (w_address (ds_alice s))
      = Some (batch_root (batch_seed (replicate 64 Byte.x01) 0)).
Proof.
  destruct (live_demo_verifies sample_input 1000 1000 1000) as [Hc|(s & E & Hx & _ & Hr & _)].
  - by vm_compute.
  - lia.
  - by vm_compute.
  - lia.
  - by vm_compute.
  - lia.
  - by left.
  - right. exists s. split; [exact E|]. split; [exact Hx|exact Hr].
Defined.

End Demo.
