(* ===== verification/Peers.v ===== *)
(** * Peer table and wire framing ([src/src/p2p.py], lines 19-226)

    Length-prefixed message frames over a byte stream, the table of connected peers, and the
    two peer payloads (peer list, self information).  Main results: a stream of encoded
    messages is read back as the same messages ([frames_read_back]); a peer list and a self
    information payload are decoded to what was encoded ([peer_payloads_roundtrip]); the peer
    list decoder ends on every input ([decode_peer_list_ends]). *)

From stdpp Require Import prelude list gmap strings.
From Stdlib Require Import Strings.Byte ZArith Lia.
From S2P Require Import Prelude.
From S2P Require Import Dict.
From S2P Require Import Text.
From S2P Require Import PyFloat.

Set Default Goal Selector "!".

Definition HEARTBEAT_INTERVAL : Z := 30.
Definition HEARTBEAT_TIMEOUT : Z := 90.
Definition MAX_PEERS : nat := 50.
Definition MAX_MESSAGE_SIZE : Z := 16 * 1024 * 1024.
Definition HEADER_SIZE : nat := 5.

(** ** Message types *)

Inductive MessageType :=
  | PING | PONG | PEER_DISCOVERY | PEER_LIST | TX_BROADCAST | MEASUREMENT_COMMIT
  | MEASUREMENT_REVEAL | PROPOSAL | PRE_VOTE | PRE_COMMIT | BLOCK | EPOCH_SYNC.

#[export] Instance message_type_eq_dec : EqDecision MessageType.
Proof. solve_decision. Defined.

Definition message_types : list MessageType :=
  [PING; PONG; PEER_DISCOVERY; PEER_LIST; TX_BROADCAST; MEASUREMENT_COMMIT; MEASUREMENT_REVEAL;
   PROPOSAL; PRE_VOTE; PRE_COMMIT; BLOCK; EPOCH_SYNC].

(** [int(msg_type)]. *)
Definition message_type_value (t : MessageType) : Z :=
  match t with
  | PING => 0 | PONG => 1 | PEER_DISCOVERY => 2 | PEER_LIST => 3 | TX_BROADCAST => 4
  | MEASUREMENT_COMMIT => 5 | MEASUREMENT_REVEAL => 6 | PROPOSAL => 7 | PRE_VOTE => 8
  | PRE_COMMIT => 9 | BLOCK => 10 | EPOCH_SYNC => 11
  end.

(** [MessageType(n)]. *)
Definition message_type_of_value (n : Z) : res MessageType :=
  match message_types !! Z.to_nat n with
  | Some t => if (n <? 0)%Z then Err (ValueError "is not a valid MessageType") else Ok t
  | None => Err (ValueError "is not a valid MessageType")
  end.

(** ** Framing *)

(** [struct.pack(">IB", n, t)]. *)
Definition pack_IB (n t : Z) : res bytes :=
  a ← pack_uint 4 n; b ← pack_uint 1 t; Ok (a ++ b).

Definition encode_message (msg_type : MessageType) (payload : bytes) : res bytes :=
  header ← pack_IB (Z.of_nat (length payload)) (message_type_value msg_type);
  Ok (header ++ payload).

(** [reader.readexactly(n)] on the bytes the stream still delivers before its end. *)
Definition readexactly (n : nat) (stream : bytes) : res bytes * bytes :=
  if length stream <? n then (Err IncompleteReadError, []) else (Ok (take n stream), drop n stream).

(** One framed message; the second component is what is left of the stream. *)
Definition read_message (stream : bytes) : res (MessageType * bytes) * bytes :=
  match readexactly HEADER_SIZE stream with
  | (Err e, rest) => (Err e, rest)
  | (Ok header, rest) =>
      let payload_len := be_decode (take 4 header) in
      let msg_type_int := be_decode (drop 4 header) in
      if (MAX_MESSAGE_SIZE <? payload_len)%Z then (Err (ConnectionError "Message too large"), rest)
      else if (message_type_value EPOCH_SYNC <? msg_type_int)%Z then
        (Err (ConnectionError "Unknown message type"), rest)
      else
        match (if (0 <? payload_len)%Z then readexactly (Z.to_nat payload_len) rest
               else (Ok [], rest)) with
        | (Err e, rest) => (Err e, rest)
        | (Ok payload, rest) => (t ← message_type_of_value msg_type_int; Ok (t, payload), rest)
        end
  end.

(** ** The peer table *)

(** [pc_writer] names the connection whose reader and writer the peer holds. *)
Record PeerConnection := mkPeer {
  pc_validator_id : bytes;
  pc_address : bytes;
  pc_zone_id : Z;
  pc_stake : Z;
  pc_last_seen : float64;
  pc_writer : option nat;
  pc_outbound : bool;
}.

Record PeerManager := mkPeerManager {
  pm_validator_id : bytes;
  pm_zone_id : Z;
  pm_stake : Z;
  pm_peers : dict bytes PeerConnection;
  pm_seed_nodes : list (bytes * Z);
  pm_known_addresses : gset bytes;
}.

Definition with_peers (m : PeerManager) (peers : dict bytes PeerConnection) (known : gset bytes)
    : PeerManager :=
  mkPeerManager (pm_validator_id m) (pm_zone_id m) (pm_stake m) peers (pm_seed_nodes m) known.

Definition peer_manager_new (validator_id : bytes) (zone_id stake : Z) : PeerManager :=
  mkPeerManager validator_id zone_id stake [] [] ∅.

Definition peer_count (m : PeerManager) : nat := length (pm_peers m).

Definition can_accept_peer (m : PeerManager) : bool := peer_count m <? MAX_PEERS.

(** [f"{host}:{port}"]. *)
Definition address_text (host : bytes) (port : Z) : bytes := host ++ byte_of_Z 58 :: dec_text port.

Definition add_seed_nodes (m : PeerManager) (seeds : list (bytes * Z)) : PeerManager :=
  foldl (fun m '(host, port) =>
    mkPeerManager (pm_validator_id m) (pm_zone_id m) (pm_stake m) (pm_peers m)
      (pm_seed_nodes m ++ [(host, port)]) ({[address_text host port]} ∪ pm_known_addresses m))
    m seeds.

Definition add_peer (m : PeerManager) (peer : PeerConnection) : PeerManager * bool :=
  if negb (can_accept_peer m) then (m, false)
  else if bool_decide (pc_validator_id peer = pm_validator_id m) then (m, false)
  else (with_peers m (dict_set (pc_validator_id peer) peer (pm_peers m))
          ({[pc_address peer]} ∪ pm_known_addresses m), true).

Definition remove_peer (m : PeerManager) (validator_id : bytes)
    : PeerManager * option PeerConnection :=
  (with_peers m (dict_del validator_id (pm_peers m)) (pm_known_addresses m),
   dict_get validator_id (pm_peers m)).

Definition get_peer (m : PeerManager) (validator_id : bytes) : option PeerConnection :=
  dict_get validator_id (pm_peers m).

Definition seen_at (p : PeerConnection) (now : float64) : PeerConnection :=
  mkPeer (pc_validator_id p) (pc_address p) (pc_zone_id p) (pc_stake p) now (pc_writer p)
    (pc_outbound p).

Definition touch_peer (m : PeerManager) (validator_id : bytes) (now : float64) : PeerManager :=
  match dict_get validator_id (pm_peers m) with
  | Some peer => with_peers m (dict_set validator_id (seen_at peer now) (pm_peers m))
                   (pm_known_addresses m)
  | None => m
  end.

Definition is_stale (now : float64) (p : PeerConnection) : bool :=
  float_lt (float_of_Z HEARTBEAT_TIMEOUT) (float_sub now (pc_last_seen p)).

Definition get_stale_peers (m : PeerManager) (now : float64) : list bytes :=
  map fst (filter (fun kv => is_stale now kv.2 = true) (pm_peers m)).

(** ** Peer payloads *)

(** [struct.pack(">iQ", zone_id, stake)] and its inverse. *)
Definition pack_iQ (zone_id stake : Z) : res bytes :=
  a ← pack_sint 4 zone_id; b ← pack_uint 8 stake; Ok (a ++ b).

Definition unpack_iQ (data : bytes) : res (Z * Z) :=
  if length data =? 12 then
    z ← unpack_sint 4 (take 4 data); s ← unpack_uint 8 (drop 4 data); Ok (z, s)
  else Err StructError.

Definition encode_peer (peer : PeerConnection) : res bytes :=
  match rsplit_colon (pc_address peer) with
  | None => Err (ValueError "not enough values to unpack")
  | Some (host, port_s) =>
      port ← py_int port_s;
      hl ← pack_uint 2 (Z.of_nat (length host));
      pt ← pack_uint 2 port;
      zs ← pack_iQ (pc_zone_id peer) (pc_stake peer);
      Ok (hl ++ host ++ pt ++ pc_validator_id peer ++ zs)
  end.

Definition encode_peer_list (m : PeerManager) : res bytes :=
  parts ← res_map (fun kv => encode_peer kv.2) (pm_peers m);
  Ok (concat parts).

Record PeerEntry := mkEntry {
  pe_host : bytes;
  pe_port : Z;
  pe_validator_id : bytes;
  pe_zone_id : Z;
  pe_stake : Z;
  pe_address : bytes;
}.

(** The body of the decoding loop at [offset]; the entry and the next offset. *)
Definition decode_peer (data : bytes) (offset : nat) : res (PeerEntry * nat) :=
  host_len ← unpack_uint 2 (slice offset (offset + 2) data);
  let offset := offset + 2 in
  let hl := Z.to_nat host_len in
  host ← utf8_decode (slice offset (offset + hl) data);
  let offset := offset + hl in
  port ← unpack_uint 2 (slice offset (offset + 2) data);
  let offset := offset + 2 in
  let validator_id := slice offset (offset + 32) data in
  let offset := offset + 32 in
  zs ← unpack_iQ (slice offset (offset + 12) data);
  let offset := offset + 12 in
  Ok (mkEntry host port validator_id zs.1 zs.2 (address_text host port), offset).

(** The loop; [results] is what has been appended so far. *)
Fixpoint decode_peers (fuel : nat) (data : bytes) (offset : nat) (results : list PeerEntry)
    : res (list PeerEntry) :=
  if offset <? length data then
    match fuel with
    | O => Err OutOfFuel
    | S fuel =>
        if length data <? offset + 2 then Ok results
        else
          e ← decode_peer data offset;
          decode_peers fuel data e.2 (results ++ [e.1])
    end
  else Ok results.

(** Each round advances the offset, so the length of the payload is fuel enough. *)
Definition decode_peer_list (data : bytes) : res (list PeerEntry) :=
  decode_peers (length data) data 0 [].

(** [struct.pack(">iQH", zone_id, stake, listen_port)]. *)
Definition encode_self_info (m : PeerManager) (listen_port : Z) : res bytes :=
  zs ← pack_iQ (pm_zone_id m) (pm_stake m);
  pt ← pack_uint 2 listen_port;
  Ok (pm_validator_id m ++ zs ++ pt).

Record SelfInfo := mkSelfInfo {
  si_validator_id : bytes;
  si_zone_id : Z;
  si_stake : Z;
  si_listen_port : Z;
}.

Definition decode_self_info (data : bytes) : res SelfInfo :=
  let validator_id := slice 0 32 data in
  let fields := slice 32 46 data in
  if length fields =? 14 then
    zs ← unpack_iQ (take 12 fields);
    listen_port ← unpack_uint 2 (drop 12 fields);
    Ok (mkSelfInfo validator_id zs.1 zs.2 listen_port)
  else Err StructError.

(** ** Lemmas on frames *)

Lemma message_type_value_range t : (0 <= message_type_value t <= 11)%Z.
Proof. destruct t; simpl; lia. Qed.

Lemma message_type_of_value_of t : message_type_of_value (message_type_value t) = Ok t.
Proof. by destruct t. Qed.

Lemma encode_message_inv t payload frame :
  encode_message t payload = Ok frame ->
  frame = be_encode 4 (Z.of_nat (length payload)) ++ be_encode 1 (message_type_value t) ++ payload
  /\ (Z.of_nat (length payload) < 256 ^ 4)%Z.
Proof.
  unfold encode_message, pack_IB. intros E. inv_res.
  apply pack_uint_inv in E1 as [Hr ->]. apply pack_uint_inv in E2 as [_ ->].
  change (Z.of_nat 4) with 4%Z in Hr. split; [by rewrite <- app_assoc|lia].
Qed.

Lemma encode_message_ok t payload :
  (Z.of_nat (length payload) < 256 ^ 4)%Z ->
  encode_message t payload =
    Ok (be_encode 4 (Z.of_nat (length payload)) ++ be_encode 1 (message_type_value t) ++ payload).
Proof.
  intros H. unfold encode_message, pack_IB. pose proof (message_type_value_range t).
  rewrite !pack_uint_ok by (simpl; lia). cbn [mbind res_bind]. by rewrite <- app_assoc.
Qed.

Lemma readexactly_app n l k : n = length l -> readexactly n (l ++ k) = (Ok l, k).
Proof.
  intros ->. unfold readexactly. rewrite (proj2 (Nat.ltb_ge _ _)) by (rewrite length_app; lia).
  by rewrite take_app_length, drop_app_length.
Qed.

(** What the reader sees of a frame: the header's two fields, then the rest of the stream. *)
Lemma read_message_header n t rest :
  (0 <= n < 256 ^ 4)%Z ->
  read_message ((be_encode 4 n ++ be_encode 1 (message_type_value t)) ++ rest) =
    if (MAX_MESSAGE_SIZE <? n)%Z then (Err (ConnectionError "Message too large"), rest)
    else match (if (0 <? n)%Z then readexactly (Z.to_nat n) rest else (Ok [], rest)) with
         | (Err e, rest) => (Err e, rest)
         | (Ok payload, rest) => (Ok (t, payload), rest)
         end.
Proof.
  intros Hn. pose proof (message_type_value_range t). unfold read_message.
  rewrite readexactly_app by (rewrite length_app, !be_encode_length; done).
  rewrite take_app_length', drop_app_length' by (by rewrite be_encode_length).
  rewrite !be_decode_encode_small by (simpl; lia).
  rewrite (proj2 (Z.ltb_ge (message_type_value EPOCH_SYNC) _)) by (simpl; lia).
  rewrite message_type_of_value_of. reflexivity.
Qed.

(** A frame at the head of the stream is read exactly. *)
Lemma read_encoded t payload frame rest :
  (Z.of_nat (length payload) <= MAX_MESSAGE_SIZE)%Z ->
  encode_message t payload = Ok frame ->
  read_message (frame ++ rest) = (Ok (t, payload), rest).
Proof.
  intros Hmax [-> Hlen]%encode_message_inv.
  rewrite (assoc_L _ (be_encode 4 _)), <- (assoc_L _ _ payload).
  rewrite read_message_header by lia. rewrite (proj2 (Z.ltb_ge _ _)) by done.
  destruct payload as [|c payload]; [done|].
  rewrite (proj2 (Z.ltb_lt _ _)) by (simpl; lia).
  by rewrite readexactly_app by lia.
Qed.

(** A payload above the limit is framed by the sender and refused by the reader. *)
Lemma read_oversized t payload frame rest :
  (MAX_MESSAGE_SIZE < Z.of_nat (length payload))%Z ->
  encode_message t payload = Ok frame ->
  read_message (frame ++ rest) = (Err (ConnectionError "Message too large"), payload ++ rest).
Proof.
  intros Hmax [-> Hlen]%encode_message_inv.
  rewrite (assoc_L _ (be_encode 4 _)), <- (assoc_L _ _ payload).
  rewrite read_message_header by lia. by rewrite (proj2 (Z.ltb_lt _ _)).
Qed.

(** Reading a message consumes at least a header. *)
Lemma read_message_consumes stream m rest :
  read_message stream = (Ok m, rest) -> length rest + HEADER_SIZE <= length stream.
Proof.
  unfold read_message, readexactly. intros E.
  destruct (length stream <? HEADER_SIZE) eqn:El; [done|]. bool_to_prop.
  repeat (case_match; try done); bool_to_prop; simplify_eq; rewrite ?length_drop; lia.
Qed.

(** [n] messages in a row. *)
Fixpoint read_messages (n : nat) (stream : bytes) : res (list (MessageType * bytes)) * bytes :=
  match n with
  | O => (Ok [], stream)
  | S n =>
      match read_message stream with
      | (Err e, rest) => (Err e, rest)
      | (Ok m, rest) =>
          let '(ms, rest) := read_messages n rest in (l ← ms; Ok (m :: l), rest)
      end
  end.

(** Framing is a faithful transport.  Whatever sequence of messages of at most 16 MiB is
    encoded, the encodings succeed and the concatenated byte stream is read back as exactly
    that sequence, leaving what follows untouched; when the stream ends there, the next read
    reports [IncompleteReadError]. *)
Theorem frames_read_back (msgs : list (MessageType * bytes)) (rest : bytes)
    (Hsize : Forall (fun m => Z.of_nat (length m.2) <= MAX_MESSAGE_SIZE)%Z msgs) :
  exists frames,
    res_map (fun m => encode_message m.1 m.2) msgs = Ok frames /\
    read_messages (length msgs) (concat frames ++ rest) = (Ok msgs, rest) /\
    (length rest < HEADER_SIZE -> read_message rest = (Err IncompleteReadError, [])).
Proof.
  assert (Hend : length rest < HEADER_SIZE -> read_message rest = (Err IncompleteReadError, [])).
  { intros Hl. unfold read_message, readexactly. by rewrite (proj2 (Nat.ltb_lt _ _)). }
  clear -Hsize Hend. induction Hsize as [|[t p] msgs Hm Hsize (frames & E & Hread & _)].
  - exists []. done.
  - assert (Hlt : (Z.of_nat (length p) < 256 ^ 4)%Z).
    { simpl in Hm. unfold MAX_MESSAGE_SIZE in Hm. lia. }
    pose proof (encode_message_ok t p Hlt) as Ef. eexists (_ :: frames).
    cbn [res_map fst snd]. rewrite Ef, E. cbn [mbind res_bind]. split; [done|]. split; [|done].
    cbn [length read_messages concat]. rewrite <- app_assoc.
    rewrite (read_encoded t p _ _ Hm Ef), Hread. done.
Qed.

Lemma frames_read_back_witness :
  exists frames,
    res_map (fun m => encode_message m.1 m.2) [(PING, []); (TX_BROADCAST, b: "abc")] = Ok frames /\
    read_messages 2 (concat frames ++ [Byte.x00]) = (Ok [(PING, []); (TX_BROADCAST, b: "abc")], [Byte.x00]) /\
    (1 < HEADER_SIZE -> read_message [Byte.x00] = (Err IncompleteReadError, [])).
Proof.
  apply (frames_read_back [(PING, []); (TX_BROADCAST, b: "abc")] [Byte.x00]).
  repeat constructor; vm_compute; discriminate.
Defined.

(** ** Lemmas on peer payloads *)

Lemma unpack_be n z data :
  (0 <= z < 256 ^ Z.of_nat n)%Z -> data = be_encode n z -> unpack_uint n data = Ok z.
Proof. intros Hz ->. by apply unpack_pack_uint, pack_uint_ok. Qed.

Lemma pack_sint_ok n z :
  (- (256 ^ Z.of_nat n / 2) <= z < 256 ^ Z.of_nat n / 2)%Z -> exists l, pack_sint n z = Ok l.
Proof.
  intros Hz. unfold pack_sint. rewrite (proj2 (Z.leb_le _ _)), (proj2 (Z.ltb_lt _ _)) by lia. eauto.
Qed.

Lemma pack_iQ_ok zone_id stake :
  (- 2 ^ 31 <= zone_id < 2 ^ 31)%Z -> (0 <= stake < 2 ^ 64)%Z ->
  exists l, pack_iQ zone_id stake = Ok l /\ length l = 12 /\ unpack_iQ l = Ok (zone_id, stake).
Proof.
  intros Hz Hs. destruct (pack_sint_ok 4 zone_id) as [a Ea]; [change (256 ^ Z.of_nat 4 / 2)%Z with (2 ^ 31)%Z; lia|].
  pose proof (pack_uint_ok 8 stake ltac:(simpl; lia)) as Eb.
  destruct (unpack_pack_sint 4 _ _ ltac:(lia) Ea) as [La Ua].
  unfold pack_iQ, unpack_iQ. rewrite Ea, Eb. eexists. split; [done|].
  rewrite length_app, La, be_encode_length. split; [done|].
  rewrite Nat.eqb_refl, take_app_length', drop_app_length' by done. rewrite Ua.
  cbn [mbind res_bind]. by rewrite (unpack_be 8 stake) by (simpl; lia || done).
Qed.

(** What the peer list codec can carry. *)
Record entry_ok (e : PeerEntry) : Prop := {
  eok_host : utf8_valid (pe_host e) = true;
  eok_host_len : (Z.of_nat (length (pe_host e)) < 2 ^ 16)%Z;
  eok_port : (0 <= pe_port e < 2 ^ 16)%Z;
  eok_id : length (pe_validator_id e) = 32;
  eok_zone : (- 2 ^ 31 <= pe_zone_id e < 2 ^ 31)%Z;
  eok_stake : (0 <= pe_stake e < 2 ^ 64)%Z;
  eok_address : pe_address e = address_text (pe_host e) (pe_port e);
}.

(** The entry another node receives for a peer. *)
Definition describes (e : PeerEntry) (p : PeerConnection) : Prop :=
  pc_address p = pe_address e /\ pc_validator_id p = pe_validator_id e /\
  pc_zone_id p = pe_zone_id e /\ pc_stake p = pe_stake e.

Lemma encode_peer_decode e p :
  entry_ok e -> describes e p ->
  exists l, encode_peer p = Ok l /\ length l = 48 + length (pe_host e) /\
    forall pre suf, decode_peer (pre ++ l ++ suf) (length pre) = Ok (e, length pre + length l).
Proof.
  intros [Hh Hhl Hp Hid Hz Hs Ha] (Da & Di & Dz & Ds).
  destruct (pack_iQ_ok _ _ Hz Hs) as (zs & Ezs & Lzs & Uzs).
  set (hl := be_encode 2 (Z.of_nat (length (pe_host e)))). set (pt := be_encode 2 (pe_port e)).
  exists (hl ++ pe_host e ++ pt ++ pe_validator_id e ++ zs).
  assert (Lhl : length hl = 2) by apply be_encode_length.
  assert (Lpt : length pt = 2) by apply be_encode_length.
  split; [|split].
  - unfold encode_peer. rewrite Da, Ha. unfold address_text.
    rewrite rsplit_colon_app by apply dec_text_no_colon. rewrite py_int_dec.
    cbn [mbind res_bind]. rewrite !pack_uint_ok by (simpl; lia). cbn [mbind res_bind].
    by rewrite Dz, Ds, Ezs, Di.
  - rewrite !length_app. lia.
  - intros pre suf. unfold decode_peer.
    set (data := pre ++ _). set (o := length pre).
    rewrite (slice_at pre hl (pe_host e ++ pt ++ pe_validator_id e ++ zs ++ suf) data o (o + 2))
      by (subst data o; rewrite <- ?app_assoc; done || lia).
    rewrite (unpack_be 2 (Z.of_nat (length (pe_host e)))) by (simpl; lia || done).
    cbn [mbind res_bind]. rewrite Nat2Z.id.
    rewrite (slice_at (pre ++ hl) (pe_host e) (pt ++ pe_validator_id e ++ zs ++ suf) data (o + 2)
               (o + 2 + length (pe_host e)))
      by (subst data o; rewrite ?length_app, <- ?app_assoc; done || lia).
    unfold utf8_decode. rewrite Hh. cbn [mbind res_bind].
    rewrite (slice_at (pre ++ hl ++ pe_host e) pt (pe_validator_id e ++ zs ++ suf) data
               (o + 2 + length (pe_host e)) (o + 2 + length (pe_host e) + 2))
      by (subst data o; rewrite ?length_app, <- ?app_assoc; done || lia).
    rewrite (unpack_be 2 (pe_port e)) by (simpl; lia || done). cbn [mbind res_bind].
    rewrite (slice_at (pre ++ hl ++ pe_host e ++ pt ++ pe_validator_id e) zs suf data
               (o + 2 + length (pe_host e) + 2 + 32))
      by (subst data o; rewrite ?length_app, <- ?app_assoc; done || lia).
    rewrite Uzs. cbn [mbind res_bind fst snd].
    rewrite (slice_at (pre ++ hl ++ pe_host e ++ pt) (pe_validator_id e) (zs ++ suf) data
               (o + 2 + length (pe_host e) + 2))
      by (subst data o; rewrite ?length_app, <- ?app_assoc; done || lia).
    f_equal. f_equal; [|rewrite !length_app; lia].
    destruct e; simpl in *. by rewrite Ha.
Qed.

Lemma unpack_uint_inv n data z :
  unpack_uint n data = Ok z -> length data = n /\ (0 <= z < 256 ^ Z.of_nat n)%Z.
Proof.
  unfold unpack_uint. destruct (_ =? _) eqn:E; [|done]. intros [= <-]. bool_to_prop. subst.
  split; [done|apply be_decode_range].
Qed.

Lemma unpack_iQ_inv data zs :
  unpack_iQ data = Ok zs ->
  length data = 12 /\ (- 2 ^ 31 <= zs.1 < 2 ^ 31)%Z /\ (0 <= zs.2 < 2 ^ 64)%Z.
Proof.
  unfold unpack_iQ, unpack_sint. destruct (_ =? _) eqn:E; [|done]. intros Eu. inv_res.
  apply unpack_uint_inv in E1 as [_ Hs]. change (256 ^ Z.of_nat 8)%Z with (2 ^ 64)%Z in Hs.
  case_match eqn:El; [|done]. inv_res. bool_to_prop. split; [done|]. split; [|done].
  cbn [fst]. pose proof (be_decode_range (take 4 data)) as Hr. rewrite El in Hr.
  change (256 ^ Z.of_nat 4 / 2)%Z with (2 ^ 31)%Z.
  change (256 ^ Z.of_nat 4)%Z with (2 * 2 ^ 31)%Z in *.
  destruct (Z.ltb_spec (be_decode (take 4 data)) (2 ^ 31)); lia.
Qed.

(** The fields of a decoded entry, and the progress of the loop. *)
Lemma decode_peer_progress data offset e next :
  decode_peer data offset = Ok (e, next) -> entry_ok e /\ offset + 48 <= next <= length data.
Proof.
  unfold decode_peer. intros E. inv_res.
  repeat match goal with
  | H : unpack_uint _ _ = Ok _ |- _ => apply unpack_uint_inv in H as [? ?]
  | H : unpack_iQ _ = Ok _ |- _ => apply unpack_iQ_inv in H as (? & ? & ?)
  | H : utf8_decode _ = Ok _ |- _ => unfold utf8_decode in H; destruct (utf8_valid _) eqn:Hu
  end; [|done].
  inv_res. change (256 ^ Z.of_nat 2)%Z with (2 ^ 16)%Z in *.
  repeat match goal with H : length (slice _ _ _) = _ |- _ => rewrite slice_length in H end.
  split; [split; cbn; rewrite ?slice_length; done || lia|lia].
Qed.

Lemma decode_peer_raises data offset x :
  decode_peer data offset = Err x -> x = StructError \/ x = UnicodeDecodeError.
Proof.
  unfold decode_peer, unpack_uint, utf8_decode, unpack_iQ, unpack_sint. intros E.
  repeat (case_match; simpl in *; try (injection E as <-; by auto)); try done.
  all: unfold unpack_uint in *; repeat (case_match; simpl in *; try (injection E as <-; by auto)); done.
Qed.

(** Any fuel above the number of entries left decodes a well-formed tail. *)
Lemma decode_peers_encoded es ps parts pre acc fuel :
  Forall entry_ok es -> Forall2 describes es ps -> Forall2 (fun p l => encode_peer p = Ok l) ps parts ->
  length es <= fuel ->
  decode_peers fuel (pre ++ concat parts) (length pre) acc = Ok (acc ++ es).
Proof.
  intros Hok Hd Hp. revert es Hok Hd pre acc fuel.
  induction Hp as [|p l ps parts Hpl Hp IH]; intros es Hok Hd pre acc fuel Hf.
  - apply Forall2_nil_inv_r in Hd as ->. rewrite !app_nil_r.
    destruct fuel; simpl; by rewrite Nat.ltb_irrefl.
  - apply Forall2_cons_inv_r in Hd as (e & es' & Hde & Hd & ->).
    apply Forall_cons in Hok as [He Hok].
    destruct (encode_peer_decode e p He Hde) as (l' & El & Ll & Hdec).
    assert (l' = l) as -> by congruence. specialize (Hdec pre (concat parts)).
    destruct fuel as [|fuel]; [simpl in Hf; lia|]. cbn [decode_peers concat].
    rewrite (proj2 (Nat.ltb_lt _ _)) by (rewrite !length_app; lia).
    rewrite (proj2 (Nat.ltb_ge _ _)) by (rewrite !length_app; lia).
    rewrite Hdec. cbn [mbind res_bind fst snd].
    rewrite (assoc_L _ pre), <- length_app. rewrite (IH es') by (simpl in Hf; done || lia).
    by rewrite <- app_assoc.
Qed.

Lemma encode_peers_exist es ps :
  Forall entry_ok es -> Forall2 describes es ps ->
  exists parts, Forall2 (fun p l => encode_peer p = Ok l) ps parts /\
                length es <= length (concat parts).
Proof.
  intros Hes Hd. induction Hd as [|e p es ps Hde _ IH]; [by exists []|].
  apply Forall_cons in Hes as [He Hes]. destruct (IH Hes) as (parts & Hparts & Hlen).
  destruct (encode_peer_decode e p He Hde) as (l & El & Ll & _). exists (l :: parts).
  split; [by constructor|]. simpl. rewrite length_app. lia.
Qed.

Lemma res_map_snd {A B C} (f : B -> res C) (l : list (A * B)) :
  res_map (fun kv => f kv.2) l = res_map f (map snd l).
Proof. induction l as [|[a b] l IH]; [done|]. cbn [res_map map snd]. by rewrite IH. Qed.

(** Peer payloads survive the wire.  For any peers whose addresses are
    [host:port] with a UTF-8 host below 64 KiB, a 16-bit port, 32-byte identities, 32-bit
    zones and 64-bit stakes, [encode_peer_list] succeeds and [decode_peer_list] returns one
    entry per peer, in order, with the same fields; and the node's own 46-byte
    [PEER_DISCOVERY] payload decodes to its identity, zone, stake and port. *)
Theorem peer_payloads_roundtrip (m : PeerManager) (es : list PeerEntry) (port : Z)
    (Hes : Forall entry_ok es)
    (Hm : Forall2 describes es (map snd (pm_peers m)))
    (Hid : length (pm_validator_id m) = 32)
    (Hz : (- 2 ^ 31 <= pm_zone_id m < 2 ^ 31)%Z) (Hs : (0 <= pm_stake m < 2 ^ 64)%Z)
    (Hp : (0 <= port < 2 ^ 16)%Z) :
  (exists data, encode_peer_list m = Ok data /\ decode_peer_list data = Ok es) /\
  (exists data, encode_self_info m port = Ok data /\ length data = 46 /\
     decode_self_info data = Ok (mkSelfInfo (pm_validator_id m) (pm_zone_id m) (pm_stake m) port)).
Proof.
  split.
  - destruct (encode_peers_exist es _ Hes Hm) as (parts & Hparts & Hlen).
    exists (concat parts). split.
    + unfold encode_peer_list. rewrite (res_map_snd encode_peer).
      by rewrite (proj2 (res_map_Ok _ _ _) Hparts).
    + by apply (decode_peers_encoded es (map snd (pm_peers m)) parts [] []).
  - destruct (pack_iQ_ok _ _ Hz Hs) as (zs & Ezs & Lzs & Uzs). unfold encode_self_info, decode_self_info.
    rewrite Ezs, pack_uint_ok by (simpl; lia). eexists. split; [done|].
    set (pt := be_encode 2 port). assert (Lpt : length pt = 2) by apply be_encode_length.
    split; [rewrite !length_app; lia|].
    rewrite (slice_at [] (pm_validator_id m) (zs ++ pt) _ 0 32) by (done || simpl; lia).
    rewrite (slice_at (pm_validator_id m) (zs ++ pt) [] _ 32 46) by
      (rewrite ?app_nil_r, ?length_app; done || lia).
    rewrite length_app, Lzs, Lpt. cbn [Nat.eqb Nat.add].
    rewrite take_app_length', drop_app_length' by done. rewrite Uzs. cbn [mbind res_bind].
    by rewrite (unpack_be 2 port) by (simpl; lia || done).
Qed.

Lemma decode_peers_end fuel data offset acc :
  Forall entry_ok acc -> length data - offset <= fuel ->
  48 * length acc <= offset ->
  match decode_peers fuel data offset acc with
  | Ok es => Forall entry_ok es /\ 48 * length es <= offset `max` length data
  | Err x => x = StructError \/ x = UnicodeDecodeError
  end.
Proof.
  revert offset acc. induction fuel as [|fuel IH]; intros offset acc Hacc Hf Hoff; cbn [decode_peers].
  all: destruct (Nat.ltb_spec offset (length data)); [|split; [done|lia]].
  { lia. }
  destruct (Nat.ltb_spec (length data) (offset + 2)); [split; [done|lia]|].
  destruct (decode_peer data offset) as [[e next]|x] eqn:E; cbn [mbind res_bind fst snd].
  - apply decode_peer_progress in E as [He Hn].
    assert (H48 : 48 * length (acc ++ [e]) <= next) by (rewrite length_app; simpl; lia).
    assert (Hacc' : Forall entry_ok (acc ++ [e])) by (apply Forall_app_2; [done|by constructor]).
    specialize (IH next (acc ++ [e]) Hacc' ltac:(lia) H48).
    case_match; [|done]. destruct IH as [? ?]. split; [done|lia].
  - by apply decode_peer_raises in E.
Qed.

(** The peer list decoder ends on every payload a peer can send, however malformed: the
    loop's length fuel is never exhausted; it either raises [struct.error] or
    [UnicodeDecodeError], or returns entries all of whose fields are in range, with 32-byte
    identities and [host:port] addresses, at most one for every 48 bytes received. *)
Theorem decode_peer_list_ends (data : bytes) :
  match decode_peer_list data with
  | Ok es => Forall entry_ok es /\ 48 * length es <= length data
  | Err x => x = StructError \/ x = UnicodeDecodeError
  end.
Proof.
  pose proof (decode_peers_end (length data) data 0 [] ltac:(constructor) ltac:(lia) ltac:(simpl; lia)).
  unfold decode_peer_list. case_match; [|done]. destruct H as [? ?]. split; [done|lia].
Qed.

(** ** Sample data *)

Definition demo_peer : PeerConnection :=
  mkPeer (replicate 32 Byte.x07) (address_text (b: "127.0.0.1") 9000) (-3) 1000
    (float_of_Z 0) (Some 1) true.

Definition demo_manager : PeerManager :=
  (add_peer (add_seed_nodes (peer_manager_new (replicate 32 Byte.x01) 2 500) [(b: "seed", 9000%Z)])
     demo_peer).1.

Lemma peer_payloads_roundtrip_witness :
  (exists data, encode_peer_list demo_manager = Ok data /\
     decode_peer_list data = Ok [mkEntry (b: "127.0.0.1") 9000 (replicate 32 Byte.x07) (-3) 1000
                                   (b: "127.0.0.1:9000")]) /\
  (exists data, encode_self_info demo_manager 9001 = Ok data /\ length data = 46 /\
     decode_self_info data = Ok (mkSelfInfo (replicate 32 Byte.x01) 2 500 9001)).
Proof.
  apply (peer_payloads_roundtrip demo_manager).
  - repeat constructor; try (vm_compute; done).
  - repeat constructor.
  - reflexivity.
  - split; vm_compute; done.
  - split; vm_compute; done.
  - split; vm_compute; done.
Defined.
