(* ===== verification/P2P.v ===== *)
(** * The TCP node ([src/src/p2p.py], lines 229-594)

    [P2PNode] over an abstract transport: a connection is a number, its record holds what has
    been written to it.  A coroutine is cut at its awaits: each definition below runs from one
    await to the next, and what an await delivers (an accepted socket, a message, the clock)
    is an argument.  The callback registered by the owner of the node is the class
    [AppHandler].  Main results: in every interleaving of handlers the table keeps at most
    [MAX_PEERS] peers, never the node itself, each under its own identity
    ([peer_table_invariant]); a read loop ends on every finite stream and leaves no entry for
    its peer ([read_loop_ends]); a broadcast reaches exactly the live connections
    ([broadcast_delivers]); the end of a superseded connection's loop drops the connection
    that replaced it ([stale_loop_drops_reconnection]). *)

From stdpp Require Import prelude list gmap strings.
From Stdlib Require Import Strings.Byte ZArith Lia.
From S2P Require Import Prelude.
From S2P Require Import Dict.
From S2P Require Import Text.
From S2P Require Import PyFloat.
From S2P Require Import Peers.

Set Default Goal Selector "!".

(** ** Connections *)

(** [cn_closing] is set by [writer.close()], [cn_lost] by the transport. *)
Record Conn := mkConn {
  cn_out : bytes;
  cn_closing : bool;
  cn_lost : bool;
}.

Definition fresh_conn : Conn := mkConn [] false false.

(** [self._tasks]: what is cancelled by [stop]. *)
Inductive task :=
  | HeartbeatTask
  | ReadLoopTask (peer : PeerConnection).

Record P2PNode := mkP2PNode {
  pn_manager : PeerManager;
  pn_conns : gmap nat Conn;
  pn_serving : bool;
  pn_host : bytes;
  pn_port : Z;
  pn_tasks : list task;
  pn_running : bool;
}.

Definition p2p_new (validator_id : bytes) (zone_id stake : Z) : P2PNode :=
  mkP2PNode (peer_manager_new validator_id zone_id stake) ∅ false [] 0 [] false.

Definition with_manager (s : P2PNode) (m : PeerManager) : P2PNode :=
  mkP2PNode m (pn_conns s) (pn_serving s) (pn_host s) (pn_port s) (pn_tasks s) (pn_running s).

Definition with_conns (s : P2PNode) (conns : gmap nat Conn) : P2PNode :=
  mkP2PNode (pn_manager s) conns (pn_serving s) (pn_host s) (pn_port s) (pn_tasks s) (pn_running s).

Definition add_task (s : P2PNode) (t : task) : P2PNode :=
  mkP2PNode (pn_manager s) (pn_conns s) (pn_serving s) (pn_host s) (pn_port s)
    (pn_tasks s ++ [t]) (pn_running s).

Definition conn_of (s : P2PNode) (c : nat) : Conn := lookup_default fresh_conn (pn_conns s) c.

Definition set_conn (s : P2PNode) (c : nat) (k : Conn) : P2PNode :=
  with_conns s (<[c := k]> (pn_conns s)).

(** [writer.is_closing()]: closed here, or lost. *)
Definition is_closing (s : P2PNode) (c : nat) : bool := cn_closing (conn_of s c) || cn_lost (conn_of s c).

(** [writer.close()]. *)
Definition close_conn (s : P2PNode) (c : nat) : P2PNode :=
  set_conn s c (mkConn (cn_out (conn_of s c)) true (cn_lost (conn_of s c))).

(** [writer.write(data)]: a closing or lost transport drops the data. *)
Definition write_conn (s : P2PNode) (c : nat) (data : bytes) : P2PNode :=
  if is_closing s c then s
  else set_conn s c (mkConn (cn_out (conn_of s c) ++ data) false false).

(** [await writer.drain()] raises on a lost connection. *)
Definition drain (s : P2PNode) (c : nat) : res unit :=
  if cn_lost (conn_of s c) then Err (ConnectionError "Connection lost") else Ok tt.

(** ** Sending *)

Definition send_raw (s : P2PNode) (peer : PeerConnection) (t : MessageType) (payload : bytes)
    : P2PNode * res unit :=
  match pc_writer peer with
  | None => (s, Err (ConnectionError "Writer closed"))
  | Some c =>
      if is_closing s c then (s, Err (ConnectionError "Writer closed"))
      else match encode_message t payload with
           | Err e => (s, Err e)
           | Ok data => let s := write_conn s c data in (s, drain s c)
           end
  end.

Definition send_to (s : P2PNode) (peer_id : bytes) (t : MessageType) (payload : bytes)
    : P2PNode * res unit :=
  match get_peer (pn_manager s) peer_id with
  | None => (s, Err KeyError)
  | Some peer => send_raw s peer t payload
  end.

(** Exceptions of a send are swallowed; the result counts the sends that went through. *)
Definition broadcast (s : P2PNode) (t : MessageType) (payload : bytes) : P2PNode * nat :=
  foldl (fun '(s, sent) vid =>
           match send_to s vid t payload with
           | (s, Ok _) => (s, S sent)
           | (s, Err _) => (s, sent)
           end)
    (s, 0) (dict_keys (pm_peers (pn_manager s))).

Definition exchange_peer_lists (s : P2PNode) (peer : PeerConnection) : P2PNode :=
  match encode_peer_list (pn_manager s) with
  | Ok pl_payload => (send_raw s peer PEER_LIST pl_payload).1
  | Err _ => s
  end.

(** ** Closing *)

Definition close_peer (s : P2PNode) (validator_id : bytes) : P2PNode :=
  let '(m, peer) := remove_peer (pn_manager s) validator_id in
  let s := with_manager s m in
  match peer with
  | Some p =>
      match pc_writer p with
      | Some c => if is_closing s c then s else close_conn s c
      | None => s
      end
  | None => s
  end.

(** ** Lifecycle *)

Definition start (s : P2PNode) (host : bytes) (port : Z) : P2PNode :=
  mkP2PNode (pn_manager s) (pn_conns s) true host port (pn_tasks s ++ [HeartbeatTask]) true.

(** The cancelled coroutines end on their own ([read_loop_step] with no message). *)
Definition stop (s : P2PNode) : P2PNode :=
  let s := mkP2PNode (pn_manager s) (pn_conns s) (pn_serving s) (pn_host s) (pn_port s) [] false in
  let s := foldl (fun s kv => close_peer s (pc_validator_id kv.2)) s (pm_peers (pn_manager s)) in
  mkP2PNode (pn_manager s) (pn_conns s) false (pn_host s) (pn_port s) (pn_tasks s) (pn_running s).

(** ** Outbound connections *)

(** Up to the wait for the other side's handshake.  [opened] is the connection of
    [asyncio.open_connection], [None] for an [OSError].  [Ok None] is [return False]. *)
Definition connect_begin (s : P2PNode) (opened : option nat) : P2PNode * res (option nat) :=
  if negb (can_accept_peer (pn_manager s)) then (s, Ok None)
  else match opened with
  | None => (s, Ok None)
  | Some c =>
      match (info ← encode_self_info (pn_manager s) (pn_port s); encode_message PEER_DISCOVERY info) with
      | Err e => (s, Err e)
      | Ok frame =>
          let s := write_conn s c frame in
          match drain s c with
          | Err e => (s, Err e)
          | Ok _ => (s, Ok (Some c))
          end
      end
  end.

(** From the other side's handshake [msg] on. *)
Definition connect_finish (s : P2PNode) (host : bytes) (c : nat) (msg : res (MessageType * bytes))
    (now : float64) : P2PNode * res bool :=
  match msg with
  | Err _ => (close_conn s c, Ok false)
  | Ok (t, payload) =>
      if negb (bool_decide (t = PEER_DISCOVERY)) then (close_conn s c, Ok false)
      else match decode_self_info payload with
      | Err e => (s, Err e)
      | Ok info =>
          if bool_decide (si_validator_id info = pm_validator_id (pn_manager s)) then
            (close_conn s c, Ok false)
          else
            let peer := mkPeer (si_validator_id info) (address_text host (si_listen_port info))
                          (si_zone_id info) (si_stake info) now (Some c) true in
            let '(m, added) := add_peer (pn_manager s) peer in
            if negb added then (close_conn (with_manager s m) c, Ok false)
            else
              let s := exchange_peer_lists (with_manager s m) peer in
              (add_task s (ReadLoopTask peer), Ok true)
      end
  end.

(** The coroutine when nothing else runs at its awaits. *)
Definition connect_to_peer (s : P2PNode) (host : bytes) (opened : option nat)
    (msg : res (MessageType * bytes)) (now : float64) : P2PNode * res bool :=
  match connect_begin s opened with
  | (s, Err e) => (s, Err e)
  | (s, Ok None) => (s, Ok false)
  | (s, Ok (Some c)) => connect_finish s host c msg now
  end.

(** [answers] gives, for each seed tried, the socket and the handshake it produces.  The loop
    reads [self.peer_manager.seed_nodes] once; nothing modifies it meanwhile. *)
Fixpoint bootstrap (s : P2PNode) (seeds : list (bytes * Z))
    (answers : list (option nat * res (MessageType * bytes) * float64)) (connected : nat)
    : P2PNode * res nat :=
  match seeds, answers with
  | (host, port) :: seeds, (opened, msg, now) :: answers =>
      if MAX_PEERS <=? peer_count (pn_manager s) then (s, Ok connected)
      else match connect_to_peer s host opened msg now with
           | (s, Err e) => (s, Err e)
           | (s, Ok ok) => bootstrap s seeds answers (if ok then S connected else connected)
           end
  | _, _ => (s, Ok connected)
  end.

(** ** Inbound connections *)

(** On accepting connection [c]: [false] when it is closed at once. *)
Definition inbound_begin (s : P2PNode) (c : nat) : P2PNode * bool :=
  if negb (can_accept_peer (pn_manager s)) then (close_conn s c, false) else (s, true).

(** From the other side's handshake to our answer: the information to admit, if any. *)
Definition inbound_answer (s : P2PNode) (c : nat) (msg : res (MessageType * bytes))
    : P2PNode * res (option SelfInfo) :=
  match msg with
  | Err _ => (close_conn s c, Ok None)
  | Ok (t, payload) =>
      if negb (bool_decide (t = PEER_DISCOVERY)) then (close_conn s c, Ok None)
      else match decode_self_info payload with
      | Err e => (s, Err e)
      | Ok info =>
          if bool_decide (si_validator_id info = pm_validator_id (pn_manager s)) then
            (close_conn s c, Ok None)
          else if bool_decide (si_validator_id info ∈ dict_keys (pm_peers (pn_manager s))) then
            (close_conn s c, Ok None)
          else
            match (own ← encode_self_info (pn_manager s) (pn_port s); encode_message PEER_DISCOVERY own) with
            | Err e => (s, Err e)
            | Ok frame =>
                let s := write_conn s c frame in
                match drain s c with
                | Err e => (s, Err e)
                | Ok _ => (s, Ok (Some info))
                end
            end
      end
  end.

(** After the answer has been drained; [peername] is the remote host when it is known. *)
Definition inbound_admit (s : P2PNode) (c : nat) (info : SelfInfo) (peername : option bytes)
    (now : float64) : P2PNode :=
  let remote_host := default (b: "unknown") peername in
  let peer := mkPeer (si_validator_id info) (address_text remote_host (si_listen_port info))
                (si_zone_id info) (si_stake info) now (Some c) false in
  let '(m, added) := add_peer (pn_manager s) peer in
  if negb added then close_conn (with_manager s m) c
  else add_task (exchange_peer_lists (with_manager s m) peer) (ReadLoopTask peer).

Definition handle_inbound (s : P2PNode) (c : nat) (msg : res (MessageType * bytes))
    (peername : option bytes) (now : float64) : P2PNode * res unit :=
  match inbound_begin s c with
  | (s, false) => (s, Ok tt)
  | (s, true) =>
      match inbound_answer s c msg with
      | (s, Err e) => (s, Err e)
      | (s, Ok None) => (s, Ok tt)
      | (s, Ok (Some info)) => (inbound_admit s c info peername now, Ok tt)
      end
  end.

(** ** The message callback *)

(** What the node promises to its owner's callback and expects from it: the callback may send
    messages and change its owner's state [A], but not the peer table. *)
Class AppHandler (A : Type) := {
  message_handler : option (A -> P2PNode -> bytes -> MessageType -> bytes -> A * P2PNode * res unit);
  handler_keeps_table : forall f a s peer_id t payload,
    message_handler = Some f -> pn_manager (f a s peer_id t payload).1.2 = pn_manager s;
}.

Section Loop.
Context {A : Type} `{!AppHandler A}.

Definition dispatch (a : A) (s : P2PNode) (peer_id : bytes) (t : MessageType) (payload : bytes)
    : A * P2PNode * res unit :=
  match t with
  | PING => let '(s, r) := send_to s peer_id PONG [] in (a, s, r)
  | PONG => (a, s, Ok tt)
  | PEER_LIST =>
      match decode_peer_list payload with
      | Err e => (a, s, Err e)
      | Ok entries =>
          let m := pn_manager s in
          (a, with_manager s (with_peers m (pm_peers m)
                (list_to_set (map pe_address entries) ∪ pm_known_addresses m)), Ok tt)
      end
  | _ =>
      match message_handler with
      | Some f => let '(a, s, _) := f a s peer_id t payload in (a, s, Ok tt)
      | None => (a, s, Ok tt)
      end
  end.

(** The exceptions the loop absorbs. *)
Definition caught (e : exn) : bool :=
  match e with
  | IncompleteReadError | ConnectionError _ | TimeoutError | OSError => true
  | _ => false
  end.

Inductive loop_result :=
  | Continue
  | Ended (escaped : option exn).

(** One round of the loop of [peer]: [msg] is what the awaited read gives. *)
Definition read_loop_step (a : A) (s : P2PNode) (peer : PeerConnection)
    (msg : res (MessageType * bytes)) (now : float64) : A * P2PNode * loop_result :=
  let vid := pc_validator_id peer in
  let finish a s e := (a, close_peer s vid, Ended e) in
  let handle e := if caught e then None else Some e in
  if negb (pn_running s) || bool_decide (pc_writer peer = None) then finish a s None
  else match msg with
  | Err e => finish a s (handle e)
  | Ok (t, payload) =>
      let s := with_manager s (touch_peer (pn_manager s) vid now) in
      match dispatch a s vid t payload with
      | (a, s, Ok _) => (a, s, Continue)
      | (a, s, Err e) => finish a s (handle e)
      end
  end.

(** The loop on everything the peer sends until its end of the connection closes, with no
    other coroutine in between; [clock k] is the time of the [k]-th message. *)
Fixpoint read_loop (fuel : nat) (a : A) (s : P2PNode) (peer : PeerConnection) (stream : bytes)
    (clock : nat -> float64) (k : nat) : A * P2PNode * loop_result :=
  match fuel with
  | O => (a, s, Continue)
  | S fuel =>
      let '(msg, rest) := read_message stream in
      match read_loop_step a s peer msg (clock k) with
      | (a, s, Continue) => read_loop fuel a s peer rest clock (S k)
      | r => r
      end
  end.

(** ** Heartbeat *)

(** What follows the sleep: ping everybody, then drop the stale peers. *)
Definition heartbeat (s : P2PNode) (now : float64) : P2PNode :=
  let s := foldl (fun s vid => (send_to s vid PING []).1) s (dict_keys (pm_peers (pn_manager s))) in
  foldl close_peer s (get_stale_peers (pn_manager s) now).

End Loop.

(** ** Status *)

Record P2PStatus := mkP2PStatus {
  st_validator_id : bytes;
  st_listening : bytes;
  st_peers : nat;
  st_known_addresses : nat;
  st_running : bool;
}.

Definition p2p_status (s : P2PNode) : P2PStatus :=
  mkP2PStatus (take 16 (hex_text (pm_validator_id (pn_manager s)))) (address_text (pn_host s) (pn_port s))
    (peer_count (pn_manager s)) (size (pm_known_addresses (pn_manager s))) (pn_running s).

(** ** Events and runs *)

(** One scheduling step: a coroutine between two awaits, or the transport losing a
    connection.  The steps of several coroutines may be interleaved in any order. *)
Inductive p2p_event :=
  | EvStart (host : bytes) (port : Z)
  | EvStop
  | EvSeeds (seeds : list (bytes * Z))
  | EvConnect (opened : option nat)
  | EvConnected (host : bytes) (c : nat) (msg : res (MessageType * bytes)) (now : float64)
  | EvAccept (c : nat)
  | EvInbound (c : nat) (msg : res (MessageType * bytes))
  | EvAdmit (c : nat) (info : SelfInfo) (peername : option bytes) (now : float64)
  | EvRead (peer : PeerConnection) (msg : res (MessageType * bytes)) (now : float64)
  | EvHeartbeat (now : float64)
  | EvBroadcast (t : MessageType) (payload : bytes)
  | EvLost (c : nat).

Definition p2p_step `{!AppHandler A} (x : A * P2PNode) (e : p2p_event) : A * P2PNode :=
  let '(a, s) := x in
  match e with
  | EvStart host port => (a, start s host port)
  | EvStop => (a, stop s)
  | EvSeeds seeds => (a, with_manager s (add_seed_nodes (pn_manager s) seeds))
  | EvConnect opened => (a, (connect_begin s opened).1)
  | EvConnected host c msg now => (a, (connect_finish s host c msg now).1)
  | EvAccept c => (a, (inbound_begin s c).1)
  | EvInbound c msg => (a, (inbound_answer s c msg).1)
  | EvAdmit c info peername now => (a, inbound_admit s c info peername now)
  | EvRead peer msg now => (read_loop_step a s peer msg now).1
  | EvHeartbeat now => (a, heartbeat s now)
  | EvBroadcast t payload => (a, (broadcast s t payload).1)
  | EvLost c => (a, set_conn s c (mkConn (cn_out (conn_of s c)) (cn_closing (conn_of s c)) true))
  end.

Definition p2p_run `{!AppHandler A} (x : A * P2PNode) (es : list p2p_event) : A * P2PNode :=
  foldl p2p_step x es.

(** ** The peer table *)

Record table_ok (m : PeerManager) : Prop := {
  tok_wf : dict_wf (pm_peers m);
  tok_size : peer_count m <= MAX_PEERS;
  tok_entry : forall k p, dict_get k (pm_peers m) = Some p ->
    pc_validator_id p = k /\ k <> pm_validator_id m /\ pc_address p ∈ pm_known_addresses m;
}.

Lemma peer_manager_new_ok v z st : table_ok (peer_manager_new v z st).
Proof. split; simpl; [apply NoDup_nil_2|unfold peer_count, MAX_PEERS; simpl; lia|done]. Qed.

(** Learning addresses keeps the table. *)
Lemma table_ok_known m known :
  table_ok m -> pm_known_addresses m ⊆ known -> table_ok (with_peers m (pm_peers m) known).
Proof. intros [W S E] Hk. split; [done..|]. intros k p Hp. destruct (E k p Hp) as (? & ? & ?). set_solver. Qed.

Lemma add_peer_ok m p : table_ok m -> table_ok (add_peer m p).1.
Proof.
  intros [W S E]. unfold add_peer. destruct (can_accept_peer m) eqn:Ha; [|done].
  case_bool_decide as Hid; [done|]. simpl. unfold can_accept_peer in Ha. bool_to_prop.
  split; simpl; [by apply dict_set_wf|..].
  - unfold peer_count in *. simpl. rewrite dict_set_length. case_decide; lia.
  - intros k q. destruct (decide (pc_validator_id p = k)) as [<-|Hk].
    + rewrite dict_get_set_eq. intros [= <-]. set_solver.
    + rewrite dict_get_set_ne by done. intros Hq. destruct (E k q Hq) as (? & ? & ?). set_solver.
Qed.

Lemma remove_peer_ok m v : table_ok m -> table_ok (remove_peer m v).1.
Proof.
  intros [W S E]. split; simpl; [by apply dict_del_wf|..].
  - unfold peer_count in *. simpl. pose proof (dict_del_length v (pm_peers m)). lia.
  - intros k p. rewrite dict_get_del by done. case_decide; [done|]. apply E.
Qed.

Lemma touch_peer_ok m v now : table_ok m -> table_ok (touch_peer m v now).
Proof.
  intros [W S E]. unfold touch_peer. destruct (dict_get v (pm_peers m)) as [p|] eqn:Ep; [|done].
  split; simpl; [by apply dict_set_wf|..].
  - unfold peer_count in *. simpl. rewrite dict_set_length, decide_True; [done|].
    by eapply dict_get_keys.
  - intros k q. destruct (decide (v = k)) as [<-|Hk].
    + rewrite dict_get_set_eq. intros [= <-]. apply (E v p Ep).
    + rewrite dict_get_set_ne by done. apply E.
Qed.

Lemma add_seed_nodes_peers m seeds :
  pm_peers (add_seed_nodes m seeds) = pm_peers m /\
  pm_validator_id (add_seed_nodes m seeds) = pm_validator_id m /\
  pm_known_addresses m ⊆ pm_known_addresses (add_seed_nodes m seeds).
Proof.
  revert m. unfold add_seed_nodes. induction seeds as [|[h p] seeds IH]; intros m; simpl; [done|].
  destruct (IH (mkPeerManager (pm_validator_id m) (pm_zone_id m) (pm_stake m) (pm_peers m)
    (pm_seed_nodes m ++ [(h, p)]) ({[address_text h p]} ∪ pm_known_addresses m))) as (-> & -> & Hk).
  simpl in Hk. repeat split. set_solver.
Qed.

(** Writing to connections leaves the rest of the node alone. *)
Definition same_table (s s' : P2PNode) : Prop :=
  pn_manager s' = pn_manager s /\ pn_running s' = pn_running s.

#[export] Instance same_table_preorder : PreOrder same_table.
Proof. split; [by split|]. intros s1 s2 s3 [? ?] [? ?]. split; congruence. Qed.

Lemma close_conn_same s c : same_table s (close_conn s c).
Proof. by split. Qed.

Lemma write_conn_same s c data : same_table s (write_conn s c data).
Proof. unfold write_conn. by case_match. Qed.

Lemma send_raw_same s p t payload : same_table s (send_raw s p t payload).1.
Proof.
  unfold send_raw. repeat case_match; try done. apply write_conn_same.
Qed.

Lemma send_to_same s v t payload : same_table s (send_to s v t payload).1.
Proof. unfold send_to. case_match; [apply send_raw_same|done]. Qed.

Lemma exchange_same s p : same_table s (exchange_peer_lists s p).
Proof. unfold exchange_peer_lists. case_match; [apply send_raw_same|done]. Qed.

Lemma broadcast_same s t payload : same_table s (broadcast s t payload).1.
Proof.
  unfold broadcast. generalize 0, (dict_keys (pm_peers (pn_manager s))). intros n l.
  revert s n. induction l as [|v l IH]; intros s n; [done|]. cbn [foldl].
  pose proof (send_to_same s v t payload) as Hs. destruct (send_to s v t payload) as [s' r].
  transitivity s'; [done|]. destruct r; apply IH.
Qed.

Lemma connect_begin_same s opened : same_table s (connect_begin s opened).1.
Proof. unfold connect_begin. repeat case_match; try done; apply write_conn_same. Qed.

Lemma inbound_begin_same s c : same_table s (inbound_begin s c).1.
Proof. unfold inbound_begin. by case_match. Qed.

Lemma inbound_answer_same s c msg : same_table s (inbound_answer s c msg).1.
Proof. unfold inbound_answer. repeat case_match; try done; apply write_conn_same. Qed.

Lemma close_peer_table s v :
  pn_manager (close_peer s v) = (remove_peer (pn_manager s) v).1 /\
  pn_running (close_peer s v) = pn_running s.
Proof. unfold close_peer, remove_peer. repeat case_match; done. Qed.

(** A property of the table that removing an entry keeps survives closing any peers. *)
Lemma close_peers_keep (P : PeerManager -> Prop) {B} (f : B -> bytes) (l : list B) s :
  (forall m v, P m -> P (remove_peer m v).1) -> P (pn_manager s) ->
  P (pn_manager (foldl (fun s b => close_peer s (f b)) s l)).
Proof.
  intros HP. revert s. induction l as [|b l IH]; intros s Hs; [done|]. cbn [foldl].
  apply IH. destruct (close_peer_table s (f b)) as [-> _]. by apply HP.
Qed.

Section Invariant.
Context {A : Type} `{!AppHandler A}.

Lemma dispatch_table a s v t payload :
  let s' := (dispatch a s v t payload).1.2 in
  exists known, pn_manager s' = with_peers (pn_manager s) (pm_peers (pn_manager s)) known /\
                pm_known_addresses (pn_manager s) ⊆ known.
Proof.
  assert (Hid : forall m, exists known, m = with_peers m (pm_peers m) known /\ pm_known_addresses m ⊆ known).
  { intros []. eexists. split; [reflexivity|done]. }
  assert (Ha : let s' := match message_handler with
      | Some f => let '(a, s, _) := f a s v t payload in (a, s, Ok tt)
      | None => (a, s, Ok tt) end.1.2 : P2PNode in pn_manager s' = pn_manager s).
  { destruct message_handler as [f|] eqn:E; [|done].
    pose proof (handler_keeps_table f a s v t payload E) as Hk.
    by destruct (f a s v t payload) as [[a' s'] r]. }
  destruct t; cbn [dispatch]; try (simpl in *; rewrite Ha; apply Hid).
  - pose proof (send_to_same s v PONG []) as [Hm _]. destruct (send_to s v PONG []) as [s' r].
    simpl in *. rewrite Hm. apply Hid.
  - apply Hid.
  - destruct (decode_peer_list payload); [|apply Hid]. simpl. eexists. split; [reflexivity|]. set_solver.
Qed.

Lemma dispatch_ok a s v t payload :
  table_ok (pn_manager s) -> table_ok (pn_manager (dispatch a s v t payload).1.2).
Proof.
  intros Hs. destruct (dispatch_table a s v t payload) as (known & -> & Hk).
  by apply table_ok_known.
Qed.

Lemma read_loop_step_ok a s peer msg now :
  table_ok (pn_manager s) -> table_ok (pn_manager (read_loop_step a s peer msg now).1.2).
Proof.
  intros Hs. unfold read_loop_step.
  assert (Hc : forall s v, table_ok (pn_manager s) -> table_ok (pn_manager (close_peer s v))).
  { intros s' v Hs'. destruct (close_peer_table s' v) as [-> _]. by apply remove_peer_ok. }
  case_match; [by apply Hc|]. destruct msg as [[t payload]|e]; [|by apply Hc].
  pose proof (dispatch_ok a (with_manager s (touch_peer (pn_manager s) (pc_validator_id peer) now))
    (pc_validator_id peer) t payload (touch_peer_ok _ _ _ Hs)) as Hd.
  destruct (dispatch _ _ _ _ _) as [[a' s'] [[]|e]]; [done|by apply Hc].
Qed.

Definition table_of (v : bytes) (m : PeerManager) : Prop := table_ok m /\ pm_validator_id m = v.

Lemma add_peer_id m p : pm_validator_id (add_peer m p).1 = pm_validator_id m.
Proof. unfold add_peer. by repeat case_match. Qed.

Lemma same_table_of v s s' : same_table s s' -> table_of v (pn_manager s) -> table_of v (pn_manager s').
Proof. by intros [-> _]. Qed.

Lemma connect_finish_table v s host c msg now :
  table_of v (pn_manager s) -> table_of v (pn_manager (connect_finish s host c msg now).1).
Proof.
  intros [Hs Hv]. unfold connect_finish. destruct msg as [[t payload]|e]; [|done].
  case_match; [done|]. destruct (decode_self_info payload) as [info|e]; [|done].
  case_match; [done|]. set (p := mkPeer _ _ _ _ _ _ _).
  pose proof (add_peer_ok (pn_manager s) p Hs) as Ha. pose proof (add_peer_id (pn_manager s) p) as Hi.
  destruct (add_peer (pn_manager s) p) as [m [|]]; simpl in *; [|by split; [|congruence]].
  apply (same_table_of _ (with_manager s m)); [apply exchange_same|]. by split; [|simpl; congruence].
Qed.

Lemma inbound_admit_table v s c info peername now :
  table_of v (pn_manager s) -> table_of v (pn_manager (inbound_admit s c info peername now)).
Proof.
  intros [Hs Hv]. unfold inbound_admit. set (p := mkPeer _ _ _ _ _ _ _).
  pose proof (add_peer_ok (pn_manager s) p Hs) as Ha. pose proof (add_peer_id (pn_manager s) p) as Hi.
  destruct (add_peer (pn_manager s) p) as [m [|]]; simpl in *; [|by split; [|congruence]].
  apply (same_table_of _ (with_manager s m)); [apply exchange_same|]. by split; [|simpl; congruence].
Qed.

Lemma heartbeat_table v s now : table_of v (pn_manager s) -> table_of v (pn_manager (heartbeat s now)).
Proof.
  intros Hs. unfold heartbeat.
  assert (Hp : forall l s, same_table s (foldl (fun s vid => (send_to s vid PING []).1) s l)).
  { induction l as [|x l IH]; intros s0; [done|]. cbn [foldl].
    transitivity (send_to s0 x PING []).1; [apply send_to_same|apply IH]. }
  apply (close_peers_keep (table_of v) id).
  - intros m x [? ?]. split; [by apply remove_peer_ok|done].
  - by apply (same_table_of _ s).
Qed.

Lemma read_loop_step_id a s peer msg now :
  pm_validator_id (pn_manager (read_loop_step a s peer msg now).1.2) = pm_validator_id (pn_manager s).
Proof.
  unfold read_loop_step.
  assert (Hc : forall s v, pm_validator_id (pn_manager (close_peer s v)) = pm_validator_id (pn_manager s)).
  { intros s' v. by destruct (close_peer_table s' v) as [-> _]. }
  case_match; [apply Hc|]. destruct msg as [[t payload]|e]; [|apply Hc].
  set (s1 := with_manager s _).
  destruct (dispatch_table a s1 (pc_validator_id peer) t payload) as (known & Hm & _).
  assert (Ht : pm_validator_id (pn_manager s1) = pm_validator_id (pn_manager s)).
  { simpl. unfold touch_peer. by case_match. }
  destruct (dispatch _ _ _ _ _) as [[a' s'] [[]|e]]; simpl in *; rewrite ?Hc, Hm; done.
Qed.

Lemma p2p_step_table v x e : table_of v (pn_manager x.2) -> table_of v (pn_manager (p2p_step x e).2).
Proof.
  destruct x as [a s]. intros Hs. destruct e; simpl in *; try done.
  - apply (close_peers_keep (table_of v) (fun kv : bytes * PeerConnection => pc_validator_id kv.2)); [|done].
    intros m y [? ?]. split; [by apply remove_peer_ok|done].
  - destruct Hs as [[W S E] Hv]. destruct (add_seed_nodes_peers (pn_manager s) seeds) as (Hp & Hi & Hk).
    split; [|congruence]. split; unfold peer_count in *; rewrite Hp; [done..|]. intros k p Hkp.
    destruct (E k p Hkp) as (? & ? & ?). rewrite Hi. repeat split; [done..|set_solver].
  - by apply (same_table_of _ s), Hs; first apply connect_begin_same.
  - by apply connect_finish_table.
  - by apply (same_table_of _ s), Hs; first apply inbound_begin_same.
  - by apply (same_table_of _ s), Hs; first apply inbound_answer_same.
  - by apply inbound_admit_table.
  - destruct Hs as [? ?].
    split; [by apply read_loop_step_ok|by rewrite read_loop_step_id].
  - by apply heartbeat_table.
  - by apply (same_table_of _ s), Hs; first apply broadcast_same.
Qed.

Lemma p2p_run_table v a zone_id stake events :
  table_of v (pn_manager (p2p_run (a, p2p_new v zone_id stake) events).2).
Proof.
  unfold p2p_run. set (x := (a, _)).
  assert (Hx : table_of v (pn_manager x.2)) by (split; [apply peer_manager_new_ok|done]).
  revert Hx. generalize x. clear x. induction events as [|e es IH]; intros x Hx; [done|].
  cbn [foldl]. by apply IH, p2p_step_table.
Qed.

(** C23. The peer table is well formed in every interleaving.  However handshakes, reads,
    heartbeats, seeds, broadcasts, losses, starts and stops follow one another, and whatever
    the other sides send, the table has at most [MAX_PEERS] entries, one per identity, each
    filed under its own identity, never the node's own, and with an address the node
    remembers. *)
Theorem peer_table_invariant (a : A) (validator_id : bytes) (zone_id stake : Z)
    (events : list p2p_event) :
  let m := pn_manager (p2p_run (a, p2p_new validator_id zone_id stake) events).2 in
  NoDup (dict_keys (pm_peers m)) /\ peer_count m <= MAX_PEERS /\
  forall k p, dict_get k (pm_peers m) = Some p ->
    pc_validator_id p = k /\ k <> validator_id /\ pc_address p ∈ pm_known_addresses m.
Proof.
  pose proof (p2p_run_table validator_id a zone_id stake events) as H.
  destruct H as [[W S E] Hv]. split; [done|]. split; [done|].
  intros k p Hk. destruct (E k p Hk) as (? & ? & ?). by rewrite Hv in *.
Qed.

End Invariant.

(** ** The read loop *)

Lemma read_message_raises stream e rest :
  read_message stream = (Err e, rest) -> caught e = true.
Proof.
  unfold read_message, readexactly. intros E.
  destruct (length stream <? HEADER_SIZE); [by injection E as <- _|].
  destruct (MAX_MESSAGE_SIZE <? _)%Z; [by injection E as <- _|].
  destruct (_ <? be_decode (drop 4 _))%Z eqn:Ht; [by injection E as <- _|].
  set (n := be_decode (drop 4 _)) in *.
  assert (Hn : exists t, message_type_of_value n = Ok t).
  { bool_to_prop. simpl in Ht. unfold n in *.
    pose proof (be_decode_range (drop 4 (take HEADER_SIZE stream))). clear E n.
    set (n := be_decode _) in *. clearbody n. unfold message_type_of_value.
    rewrite (proj2 (Z.ltb_ge n 0)) by lia.
    destruct (lookup_lt_is_Some_2 message_types (Z.to_nat n)) as [t ->]; [simpl; lia|eauto]. }
  destruct Hn as [t Hn]. rewrite Hn in E. simpl in E.
  repeat case_match; simplify_eq; done.
Qed.

Section ReadLoop.
Context {A : Type} `{!AppHandler A}.

Lemma dispatch_raises a s v t payload e :
  (dispatch a s v t payload).2 = Err e ->
  e ∈ [KeyError; StructError; UnicodeDecodeError] \/ caught e = true.
Proof.
  assert (Ha : forall r : A * P2PNode * res unit,
    match message_handler with
    | Some f => let '(a, s, _) := f a s v t payload in (a, s, Ok tt)
    | None => (a, s, Ok tt) end = r -> r.2 = Err e -> False).
  { intros r <-. destruct message_handler as [f|]; [|done]. by destruct (f _ _ _ _ _) as [[? ?] ?]. }
  destruct t; cbn [dispatch]; try (intros E; exfalso; by eapply Ha, E).
  - unfold send_to, send_raw. repeat case_match; simpl; try done; intros; simplify_eq; try set_solver.
    all: try (by right). all: try by (unfold drain in *; repeat case_match; simplify_eq; right).
  - pose proof (decode_peers_end (length payload) payload 0 [] ltac:(constructor) ltac:(lia) ltac:(simpl; lia)) as Hd.
    unfold decode_peer_list. destruct (decode_peers _ _ _ _) as [es|x]; simpl; [done|].
    intros [= <-]. left. set_solver.
Qed.

(** What a finished round leaves behind: no entry for the peer, and only the exceptions that
    the loop does not absorb escape. *)
Lemma read_loop_step_ended a s peer msg now r esc :
  table_ok (pn_manager s) -> (forall e, msg = Err e -> caught e = true) ->
  read_loop_step a s peer msg now = (r, Ended esc) ->
  dict_get (pc_validator_id peer) (pm_peers (pn_manager r.2)) = None /\
  match esc with None => True | Some e => e ∈ [KeyError; StructError; UnicodeDecodeError] end.
Proof.
  intros Hs Hmsg. unfold read_loop_step. set (v := pc_validator_id peer).
  assert (Hc : forall s, table_ok (pn_manager s) ->
    dict_get v (pm_peers (pn_manager (close_peer s v))) = None).
  { intros s' [W _ _]. destruct (close_peer_table s' v) as [-> _]. simpl.
    by rewrite dict_get_del, decide_True. }
  case_match; [intros [= <- <-]; split; [by apply Hc|done]|].
  destruct msg as [[t payload]|e]; [|intros [= <- <-]; split; [by apply Hc|by rewrite Hmsg]].
  set (s1 := with_manager s _).
  pose proof (dispatch_ok a s1 v t payload (touch_peer_ok _ _ _ Hs)) as Hok.
  pose proof (dispatch_raises a s1 v t payload) as Hr.
  destruct (dispatch a s1 v t payload) as [[a' s'] [u|e]]; [done|].
  intros [= <- <-]. split; [by apply Hc|].
  destruct (Hr e eq_refl) as [Hin| ->]; [|done]. by destruct (caught e).
Qed.

Lemma read_loop_ended fuel a s peer stream clock k :
  table_ok (pn_manager s) -> length stream < fuel ->
  exists a' s' esc, read_loop fuel a s peer stream clock k = (a', s', Ended esc) /\
    table_ok (pn_manager s') /\ dict_get (pc_validator_id peer) (pm_peers (pn_manager s')) = None /\
    match esc with None => True | Some e => e ∈ [KeyError; StructError; UnicodeDecodeError] end.
Proof.
  revert a s stream k. induction fuel as [|fuel IH]; intros a s stream k Hs Hf; [lia|].
  cbn [read_loop]. destruct (read_message stream) as [msg rest] eqn:Em.
  assert (Hmsg : forall e, msg = Err e -> caught e = true).
  { intros e ->. by eapply read_message_raises. }
  pose proof (read_loop_step_ok a s peer msg (clock k) Hs) as Hok.
  pose proof (read_loop_step_ended a s peer msg (clock k)) as Hend.
  destruct (read_loop_step a s peer msg (clock k)) as [[a' s'] [|esc]] eqn:Es.
  - destruct msg as [m|e].
    + apply read_message_consumes in Em. unfold HEADER_SIZE in Em. apply IH; [done|lia].
    + exfalso. unfold read_loop_step in Es. by case_match.
  - destruct (Hend _ _ Hs Hmsg eq_refl) as [Hg He]. exists a', s', esc. done.
Qed.

(** C40. The read loop of a connection ends.  Whatever finite stream of bytes a peer sends
    before its end of the connection closes, the loop stops after at most one round per byte
    plus one, the table is still well formed and has no entry for that peer, and the only
    exceptions that leave the task are [KeyError] (a PING from a peer no longer in the table)
    and the two a malformed peer list raises. *)
Theorem read_loop_ends (a : A) (s : P2PNode) (peer : PeerConnection) (stream : bytes)
    (clock : nat -> float64) (Hs : table_ok (pn_manager s)) :
  exists a' s' esc,
    read_loop (S (length stream)) a s peer stream clock 0 = (a', s', Ended esc) /\
    table_ok (pn_manager s') /\ dict_get (pc_validator_id peer) (pm_peers (pn_manager s')) = None /\
    match esc with None => True | Some e => e ∈ [KeyError; StructError; UnicodeDecodeError] end.
Proof. apply read_loop_ended; [done|lia]. Qed.

(** A superseded connection takes its successor down.  When the table's entry for an
    identity has been replaced (two nodes that dial each other at the same time, or a second
    [connect_to_peer]) while the loop of the older connection is still running, the end of
    that loop removes the newer entry and closes the newer connection; the older connection
    is the one left open. *)
Theorem stale_loop_drops_reconnection (a : A) (s : P2PNode) (old new : PeerConnection)
    (c1 c2 : nat) (now : float64)
    (Hs : table_ok (pn_manager s))
    (Hid : pc_validator_id old = pc_validator_id new)
    (Hnew : get_peer (pn_manager s) (pc_validator_id new) = Some new)
    (Hw1 : pc_writer old = Some c1) (Hw2 : pc_writer new = Some c2) (Hc : c1 <> c2)
    (Hopen : is_closing s c2 = false) :
  let '(_, s', r) := read_loop_step a s old (Err IncompleteReadError) now in
  r = Ended None /\ get_peer (pn_manager s') (pc_validator_id new) = None /\
  is_closing s' c2 = true /\ conn_of s' c1 = conn_of s c1.
Proof.
  unfold read_loop_step. rewrite Hw1, bool_decide_eq_false_2, orb_false_r by done.
  assert (Hclose : let s' := close_peer s (pc_validator_id old) in
    get_peer (pn_manager s') (pc_validator_id new) = None /\
    is_closing s' c2 = true /\ conn_of s' c1 = conn_of s c1).
  { unfold get_peer in *. destruct (close_peer_table s (pc_validator_id old)) as [Hm _].
    cbv zeta. rewrite Hm, Hid. simpl. split.
    - rewrite dict_get_del by apply Hs. by rewrite decide_True.
    - unfold close_peer, remove_peer. rewrite Hnew, Hw2.
      change (is_closing (with_manager s _) c2) with (is_closing s c2). rewrite Hopen.
      unfold is_closing, close_conn, conn_of, set_conn. simpl.
      rewrite lookup_default_insert_eq, lookup_default_insert_ne by done. done. }
  cbv zeta in Hclose. by destruct (negb (pn_running s)).
Qed.

End ReadLoop.

(** ** Broadcast *)

Definition live (s : P2PNode) (p : PeerConnection) : bool :=
  match pc_writer p with Some c => negb (is_closing s c) | None => false end.

Definition writers (l : list (bytes * PeerConnection)) : list nat := omap (fun kv => pc_writer kv.2) l.

Lemma writers_cons k p l :
  writers ((k, p) :: l) = match pc_writer p with Some c => c :: writers l | None => writers l end.
Proof. reflexivity. Qed.

(** One send: the frame is appended to a live connection, and nothing else changes. *)
Lemma send_to_live s k p t payload frame :
  get_peer (pn_manager s) k = Some p -> encode_message t payload = Ok frame ->
  let r := send_to s k t payload in
  (if live s p then r.2 = Ok tt else is_Ok r.2 -> False) /\
  forall c, conn_of r.1 c =
    if bool_decide (pc_writer p = Some c) && negb (is_closing s c)
    then mkConn (cn_out (conn_of s c) ++ frame) false false else conn_of s c.
Proof.
  intros Hk Ef. unfold send_to, send_raw, live. rewrite Hk. destruct (pc_writer p) as [c|]; cycle 1.
  { split; [by intros [? ?]|]. intros c. by rewrite bool_decide_eq_false_2. }
  destruct (is_closing s c) eqn:Hc; simpl.
  { split; [by intros [? ?]|]. intros c'. case_bool_decide; simplify_eq; [by rewrite Hc|done]. }
  rewrite Ef. simpl. unfold write_conn, drain. rewrite Hc. split.
  - unfold conn_of at 1, set_conn. simpl. by rewrite lookup_default_insert_eq.
  - intros c'. unfold conn_of at 1, set_conn. simpl. case_bool_decide; simplify_eq; simpl.
    + rewrite Hc, lookup_default_insert_eq. done.
    + rewrite lookup_default_insert_ne by congruence. done.
Qed.

Lemma filter_ext_in {B} (f g : B -> bool) (l : list B) :
  (forall x, x ∈ l -> f x = g x) ->
  filter (fun x => f x = true) l = filter (fun x => g x = true) l.
Proof.
  induction l as [|x l IH]; intros Hfg; [done|].
  rewrite !filter_cons, Hfg by (by left). rewrite IH; [done|]. intros y Hy. apply Hfg. by right.
Qed.

Lemma send_all_live l s n t payload frame :
  Forall (fun kv => get_peer (pn_manager s) kv.1 = Some kv.2) l -> NoDup (writers l) ->
  encode_message t payload = Ok frame ->
  let r := foldl (fun '(s, sent) vid =>
             match send_to s vid t payload with
             | (s, Ok _) => (s, S sent)
             | (s, Err _) => (s, sent)
             end) (s, n) (map fst l) in
  r.2 = n + length (filter (fun kv => live s kv.2 = true) l) /\
  forall c, conn_of r.1 c =
    if bool_decide (c ∈ writers l) && negb (is_closing s c)
    then mkConn (cn_out (conn_of s c) ++ frame) false false else conn_of s c.
Proof.
  intros Hl Hnd Ef. revert s n Hl Hnd. induction l as [|[k p] l IH]; intros s n Hl Hnd.
  { split; [simpl; lia|]. intros c. by rewrite bool_decide_eq_false_2 by apply not_elem_of_nil. }
  apply Forall_cons in Hl as [Hk Hl]. simpl in Hk. cbn [map fst foldl].
  destruct (send_to_live s k p t payload frame Hk Ef) as [Hlive Hout].
  pose proof (send_to_same s k t payload) as [Hm _].
  destruct (send_to s k t payload) as [s1 r] eqn:Es. cbn [fst snd] in *.
  assert (Hl1 : Forall (fun kv => get_peer (pn_manager s1) kv.1 = Some kv.2) l) by by rewrite Hm.
  assert (Hnd1 : NoDup (writers l)).
  { rewrite writers_cons in Hnd. destruct (pc_writer p); [by apply NoDup_cons in Hnd as [_ ?]|done]. }
  assert (Hne : forall c, c ∈ writers l -> pc_writer p <> Some c).
  { intros c Hc E. rewrite writers_cons, E in Hnd. by apply NoDup_cons in Hnd as [? _]. }
  assert (Hsame : forall c, pc_writer p <> Some c -> conn_of s1 c = conn_of s c).
  { intros c Hc. rewrite Hout. by rewrite bool_decide_eq_false_2. }
  assert (Hfilter : filter (fun kv => live s1 kv.2 = true) l = filter (fun kv => live s kv.2 = true) l).
  { apply filter_ext_in. intros [k' p'] Hin. simpl. unfold live.
    destruct (pc_writer p') as [c|] eqn:Ec; [|done]. unfold is_closing.
    rewrite Hsame; [done|]. apply Hne. unfold writers. apply list_elem_of_omap. by exists (k', p'). }
  set (n1 := match r with Ok _ => S n | Err _ => n end).
  assert (Hn1 : n1 = n + (if live s p then 1 else 0)).
  { subst n1. destruct (live s p); [subst r; lia|]. destruct r; [|lia]. exfalso. apply Hlive. eexists. done. }
  replace (match r with Ok _ => (s1, S n) | Err _ => (s1, n) end) with (s1, n1) by (by destruct r).
  destruct (IH s1 n1 Hl1 Hnd1) as [IHn IHc]. split.
  - rewrite IHn, Hfilter, Hn1, filter_cons. simpl. destruct (live s p); simpl; lia.
  - intros c. rewrite IHc, writers_cons.
    destruct (decide (pc_writer p = Some c)) as [Hp|Hp].
    + rewrite Hp. rewrite (bool_decide_eq_false_2 (c ∈ writers l)) by (intros Hc; by eapply Hne, Hp).
      simpl. rewrite Hout, (bool_decide_eq_true_2 _ Hp), (bool_decide_eq_true_2 (c ∈ c :: _)) by (by left).
      done.
    + unfold is_closing. rewrite (Hsame c Hp).
      assert (bool_decide (c ∈ writers l) =
        bool_decide (c ∈ match pc_writer p with Some c => c :: writers l | None => writers l end)) as <-;
        [|done].
      apply bool_decide_ext. destruct (pc_writer p) as [c0|]; [|done]. rewrite elem_of_cons. naive_solver.
Qed.

Lemma broadcast_conns s t payload frame :
  encode_message t payload = Ok frame -> table_ok (pn_manager s) ->
  NoDup (writers (pm_peers (pn_manager s))) ->
  (broadcast s t payload).2 = length (filter (fun kv => live s kv.2 = true) (pm_peers (pn_manager s))) /\
  forall c, conn_of (broadcast s t payload).1 c =
    if bool_decide (c ∈ writers (pm_peers (pn_manager s))) && negb (is_closing s c)
    then mkConn (cn_out (conn_of s c) ++ frame) false false else conn_of s c.
Proof.
  intros E Hs Hw.
  assert (Hl : Forall (fun kv => get_peer (pn_manager s) kv.1 = Some kv.2) (pm_peers (pn_manager s))).
  { apply Forall_forall. intros [k p] Hin. unfold get_peer. simpl. by apply dict_get_elem; [apply Hs|]. }
  exact (send_all_live _ s 0 t payload _ Hl Hw E).
Qed.

(** A broadcast reaches exactly the live connections.  With a well-formed table whose
    peers use different connections, every peer whose writer is open gets the frame appended
    once to what was written to it, no other connection changes, the table is untouched, and
    the returned count is the number of those peers. *)
Theorem broadcast_delivers (s : P2PNode) (t : MessageType) (payload : bytes)
    (Hs : table_ok (pn_manager s)) (Hw : NoDup (writers (pm_peers (pn_manager s))))
    (Hlen : (Z.of_nat (length payload) < 2 ^ 32)%Z) :
  exists frame, encode_message t payload = Ok frame /\
    let '(s', sent) := broadcast s t payload in
    pn_manager s' = pn_manager s /\
    sent = length (filter (fun kv => live s kv.2 = true) (pm_peers (pn_manager s))) /\
    forall c, conn_of s' c =
      if bool_decide (c ∈ writers (pm_peers (pn_manager s))) && negb (is_closing s c)
      then mkConn (cn_out (conn_of s c) ++ frame) false false else conn_of s c.
Proof.
  eexists. split; [by apply encode_message_ok|]. pose proof (broadcast_same s t payload) as [Hm _].
  pose proof (broadcast_conns s t payload _ (encode_message_ok t payload Hlen) Hs Hw).
  by destruct (broadcast s t payload) as [s' sent].
Qed.

(** ** Sample runs *)

(** A node whose owner registered no callback. *)
#[export] Instance silent_handler : AppHandler unit := {
  message_handler := None;
  handler_keeps_table := fun _ _ _ _ _ _ E => match E with end;
}.

Definition demo_id : bytes := replicate 32 Byte.x01.
Definition other_id : bytes := replicate 32 Byte.x02.

(** The handshake of a node with identity [other_id]. *)
Definition other_hello : MessageType * bytes :=
  (PEER_DISCOVERY, other_id ++ be_encode 4 0 ++ be_encode 8 700 ++ be_encode 2 9100).

(** Two nodes dial each other: connection 1 is accepted here while connection 2 is dialled. *)
Definition crossing : list p2p_event :=
  [EvStart (b: "0.0.0.0") 9000; EvConnect (Some 2); EvAccept 1; EvInbound 1 (Ok other_hello);
   EvAdmit 1 (mkSelfInfo other_id 0 700 9100) (Some (b: "10.0.0.2")) (float_of_Z 5);
   EvConnected (b: "10.0.0.2") 2 (Ok other_hello) (float_of_Z 6)].

Definition crossed : P2PNode := (p2p_run (tt, p2p_new demo_id 0 500) crossing).2.

Definition crossed_peer (c : nat) (seen : Z) (outbound : bool) : PeerConnection :=
  mkPeer other_id (address_text (b: "10.0.0.2") 9100) 0 700 (float_of_Z seen) (Some c) outbound.

Lemma crossed_table : table_ok (pn_manager crossed).
Proof.
  exact (proj1 (p2p_run_table demo_id tt 0 500 crossing)).
Qed.

Lemma stale_loop_drops_reconnection_witness :
  let '(_, s', r) := read_loop_step tt crossed (crossed_peer 1 5 false) (Err IncompleteReadError) (float_of_Z 7) in
  r = Ended None /\ get_peer (pn_manager s') other_id = None /\
  is_closing s' 2 = true /\ conn_of s' 1 = conn_of crossed 1.
Proof.
  apply (stale_loop_drops_reconnection tt crossed (crossed_peer 1 5 false) (crossed_peer 2 6 true) 1 2).
  - apply crossed_table.
  - reflexivity.
  - vm_compute. reflexivity.
  - reflexivity.
  - reflexivity.
  - discriminate.
  - vm_compute. reflexivity.
Defined.

Lemma read_loop_ends_witness :
  exists a' s' esc,
    read_loop 6 tt crossed (crossed_peer 2 6 true) (b: "?????") (fun _ => float_of_Z 8) 0 = (a', s', Ended esc) /\
    table_ok (pn_manager s') /\ dict_get other_id (pm_peers (pn_manager s')) = None /\
    match esc with None => True | Some e => e ∈ [KeyError; StructError; UnicodeDecodeError] end.
Proof.
  apply (read_loop_ends tt crossed (crossed_peer 2 6 true) (b: "?????") (fun _ => float_of_Z 8)).
  apply crossed_table.
Defined.

Lemma broadcast_delivers_witness :
  exists frame, encode_message BLOCK (b: "x") = Ok frame /\
    let '(s', sent) := broadcast crossed BLOCK (b: "x") in
    pn_manager s' = pn_manager crossed /\
    sent = length (filter (fun kv => live crossed kv.2 = true) (pm_peers (pn_manager crossed))) /\
    forall c, conn_of s' c =
      if bool_decide (c ∈ writers (pm_peers (pn_manager crossed))) && negb (is_closing crossed c)
      then mkConn (cn_out (conn_of crossed c) ++ frame) false false else conn_of crossed c.
Proof.
  apply (broadcast_delivers crossed BLOCK (b: "x")).
  - apply crossed_table.
  - refine (bool_decide_unpack _ _). vm_compute. exact I.
  - vm_compute. reflexivity.
Defined.
