(* ===== verification/P2PTrace.v ===== *)
(** * What the TCP node writes, and what its owner's state goes through

    Generic facts about the runs of [P2P] that its owner ([Node]) uses: a property of the
    owner's state that the callback keeps holds after every run ([p2p_run_app]); every stake in
    the table is one that a handshake announced ([p2p_run_announced]); and the bytes on every
    connection are whole frames, of the types that the operations and the callback use
    ([p2p_run_writes]). *)

From stdpp Require Import prelude list gmap strings.
From Stdlib Require Import Strings.Byte ZArith Lia.
From S2P Require Import Prelude.
From S2P Require Import Dict.
From S2P Require Import Text.
From S2P Require Import PyFloat.
From S2P Require Import Peers.
From S2P Require Import P2P.

Set Default Goal Selector "!".

(** ** The owner's state *)

Section App.
Context {A : Type} `{!AppHandler A}.

(** The callback keeps [P]. *)
Definition callback_keeps (P : A -> Prop) : Prop :=
  forall f a s peer_id t payload,
    message_handler = Some f -> P a -> P (f a s peer_id t payload).1.1.

Lemma dispatch_app P a s v t payload : callback_keeps P -> P a -> P (dispatch a s v t payload).1.1.
Proof.
  intros HP Ha. unfold dispatch. destruct t; simpl; try done; try (by repeat case_match);
    destruct message_handler as [f|] eqn:E; try done;
    match goal with |- context [f a s v ?t payload] => pose proof (HP f a s v t payload E Ha) end;
    by destruct (f _ _ _ _ _) as [[? ?] ?].
Qed.

Lemma read_loop_step_app P a s peer msg now :
  callback_keeps P -> P a -> P (read_loop_step a s peer msg now).1.1.
Proof.
  intros HP Ha. unfold read_loop_step. case_match; [done|]. destruct msg as [[t payload]|]; [|done].
  set (s1 := with_manager s _). pose proof (dispatch_app P a s1 (pc_validator_id peer) t payload HP Ha).
  by destruct (dispatch _ _ _ _ _) as [[? ?] [?|?]].
Qed.

Lemma p2p_step_app P x e : callback_keeps P -> P x.1 -> P (p2p_step x e).1.
Proof.
  intros HP Hx. destruct x as [a s]. destruct e; simpl in *; try done.
  by apply read_loop_step_app.
Qed.

Lemma p2p_run_app P x events : callback_keeps P -> P x.1 -> P (p2p_run x events).1.
Proof.
  intros HP. unfold p2p_run. revert x. induction events as [|e es IH]; intros x Hx; [done|].
  cbn [foldl]. by apply IH, p2p_step_app.
Qed.

End App.

(** ** Announced stakes *)

Definition announced (m : PeerManager) : Prop := Forall (fun kv => 0 <= pc_stake kv.2)%Z (pm_peers m).

Lemma announced_add m p : announced m -> (0 <= pc_stake p)%Z -> announced (add_peer m p).1.
Proof.
  intros Hm Hp. unfold add_peer. repeat case_match; try done.
  by apply (dict_set_Forall (fun q => 0 <= pc_stake q)%Z).
Qed.

Lemma announced_remove m v : announced m -> announced (remove_peer m v).1.
Proof. apply (dict_del_Forall (fun q => 0 <= pc_stake q)%Z). Qed.

Lemma announced_touch m v now : announced m -> announced (touch_peer m v now).
Proof.
  intros Hm. unfold touch_peer. destruct (dict_get v (pm_peers m)) as [p|] eqn:Ep; [|done].
  apply (dict_set_Forall (fun q => 0 <= pc_stake q)%Z); [done|]. simpl.
  apply dict_get_in in Ep. unfold announced in Hm. rewrite Forall_forall in Hm. by apply (Hm (v, p)).
Qed.

Lemma decode_self_info_stake data info : decode_self_info data = Ok info -> (0 <= si_stake info)%Z.
Proof.
  unfold decode_self_info. case_match; [|done]. intros E. inv_res. cbn [si_stake].
  match goal with E : unpack_iQ _ = Ok _ |- _ => unfold unpack_iQ in E; case_match; [|done]; inv_res end.
  match goal with E : unpack_uint 8 _ = Ok _ |- _ => unfold unpack_uint in E; case_match; [|done]; inv_res end.
  apply be_decode_range.
Qed.

Lemma announced_same s s' : same_table s s' -> announced (pn_manager s) -> announced (pn_manager s').
Proof. by intros [-> _]. Qed.

Lemma connect_finish_announced s host c msg now :
  announced (pn_manager s) -> announced (pn_manager (connect_finish s host c msg now).1).
Proof.
  intros Hs. unfold connect_finish. destruct msg as [[t payload]|e]; [|done].
  case_match; [done|]. destruct (decode_self_info payload) as [info|e] eqn:Ei; [|done].
  case_match; [done|]. set (p := mkPeer _ _ _ _ _ _ _).
  pose proof (announced_add (pn_manager s) p Hs (decode_self_info_stake _ _ Ei)) as Ha.
  destruct (add_peer (pn_manager s) p) as [m [|]]; simpl in *; [|done].
  by apply (announced_same (with_manager s m)); [apply exchange_same|].
Qed.

Lemma inbound_admit_announced s c info peername now :
  (0 <= si_stake info)%Z -> announced (pn_manager s) ->
  announced (pn_manager (inbound_admit s c info peername now)).
Proof.
  intros Hi Hs. unfold inbound_admit. set (p := mkPeer _ _ _ _ _ _ _).
  pose proof (announced_add (pn_manager s) p Hs Hi) as Ha.
  destruct (add_peer (pn_manager s) p) as [m [|]]; simpl in *; [|done].
  by apply (announced_same (with_manager s m)); [apply exchange_same|].
Qed.

Lemma bootstrap_announced s seeds answers k :
  announced (pn_manager s) -> announced (pn_manager (bootstrap s seeds answers k).1).
Proof.
  revert s answers k. induction seeds as [|[host port] seeds IH]; intros s [|[[opened msg] now] answers] k Hs;
    try done. cbn [bootstrap]. case_match; [done|].
  assert (Hc : announced (pn_manager (connect_to_peer s host opened msg now).1)).
  { unfold connect_to_peer. pose proof (connect_begin_same s opened) as [Hm _].
    destruct (connect_begin s opened) as [s1 [[c|]|e]]; simpl in *; try by rewrite Hm.
    apply connect_finish_announced. by rewrite Hm. }
  destruct (connect_to_peer _ _ _ _ _) as [s1 [ok|e]]; [|done]. by apply IH.
Qed.

(** The information that an admission uses was decoded from a handshake. *)
Definition event_ok (e : p2p_event) : Prop :=
  match e with EvAdmit _ info _ _ => (0 <= si_stake info)%Z | _ => True end.

Section Announced.
Context {A : Type} `{!AppHandler A}.

Lemma p2p_step_announced x e :
  event_ok e -> announced (pn_manager x.2) -> announced (pn_manager (p2p_step x e).2).
Proof.
  intros He Hs. destruct x as [a s]. destruct e; simpl in *; try done.
  - apply (close_peers_keep announced (fun kv : bytes * PeerConnection => pc_validator_id kv.2)); [|done].
    apply announced_remove.
  - unfold announced. by rewrite (proj1 (add_seed_nodes_peers (pn_manager s) seeds)).
  - by apply (announced_same s), Hs; first apply connect_begin_same.
  - by apply connect_finish_announced.
  - by apply (announced_same s), Hs; first apply inbound_begin_same.
  - by apply (announced_same s), Hs; first apply inbound_answer_same.
  - by apply inbound_admit_announced.
  - unfold read_loop_step.
    assert (Hc : forall s v, announced (pn_manager s) -> announced (pn_manager (close_peer s v))).
    { intros s' v Hs'. destruct (close_peer_table s' v) as [-> _]. by apply announced_remove. }
    case_match; [by apply Hc|]. destruct msg as [[t payload]|]; [|by apply Hc].
    set (s1 := with_manager s _).
    destruct (dispatch_table a s1 (pc_validator_id peer) t payload) as (known & Hm & _).
    assert (H1 : announced (pn_manager s1)) by by apply announced_touch.
    assert (H2 : announced (pn_manager (dispatch a s1 (pc_validator_id peer) t payload).1.2)) by by rewrite Hm.
    destruct (dispatch _ _ _ _ _) as [[a' s'] [u|x]]; [done|by apply Hc].
  - unfold heartbeat. apply (close_peers_keep announced id); [apply announced_remove|].
    assert (Hp : forall l s, same_table s (foldl (fun s vid => (send_to s vid PING []).1) s l)).
    { induction l as [|v l IH]; intros s0; [done|]. cbn [foldl].
      transitivity (send_to s0 v PING []).1; [apply send_to_same|apply IH]. }
    by apply (announced_same s).
  - by apply (announced_same s), Hs; first apply broadcast_same.
Qed.

Lemma p2p_run_announced x events :
  Forall event_ok events -> announced (pn_manager x.2) -> announced (pn_manager (p2p_run x events).2).
Proof.
  unfold p2p_run. intros Hes. revert x. induction Hes as [|e es He _ IH]; intros x Hx; [done|].
  cbn [foldl]. by apply IH, p2p_step_announced.
Qed.

End Announced.

(** ** Frames on the connections *)

Section Writes.
Context (T : MessageType -> Prop).

(** A sequence of whole frames of the types [T]. *)
Definition frames_of (data : bytes) : Prop :=
  exists msgs fs, res_map (fun m => encode_message m.1 m.2) msgs = Ok fs /\ data = concat fs /\
    Forall (fun m : MessageType * bytes => T m.1) msgs.

(** From [s] to [s'] only such frames are appended to the connections. *)
Definition writes (s s' : P2PNode) : Prop :=
  forall c, exists data, cn_out (conn_of s' c) = cn_out (conn_of s c) ++ data /\ frames_of data.

Lemma frames_of_nil : frames_of [].
Proof. by exists [], []. Qed.

Lemma frames_of_one t payload frame : T t -> encode_message t payload = Ok frame -> frames_of frame.
Proof.
  intros Ht E. exists [(t, payload)], [frame]. cbn [res_map fst snd]. rewrite E. simpl.
  rewrite app_nil_r. by repeat constructor.
Qed.

Lemma frames_of_app d1 d2 : frames_of d1 -> frames_of d2 -> frames_of (d1 ++ d2).
Proof.
  intros (m1 & f1 & E1 & -> & H1) (m2 & f2 & E2 & -> & H2).
  exists (m1 ++ m2), (f1 ++ f2). rewrite concat_app. split; [|by split; [|apply Forall_app]].
  clear H1 H2. revert f1 E1. induction m1 as [|m m1 IH]; intros f1 E1; cbn [app res_map] in *.
  - by injection E1 as <-.
  - destruct (encode_message m.1 m.2) as [f|]; [|done]. simpl in *.
    destruct (res_map _ m1) as [fs|]; [|done]. injection E1 as <-. by rewrite (IH fs eq_refl).
Qed.

#[export] Instance writes_preorder : PreOrder writes.
Proof.
  split.
  - intros s c. exists []. rewrite app_nil_r. split; [done|apply frames_of_nil].
  - intros s1 s2 s3 H1 H2 c. destruct (H1 c) as (d1 & E1 & F1), (H2 c) as (d2 & E2 & F2).
    exists (d1 ++ d2). rewrite E2, E1, app_assoc. split; [done|by apply frames_of_app].
Qed.

(** Steps that write nothing. *)
Lemma writes_silent s s' : (forall c, cn_out (conn_of s' c) = cn_out (conn_of s c)) -> writes s s'.
Proof. intros Hs c. exists []. rewrite app_nil_r. split; [done|apply frames_of_nil]. Qed.

Lemma writes_set_conn s c k : cn_out k = cn_out (conn_of s c) -> writes s (set_conn s c k).
Proof.
  intros Hk. apply writes_silent. intros c'. unfold conn_of at 1, set_conn. simpl.
  destruct (decide (c = c')) as [<-|Hc]; [by rewrite lookup_default_insert_eq|].
  by rewrite lookup_default_insert_ne.
Qed.

Lemma writes_conns s s' : pn_conns s' = pn_conns s -> writes s s'.
Proof. intros E. apply writes_silent. intros c. unfold conn_of. by rewrite E. Qed.

Lemma writes_close s c : writes s (close_conn s c).
Proof. by apply writes_set_conn. Qed.

Lemma writes_frame s c t payload frame :
  T t -> encode_message t payload = Ok frame -> writes s (write_conn s c frame).
Proof.
  intros Ht Ef. unfold write_conn. case_match; [done|]. intros c'.
  unfold conn_of at 1, set_conn. simpl. destruct (decide (c = c')) as [<-|Hc].
  - rewrite lookup_default_insert_eq. exists frame. split; [done|by eapply frames_of_one].
  - rewrite lookup_default_insert_ne by done. exists []. rewrite app_nil_r. split; [done|apply frames_of_nil].
Qed.

Lemma send_raw_writes s p t payload : T t -> writes s (send_raw s p t payload).1.
Proof.
  intros Ht. unfold send_raw. destruct (pc_writer p) as [c|]; [|done]. case_match; [done|].
  destruct (encode_message t payload) as [frame|] eqn:Ef; [|done]. by eapply writes_frame.
Qed.

Lemma send_to_writes s v t payload : T t -> writes s (send_to s v t payload).1.
Proof. intros Ht. unfold send_to. case_match; [by apply send_raw_writes|done]. Qed.

Lemma broadcast_writes s t payload : T t -> writes s (broadcast s t payload).1.
Proof.
  intros Ht. unfold broadcast. generalize 0, (dict_keys (pm_peers (pn_manager s))). intros n l.
  revert s n. induction l as [|v l IH]; intros s n; [done|]. cbn [foldl].
  pose proof (send_to_writes s v t payload Ht) as Hs. destruct (send_to s v t payload) as [s' r].
  transitivity s'; [done|]. destruct r; apply IH.
Qed.

Lemma close_peer_writes s v : writes s (close_peer s v).
Proof.
  unfold close_peer, remove_peer. set (s1 := with_manager s _).
  transitivity s1; [by apply writes_conns|]. destruct (dict_get v _) as [p|]; [|done].
  destruct (pc_writer p) as [c|]; [|done]. case_match; [done|apply writes_close].
Qed.

Lemma close_peers_writes {B} (f : B -> bytes) (l : list B) s :
  writes s (foldl (fun s b => close_peer s (f b)) s l).
Proof.
  revert s. induction l as [|b l IH]; intros s; [done|]. cbn [foldl].
  transitivity (close_peer s (f b)); [apply close_peer_writes|apply IH].
Qed.

Lemma exchange_writes s p : T PEER_LIST -> writes s (exchange_peer_lists s p).
Proof. intros Ht. unfold exchange_peer_lists. case_match; [by apply send_raw_writes|done]. Qed.

Lemma heartbeat_writes s now : T PING -> writes s (heartbeat s now).
Proof.
  intros Ht. unfold heartbeat. set (s1 := foldl _ s _).
  transitivity s1; [|apply (close_peers_writes id)]. subst s1.
  generalize (dict_keys (pm_peers (pn_manager s))). intros l. revert s.
  induction l as [|v l IH]; intros s; [done|]. cbn [foldl].
  transitivity (send_to s v PING []).1; [by apply send_to_writes|apply IH].
Qed.

Lemma connect_begin_writes s opened : T PEER_DISCOVERY -> writes s (connect_begin s opened).1.
Proof.
  intros Ht. unfold connect_begin. case_match; [done|]. destruct opened as [c|]; [|done].
  destruct (info ← encode_self_info _ _; encode_message _ info) as [frame|] eqn:Ef; [|done]. inv_res.
  case_match; by eapply writes_frame.
Qed.

Lemma connect_finish_writes s host c msg now :
  T PEER_LIST -> writes s (connect_finish s host c msg now).1.
Proof.
  intros Ht. unfold connect_finish. destruct msg as [[t payload]|]; [|apply writes_close].
  case_match; [apply writes_close|]. destruct (decode_self_info payload) as [info|]; [|done].
  case_match; [apply writes_close|]. set (p := mkPeer _ _ _ _ _ _ _).
  destruct (add_peer (pn_manager s) p) as [m [|]]; simpl.
  - transitivity (exchange_peer_lists (with_manager s m) p); [|by apply writes_conns].
    transitivity (with_manager s m); [by apply writes_conns|by apply exchange_writes].
  - transitivity (with_manager s m); [by apply writes_conns|apply writes_close].
Qed.

Lemma inbound_answer_writes s c msg : T PEER_DISCOVERY -> writes s (inbound_answer s c msg).1.
Proof.
  intros Ht. unfold inbound_answer. destruct msg as [[t payload]|]; [|apply writes_close].
  case_match; [apply writes_close|]. destruct (decode_self_info payload); [|done].
  case_match; [apply writes_close|]. case_match; [apply writes_close|].
  destruct (own ← encode_self_info _ _; encode_message _ own) as [frame|] eqn:Ef; [|done]. inv_res.
  case_match; by eapply writes_frame.
Qed.

Lemma inbound_admit_writes s c info peername now :
  T PEER_LIST -> writes s (inbound_admit s c info peername now).
Proof.
  intros Ht. unfold inbound_admit. set (p := mkPeer _ _ _ _ _ _ _).
  destruct (add_peer (pn_manager s) p) as [m [|]]; simpl.
  - transitivity (exchange_peer_lists (with_manager s m) p); [|by apply writes_conns].
    transitivity (with_manager s m); [by apply writes_conns|by apply exchange_writes].
  - transitivity (with_manager s m); [by apply writes_conns|apply writes_close].
Qed.

Context {A : Type} `{!AppHandler A}.

(** The callback writes only such frames. *)
Definition callback_writes : Prop :=
  forall f a s peer_id t payload,
    message_handler = Some f -> writes s (f a s peer_id t payload).1.2.

Lemma dispatch_writes a s v t payload :
  callback_writes -> T PONG -> writes s (dispatch a s v t payload).1.2.
Proof.
  intros Hf Ht. unfold dispatch. destruct t; simpl; try done;
    try (destruct message_handler as [f|] eqn:E; [|done];
         match goal with |- context [f a s v ?t payload] => pose proof (Hf f a s v t payload E) end;
         by destruct (f _ _ _ _ _) as [[? ?] ?]).
  - pose proof (send_to_writes s v PONG [] Ht). by destruct (send_to s v PONG []).
  - case_match; by apply writes_conns.
Qed.

Lemma read_loop_step_writes a s peer msg now :
  callback_writes -> T PONG -> writes s (read_loop_step a s peer msg now).1.2.
Proof.
  intros Hf Ht. unfold read_loop_step. case_match; [apply close_peer_writes|].
  destruct msg as [[t payload]|]; [|apply close_peer_writes]. set (s1 := with_manager s _).
  pose proof (dispatch_writes a s1 (pc_validator_id peer) t payload Hf Ht) as Hd.
  destruct (dispatch _ _ _ _ _) as [[a' s'] [u|x]]; [exact Hd|].
  transitivity s'; [exact Hd|apply close_peer_writes].
Qed.

(** What a step writes of its own accord. *)
Definition event_writes (e : p2p_event) : Prop :=
  match e with EvBroadcast t _ => T t | _ => True end.

Lemma p2p_step_writes x e :
  callback_writes -> T PING -> T PONG -> T PEER_DISCOVERY -> T PEER_LIST -> event_writes e ->
  writes x.2 (p2p_step x e).2.
Proof.
  intros Hf H1 H2 H3 H4 He. destruct x as [a s]. destruct e; simpl in *; try done; try by apply writes_conns.
  - exact (close_peers_writes (fun kv : bytes * PeerConnection => pc_validator_id kv.2)
             (pm_peers (pn_manager s))
             (mkP2PNode (pn_manager s) (pn_conns s) (pn_serving s) (pn_host s) (pn_port s) [] false)).
  - by apply connect_begin_writes.
  - by apply connect_finish_writes.
  - unfold inbound_begin. case_match; [apply writes_close|done].
  - by apply inbound_answer_writes.
  - by apply inbound_admit_writes.
  - by apply read_loop_step_writes.
  - by apply heartbeat_writes.
  - by apply broadcast_writes.
  - by apply writes_set_conn.
Qed.

Lemma p2p_run_writes x events :
  callback_writes -> T PING -> T PONG -> T PEER_DISCOVERY -> T PEER_LIST ->
  Forall event_writes events -> writes x.2 (p2p_run x events).2.
Proof.
  intros Hf H1 H2 H3 H4 Hes. unfold p2p_run. revert x.
  induction Hes as [|e es He _ IH]; intros x; [done|]. cbn [foldl].
  transitivity (p2p_step x e).2; [by apply p2p_step_writes|apply IH].
Qed.

End Writes.
