(* ===== verification/Measurement.v ===== *)
(** * Round-trip measurements and their commit-reveal ([src/src/measurement.py])

    Distances and theoretical round-trip times, the measurement records and their hashes, the
    per-epoch protocol state, and the TCP probe's median.  The C library's trigonometry and
    Python's seeded shuffle are interfaces ([Libm], [PyRandom]); normal deviates, nonces and
    the clock are arguments.  Main results: an honest commit-reveal is accepted and delivers
    the measurements ([commit_reveal_complete]); one commitment hash opens to one multiset of
    committed fields ([commitment_binding]); the receiver compares a reveal with the commitment
    inside the reveal, not with the one it received before ([reveal_ignores_commitment]). *)

From stdpp Require Import prelude list gmap strings sorting.
From Stdlib Require Import Strings.Byte ZArith Lia SpecFloat.
From S2P Require Import Prelude.
From S2P Require Import Dict.
From S2P Require Import PyFloat.
From S2P Require Import Crypto.
From S2P Require Import Consensus.

Set Default Goal Selector "!".

(** ** Numbers *)

(** The double nearest to the decimal literal [n / d]. *)
Definition lit (n d : Z) : float64 := match truediv n d with Ok x => x | Err _ => S754_nan end.

Definition SPEED_OF_LIGHT_FIBER_KM_MS : float64 := lit 198 1.
Definition MIN_PEERS : nat := 5.
Definition HONEST_RTT_RATIO_MEAN : float64 := lit 115 100.
Definition HONEST_RTT_RATIO_STD : float64 := lit 8 100.
Definition ADVERSARY_RTT_RATIO_MEAN : float64 := lit 82 100.
Definition ADVERSARY_RTT_RATIO_STD : float64 := lit 4 100.

(** The mathematical functions of the C library behind [math] and [**]; out of their domain
    they raise. *)
Class Libm := {
  m_sin : float64 -> res float64;
  m_cos : float64 -> res float64;
  m_asin : float64 -> res float64;
  m_square : float64 -> res float64;
}.

(** [random.Random(seed).shuffle(l)] as a function of the seed and the list. *)
Class PyRandom := {
  shuffle : Z -> list bytes -> list bytes;
  shuffle_permutes : forall seed l, shuffle seed l ≡ₚ l;
}.

(** ** Data *)

Inductive MeasurementPhase := MP_IDLE | MP_COMMIT | MP_MEASURE | MP_REVEAL | MP_VERIFY | MP_FINALIZE.

Definition location := (float64 * float64)%type.

Record PeerInfo := mkPeerInfo {
  pi_validator_id : bytes;
  pi_location : location;
  pi_zone_id : Z;
  pi_stake : Z;
  pi_last_seen : float64;
}.

Record RTTMeasurement := mkRTT {
  rm_source_id : bytes;
  rm_target_id : bytes;
  rm_rtt_ms : float64;
  rm_timestamp : Z;
  rm_theoretical_rtt_ms : float64;
  rm_nonce : bytes;
}.

Record MeasurementCommitment := mkCommitment {
  mc_validator_id : bytes;
  mc_epoch : Z;
  mc_target_ids : list bytes;
  mc_commitment_hash : bytes;
  mc_timestamp : Z;
  mc_signature : bytes;
}.

(** The commitment of a reveal is [None] when [create_reveal] runs before
    [create_commitment]. *)
Record MeasurementReveal := mkReveal {
  mr_validator_id : bytes;
  mr_epoch : Z;
  mr_measurements : list RTTMeasurement;
  mr_commitment : option MeasurementCommitment;
  mr_signature : bytes;
}.

(** ** Distance and round-trip time *)

(** [math.radians]. *)
Definition radians (x : float64) : float64 :=
  float_mul x (float_div (lit 884279719003555 281474976710656) (lit 180 1)).

(** [math.sqrt]. *)
Definition py_sqrt (x : float64) : res float64 :=
  if float_lt x (lit 0 1) then Err (ValueError "math domain error") else Ok (SFsqrt 53 1024 x).

Definition haversine_distance_km `{Libm} (loc1 loc2 : location) : res float64 :=
  let lat1 := radians loc1.1 in let lon1 := radians loc1.2 in
  let lat2 := radians loc2.1 in let lon2 := radians loc2.2 in
  let dlat := float_sub lat2 lat1 in
  let dlon := float_sub lon2 lon1 in
  s1 ← m_sin (float_div dlat (lit 2 1)); s1 ← m_square s1;
  c1 ← m_cos lat1; c2 ← m_cos lat2;
  s2 ← m_sin (float_div dlon (lit 2 1)); s2 ← m_square s2;
  let a := float_add s1 (float_mul (float_mul c1 c2) s2) in
  r ← py_sqrt a; as_ ← m_asin r;
  let c := float_mul (lit 2 1) as_ in
  Ok (float_mul (lit 6371 1) c).

Definition theoretical_rtt_ms (distance_km : float64) : float64 :=
  float_div (float_mul (lit 2 1) distance_km) SPEED_OF_LIGHT_FIBER_KM_MS.

(** [max(0.5, min(2.0, ratio))]. *)
Definition clamp_ratio (ratio : float64) : float64 :=
  let m := if float_lt ratio (lit 2 1) then ratio else lit 2 1 in
  if float_lt (lit 1 2) m then m else lit 1 2.

(** [gauss] is [random.gauss]. *)
Definition simulate_rtt (gauss : float64 -> float64 -> float64) (theoretical_ms : float64)
    (is_adversary : bool) : float64 :=
  let ratio :=
    if is_adversary then gauss ADVERSARY_RTT_RATIO_MEAN ADVERSARY_RTT_RATIO_STD
    else gauss HONEST_RTT_RATIO_MEAN HONEST_RTT_RATIO_STD in
  float_mul theoretical_ms (clamp_ratio ratio).

(** ** Hashes *)

Section Hashes.
Context `{Hashlib}.

Definition rtt_ratio (m : RTTMeasurement) : float64 :=
  if float_le (rm_theoretical_rtt_ms m) (lit 0 1) then lit 1 1
  else float_div (rm_rtt_ms m) (rm_theoretical_rtt_ms m).

Definition commitment_preimage (m : RTTMeasurement) : res bytes :=
  py_concat [PBytes (rm_source_id m); PBytes (rm_target_id m); PFloat (rm_rtt_ms m);
             PInt (rm_timestamp m); PBytes (rm_nonce m)].

Definition rtt_commitment (m : RTTMeasurement) : res bytes :=
  d ← commitment_preimage m; Ok (sha3_256 d).

Definition rtt_to_bytes (m : RTTMeasurement) : res bytes :=
  py_concat [PBytes (rm_source_id m); PBytes (rm_target_id m); PFloat (rm_rtt_ms m);
             PInt (rm_timestamp m); PFloat (rm_theoretical_rtt_ms m); PBytes (rm_nonce m)].

(** [sha3_256(b"".join(sorted(m.commitment() for m in measurements)))]. *)
Definition combined_hash (measurements : list RTTMeasurement) : res bytes :=
  hs ← res_map rtt_commitment measurements;
  Ok (sha3_256 (concat (sort_hashes hs))).

Definition verify_commitment (r : MeasurementReveal) : res bool :=
  combined ← combined_hash (mr_measurements r);
  match mr_commitment r with
  | None => Err AttributeError
  | Some c => Ok (bool_decide (combined = mc_commitment_hash c))
  end.

(** ** The protocol state *)

Record MeasurementProtocol := mkProtocol {
  mp_validator_id : bytes;
  mp_location : location;
  mp_zone_id : Z;
  mp_use_real_measurements : bool;
  mp_peers : dict bytes PeerInfo;
  mp_current_epoch : Z;
  mp_phase : MeasurementPhase;
  mp_selected_targets : list bytes;
  mp_measurements : list RTTMeasurement;
  mp_commitment : option MeasurementCommitment;
  mp_received_commitments : dict bytes MeasurementCommitment;
  mp_received_reveals : dict bytes MeasurementReveal;
}.

Definition protocol_new (validator_id : bytes) (loc : location) (zone_id : Z) (real : bool)
    : MeasurementProtocol :=
  mkProtocol validator_id loc zone_id real [] 0 MP_IDLE [] [] None [] [].

Definition set_mp_peers (p : MeasurementProtocol) (peers : dict bytes PeerInfo) : MeasurementProtocol :=
  mkProtocol (mp_validator_id p) (mp_location p) (mp_zone_id p) (mp_use_real_measurements p) peers
    (mp_current_epoch p) (mp_phase p) (mp_selected_targets p) (mp_measurements p)
    (mp_commitment p) (mp_received_commitments p) (mp_received_reveals p).

Definition set_own (p : MeasurementProtocol) (phase : MeasurementPhase) (targets : list bytes)
    (ms : list RTTMeasurement) (c : option MeasurementCommitment) : MeasurementProtocol :=
  mkProtocol (mp_validator_id p) (mp_location p) (mp_zone_id p) (mp_use_real_measurements p)
    (mp_peers p) (mp_current_epoch p) phase targets ms c
    (mp_received_commitments p) (mp_received_reveals p).

Definition set_received (p : MeasurementProtocol) (cs : dict bytes MeasurementCommitment)
    (rs : dict bytes MeasurementReveal) : MeasurementProtocol :=
  mkProtocol (mp_validator_id p) (mp_location p) (mp_zone_id p) (mp_use_real_measurements p)
    (mp_peers p) (mp_current_epoch p) (mp_phase p) (mp_selected_targets p) (mp_measurements p)
    (mp_commitment p) cs rs.

Definition mp_add_peer (p : MeasurementProtocol) (peer : PeerInfo) : MeasurementProtocol :=
  set_mp_peers p (dict_set (pi_validator_id peer) peer (mp_peers p)).

Definition mp_remove_peer (p : MeasurementProtocol) (peer_id : bytes) : MeasurementProtocol :=
  set_mp_peers p (dict_del peer_id (mp_peers p)).

Definition mp_start_epoch (p : MeasurementProtocol) (epoch : Z) : MeasurementProtocol :=
  mkProtocol (mp_validator_id p) (mp_location p) (mp_zone_id p) (mp_use_real_measurements p)
    (mp_peers p) epoch MP_IDLE [] [] None [] [].

Definition select_targets `{PyRandom} (p : MeasurementProtocol) (num_targets : nat)
    : MeasurementProtocol * res (list bytes) :=
  let available := dict_keys (mp_peers p) in
  let num_targets := if length available <? num_targets then length available else num_targets in
  match py_concat [PBytes (mp_validator_id p); PInt (mp_current_epoch p)] with
  | Err e => (p, Err e)
  | Ok d =>
      let seed := sha3_256 d in
      let available := shuffle (be_decode (take 8 seed)) available in
      let targets := take num_targets available in
      (set_own p (mp_phase p) targets (mp_measurements p) (mp_commitment p), Ok targets)
  end.

(** The loop of [execute_measurements]; [self.measurements] grows as it runs, and the [k]-th
    measurement takes the [k]-th normal deviate and the [k]-th nonce. *)
Fixpoint measure_loop `{Libm} (p : MeasurementProtocol) (targets : list bytes) (timestamp : Z)
    (is_adversary : bool) (gauss : nat -> float64 -> float64 -> float64) (nonces : nat -> bytes)
    (ms : list RTTMeasurement) : list RTTMeasurement * res unit :=
  match targets with
  | [] => (ms, Ok tt)
  | target_id :: targets =>
      match dict_get target_id (mp_peers p) with
      | None => measure_loop p targets timestamp is_adversary gauss nonces ms
      | Some peer =>
          match haversine_distance_km (mp_location p) (pi_location peer) with
          | Err e => (ms, Err e)
          | Ok distance =>
              let theoretical := theoretical_rtt_ms distance in
              let actual := simulate_rtt (gauss (length ms)) theoretical is_adversary in
              let m := mkRTT (mp_validator_id p) target_id actual timestamp theoretical
                         (nonces (length ms)) in
              measure_loop p targets timestamp is_adversary gauss nonces (ms ++ [m])
          end
      end
  end.

Definition execute_measurements `{Libm} (p : MeasurementProtocol) (is_adversary : bool)
    (gauss : nat -> float64 -> float64 -> float64) (nonces : nat -> bytes) (now : float64)
    : MeasurementProtocol * res (list RTTMeasurement) :=
  let with_ms ms := set_own p (mp_phase p) (mp_selected_targets p) ms (mp_commitment p) in
  match to_ms now with
  | Err e => (with_ms [], Err e)
  | Ok timestamp =>
      let '(ms, r) := measure_loop p (mp_selected_targets p) timestamp is_adversary gauss nonces [] in
      (with_ms ms, match r with Ok _ => Ok ms | Err e => Err e end)
  end.

Definition create_commitment (p : MeasurementProtocol) (now : float64)
    : MeasurementProtocol * res MeasurementCommitment :=
  match combined_hash (mp_measurements p), to_ms now with
  | Ok h, Ok timestamp =>
      let c := mkCommitment (mp_validator_id p) (mp_current_epoch p) (mp_selected_targets p) h
                 timestamp [] in
      (set_own p MP_COMMIT (mp_selected_targets p) (mp_measurements p) (Some c), Ok c)
  | Err e, _ => (p, Err e)
  | _, Err e => (p, Err e)
  end.

Definition receive_commitment (p : MeasurementProtocol) (c : MeasurementCommitment)
    : MeasurementProtocol * bool :=
  if negb (mc_epoch c =? mp_current_epoch p)%Z then (p, false)
  else (set_received p (dict_set (mc_validator_id c) c (mp_received_commitments p))
          (mp_received_reveals p), true).

Definition create_reveal (p : MeasurementProtocol) : MeasurementProtocol * MeasurementReveal :=
  let r := mkReveal (mp_validator_id p) (mp_current_epoch p) (mp_measurements p) (mp_commitment p) [] in
  (set_own p MP_REVEAL (mp_selected_targets p) (mp_measurements p) (mp_commitment p), r).

Definition receive_reveal (p : MeasurementProtocol) (r : MeasurementReveal)
    : MeasurementProtocol * res (bool * string) :=
  if negb (mr_epoch r =? mp_current_epoch p)%Z then (p, Ok (false, "wrong epoch"))
  else match dict_get (mr_validator_id r) (mp_received_commitments p) with
  | None => (p, Ok (false, "no commitment found"))
  | Some _ =>
      match verify_commitment r with
      | Err e => (p, Err e)
      | Ok false => (p, Ok (false, "commitment mismatch"))
      | Ok true =>
          (set_received p (mp_received_commitments p)
             (dict_set (mr_validator_id r) r (mp_received_reveals p)), Ok (true, "valid"))
      end
  end.

(** The dictionary starts with the node's own entry, which a reveal filed under the node's own
    identity overwrites. *)
Definition get_all_measurements (p : MeasurementProtocol) : dict bytes (list RTTMeasurement) :=
  foldl (fun result kv => dict_set kv.1 (mr_measurements kv.2) result)
    [(mp_validator_id p, mp_measurements p)] (mp_received_reveals p).

End Hashes.

(** ** TCP probes *)

Definition sort_floats (l : list float64) : list float64 := merge_sort (cmp_ge (fun x y => float_cmp y x)) l.

(** [probes] are the two clock readings of each connection attempt, [None] for a failed one. *)
Definition probe_samples (probes : list (option (float64 * float64))) : list float64 :=
  omap (fun o => (fun '(t0, t1) => float_mul (float_sub t1 t0) float_1000) <$> o) probes.

Definition median (l : list float64) : res float64 :=
  let s := sort_floats l in
  let mid := length s / 2 in
  match s with
  | [] => Err (ConnectionError "All RTT probes failed")
  | _ =>
      if length s mod 2 =? 0 then
        match s !! (mid - 1), s !! mid with
        | Some x, Some y => Ok (float_div (float_add x y) (lit 2 1))
        | _, _ => Err (IndexError "list index out of range")
        end
      else match s !! mid with
           | Some x => Ok x
           | None => Err (IndexError "list index out of range")
           end
  end.

Definition measure_rtt (probes : list (option (float64 * float64))) : res float64 :=
  median (probe_samples probes).

(** ** Lemmas *)

Section Lemmas.
Context `{Hashlib}.

Lemma sort_hashes_perm hs : sort_hashes hs ≡ₚ hs.
Proof. apply merge_sort_Permutation. Qed.

(** Sorting forgets the order. *)
Lemma sort_hashes_unique hs1 hs2 : hs1 ≡ₚ hs2 -> sort_hashes hs1 = sort_hashes hs2.
Proof.
  intros Hp. set (R := cmp_ge (fun x y : bytes => bytes_cmp y x)).
  assert (Htr : Transitive R).
  { intros x y z Hxy Hyz. by apply (cmp_ge_trans bytes_cmp bytes_cmp_lawful z y x). }
  assert (Htot : Total R) by (intros x y; destruct (cmp_ge_total bytes_cmp bytes_cmp_lawful x y); [by right|by left]).
  apply (StronglySorted_unique_strong R); [|by apply (StronglySorted_merge_sort R)..|by rewrite !sort_hashes_perm].
  intros x y _ _. unfold R, cmp_ge. rewrite (cmp_sym (cmp := bytes_cmp) y x).
  destruct (bytes_cmp y x) eqn:E; try done. by intros; apply bytes_cmp_eq in E.
Qed.

(** What a measurement's hash commits to: not the theoretical time. *)
Definition committed_fields (m : RTTMeasurement) : bytes * bytes * bytes * Z * bytes :=
  (rm_source_id m, rm_target_id m, pack_double (rm_rtt_ms m), rm_timestamp m, rm_nonce m).

Definition rtt_wf (m : RTTMeasurement) : Prop :=
  length (rm_source_id m) = 32 /\ length (rm_target_id m) = 32 /\
  (0 <= rm_timestamp m < 2 ^ 64)%Z.

(** Reading the fields back from the string that is hashed. *)
Definition read_committed (d : bytes) : bytes * bytes * bytes * Z * bytes :=
  (slice 0 32 d, slice 32 64 d, slice 64 72 d, be_decode (slice 72 80 d), drop 80 d).

Lemma pack_double_length x : length (pack_double x) = 8.
Proof. apply be_encode_length. Qed.

Lemma commitment_preimage_ok m :
  (0 <= rm_timestamp m < 2 ^ 64)%Z ->
  commitment_preimage m =
    Ok (rm_source_id m ++ rm_target_id m ++ pack_double (rm_rtt_ms m) ++
        be_encode 8 (rm_timestamp m) ++ rm_nonce m).
Proof.
  intros Ht. unfold commitment_preimage. rewrite !py_concat_cons, py_concat_nil, concat_arg_int by done.
  cbn [concat_arg mbind res_bind]. by rewrite app_nil_r.
Qed.

Lemma read_committed_ok m d :
  rtt_wf m -> commitment_preimage m = Ok d -> read_committed d = committed_fields m.
Proof.
  intros (Hs & Ht & Hz) E. rewrite commitment_preimage_ok in E by done. apply Ok_inj in E as <-.
  pose proof (pack_double_length (rm_rtt_ms m)) as Hp. pose proof (be_encode_length 8 (rm_timestamp m)) as He.
  unfold read_committed, committed_fields.
  set (x := pack_double _) in *. set (e := be_encode 8 _) in *.
  set (s := rm_source_id m) in *. set (t := rm_target_id m) in *. set (k := rm_nonce m).
  rewrite (slice_at [] s (t ++ x ++ e ++ k) _ 0 32) by (done || simpl; lia).
  rewrite (slice_at s t (x ++ e ++ k) _ 32 64) by (done || lia).
  rewrite (slice_at (s ++ t) x (e ++ k) _ 64 72) by (rewrite ?length_app, <- ?app_assoc; done || lia).
  rewrite (slice_at (s ++ t ++ x) e k _ 72 80) by (rewrite ?length_app, <- ?app_assoc; done || lia).
  rewrite (app_assoc x e k), (app_assoc t _ k), (app_assoc s _ k), drop_app_length' by
    (rewrite !length_app; lia).
  unfold e. by rewrite be_decode_encode_small by (simpl; lia).
Qed.

Lemma combined_hash_ok ms :
  Forall rtt_wf ms -> exists pre,
    Forall2 (fun m d => commitment_preimage m = Ok d) ms pre /\
    combined_hash ms = Ok (sha3_256 (concat (sort_hashes (map sha3_256 pre)))).
Proof.
  intros Hms. assert (Hp : exists pre, Forall2 (fun m d => commitment_preimage m = Ok d) ms pre).
  { induction Hms as [|m ms (_ & _ & Hz) _ (pre & IH)]; [by exists []|].
    eexists. constructor; [by apply commitment_preimage_ok|exact IH]. }
  destruct Hp as [pre Hpre]. exists pre. split; [done|]. unfold combined_hash.
  rewrite (proj2 (res_map_Ok rtt_commitment ms (map sha3_256 pre))); [done|].
  clear -Hpre. induction Hpre as [|m d ms pre E _ IH]; simpl; constructor; [|done].
  unfold rtt_commitment. by rewrite E.
Qed.

(** Blocks of equal length can be read back from their concatenation. *)
Lemma concat_blocks_inj n (l1 l2 : list bytes) :
  0 < n -> Forall (fun x => length x = n) l1 -> Forall (fun x => length x = n) l2 ->
  concat l1 = concat l2 -> l1 = l2.
Proof.
  intros Hn H1. revert l2. induction H1 as [|x l1 Hx H1 IH]; intros l2 H2 E.
  - destruct H2 as [|y l2 Hy H2]; [done|]. destruct y; [simpl in Hy; lia|done].
  - destruct H2 as [|y l2 Hy H2]; simpl in E.
    { destruct x; [simpl in Hx; lia|done]. }
    apply app_inj_1 in E as [-> E]; [|lia]. f_equal. by apply IH.
Qed.

(** A function that is injective on the listed strings has a left inverse there. *)
Lemma map_perm_inj (f : bytes -> bytes) (l1 l2 : list bytes) :
  collision_free f (l1 ++ l2) -> map f l1 ≡ₚ map f l2 -> l1 ≡ₚ l2.
Proof.
  intros Hcf Hp. set (g := fun h => default [] (head (filter (fun x => f x = h) (l1 ++ l2)))).
  assert (Hg : forall x, x ∈ l1 ++ l2 -> g (f x) = x).
  { intros x Hx. unfold g. destruct (filter _ (l1 ++ l2)) as [|y l] eqn:E.
    - assert (x ∈ filter (fun y => f y = f x) (l1 ++ l2)) as Hin by (by apply list_elem_of_filter).
      rewrite E in Hin. by apply not_elem_of_nil in Hin.
    - assert (y ∈ filter (fun y => f y = f x) (l1 ++ l2)) as Hin by (rewrite E; by left).
      apply list_elem_of_filter in Hin as [Hf Hy]. simpl. by apply Hcf. }
  assert (Hl : forall l, (forall x, x ∈ l -> x ∈ l1 ++ l2) -> map g (map f l) = l).
  { intros l Hl. rewrite map_map. induction l as [|x l IH]; [done|]. simpl.
    rewrite Hg by (apply Hl; by left). f_equal. apply IH. intros y Hy. apply Hl. by right. }
  rewrite <- (Hl l1), <- (Hl l2) by (intros x Hx; apply elem_of_app; auto).
  by apply Permutation_map.
Qed.

(** The strings hashed when a list of measurements is committed to. *)
Definition commitment_queries (ms : list RTTMeasurement) : list bytes :=
  let pre := omap (fun m => match commitment_preimage m with Ok d => Some d | Err _ => None end) ms in
  concat (sort_hashes (map sha3_256 pre)) :: pre.

Lemma omap_preimages ms pre :
  Forall2 (fun m d => commitment_preimage m = Ok d) ms pre ->
  omap (fun m => match commitment_preimage m with Ok d => Some d | Err _ => None end) ms = pre.
Proof. induction 1 as [|m d ms pre E _ IH]; [done|]. simpl. rewrite E. simpl. f_equal. exact IH. Qed.

(** The string that is hashed, written from the fields. *)
Definition write_committed (f : bytes * bytes * bytes * Z * bytes) : bytes :=
  f.1.1.1.1 ++ f.1.1.1.2 ++ f.1.1.2 ++ be_encode 8 f.1.2 ++ f.2.

Lemma preimages_written ms pre :
  Forall rtt_wf ms -> Forall2 (fun m d => commitment_preimage m = Ok d) ms pre ->
  pre = map write_committed (map committed_fields ms) /\ map read_committed pre = map committed_fields ms.
Proof.
  intros Hw Hp. induction Hp as [|m d ms pre E _ IH]; [done|]. apply Forall_cons in Hw as [Hm Hw].
  destruct (IH Hw) as [IH1 IH2]. cbn [map]. rewrite <- IH1, IH2, (read_committed_ok m d Hm E).
  rewrite commitment_preimage_ok in E by apply Hm. apply Ok_inj in E as <-. done.
Qed.

(** The combined hash is a hash of the multiset of the committed fields. *)
Lemma combined_hash_multiset ms1 ms2 :
  Forall rtt_wf ms1 -> Forall rtt_wf ms2 ->
  collision_free sha3_256 (commitment_queries ms1 ++ commitment_queries ms2) ->
  combined_hash ms1 = combined_hash ms2 <-> map committed_fields ms1 ≡ₚ map committed_fields ms2.
Proof.
  intros Hw1 Hw2 Hcf. destruct (combined_hash_ok _ Hw1) as (pre1 & Hp1 & ->).
  destruct (combined_hash_ok _ Hw2) as (pre2 & Hp2 & ->).
  unfold commitment_queries in Hcf. rewrite (omap_preimages _ _ Hp1), (omap_preimages _ _ Hp2) in Hcf.
  destruct (preimages_written _ _ Hw1 Hp1) as [Hpre1 Hread1].
  destruct (preimages_written _ _ Hw2 Hp2) as [Hpre2 Hread2]. split.
  - intros Hs%Ok_inj. rewrite <- Hread1, <- Hread2. apply Permutation_map.
    assert (Hcat : concat (sort_hashes (map sha3_256 pre1)) = concat (sort_hashes (map sha3_256 pre2)))
      by (apply Hcf; [set_solver|set_solver|done]).
    assert (Hlen : forall pre, Forall (fun x => length x = 32) (sort_hashes (map sha3_256 pre))).
    { intros pre. rewrite sort_hashes_perm. apply Forall_forall. intros x Hx.
      apply list_elem_of_fmap in Hx as (y & -> & _). apply sha3_256_length. }
    apply (concat_blocks_inj 32) in Hcat; [|lia|apply Hlen..].
    apply (map_perm_inj sha3_256); [intros x y Hx Hy; apply Hcf; set_solver|].
    by rewrite <- (sort_hashes_perm (map sha3_256 pre1)), Hcat, sort_hashes_perm.
  - intros Hp. do 3 f_equal. apply sort_hashes_unique, Permutation_map. rewrite Hpre1, Hpre2.
    by apply Permutation_map.
Qed.

(** C32. A commitment opens to one multiset of committed fields, and to every list with it.  If
    the measurements of one reveal match a commitment hash, those of another one match it
    exactly if both have, up to order, the same sources, targets, measured times, timestamps and
    nonces.  The theoretical times are not committed to and may differ.  The identities are
    32 bytes long, the timestamps fit in 64 bits, and SHA3-256 has no collision among the
    strings that the two verifications hash. *)
Theorem commitment_binding (r1 r2 : MeasurementReveal) (c1 c2 : MeasurementCommitment)
    (Hc1 : mr_commitment r1 = Some c1) (Hc2 : mr_commitment r2 = Some c2)
    (Hsame : mc_commitment_hash c1 = mc_commitment_hash c2)
    (Hw1 : Forall rtt_wf (mr_measurements r1)) (Hw2 : Forall rtt_wf (mr_measurements r2))
    (Hv1 : verify_commitment r1 = Ok true)
    (Hcf : collision_free sha3_256
       (commitment_queries (mr_measurements r1) ++ commitment_queries (mr_measurements r2))) :
  verify_commitment r2 = Ok true <->
  map committed_fields (mr_measurements r1) ≡ₚ map committed_fields (mr_measurements r2).
Proof.
  rewrite <- (combined_hash_multiset _ _ Hw1 Hw2 Hcf).
  unfold verify_commitment in *. rewrite Hc1 in Hv1. rewrite Hc2.
  destruct (combined_hash_ok _ Hw1) as (pre1 & _ & E1). destruct (combined_hash_ok _ Hw2) as (pre2 & _ & E2).
  rewrite E1 in *. rewrite E2. cbn [mbind res_bind] in *. injection Hv1 as Hv1%bool_decide_eq_true.
  rewrite Hv1, Hsame. split.
  - intros [= Hv%bool_decide_eq_true]. by rewrite Hv.
  - intros [= Hv]. by rewrite bool_decide_eq_true_2.
Qed.

(** A reveal that carries the hash of its own measurements is accepted by a node that has
    received some commitment of its sender, and its measurements are the ones used. *)
Lemma receive_matching q v c ms c' h :
  dict_wf (mp_received_reveals q) ->
  dict_get v (mp_received_commitments q) = Some c ->
  combined_hash ms = Ok h -> mc_commitment_hash c' = h ->
  let '(q', out) := receive_reveal q (mkReveal v (mp_current_epoch q) ms (Some c') []) in
  out = Ok (true, "valid"%string) /\ dict_get v (get_all_measurements q') = Some ms.
Proof.
  intros Hwf Hc Hh Hc'. unfold receive_reveal. cbn [mr_epoch mr_validator_id].
  rewrite Z.eqb_refl, Hc. cbn [negb]. unfold verify_commitment. cbn [mr_measurements mr_commitment].
  rewrite Hh, bind_Ok, bool_decide_eq_true_2 by done. split; [done|].
  unfold get_all_measurements. cbn [set_received mp_received_reveals mp_validator_id mp_measurements].
  set (d := dict_set v _ _).
  assert (Hd : dict_get v d = Some (mkReveal v (mp_current_epoch q) ms (Some c') []))
    by apply dict_get_set_eq.
  assert (Hdw : dict_wf d) by (by apply dict_set_wf). clearbody d. revert Hd Hdw.
  generalize [(mp_validator_id q, mp_measurements q)].
  induction d as [|[k r] d IH]; intros acc; simpl; [done|]. case_decide as Hk.
  - intros [= ->] [Hni Hnd]%NoDup_cons. subst k. clear IH.
    assert (Hf : forall acc, dict_get v acc = Some ms ->
      dict_get v (foldl (fun result kv => dict_set kv.1 (mr_measurements kv.2) result) acc d) = Some ms).
    { clear acc Hnd. induction d as [|[k r] d IH]; intros acc Hacc; simpl; [done|].
      apply not_elem_of_cons in Hni as [Hne Hni]. simpl in Hne.
      apply IH; [done|]. by rewrite dict_get_set_ne. }
    apply Hf. apply dict_get_set_eq.
  - intros Hd [_ Hnd]%NoDup_cons. by apply IH.
Qed.

(** The commit-reveal exchange works for an honest sender.  When a node commits to its
    measurements and then reveals them, a node in the same epoch that receives both messages
    accepts both, and the measurements it hands to the consensus for that sender are exactly
    the sender's. *)
Theorem commit_reveal_complete (p q : MeasurementProtocol) (now : float64) (timestamp : Z)
    (Hms : Forall rtt_wf (mp_measurements p)) (Hnow : to_ms now = Ok timestamp)
    (Hepoch : mp_current_epoch p = mp_current_epoch q)
    (Hq : dict_wf (mp_received_reveals q)) :
  exists c, (create_commitment p now).2 = Ok c /\
    let '(q1, received) := receive_commitment q c in
    let '(q2, out) := receive_reveal q1 (create_reveal (create_commitment p now).1).2 in
    received = true /\ out = Ok (true, "valid"%string) /\
    dict_get (mp_validator_id p) (get_all_measurements q2) = Some (mp_measurements p).
Proof.
  destruct (combined_hash_ok _ Hms) as (pre & _ & E). set (h := sha3_256 _) in E.
  unfold create_commitment. rewrite E, Hnow. eexists. split; [reflexivity|].
  unfold receive_commitment, create_reveal. cbn [mc_epoch mc_validator_id fst snd].
  rewrite Hepoch, Z.eqb_refl. cbn [negb].
  cbn [set_own mp_validator_id mp_current_epoch mp_measurements mp_commitment].
  set (c := mkCommitment _ _ _ _ _ _). set (q1 := set_received q _ _).
  rewrite Hepoch. change (mp_current_epoch q) with (mp_current_epoch q1).
  pose proof (receive_matching q1 (mp_validator_id p) c (mp_measurements p) c h Hq) as Hr.
  specialize (Hr (dict_get_set_eq _ _ _) E eq_refl).
  destruct (receive_reveal q1 _) as [q2 out]. by destruct Hr.
Qed.

(** The commitment that was received is not what a reveal is checked against.  A node
    that has received any commitment of a sender in the epoch accepts from it a reveal of
    arbitrary other measurements: the check compares the measurements with the commitment
    that travels inside the reveal, and those measurements replace what was committed to. *)
Theorem reveal_ignores_commitment (q : MeasurementProtocol) (v : bytes)
    (c : MeasurementCommitment) (ms : list RTTMeasurement)
    (Hc : dict_get v (mp_received_commitments q) = Some c)
    (Hq : dict_wf (mp_received_reveals q)) (Hms : Forall rtt_wf ms) :
  exists r, mr_validator_id r = v /\ mr_measurements r = ms /\
    let '(q', out) := receive_reveal q r in
    out = Ok (true, "valid"%string) /\ dict_get v (get_all_measurements q') = Some ms.
Proof.
  destruct (combined_hash_ok _ Hms) as (pre & _ & E). set (h := sha3_256 _) in E.
  exists (mkReveal v (mp_current_epoch q) ms (Some (mkCommitment v (mp_current_epoch q) [] h 0 [])) []).
  split; [done|]. split; [done|]. by apply (receive_matching q v c ms _ h).
Qed.

End Lemmas.

(** ** Sample data *)

Definition demo_rtt (target : byte) (rtt theoretical : Z) : RTTMeasurement :=
  mkRTT (replicate 32 Byte.x01) (replicate 32 target) (lit rtt 10) 1700000000000 (lit theoretical 10)
    (replicate 32 Byte.x09).

Definition demo_protocol (ms : list RTTMeasurement) : MeasurementProtocol :=
  set_own (mp_start_epoch (protocol_new (replicate 32 Byte.x01) (lit 0 1, lit 0 1) 0 false) 7)
    MP_MEASURE [] ms None.

Definition demo_receiver : MeasurementProtocol :=
  mp_start_epoch (protocol_new (replicate 32 Byte.x02) (lit 0 1, lit 0 1) 0 false) 7.

Definition demo_commitment_hash (ms : list RTTMeasurement) : bytes :=
  match combined_hash (H := toy_hashlib) ms with Ok h => h | Err _ => [] end.

(** The second list has the measurements in another order and other theoretical times. *)
Definition demo_reveal (ms committed : list RTTMeasurement) : MeasurementReveal :=
  mkReveal (replicate 32 Byte.x01) 7 ms
    (Some (mkCommitment (replicate 32 Byte.x01) 7 [] (demo_commitment_hash committed) 0 [])) [].

Lemma demo_rtt_wf l :
  Forall (fun m => exists t r th, m = demo_rtt t r th) l -> Forall rtt_wf l.
Proof.
  intros Hl. eapply Forall_impl; [exact Hl|]. intros m (t & r & th & ->).
  split; [done|]. split; [done|]. simpl. lia.
Qed.

Lemma commitment_binding_witness :
  let l1 := [demo_rtt Byte.x03 120 100; demo_rtt Byte.x04 230 200] in
  let l2 := [demo_rtt Byte.x04 230 999; demo_rtt Byte.x03 120 999] in
  verify_commitment (H := toy_hashlib) (demo_reveal l2 l1) = Ok true <->
  map committed_fields l1 ≡ₚ map committed_fields l2.
Proof.
  intros l1 l2.
  apply (@commitment_binding toy_hashlib (demo_reveal l1 l1) (demo_reveal l2 l1)
    (mkCommitment (replicate 32 Byte.x01) 7 [] (demo_commitment_hash l1) 0 [])
    (mkCommitment (replicate 32 Byte.x01) 7 [] (demo_commitment_hash l1) 0 [])).
  - reflexivity.
  - reflexivity.
  - reflexivity.
  - apply demo_rtt_wf. repeat constructor; eexists _, _, _; reflexivity.
  - apply demo_rtt_wf. repeat constructor; eexists _, _, _; reflexivity.
  - vm_compute. reflexivity.
  - apply collision_free_b_sound. vm_compute. reflexivity.
Defined.

(** Another order and other theoretical times verify; another measured time does not. *)
Example demo_openings :
  let l := [demo_rtt Byte.x03 120 100; demo_rtt Byte.x04 230 200] in
  (verify_commitment (H := toy_hashlib) (demo_reveal [demo_rtt Byte.x04 230 999; demo_rtt Byte.x03 120 999] l),
   verify_commitment (H := toy_hashlib) (demo_reveal [demo_rtt Byte.x03 121 100; demo_rtt Byte.x04 230 200] l)) =
  (Ok true, Ok false).
Proof. vm_compute. reflexivity. Qed.

Lemma commit_reveal_complete_witness :
  let p := demo_protocol [demo_rtt Byte.x03 120 100] in
  exists c, (create_commitment (H := toy_hashlib) p (lit 5 2)).2 = Ok c /\
    let '(q1, received) := receive_commitment demo_receiver c in
    let '(q2, out) := receive_reveal (H := toy_hashlib) q1
      (create_reveal (create_commitment (H := toy_hashlib) p (lit 5 2)).1).2 in
    received = true /\ out = Ok (true, "valid"%string) /\
    dict_get (replicate 32 Byte.x01) (get_all_measurements q2) = Some [demo_rtt Byte.x03 120 100].
Proof.
  apply (@commit_reveal_complete toy_hashlib (demo_protocol [demo_rtt Byte.x03 120 100]) demo_receiver
    (lit 5 2) 2500).
  - apply demo_rtt_wf. repeat constructor; eexists _, _, _; reflexivity.
  - vm_compute. reflexivity.
  - reflexivity.
  - constructor.
Defined.

Definition demo_committed : MeasurementProtocol :=
  (receive_commitment demo_receiver
     (mkCommitment (replicate 32 Byte.x01) 7 [] (demo_commitment_hash [demo_rtt Byte.x03 120 100]) 0 [])).1.

Lemma reveal_ignores_commitment_witness :
  exists r, mr_validator_id r = replicate 32 Byte.x01 /\ mr_measurements r = [demo_rtt Byte.x03 10 100] /\
    let '(q', out) := receive_reveal (H := toy_hashlib) demo_committed r in
    out = Ok (true, "valid"%string) /\
    dict_get (replicate 32 Byte.x01) (get_all_measurements q') = Some [demo_rtt Byte.x03 10 100].
Proof.
  apply (@reveal_ignores_commitment toy_hashlib demo_committed (replicate 32 Byte.x01)
    (mkCommitment (replicate 32 Byte.x01) 7 [] (demo_commitment_hash [demo_rtt Byte.x03 120 100]) 0 [])
    [demo_rtt Byte.x03 10 100]).
  - vm_compute. reflexivity.
  - constructor.
  - apply demo_rtt_wf. repeat constructor; eexists _, _, _; reflexivity.
Defined.
