(* ===== verification/Epoch.v ===== *)
(** * Epochs and entropy ([src/src/epoch.py])

    The four-source entropy well, the epoch table and its clock, and the synchronizer.  Main
    results: over every history of calls each epoch up to the current one has a record under its
    own number, with its entropy and finalized if past, unless a grace-period check replaced it
    ([epoch_lifecycle]); that check erases the state of the running epoch
    ([grace_check_erases_epoch]); the synchronizer reports agreement exactly at 67% and
    returns a most frequent epoch ([epoch_agreement]). *)

From stdpp Require Import prelude list gmap strings.
From Stdlib Require Import Strings.Byte ZArith Lia SpecFloat.
From S2P Require Import Prelude.
From S2P Require Import Dict.
From S2P Require Import Text.
From S2P Require Import PyFloat.
From S2P Require Import Crypto.
From S2P Require Import Measurement.

Set Default Goal Selector "!".

Definition EPOCH_DURATION_SEC : Z := 15 * 60.
Definition GRACE_PERIOD_SEC : Z := 5 * 60.

(** ** Entropy *)

Inductive EntropySourceType :=
  | NETWORK_MEASUREMENTS | BLOCKCHAIN_STATE | EXTERNAL_BEACONS | HISTORICAL_CHAIN.

#[export] Instance entropy_source_eq_dec : EqDecision EntropySourceType.
Proof. solve_decision. Defined.

Record EntropyContribution := mkContribution {
  ec_source_type : EntropySourceType;
  ec_data : bytes;
  ec_timestamp : Z;
  ec_available : bool;
}.

Definition weighted_entropy (c : EntropyContribution) : bytes :=
  if negb (ec_available c) || bool_decide (ec_data c = []) then [] else ec_data c.

Record EpochEntropy := mkEntropy {
  ee_epoch : Z;
  ee_contributions : dict EntropySourceType EntropyContribution;
  ee_combined_entropy : bytes;
  ee_generation_timestamp : Z;
  ee_sources_used : Z;
}.

Definition security_bits (e : EpochEntropy) : Z := ee_sources_used e * 64.
Definition is_secure (e : EpochEntropy) : bool := (1 <=? ee_sources_used e)%Z.

Record EntropyWell := mkWell {
  ew_network_measurements : bytes;
  ew_blockchain_state : bytes;
  ew_external_beacons : bytes;
  ew_historical_chain : bytes;
  ew_history : gmap Z EpochEntropy;
}.

Section Epoch.
Context `{Hashlib}.

(** [random] is [secure_random(64)]. *)
Definition entropy_well_new (random : bytes) : EntropyWell := mkWell [] [] [] random ∅.

Definition update_network_measurements (w : EntropyWell) (rtt_data : list float64) (now : float64)
    : EntropyWell * res unit :=
  match rtt_data with
  | [] => (w, Ok tt)
  | _ =>
      let rtt_bytes := concat (map pack_double (take 100 rtt_data)) in
      match (ms ← to_ms now; py_concat [PBytes (b: "network"); PBytes rtt_bytes; PInt ms]) with
      | Err e => (w, Err e)
      | Ok d => (mkWell (sha3_512 d) (ew_blockchain_state w) (ew_external_beacons w)
                   (ew_historical_chain w) (ew_history w), Ok tt)
      end
  end.

Definition update_blockchain_state (w : EntropyWell) (block_hash : bytes) : EntropyWell :=
  mkWell (ew_network_measurements w)
    (sha3_512 ((b: "blockchain") ++ ew_blockchain_state w ++ block_hash))
    (ew_external_beacons w) (ew_historical_chain w) (ew_history w).

Definition update_external_beacons (w : EntropyWell) (beacon_data : bytes) : EntropyWell :=
  mkWell (ew_network_measurements w) (ew_blockchain_state w)
    (sha3_512 ((b: "external") ++ ew_external_beacons w ++ beacon_data))
    (ew_historical_chain w) (ew_history w).

(** [if source: contributions[type] = ...; sources_used += 1]. *)
Definition contribute (ty : EntropySourceType) (data : bytes) (timestamp : Z)
    (acc : dict EntropySourceType EntropyContribution * Z)
    : dict EntropySourceType EntropyContribution * Z :=
  match data with
  | [] => acc
  | _ => (dict_set ty (mkContribution ty data timestamp true) acc.1, acc.2 + 1)%Z
  end.

Definition generate_epoch_entropy (w : EntropyWell) (epoch : Z) (now : float64)
    : EntropyWell * res EpochEntropy :=
  match to_ms now with
  | Err e => (w, Err e)
  | Ok timestamp =>
      let acc := contribute NETWORK_MEASUREMENTS (ew_network_measurements w) timestamp ([], 0%Z) in
      let acc := contribute BLOCKCHAIN_STATE (ew_blockchain_state w) timestamp acc in
      let acc := contribute EXTERNAL_BEACONS (ew_external_beacons w) timestamp acc in
      let contributions := dict_set HISTORICAL_CHAIN
        (mkContribution HISTORICAL_CHAIN (ew_historical_chain w) timestamp true) acc.1 in
      let sources_used := (acc.2 + 1)%Z in
      match py_concat [PBytes (b: "epoch_entropy"); PInt epoch; PBytes (ew_network_measurements w);
                       PBytes (ew_blockchain_state w); PBytes (ew_external_beacons w);
                       PBytes (ew_historical_chain w)] with
      | Err e => (w, Err e)
      | Ok combined_data =>
          let combined_entropy := sha3_512 combined_data in
          let chain := sha3_512 (ew_historical_chain w ++ combined_entropy) in
          let result := mkEntropy epoch contributions combined_entropy timestamp sources_used in
          (mkWell (ew_network_measurements w) (ew_blockchain_state w) (ew_external_beacons w) chain
             (<[epoch := result]> (ew_history w)), Ok result)
      end
  end.

(** ** Epochs *)

Inductive EpochPhase := EP_ACTIVE | EP_MEASUREMENT | EP_CONSENSUS | EP_TRANSITION.

Record EpochState := mkEpochState {
  es_epoch_number : Z;
  es_start_time : float64;
  es_end_time : float64;
  es_phase : EpochPhase;
  es_entropy : option EpochEntropy;
  es_validator_commitments : gmap bytes bytes;
  es_finalized : bool;
  es_block_root : option bytes;
}.

Record EpochManager := mkEpochManager {
  em_genesis_time : float64;
  em_current_epoch : Z;
  em_epochs : gmap Z EpochState;
  em_entropy_well : EntropyWell;
}.

Definition set_epochs (m : EpochManager) (epochs : gmap Z EpochState) : EpochManager :=
  mkEpochManager (em_genesis_time m) (em_current_epoch m) epochs (em_entropy_well m).

(** Epoch numbers are below 2^1000, so the conversion to a double does not overflow. *)
Definition fresh_epoch (m : EpochManager) (epoch_number : Z) : EpochState :=
  let start_time := float_add (em_genesis_time m) (float_of_Z (epoch_number * EPOCH_DURATION_SEC)) in
  let end_time := float_add start_time (float_of_Z EPOCH_DURATION_SEC) in
  mkEpochState epoch_number start_time end_time EP_ACTIVE None ∅ false None.

Definition initialize_epoch (m : EpochManager) (epoch_number : Z) : EpochManager :=
  set_epochs m (<[epoch_number := fresh_epoch m epoch_number]> (em_epochs m)).

(** [EpochManager(genesis_time)]: a missing or zero genesis time is replaced by the clock. *)
Definition epoch_manager_new (genesis_time : option float64) (now : float64) (random : bytes)
    : EpochManager :=
  let genesis := match genesis_time with
                 | Some (S754_zero _) | None => now
                 | Some g => g
                 end in
  initialize_epoch (mkEpochManager genesis 0 ∅ (entropy_well_new random)) 0.

Definition get_current_epoch (m : EpochManager) (now : float64) : res Z :=
  let elapsed := float_sub now (em_genesis_time m) in
  e ← int_of_float (float_div elapsed (float_of_Z EPOCH_DURATION_SEC));
  Ok (Z.max 0 e).

Definition phase_of_elapsed (elapsed : float64) : EpochPhase :=
  let d := float_of_Z EPOCH_DURATION_SEC in
  if float_lt elapsed (float_mul d (lit 8 10)) then EP_ACTIVE
  else if float_lt elapsed (float_mul d (lit 867 1000)) then EP_MEASUREMENT
  else if float_lt elapsed (float_mul d (lit 933 1000)) then EP_CONSENSUS
  else EP_TRANSITION.

(** The clock is read once for the epoch and once for the elapsed time. *)
Definition get_epoch_phase (m : EpochManager) (epoch : option Z) (now now' : float64)
    : EpochManager * res EpochPhase :=
  match (match epoch with Some e => Ok e | None => get_current_epoch m now end) with
  | Err e => (m, Err e)
  | Ok epoch =>
      let '(m, state) := match em_epochs m !! epoch with
                         | Some state => (m, state)
                         | None => (initialize_epoch m epoch, fresh_epoch m epoch)
                         end in
      (m, Ok (phase_of_elapsed (float_sub now' (es_start_time state))))
  end.

(** [self.epochs.get(current, self._initialize_epoch(current))]: Python evaluates the default
    first, whether or not the key is present. *)
Definition is_in_grace_period (m : EpochManager) (tx_epoch : Z) (now now' : float64)
    : EpochManager * res bool :=
  match get_current_epoch m now with
  | Err e => (m, Err e)
  | Ok current =>
      if (tx_epoch =? current)%Z then (m, Ok true)
      else if (tx_epoch =? current - 1)%Z then
        let default_state := fresh_epoch m current in
        let m := initialize_epoch m current in
        let state := default default_state (em_epochs m !! current) in
        (m, Ok (float_lt (float_sub now' (es_start_time state)) (float_of_Z GRACE_PERIOD_SEC)))
      else (m, Ok false)
  end.

Definition with_entropy (st : EpochState) (e : EpochEntropy) : EpochState :=
  mkEpochState (es_epoch_number st) (es_start_time st) (es_end_time st) (es_phase st) (Some e)
    (es_validator_commitments st) (es_finalized st) (es_block_root st).

Definition mark_finalized (st : EpochState) (phase : EpochPhase) (root : option bytes) : EpochState :=
  mkEpochState (es_epoch_number st) (es_start_time st) (es_end_time st) phase (es_entropy st)
    (es_validator_commitments st) true root.

Definition advance_epoch (m : EpochManager) (now : float64) : EpochManager * res (Z * EpochEntropy) :=
  let n := (em_current_epoch m + 1)%Z in
  let m := mkEpochManager (em_genesis_time m) n (em_epochs m) (em_entropy_well m) in
  match generate_epoch_entropy (em_entropy_well m) n now with
  | (w, Err e) => (mkEpochManager (em_genesis_time m) n (em_epochs m) w, Err e)
  | (w, Ok entropy) =>
      let epochs := <[n := with_entropy (fresh_epoch m n) entropy]> (em_epochs m) in
      let epochs := match epochs !! (n - 1)%Z with
                    | Some prev => <[(n - 1)%Z := mark_finalized prev EP_TRANSITION (es_block_root prev)]> epochs
                    | None => epochs
                    end in
      (mkEpochManager (em_genesis_time m) n epochs w, Ok (n, entropy))
  end.

Definition finalize_epoch (m : EpochManager) (epoch : Z) (block_root : bytes) : EpochManager :=
  match em_epochs m !! epoch with
  | None => m
  | Some st =>
      mkEpochManager (em_genesis_time m) (em_current_epoch m)
        (<[epoch := mark_finalized st (es_phase st) (Some block_root)]> (em_epochs m))
        (update_blockchain_state (em_entropy_well m) block_root)
  end.

Definition add_validator_commitment (m : EpochManager) (epoch : Z) (validator_id commitment : bytes)
    : EpochManager :=
  match em_epochs m !! epoch with
  | None => m
  | Some st =>
      set_epochs m (<[epoch := mkEpochState (es_epoch_number st) (es_start_time st) (es_end_time st)
        (es_phase st) (es_entropy st) (<[validator_id := commitment]> (es_validator_commitments st))
        (es_finalized st) (es_block_root st)]> (em_epochs m))
  end.

Record EpochInfo := mkEpochInfo {
  einfo_epoch_number : Z;
  einfo_start_time : float64;
  einfo_end_time : float64;
  einfo_phase : EpochPhase;
  einfo_finalized : bool;
  einfo_validator_commitments : nat;
  einfo_entropy_sources : Z;
  einfo_security_bits : Z;
}.

(** [None] is the dictionary with the single key [error]. *)
Definition get_epoch_info (m : EpochManager) (epoch : option Z) : option EpochInfo :=
  st ← em_epochs m !! default (em_current_epoch m) epoch;
  Some (mkEpochInfo (es_epoch_number st) (es_start_time st) (es_end_time st) (es_phase st)
    (es_finalized st) (size (es_validator_commitments st))
    (match es_entropy st with Some e => ee_sources_used e | None => 0 end)
    (match es_entropy st with Some e => security_bits e | None => 0 end)).

(** ** Synchronization *)

Record EpochSyncMessage := mkSync {
  sm_sender_id : bytes;
  sm_epoch : Z;
  sm_timestamp : float64;
  sm_entropy_hash : bytes;
  sm_signature : bytes;
}.

(** The synchronizer holds a reference to the node's epoch manager, which its operations take
    as an argument. *)
Record EpochSynchronizer := mkSynchronizer {
  sy_validator_id : bytes;
  sy_peer_epochs : dict bytes Z;
  sy_sync_messages : gmap Z (list EpochSyncMessage);
}.

Definition create_sync_message (y : EpochSynchronizer) (m : EpochManager) (now : float64)
    : EpochSyncMessage :=
  let current := em_current_epoch m in
  let entropy_hash :=
    match em_epochs m !! current with
    | Some st => match es_entropy st with
                 | Some e => sha3_256 (ee_combined_entropy e)
                 | None => []
                 end
    | None => []
    end in
  mkSync (sy_validator_id y) current now entropy_hash [].

Definition receive_sync_message (y : EpochSynchronizer) (m : EpochManager) (msg : EpochSyncMessage)
    : EpochSynchronizer * (bool * bytes) :=
  let y := mkSynchronizer (sy_validator_id y)
    (dict_set (sm_sender_id msg) (sm_epoch msg) (sy_peer_epochs y))
    (<[sm_epoch msg := lookup_default [] (sy_sync_messages y) (sm_epoch msg) ++ [msg]]>
       (sy_sync_messages y)) in
  let my_epoch := em_current_epoch m in
  (y, if (sm_epoch msg =? my_epoch)%Z then (true, b: "in sync")
      else if (my_epoch <? sm_epoch msg)%Z then
        (false, (b: "peer ahead by ") ++ dec_text (sm_epoch msg - my_epoch) ++ (b: " epochs"))
      else (false, (b: "peer behind by ") ++ dec_text (my_epoch - sm_epoch msg) ++ (b: " epochs"))).

(** [epoch_counts], in the order in which epochs are first seen. *)
Definition epoch_counts (y : EpochSynchronizer) : dict Z Z :=
  foldl (fun counts kv => dict_set kv.2 (default 0 (dict_get kv.2 counts) + 1)%Z counts) []
    (sy_peer_epochs y).

(** [max(counts, key=counts.get)]: the first key whose count is largest. *)
Fixpoint first_max (best : Z * Z) (counts : dict Z Z) : Z * Z :=
  match counts with
  | [] => best
  | kv :: counts => first_max (if (best.2 <? kv.2)%Z then kv else best) counts
  end.

Definition get_consensus_epoch (y : EpochSynchronizer) (m : EpochManager) : Z :=
  match epoch_counts y with
  | [] => em_current_epoch m
  | kv :: counts => (first_max kv counts).1
  end.

Definition matching_peers (y : EpochSynchronizer) (epoch : Z) : Z :=
  Z.of_nat (length (filter (fun kv => kv.2 = epoch) (sy_peer_epochs y))).

Definition is_synchronized (y : EpochSynchronizer) (m : EpochManager) (threshold : float64) : res bool :=
  match sy_peer_epochs y with
  | [] => Ok true
  | _ =>
      ratio ← truediv (matching_peers y (em_current_epoch m)) (Z.of_nat (length (sy_peer_epochs y)));
      Ok (float_le threshold ratio)
  end.

End Epoch.

(** ** Lifecycle *)

Inductive epoch_op :=
  | OAdvance (now : float64)
  | OFinalize (epoch : Z) (block_root : bytes)
  | OCommit (epoch : Z) (validator_id commitment : bytes)
  | OPhase (epoch : option Z) (now now' : float64)
  | OGrace (tx_epoch : Z) (now now' : float64)
  | ONetwork (rtt_data : list float64) (now : float64)
  | OBlockchain (block_hash : bytes)
  | OBeacon (beacon_data : bytes).

Section Lifecycle.
Context `{Hashlib}.

Definition with_well (m : EpochManager) (w : EntropyWell) : EpochManager :=
  mkEpochManager (em_genesis_time m) (em_current_epoch m) (em_epochs m) w.

Definition epoch_step (m : EpochManager) (op : epoch_op) : EpochManager :=
  match op with
  | OAdvance now => (advance_epoch m now).1
  | OFinalize epoch root => finalize_epoch m epoch root
  | OCommit epoch v c => add_validator_commitment m epoch v c
  | OPhase epoch now now' => (get_epoch_phase m epoch now now').1
  | OGrace tx_epoch now now' => (is_in_grace_period m tx_epoch now now').1
  | ONetwork rtts now => with_well m (update_network_measurements (em_entropy_well m) rtts now).1
  | OBlockchain h => with_well m (update_blockchain_state (em_entropy_well m) h)
  | OBeacon data => with_well m (update_external_beacons (em_entropy_well m) data)
  end.

Definition epoch_run (m : EpochManager) (ops : list epoch_op) : EpochManager := foldl epoch_step m ops.

(** The clock of an advance is a finite number. *)
Definition epoch_op_ok (op : epoch_op) : Prop :=
  match op with OAdvance now => is_Ok (to_ms now) | _ => True end.

Definition is_advance (op : epoch_op) : bool := match op with OAdvance _ => true | _ => false end.

Definition advances (ops : list epoch_op) : Z := Z.of_nat (length (filter (fun op => is_advance op = true) ops)).

(** The epoch whose record a grace check replaces: the one of the clock, when it is asked about
    the epoch before. *)
Definition erased_by (m : EpochManager) (op : epoch_op) : gset Z :=
  match op with
  | OGrace tx_epoch now _ =>
      match get_current_epoch m now with
      | Ok current => if (tx_epoch =? current - 1)%Z then {[current]} else ∅
      | Err _ => ∅
      end
  | _ => ∅
  end.

(** The epochs whose record was replaced and that were not started since. *)
Fixpoint erased (m : EpochManager) (ops : list epoch_op) (X : gset Z) : gset Z :=
  match ops with
  | [] => X
  | op :: ops =>
      erased (epoch_step m op) ops
        ((if is_advance op then X ∖ {[em_current_epoch m + 1]} else X)%Z ∪ erased_by m op)
  end.

(** An entropy record as [generate_epoch_entropy] makes it. *)
Definition entropy_ok (k : Z) (e : EpochEntropy) : Prop :=
  ee_epoch e = k /\ (1 <= ee_sources_used e <= 4)%Z /\
  Z.of_nat (length (ee_contributions e)) = ee_sources_used e /\ length (ee_combined_entropy e) = 64.

(** What holds of the state filed under [k], if [X] are the erased epochs. *)
Definition state_ok (m : EpochManager) (X : gset Z) (k : Z) (st : EpochState) : Prop :=
  es_epoch_number st = k /\
  ((0 <= k < em_current_epoch m)%Z -> es_finalized st = true \/ k ∈ X) /\
  ((1 <= k <= em_current_epoch m)%Z ->
     exists e, ew_history (em_entropy_well m) !! k = Some e /\ entropy_ok k e /\
       (es_entropy st = Some e \/ es_entropy st = None /\ k ∈ X)).

Record epochs_inv (m : EpochManager) (X : gset Z) : Prop := {
  ei_current : (0 <= em_current_epoch m)%Z;
  ei_present : forall k, (0 <= k <= em_current_epoch m)%Z -> is_Some (em_epochs m !! k);
  ei_state : forall k st, em_epochs m !! k = Some st -> state_ok m X k st;
}.

Lemma generate_ok w epoch now :
  is_Ok (to_ms now) -> (0 <= epoch < 2 ^ 64)%Z ->
  exists w' e, generate_epoch_entropy w epoch now = (w', Ok e) /\ entropy_ok epoch e /\
    ew_history w' = <[epoch := e]> (ew_history w).
Proof.
  intros [ts Hts] He. unfold generate_epoch_entropy. rewrite Hts.
  rewrite !py_concat_cons, py_concat_nil, concat_arg_int by done. cbn [concat_arg mbind res_bind].
  eexists _, _. split; [reflexivity|]. split; [|done].
  split; [done|]. cbn [ee_sources_used ee_contributions ee_combined_entropy].
  split; [|split; [|apply sha3_512_length]];
  destruct (ew_network_measurements w), (ew_blockchain_state w), (ew_external_beacons w); simpl; lia.
Qed.

Lemma epoch_manager_new_inv g now random : epochs_inv (epoch_manager_new g now random) ∅.
Proof.
  unfold epoch_manager_new, initialize_epoch. split; simpl; [done|..].
  - intros k Hk. assert (k = 0%Z) as -> by lia. by rewrite lookup_insert_eq.
  - intros k st. rewrite lookup_insert_Some. intros [[<- <-]|[_ E]]; [|done].
    unfold state_ok. simpl. split; [done|]. split; intros; lia.
Qed.

(** Erasing more epochs asks for less. *)
Lemma state_ok_mono m X Y k st : X ⊆ Y -> state_ok m X k st -> state_ok m Y k st.
Proof.
  intros HX (Hn & Hf & He). split; [done|]. split.
  - intros Hk. destruct (Hf Hk) as [?|?]; [by left|right; by apply HX].
  - intros Hk. destruct (He Hk) as (e & Hh & Hok & Hst). exists e. split; [done|]. split; [done|].
    destruct Hst as [?|[? ?]]; [by left|right; split; [done|by apply HX]].
Qed.

(** Replacing the state of an epoch by one that is as good keeps the invariant. *)
Lemma epochs_inv_insert m X Y k st w :
  epochs_inv m X -> X ⊆ Y -> ew_history w = ew_history (em_entropy_well m) -> state_ok m Y k st ->
  epochs_inv (mkEpochManager (em_genesis_time m) (em_current_epoch m) (<[k := st]> (em_epochs m)) w) Y.
Proof.
  intros [C P S] HX Hw Hst. split; simpl; [done|..].
  - intros j Hj. destruct (decide (k = j)) as [->|]; [by rewrite lookup_insert_eq|].
    rewrite lookup_insert_ne by done. by apply P.
  - intros j st'. rewrite lookup_insert_Some. intros [[<- <-]|[_ E]]; unfold state_ok; simpl; rewrite Hw;
      [exact Hst|exact (state_ok_mono m X Y j st' HX (S j st' E))].
Qed.

Lemma with_well_inv m X w :
  epochs_inv m X -> ew_history w = ew_history (em_entropy_well m) -> epochs_inv (with_well m w) X.
Proof.
  intros [C P S] Hw. split; [done|done|]. intros k st E. unfold state_ok. simpl. rewrite Hw.
  exact (S k st E).
Qed.

Lemma finalize_epoch_inv m X epoch root : epochs_inv m X -> epochs_inv (finalize_epoch m epoch root) X.
Proof.
  intros Hm. unfold finalize_epoch. destruct (em_epochs m !! epoch) as [st|] eqn:E; [|done].
  apply (epochs_inv_insert m X); [done..|].
  destruct (ei_state m X Hm epoch st E) as (Hn & _ & He). split; [done|]. split; [by left|done].
Qed.

Lemma add_commitment_inv m X epoch v c : epochs_inv m X -> epochs_inv (add_validator_commitment m epoch v c) X.
Proof.
  intros Hm. unfold add_validator_commitment. destruct (em_epochs m !! epoch) as [st|] eqn:E; [|done].
  apply (epochs_inv_insert m X); [done..|].
  destruct (ei_state m X Hm epoch st E) as (Hn & Hf & He). by split.
Qed.

(** A fresh state is right for an epoch out of range. *)
Lemma fresh_state_ok m X k : ~ (0 <= k <= em_current_epoch m)%Z -> state_ok m X k (fresh_epoch m k).
Proof. intros Hk. split; [done|]. split; intros; lia. Qed.

(** And for one in range if it counts as erased. *)
Lemma erased_state_ok m X k : epochs_inv m X -> state_ok m (X ∪ {[k]}) k (fresh_epoch m k).
Proof.
  assert (Hin : k ∈ X ∪ {[k]}) by (apply elem_of_union_r, elem_of_singleton; done).
  intros Hm. split; [done|]. split; [by right|]. intros Hk.
  destruct (ei_present m X Hm k) as [st Hst]; [lia|].
  destruct (ei_state m X Hm k st Hst) as (_ & _ & He). destruct (He Hk) as (e & Hh & Hok & _).
  exists e. split; [done|]. split; [done|]. by right.
Qed.

Lemma get_epoch_phase_inv m X epoch now now' :
  epochs_inv m X -> epochs_inv (get_epoch_phase m epoch now now').1 X.
Proof.
  intros Hm. unfold get_epoch_phase.
  destruct (match epoch with Some e => Ok e | None => _ end) as [k|e] eqn:Ek; [|done].
  destruct (em_epochs m !! k) as [st|] eqn:E; [done|]. simpl.
  apply (epochs_inv_insert m X); [done..|]. apply fresh_state_ok. intros Hk.
  destruct (ei_present m X Hm k Hk) as [st Hst]. congruence.
Qed.

Lemma grace_inv m X tx_epoch now now' :
  epochs_inv m X -> epochs_inv (is_in_grace_period m tx_epoch now now').1 (X ∪ erased_by m (OGrace tx_epoch now now')).
Proof.
  intros Hm. unfold is_in_grace_period, erased_by.
  destruct (get_current_epoch m now) as [c|]; [|by rewrite union_empty_r_L].
  destruct (Z.eqb_spec tx_epoch c) as [->|Hc].
  { rewrite (proj2 (Z.eqb_neq _ _)) by lia. by rewrite union_empty_r_L. }
  destruct (Z.eqb_spec tx_epoch (c - 1)) as [_|_]; cbn [fst]; [|by rewrite union_empty_r_L].
  apply (epochs_inv_insert m X); [done|set_solver|done|]. by apply erased_state_ok.
Qed.

Lemma advance_epoch_inv m X now :
  epochs_inv m X -> is_Ok (to_ms now) -> (em_current_epoch m + 1 < 2 ^ 64)%Z ->
  epochs_inv (advance_epoch m now).1 (X ∖ {[em_current_epoch m + 1]}%Z) /\
  em_current_epoch (advance_epoch m now).1 = (em_current_epoch m + 1)%Z.
Proof.
  intros [C P S] Hnow Hlt. unfold advance_epoch. cbn [em_entropy_well em_genesis_time em_epochs].
  set (n := (em_current_epoch m + 1)%Z).
  destruct (generate_ok (em_entropy_well m) n now Hnow) as (w & e & -> & He & Hh); [lia|].
  set (st0 := with_entropy _ e). rewrite lookup_insert_ne by lia.
  destruct (P (em_current_epoch m)) as [prev Hprev]; [lia|].
  replace (n - 1)%Z with (em_current_epoch m) by lia. rewrite Hprev. split; [|done].
  assert (Hent : forall k st, state_ok m X k st -> (1 <= k < n)%Z ->
    exists e', <[n := e]> (ew_history (em_entropy_well m)) !! k = Some e' /\ entropy_ok k e' /\
      (es_entropy st = Some e' \/ es_entropy st = None /\ k ∈ X ∖ {[n]})).
  { intros k st (_ & _ & Hst) Hk. destruct Hst as (e' & E1 & E2 & E3); [lia|]. exists e'.
    rewrite lookup_insert_ne by lia. split; [done|]. split; [done|].
    destruct E3 as [?|[? ?]]; [by left|right; split; [done|]]. apply elem_of_difference. split; [done|].
    rewrite elem_of_singleton. lia. }
  split; cbn [em_current_epoch em_epochs fst]; [lia|..].
  - intros k Hk. destruct (decide (k = em_current_epoch m)) as [->|]; [by rewrite lookup_insert_eq|].
    rewrite lookup_insert_ne by done. destruct (decide (k = n)) as [->|]; [by rewrite lookup_insert_eq|].
    rewrite lookup_insert_ne by done. apply P. lia.
  - intros k st. rewrite !lookup_insert_Some. unfold state_ok. cbn [em_current_epoch em_entropy_well].
    rewrite Hh. intros [[<- <-]|[Hk [[<- <-]|[Hk' Est]]]].
    + pose proof (S _ _ Hprev) as Hs. split; [apply Hs|]. split; [by left|].
      intros Hr. apply (Hent _ prev Hs). lia.
    + split; [done|]. split; [lia|]. intros _. exists e. rewrite lookup_insert_eq. split; [done|]. split; [done|]. by left.
    + pose proof (S _ _ Est) as Hs. split; [apply Hs|]. split; [|intros Hr; apply (Hent k st Hs); lia].
      intros Hr. destruct Hs as (_ & Hf & _). destruct Hf as [?|?]; [lia|by left|right].
      apply elem_of_difference. split; [done|]. by rewrite elem_of_singleton.
Qed.

Lemma advance_epoch_ok m now :
  is_Ok (to_ms now) -> (0 <= em_current_epoch m + 1 < 2 ^ 64)%Z ->
  exists m' e, advance_epoch m now = (m', Ok ((em_current_epoch m + 1)%Z, e)) /\
    em_current_epoch m' = (em_current_epoch m + 1)%Z /\ em_genesis_time m' = em_genesis_time m.
Proof.
  intros Hnow Hn. unfold advance_epoch. cbn [em_entropy_well em_genesis_time em_epochs].
  destruct (generate_ok (em_entropy_well m) (em_current_epoch m + 1) now Hnow Hn) as (w & e & -> & _ & _).
  eexists _, e. split; [reflexivity|done].
Qed.

Lemma epoch_step_current m op :
  epoch_op_ok op -> (0 <= em_current_epoch m + 1 < 2 ^ 64)%Z ->
  em_current_epoch (epoch_step m op) = (em_current_epoch m + if is_advance op then 1 else 0)%Z.
Proof.
  intros Hop Hlt. destruct op; cbn [epoch_step is_advance]; rewrite ?Z.add_0_r; try done.
  - destruct (advance_epoch_ok m now Hop Hlt) as (m' & e & E & Ec & _). by rewrite E.
  - unfold finalize_epoch. by case_match.
  - unfold add_validator_commitment. by case_match.
  - unfold get_epoch_phase. destruct (match epoch with Some e => Ok e | None => _ end); [|done].
    by destruct (em_epochs m !! _).
  - unfold is_in_grace_period. repeat case_match; done.
Qed.

Lemma epoch_step_inv m X op :
  epochs_inv m X -> epoch_op_ok op -> (em_current_epoch m + 1 < 2 ^ 64)%Z ->
  epochs_inv (epoch_step m op)
    ((if is_advance op then X ∖ {[em_current_epoch m + 1]} else X)%Z ∪ erased_by m op).
Proof.
  intros Hm Hop Hlt. destruct op; cbn [epoch_step is_advance]; [..|by apply grace_inv| | |];
    cbn [erased_by]; rewrite union_empty_r_L.
  - by apply advance_epoch_inv.
  - by apply finalize_epoch_inv.
  - by apply add_commitment_inv.
  - by apply get_epoch_phase_inv.
  - apply with_well_inv; [done|]. unfold update_network_measurements. repeat case_match; done.
  - by apply with_well_inv.
  - by apply with_well_inv.
Qed.

Lemma epoch_run_inv m X ops :
  epochs_inv m X -> Forall epoch_op_ok ops -> (em_current_epoch m + Z.of_nat (length ops) < 2 ^ 64)%Z ->
  epochs_inv (epoch_run m ops) (erased m ops X) /\
  em_current_epoch (epoch_run m ops) = (em_current_epoch m + advances ops)%Z.
Proof.
  intros Hm Hops. revert m X Hm. induction Hops as [|op ops Hop Hops IH]; intros m X Hm Hlen.
  { split; [done|]. unfold advances. simpl. lia. }
  cbn [length] in Hlen. pose proof (ei_current _ _ Hm) as Hpos.
  pose proof (epoch_step_inv m X op Hm Hop ltac:(lia)) as Hs.
  pose proof (epoch_step_current m op Hop ltac:(lia)) as Hc.
  unfold epoch_run. cbn [foldl erased]. fold (epoch_run (epoch_step m op) ops).
  destruct (IH (epoch_step m op) _ Hs) as [Hi Hn]; [rewrite Hc; destruct (is_advance op); lia|].
  split; [done|]. rewrite Hn, Hc. unfold advances. rewrite filter_cons.
  destruct (is_advance op); simpl; lia.
Qed.

(** C31. The epoch table keeps every epoch's record, unless a grace check replaces it.  After any
    sequence of advances (at finite clock readings), finalizations, commitments, phase queries,
    grace checks and entropy updates, the current epoch number is the number of advances; each
    epoch from 0 to it has a state filed under its own number; and for each from 1 on the well
    holds the 64-byte entropy that it generated for it, drawn from one to four sources, all
    listed.  Each earlier epoch is finalized, and the state of each from 1 on holds this entropy,
    except for the epochs whose record a grace check replaced after they were started: these may
    have lost either. *)
Theorem epoch_lifecycle (genesis_time : option float64) (now : float64) (random : bytes)
    (ops : list epoch_op) (Hops : Forall epoch_op_ok ops)
    (Hlen : (Z.of_nat (length ops) < 2 ^ 64)%Z) :
  let m0 := epoch_manager_new genesis_time now random in
  let m := epoch_run m0 ops in
  em_current_epoch m = advances ops /\
  forall k, (0 <= k <= em_current_epoch m)%Z ->
    exists st, em_epochs m !! k = Some st /\ es_epoch_number st = k /\
      ((k < em_current_epoch m)%Z -> es_finalized st = true \/ k ∈ erased m0 ops ∅) /\
      ((1 <= k)%Z -> exists e, ew_history (em_entropy_well m) !! k = Some e /\ entropy_ok k e /\
         is_secure e = true /\
         (es_entropy st = Some e \/ es_entropy st = None /\ k ∈ erased m0 ops ∅)).
Proof.
  intros m0 m. destruct (epoch_run_inv m0 ∅ ops) as [Hm Hc]; [apply epoch_manager_new_inv|done|simpl; lia|].
  fold m in Hm, Hc. split; [exact Hc|]. intros k Hk. destruct (ei_present _ _ Hm k Hk) as [st Hst].
  destruct (ei_state _ _ Hm k st Hst) as (Hn & Hf & He). exists st.
  split; [done|]. split; [done|]. split; [intros; apply Hf; lia|]. intros Hk1.
  destruct He as (e & E1 & E2 & E3); [lia|]. exists e. split; [done|]. split; [done|].
  split; [|done]. destruct E2 as (_ & Hs & _). apply Z.leb_le. lia.
Qed.

(** Asking about the grace period erases the running epoch.  Whatever the manager knows
    about the epoch the clock is in (entropy, commitments, finalization, block root), a
    [is_in_grace_period] call for a transaction of the epoch before replaces it by a fresh
    state; for any other epoch the call changes nothing. *)
Theorem grace_check_erases_epoch (m : EpochManager) (tx_epoch current : Z) (now now' : float64)
    (Hnow : get_current_epoch m now = Ok current) :
  let '(m', r) := is_in_grace_period m tx_epoch now now' in
  is_Ok r /\
  if decide (tx_epoch = current - 1)%Z then
    exists st, em_epochs m' !! current = Some st /\ es_entropy st = None /\
      es_validator_commitments st = ∅ /\ es_finalized st = false /\ es_block_root st = None
  else m' = m.
Proof.
  unfold is_in_grace_period. rewrite Hnow.
  destruct (Z.eqb_spec tx_epoch current) as [->|Hne].
  { split; [by eexists|]. rewrite decide_False by lia. done. }
  destruct (Z.eqb_spec tx_epoch (current - 1)) as [->|Hne'].
  - split; [by eexists|]. rewrite decide_True by done. exists (fresh_epoch m current).
    cbn [initialize_epoch set_epochs em_epochs]. rewrite lookup_insert_eq. done.
  - split; [by eexists|]. by rewrite decide_False.
Qed.

End Lifecycle.

(** ** Agreement between peers *)

Definition count_epoch (e : Z) (l : dict bytes Z) : Z :=
  Z.of_nat (length (filter (fun kv => kv.2 = e) l)).

Lemma count_epoch_cons e k v l : count_epoch e ((k, v) :: l) = (count_epoch e l + if decide (v = e) then 1 else 0)%Z.
Proof. unfold count_epoch. rewrite filter_cons. simpl. case_decide; simpl; lia. Qed.

Definition count_step (counts : dict Z Z) (kv : bytes * Z) : dict Z Z :=
  dict_set kv.2 (default 0 (dict_get kv.2 counts) + 1)%Z counts.

Lemma epoch_counts_fold (l : dict bytes Z) (acc : dict Z Z) :
  dict_wf acc -> Forall (fun kv => 0 < kv.2)%Z acc ->
  let r := foldl count_step acc l in
  dict_wf r /\ Forall (fun kv => 0 < kv.2)%Z r /\
  forall e, default 0%Z (dict_get e r) = (default 0 (dict_get e acc) + count_epoch e l)%Z.
Proof.
  revert acc. induction l as [|[k v] l IH]; intros acc Hwf Hpos; cbn [foldl].
  { split; [done|]. split; [done|]. intros e. unfold count_epoch. simpl. lia. }
  assert (Hv : (0 <= default 0 (dict_get v acc))%Z).
  { destruct (dict_get v acc) as [n|] eqn:E; simpl; [|done]. apply dict_get_elem in E; [|done].
    rewrite Forall_forall in Hpos. specialize (Hpos _ E). simpl in Hpos. lia. }
  destruct (IH (count_step acc (k, v))) as (W & P & C).
  - by apply dict_set_wf.
  - apply Forall_forall. intros [k' n] Hin. simpl.
    apply dict_get_elem in Hin; [|by apply dict_set_wf]. unfold count_step in Hin. simpl in Hin.
    destruct (decide (v = k')) as [->|Hne].
    + rewrite dict_get_set_eq in Hin. injection Hin as <-. lia.
    + rewrite dict_get_set_ne in Hin by done. apply dict_get_elem in Hin; [|done].
      rewrite Forall_forall in Hpos. by apply (Hpos (k', n)).
  - split; [done|]. split; [done|]. intros e. rewrite C, count_epoch_cons. unfold count_step. simpl.
    case_decide as He; [subst e; rewrite dict_get_set_eq; simpl; lia|].
    rewrite dict_get_set_ne by done. lia.
Qed.

Lemma first_max_spec best counts :
  first_max best counts ∈ best :: counts /\
  forall kv, kv ∈ best :: counts -> (kv.2 <= (first_max best counts).2)%Z.
Proof.
  revert best. induction counts as [|kv counts IH]; intros best; simpl.
  { split; [by left|]. intros x Hx. apply list_elem_of_singleton in Hx as ->. done. }
  destruct (IH (if (best.2 <? kv.2)%Z then kv else best)) as [Hin Hmax]. split.
  - apply elem_of_cons in Hin as [->|Hin]; [|set_solver]. destruct (_ <? _)%Z; set_solver.
  - intros x Hx. pose proof (Hmax _ ltac:(by left)) as Hb.
    apply elem_of_cons in Hx as [->|Hx].
    + destruct (Z.ltb_spec best.2 kv.2); lia.
    + apply elem_of_cons in Hx as [->|Hx]; [destruct (Z.ltb_spec best.2 kv.2); lia|].
      apply Hmax. by right.
Qed.

(** What the synchronizer reports.  With reports from [n > 0] peers ([n < 2^49]),
    [is_synchronized] at its default threshold 0.67 is true exactly when at least 67% of them
    are in the node's current epoch (no rounding error shows), [get_consensus_epoch] is an
    epoch that some peer reported and that no other epoch outnumbers, hence the epoch of a
    strict majority when there is one; without reports the node trusts itself. *)
Theorem epoch_agreement (y : EpochSynchronizer) (m : EpochManager)
    (Hn : (Z.of_nat (length (sy_peer_epochs y)) < 2 ^ 49)%Z) :
  let n := Z.of_nat (length (sy_peer_epochs y)) in
  let e := get_consensus_epoch y m in
  if decide (sy_peer_epochs y = []) then
    is_synchronized y m float_067 = Ok true /\ e = em_current_epoch m
  else
    is_synchronized y m float_067 =
      Ok (67 * n <=? 100 * matching_peers y (em_current_epoch m))%Z /\
    (0 < matching_peers y e)%Z /\
    (forall e', (matching_peers y e' <= matching_peers y e)%Z) /\
    (forall e', (n < 2 * matching_peers y e')%Z -> e = e').
Proof.
  cbv zeta. set (n := Z.of_nat (length (sy_peer_epochs y))) in *. case_decide as Hnil.
  { unfold is_synchronized, get_consensus_epoch, epoch_counts. by rewrite Hnil. }
  assert (Hpos : (0 < n)%Z) by (unfold n; destruct (sy_peer_epochs y); [done|simpl; lia]).
  assert (Hle : forall e, (0 <= matching_peers y e <= n)%Z).
  { intros e. unfold matching_peers, n. pose proof (length_filter (fun kv : bytes * Z => kv.2 = e) (sy_peer_epochs y)). lia. }
  split.
  { unfold is_synchronized. fold n.
    destruct (ge_067_ratio (matching_peers y (em_current_epoch m)) n) as (x & Ex & Hx);
      [specialize (Hle (em_current_epoch m)); lia|lia|].
    rewrite Ex. cbn [mbind res_bind].
    assert (float_le float_067 x = ge_067 x) as -> by reflexivity. rewrite Hx.
    by destruct (sy_peer_epochs y). }
  destruct (epoch_counts_fold (sy_peer_epochs y) [] ltac:(apply NoDup_nil_2) ltac:(constructor)) as (W & P & C).
  change (foldl count_step [] (sy_peer_epochs y)) with (epoch_counts y) in *. cbn [dict_get] in C.
  assert (Hc : forall e, default 0%Z (dict_get e (epoch_counts y)) = matching_peers y e).
  { intros e. rewrite C. reflexivity. }
  unfold get_consensus_epoch. destruct (epoch_counts y) as [|kv counts] eqn:Ec.
  { exfalso. destruct (sy_peer_epochs y) as [|[k v] l] eqn:Ey; [done|].
    specialize (Hc v). unfold matching_peers in Hc. rewrite Ey, filter_cons in Hc. simpl in Hc.
    rewrite decide_True in Hc by done. simpl in Hc. lia. }
  destruct (first_max_spec kv counts) as [Hin Hmax]. set (b := first_max kv counts) in *.
  assert (Hb : matching_peers y b.1 = b.2).
  { rewrite <- Hc. rewrite (proj2 (dict_get_elem b.1 b.2 _ W)); [done|]. by destruct b. }
  assert (Hb0 : (0 < b.2)%Z) by (rewrite Forall_forall in P; by apply P).
  assert (Hbest : forall e', (matching_peers y e' <= matching_peers y b.1)%Z).
  { intros e'. rewrite Hb, <- Hc. destruct (dict_get e' (kv :: counts)) as [k|] eqn:E; simpl; [|lia].
    apply dict_get_elem in E; [|done]. by apply (Hmax (e', k)). }
  split; [lia|]. split; [done|]. intros e' Hmaj.
  destruct (decide (b.1 = e')) as [?|Hne]; [done|exfalso]. specialize (Hbest e').
  assert (Hsum : (matching_peers y b.1 + matching_peers y e' <= n)%Z); [|lia].
  unfold matching_peers, n. clear -Hne. induction (sy_peer_epochs y) as [|[k v] l IH]; [done|].
  rewrite !filter_cons. cbn [length snd]. repeat case_decide; simpl; lia.
Qed.

(** ** Sample runs *)

(** The grace check is made in the epoch of the clock, 1, about epoch 0; epoch 2 follows. *)
Definition demo_epoch_ops : list epoch_op :=
  [OAdvance (lit 5 2); OCommit 1 [Byte.x01] [Byte.x02]; OFinalize 1 (replicate 32 Byte.x05);
   OGrace 0 (lit 1000 1) (lit 1000 1); OAdvance (lit 7 2); OPhase (Some 9%Z) (lit 4 1) (lit 4 1);
   OBlockchain [Byte.x07]; OBeacon [Byte.x06]].

Lemma epoch_lifecycle_witness :
  let m0 := epoch_manager_new (Some (lit 1 1)) (lit 2 1) (replicate 64 Byte.x01) in
  let m := epoch_run (H := toy_hashlib) m0 demo_epoch_ops in
  em_current_epoch m = advances demo_epoch_ops /\
  forall k, (0 <= k <= em_current_epoch m)%Z ->
    exists st, em_epochs m !! k = Some st /\ es_epoch_number st = k /\
      ((k < em_current_epoch m)%Z -> es_finalized st = true \/ k ∈ erased (H := toy_hashlib) m0 demo_epoch_ops ∅) /\
      ((1 <= k)%Z -> exists e, ew_history (em_entropy_well m) !! k = Some e /\ entropy_ok k e /\
         is_secure e = true /\
         (es_entropy st = Some e \/ es_entropy st = None /\ k ∈ erased (H := toy_hashlib) m0 demo_epoch_ops ∅)).
Proof.
  apply (@epoch_lifecycle toy_hashlib (Some (lit 1 1)) (lit 2 1) (replicate 64 Byte.x01) demo_epoch_ops).
  - repeat constructor; eexists; vm_compute; reflexivity.
  - reflexivity.
Defined.

(** Epoch 1 has lost its entropy and its block root, epoch 2 holds its entropy. *)
Example demo_erased :
  let m0 := epoch_manager_new (Some (lit 1 1)) (lit 2 1) (replicate 64 Byte.x01) in
  let m := epoch_run (H := toy_hashlib) m0 demo_epoch_ops in
  elements (erased (H := toy_hashlib) m0 demo_epoch_ops ∅) = [1%Z] /\
  (fun st => (bool_decide (is_Some (es_entropy st)), bool_decide (is_Some (es_block_root st)), es_finalized st)) <$> em_epochs m !! 1%Z =
    Some (false, false, true) /\
  (fun st => bool_decide (is_Some (es_entropy st))) <$> em_epochs m !! 2%Z = Some true.
Proof. vm_compute. done. Qed.

Definition demo_epoch_manager : EpochManager :=
  epoch_run (H := toy_hashlib)
    (epoch_manager_new (Some (lit 1 1)) (lit 2 1) (replicate 64 Byte.x01)) demo_epoch_ops.

Lemma grace_check_erases_epoch_witness :
  let '(m', r) := is_in_grace_period demo_epoch_manager 0 (lit 1000 1) (lit 1000 1) in
  is_Ok r /\
  if decide (0 = 1 - 1)%Z then
    exists st, em_epochs m' !! 1%Z = Some st /\ es_entropy st = None /\
      es_validator_commitments st = ∅ /\ es_finalized st = false /\ es_block_root st = None
  else m' = demo_epoch_manager.
Proof.
  apply (grace_check_erases_epoch demo_epoch_manager 0 1 (lit 1000 1) (lit 1000 1)).
  vm_compute. reflexivity.
Defined.

Definition demo_synchronizer : EpochSynchronizer :=
  mkSynchronizer [] [([Byte.x01], 2%Z); ([Byte.x02], 2%Z); ([Byte.x03], 4%Z)] ∅.

Lemma epoch_agreement_witness :
  is_synchronized demo_synchronizer demo_epoch_manager float_067 =
    Ok (67 * 3 <=? 100 * matching_peers demo_synchronizer (em_current_epoch demo_epoch_manager))%Z /\
  (0 < matching_peers demo_synchronizer (get_consensus_epoch demo_synchronizer demo_epoch_manager))%Z /\
  (forall e', (matching_peers demo_synchronizer e' <=
     matching_peers demo_synchronizer (get_consensus_epoch demo_synchronizer demo_epoch_manager))%Z) /\
  (forall e', (3 < 2 * matching_peers demo_synchronizer e')%Z ->
     get_consensus_epoch demo_synchronizer demo_epoch_manager = e').
Proof. apply (epoch_agreement demo_synchronizer demo_epoch_manager). reflexivity. Defined.
