(* ===== verification/Detection.v ===== *)
(** * Adversary detection ([src/src/detection.py])

    The four detectors over a graph of measurements, the decision on one validator, the
    summary and the slashing evidence.  Python's [statistics] computes with exact fractions
    and rounds once; its [mean], [variance] and [stdev] are modelled that way.  Main results: a
    validator that reports ratios below 0.9 only is flagged, whatever the other measurements
    are, and analysing it raises nothing ([fast_routes_flagged]). *)

From stdpp Require Import prelude list gmap strings.
From Stdlib Require Import Strings.Byte ZArith Lia SpecFloat.
From S2P Require Import Prelude.
From S2P Require Import Dict.
From S2P Require Import Text.
From S2P Require Import PyFloat.
From S2P Require Import Crypto.
From S2P Require Import Consensus.
From S2P Require Import Measurement.

Set Default Goal Selector "!".

Definition DETECTION_THRESHOLD_SIGMA : float64 := lit 39 10.

(** ** The [statistics] module *)

(** A finite double as an integer multiple of [2^-1074]. *)
Definition dyadic (x : float64) : option Z :=
  match x with
  | S754_zero _ => Some 0%Z
  | S754_finite s m e =>
      let a := (Zpos m * 2 ^ (e + 1074))%Z in Some (if s then - a else a)%Z
  | _ => None
  end.

Definition scale : Z := 2 ^ 1074.

(** The sum of the non-finite values; [None] when every value is finite. *)
Definition nonfinite_sum (l : list float64) : option float64 :=
  match filter (fun x => dyadic x = None) l with
  | [] => None
  | xs => Some (foldl float_add (lit 0 1) xs)
  end.

Definition dyadics (l : list float64) : list Z := omap dyadic l.

(** [statistics.mean]. *)
Definition stat_mean (l : list float64) : res float64 :=
  match l with
  | [] => Err (ValueError "mean requires at least one data point")
  | _ =>
      match nonfinite_sum l with
      | Some total => Ok (float_div total (float_of_Z (Z.of_nat (length l))))
      | None => truediv (sumZ (dyadics l)) (Z.of_nat (length l) * scale)
      end
  end.

(** Numerator of [n * sxx - sx * sx] over [n * (n - 1)], in units of [scale^2]. *)
Definition sum_squares (l : list float64) : Z :=
  let xs := dyadics l in
  (Z.of_nat (length l) * sumZ (map (fun x => x * x) xs) - sumZ xs * sumZ xs)%Z.

Definition variance_denominator (l : list float64) : Z :=
  let n := Z.of_nat (length l) in (n * (n - 1) * (scale * scale))%Z.

(** [statistics.variance] of at least two values. *)
Definition stat_variance (l : list float64) : res float64 :=
  match nonfinite_sum l with
  | Some total => Ok (float_div total (float_of_Z (Z.of_nat (length l) - 1)))
  | None => truediv (sum_squares l) (variance_denominator l)
  end.

(** [_integer_sqrt_of_frac_rto]: the square root of [n / m] rounded to odd. *)
Definition sqrt_rto (n m : Z) : Z :=
  let a := Z.sqrt (n / m) in
  Z.lor a (if (a * a * m =? n)%Z then 0 else 1).

Definition py_bit_length (z : Z) : Z := if (z =? 0)%Z then 0 else (Z.log2 z + 1)%Z.

(** [_float_sqrt_of_frac] on a fraction in lowest terms. *)
Definition float_sqrt_of_frac (n m : Z) : res float64 :=
  let q := ((py_bit_length n - py_bit_length m - 109) / 2)%Z in
  if (0 <=? q)%Z then truediv (sqrt_rto n (Z.shiftl m (2 * q)) * 2 ^ q) 1
  else truediv (sqrt_rto (Z.shiftl n (-2 * q)) m) (2 ^ (- q)).

(** [statistics.stdev] of at least two values; the sum of non-finite values is a [float],
    which has no [numerator]. *)
Definition stat_stdev (l : list float64) : res float64 :=
  match nonfinite_sum l with
  | Some _ => Err AttributeError
  | None =>
      let n := sum_squares l in let d := variance_denominator l in
      let g := Z.gcd n d in
      float_sqrt_of_frac (n / g) (d / g)
  end.

(** ** Text of numbers *)

Definition text_string (t : bytes) : string := String.string_of_list_byte t.

Definition pad_left (n : nat) (t : bytes) : bytes := replicate (n - length t) (byte_of_Z 48) ++ t.

(** [f"{x:.kf}"]: the exact value rounded half to even at [k] decimals. *)
Definition format_fixed (k : nat) (x : float64) : bytes :=
  match x with
  | S754_nan => b: "nan"
  | S754_infinity s => if s then b: "-inf" else b: "inf"
  | S754_zero s => (if s then b: "-" else []) ++ (b: "0.") ++ replicate k (byte_of_Z 48)
  | S754_finite s m e =>
      let p := (10 ^ Z.of_nat k)%Z in
      let v := rne_div (Zpos m * 2 ^ Z.max 0 e * p) (2 ^ Z.max 0 (- e)) in
      (if s then b: "-" else []) ++ dec_text (v / p) ++ (b: ".") ++ pad_left k (dec_text (v mod p))
  end.

(** [f"{x:.1%}"]. *)
Definition format_percent (x : float64) : bytes :=
  format_fixed 1 (float_mul x (lit 100 1)) ++ (b: "%").

(** ** Data *)

(** [DetectionResult] is declared with the consensus, which stores it. *)
Record TriangleCheck := mkTriangle {
  tc_node_a : bytes;
  tc_node_b : bytes;
  tc_node_c : bytes;
  tc_rtt_ab : float64;
  tc_rtt_bc : float64;
  tc_rtt_ac : float64;
  tc_max_allowed : float64;
  tc_violation : float64;
  tc_is_valid : bool;
}.

Definition graph := dict bytes (list RTTMeasurement).

Record DetectionEngine := mkEngine {
  de_measurement_graph : graph;
  de_locations : dict bytes location;
  de_results : dict bytes DetectionResult;
}.

Definition load_measurements (measurements : graph) (locations : dict bytes location)
    : DetectionEngine :=
  mkEngine measurements locations [].

(** ** Detectors *)

Definition ratios (ms : list RTTMeasurement) : list float64 := map rtt_ratio ms.

Definition check_ratios (ms : list RTTMeasurement) : res (bool * float64) :=
  match ms with
  | [] => Ok (false, lit 0 1)
  | _ =>
      mean_ratio ← stat_mean (ratios ms);
      let sigma := float_div (float_sub HONEST_RTT_RATIO_MEAN mean_ratio) HONEST_RTT_RATIO_STD in
      Ok (float_lt DETECTION_THRESHOLD_SIGMA sigma && float_lt mean_ratio (lit 1 1), sigma)
  end.

(** [self.measurement_graph.get(v, [])]. *)
Definition measurements_of (g : graph) (v : bytes) : list RTTMeasurement := default [] (dict_get v g).

(** [{m.target_id: f(m) for m in l}]: a later measurement of a target replaces the earlier
    one in its place. *)
Definition by_target (f : RTTMeasurement -> float64) (l : list RTTMeasurement) : dict bytes float64 :=
  foldl (fun d m => dict_set (rm_target_id m) (f m) d) [] l.

Definition find_rtt (target : bytes) (l : list RTTMeasurement) : option float64 :=
  rm_rtt_ms <$> head (filter (fun m => rm_target_id m = target) l).

Definition triangle (g : graph) (v : bytes) (b c : bytes * float64) : option TriangleCheck :=
  rtt_bc ← find_rtt c.1 (measurements_of g b.1);
  let max_allowed := float_add b.2 rtt_bc in
  let violation := float_sub c.2 max_allowed in
  Some (mkTriangle v b.1 c.1 b.2 rtt_bc c.2 max_allowed violation (float_le violation (lit 0 1))).

(** Each pair of targets, in dictionary order. *)
Fixpoint pairs {A} (l : list A) : list (A * A) :=
  match l with
  | [] => []
  | x :: l => map (fun y => (x, y)) l ++ pairs l
  end.

Definition check_triangles (g : graph) (v : bytes) : list TriangleCheck :=
  let my_measurements := by_target rm_rtt_ms (measurements_of g v) in
  omap (fun '(b, c) => triangle g v b c) (pairs my_measurements).

Definition check_variance (ms : list RTTMeasurement) : res (bool * float64) :=
  if length ms <? 2 then Ok (false, lit 0 1)
  else
    variance ← stat_variance (ratios ms);
    let expected := float_mul HONEST_RTT_RATIO_STD HONEST_RTT_RATIO_STD in
    Ok (float_lt variance (float_mul expected (lit 25 100)), variance).

(** The score is the integer 0 when the mean is not positive. *)
Definition check_path_consistency (g : graph) (v : bytes) : res (bool * float64) :=
  let my := measurements_of g v in
  if length my <? 2 then Ok (false, lit 0 1)
  else
    let rs := map snd (by_target rtt_ratio my) in
    if length rs <? 2 then Ok (false, lit 0 1)
    else
      mean_ratio ← stat_mean rs;
      std_ratio ← stat_stdev rs;
      let cv := if float_lt (lit 0 1) mean_ratio then float_div std_ratio mean_ratio else lit 0 1 in
      Ok (float_lt (lit 15 100) cv, cv).

(** ** The decision *)

Definition reason_if (c : bool) (t : bytes) : list string := if c then [text_string t] else [].

Definition count_true (l : list bool) : Z := Z.of_nat (length (filter (fun b => b = true) l)).

Definition analyze_validator (e : DetectionEngine) (v : bytes) : res DetectionResult :=
  let g := de_measurement_graph e in
  let ms := measurements_of g v in
  match ms with
  | [] => Ok (mkDetectionResult v false (lit 0 1) [] (lit 0 1) 0 (lit 0 1) (lit 0 1))
  | _ =>
      ratio ← check_ratios ms;
      let triangles := check_triangles g v in
      let violations := count_true (map (fun t => negb (tc_is_valid t)) triangles) in
      triangle_rate ← truediv violations (Z.max (Z.of_nat (length triangles)) 1);
      let triangle_suspicious := float_lt (lit 3 10) triangle_rate in
      variance ← check_variance ms;
      path ← check_path_consistency g v;
      let signals := count_true [ratio.1; variance.1; triangle_suspicious; path.1] in
      mean_ratio ← stat_mean (ratios ms);
      let extreme := float_lt mean_ratio (lit 9 10) in
      confidence ← truediv signals 4;
      Ok (mkDetectionResult v ((2 <=? signals)%Z || extreme) confidence
        (reason_if ratio.1 ((b: "RTT ratio anomaly: ") ++ format_fixed 2 ratio.2 ++ (b: "σ below mean"))
         ++ reason_if ((0 <? violations)%Z && triangle_suspicious)
              ((b: "Triangle violations: ") ++ dec_text violations ++ (b: " (")
               ++ format_percent triangle_rate ++ (b: ")"))
         ++ reason_if variance.1 ((b: "Suspiciously low variance: ") ++ format_fixed 3 variance.2)
         ++ reason_if path.1 ((b: "Path inconsistency: ") ++ format_fixed 2 path.2)
         ++ reason_if extreme ((b: "Extremely low ratio: ") ++ format_fixed 2 mean_ratio))
        ratio.2 violations variance.2 path.2)
  end.

(** The loop of [analyze_all] over the keys of the graph. *)
Fixpoint analyze_loop (e : DetectionEngine) (vs : list bytes) (results : dict bytes DetectionResult)
    : res (dict bytes DetectionResult) :=
  match vs with
  | [] => Ok results
  | v :: vs => r ← analyze_validator e v; analyze_loop e vs (dict_set v r results)
  end.

Definition analyze_all (e : DetectionEngine) : res (dict bytes DetectionResult) :=
  analyze_loop e (dict_keys (de_measurement_graph e)) (de_results e).

(** ** Summary and evidence *)

Record DetectionSummary := mkSummary {
  ds_total_validators : Z;
  ds_suspicious_count : Z;
  ds_suspicious_rate : float64;
  ds_high_confidence_count : Z;
  ds_avg_ratio_deviation : float64;
  ds_total_triangle_violations : Z;
}.

Definition aggregate_detection_results (results : dict bytes DetectionResult) : res DetectionSummary :=
  let rs := map snd results in
  let total := Z.of_nat (length rs) in
  let suspicious := count_true (map dr_is_suspicious rs) in
  let high_confidence := count_true (map (fun r => float_lt (lit 1 2) (dr_confidence r)) rs) in
  avg ← match rs with [] => Ok (lit 0 1) | _ => stat_mean (map dr_ratio_score rs) end;
  rate ← (if (0 <? total)%Z then truediv suspicious total else Ok (lit 0 1));
  Ok (mkSummary total suspicious rate high_confidence avg
        (sumZ (map dr_triangle_violations rs))).

Record SlashingEvidence := mkEvidence {
  sev_validator_id : bytes;
  sev_epoch : Z;
  sev_detection_result : DetectionResult;
  sev_measurements : list RTTMeasurement;
  sev_triangle_checks : list TriangleCheck;
  sev_evidence_hash : bytes;
}.

(** [SlashingEvidence(...)] with its [__post_init__]; [int.to_bytes] raises [OverflowError]. *)
Definition slashing_evidence `{Hashlib} (validator_id : bytes) (epoch : Z) (r : DetectionResult)
    (ms : list RTTMeasurement) (ts : list TriangleCheck) : res SlashingEvidence :=
  match pack_uint 8 epoch with
  | Err _ => Err OverflowError
  | Ok ep =>
      mb ← res_map rtt_to_bytes ms;
      Ok (mkEvidence validator_id epoch r ms ts (sha3_256 (validator_id ++ ep ++ concat mb)))
  end.

Record EvidenceDict := mkEvidenceDict {
  ed_validator_id : bytes;
  ed_epoch : Z;
  ed_is_suspicious : bool;
  ed_confidence : float64;
  ed_reasons : list string;
  ed_triangle_violations : Z;
  ed_evidence_hash : bytes;
}.

Definition evidence_to_dict (e : SlashingEvidence) : EvidenceDict :=
  let r := sev_detection_result e in
  mkEvidenceDict (hex_text (sev_validator_id e)) (sev_epoch e) (dr_is_suspicious r) (dr_confidence r)
    (dr_reasons r) (dr_triangle_violations r) (hex_text (sev_evidence_hash e)).

Example format_runs :
  text_string (format_fixed 2 (lit 314159 100000)) = "3.14" /\
  text_string (format_fixed 2 (lit (-1) 1000)) = "-0.00" /\
  text_string (format_percent (lit 1 3)) = "33.3%" /\
  stat_mean [lit 1 1; lit 2 1; lit 4 1] = truediv 7 3 /\
  stat_variance [lit 1 1; lit 2 1; lit 4 1] = truediv 7 3.
Proof. vm_compute. auto 10. Qed.

(** ** Rounding below a threshold *)

#[local] Open Scope Z_scope.

Lemma digits2_log2 m : Zpos (digits2_pos m) = Z.log2 (Zpos m) + 1.
Proof.
  induction m as [m IH|m IH|]; [..|done]; simpl digits2_pos; rewrite Pos2Z.inj_succ, IH.
  - change (Zpos m~1) with (2 * Zpos m + 1). rewrite Z.log2_succ_double by lia. lia.
  - change (Zpos m~0) with (2 * Zpos m). rewrite Z.log2_double by lia. lia.
Qed.

Lemma compare_cont_Eq p q : Pos.compare_cont Eq p q = Pos.compare p q.
Proof. reflexivity. Qed.

Lemma float_lt_finite m e c f :
  float_lt (S754_finite false m e) (S754_finite false c f) =
    match e ?= f with Lt => true | Gt => false | Eq => Zpos m <? Zpos c end.
Proof.
  unfold float_lt, SFltb. cbn [SFcompare]. rewrite compare_cont_Eq.
  destruct (e ?= f); try reflexivity.
Qed.

(** A quotient that is at most [(c - 1) / 2^53] rounds to a double below [c / 2^53]. *)
Lemma round_quot_below n d (c : positive) :
  0 <= n -> 0 < d -> 2 ^ 52 < Zpos c <= 2 ^ 53 -> n * 2 ^ 53 <= (Zpos c - 1) * d ->
  exists x, round_quot false n d = Ok x /\ float_lt x (S754_finite false c (-53)) = true.
Proof.
  intros Hn Hd Hc Hle. unfold float_lt, SFltb, round_quot.
  destruct (Z.eqb_spec n 0) as [->|Hn0]; [by eexists|].
  destruct (quot_log2_spec n d ltac:(lia) Hd) as [H1 H2]. set (k := quot_log2 n d) in *.
  assert (Hk : k <= -1).
  { assert (n < d) by nia. pose proof (quot_log2_upper n d 0 ltac:(lia) Hd ltac:(lia) ltac:(lia)).
    unfold k. lia. }
  set (e := quot_exp n d). assert (He : k - 52 <= e <= -53 /\ (k = -1 -> e = -53) /\ (k < -1 -> e < -53))
    by (unfold e, quot_exp; fold k; lia).
  set (m := rne_div _ _).
  assert (Hm53 : m <= 2 ^ 53).
  { unfold m. rewrite (Z.max_r 0 (- e)), (Z.max_l 0 e), Z.pow_0_r, Z.mul_1_r by lia.
    apply rne_div_upper; [done|].
    rewrite (Z.max_r 0 (- (k + 1))), (Z.max_l 0 (k + 1)) in H2 by lia.
    rewrite Z.pow_0_r, Z.mul_1_r in H2.
    pose proof (Z.pow_le_mono_r 2 (- e) (- (k + 1) + 53) ltac:(lia) ltac:(lia)) as Hp.
    rewrite Z.pow_add_r in Hp by lia. nia. }
  assert (Hmc : k = -1 -> m <= Zpos c - 1).
  { intros Hk1. unfold m. rewrite (proj1 (proj2 He) Hk1). change (Z.max 0 (- -53)) with 53.
    change (Z.max 0 (-53)) with 0. rewrite Z.pow_0_r, Z.mul_1_r. by apply rne_div_upper. }
  assert (Hm0 : 0 <= m).
  { unfold m. apply rne_div_lower; [|].
    - pose proof (Z.pow_pos_nonneg 2 (Z.max 0 e) ltac:(lia) ltac:(lia)). nia.
    - rewrite Z.mul_0_l. apply Z.mul_nonneg_nonneg; [done|]. apply Z.pow_nonneg. lia. }
  destruct (Z.eqb_spec m (2 ^ 53)) as [E|E].
  - assert (Hk1 : k < -1) by lia.
    rewrite (proj2 (Z.ltb_ge _ _)) by lia. eexists. split; [reflexivity|].
    cbn [SFcompare]. destruct (Z.compare_spec (e + 1) (-53)); [|done|lia].
    change (Pos.compare_cont Eq (2 ^ 52) c) with (Pos.compare (2 ^ 52) c).
    by rewrite (proj2 (Pos.compare_lt_iff _ _)) by lia.
  - rewrite (proj2 (Z.ltb_ge _ _)) by lia.
    destruct m as [|p|p]; [by eexists| |lia]. eexists. split; [reflexivity|].
    cbn [SFcompare]. destruct (Z.compare_spec e (-53)) as [He'|He'|He']; [|done|lia].
    change (Pos.compare_cont Eq p c) with (Pos.compare p c).
    rewrite (proj2 (Pos.compare_lt_iff _ _)); [done|].
    assert (k = -1) by lia. lia.
Qed.

(** Quotients below [2^1000] never overflow. *)
Lemma truediv_small a b :
  b <> 0 -> Z.abs a < Z.abs b * 2 ^ 1000 -> exists x, truediv a b = Ok x.
Proof.
  intros Hb Hab. unfold truediv. rewrite (proj2 (Z.eqb_neq _ _)) by done. generalize (xorb (a <? 0) (b <? 0)).
  intros s. set (n := Z.abs a) in *. set (d := Z.abs b) in *. unfold round_quot.
  destruct (Z.eqb_spec n 0); [by eexists|].
  pose proof (quot_log2_upper n d 1000 ltac:(lia) ltac:(lia) Hab ltac:(lia)) as Hk.
  set (m := rne_div _ _). destruct (m =? 2 ^ 53);
    (rewrite (proj2 (Z.ltb_ge _ _)) by (unfold quot_exp; lia)); [by eexists|].
  destruct m; by eexists.
Qed.

(** ** Ratios below 0.9 *)

(** The mantissa of the literal 0.9. *)
Lemma lit_09 : lit 9 10 = S754_finite false 8106479329266893 (-53).
Proof. vm_compute. reflexivity. Qed.

Definition below_09 (x : float64) : Prop := exists X, dyadic x = Some X /\ 0 <= X <= 8106479329266892 * 2 ^ 1021.

(** A valid finite double below [c / 2^53] is at most [(c - 1) / 2^53]. *)
Lemma finite_below m e c :
  Z.max (Z.log2 (Zpos m) + 1 + e - 53) (-1074) = e -> 2 ^ 53 <= 2 * (Zpos c - 1) ->
  float_lt (S754_finite false m e) (S754_finite false c (-53)) = true ->
  Zpos m * 2 ^ (e + 1074) <= (Zpos c - 1) * 2 ^ 1021.
Proof.
  intros Hcan Hc. rewrite float_lt_finite. intros Hlt.
  destruct (Z.compare_spec e (-53)) as [He|He|He]; [| |discriminate Hlt].
  - subst e. change (-53 + 1074) with 1021. apply Z.mul_le_mono_nonneg_r; [by apply Z.pow_nonneg|].
    apply Z.ltb_lt in Hlt. lia.
  - pose proof (Z.log2_spec (Zpos m) ltac:(lia)) as [_ Hm].
    pose proof (Z.pow_le_mono_r 2 (Z.succ (Z.log2 (Zpos m))) 53 ltac:(lia) ltac:(lia)) as Hp.
    pose proof (Z.pow_le_mono_r 2 (e + 1074) 1020 ltac:(lia) ltac:(lia)) as Hq.
    pose proof (Z.pow_pos_nonneg 2 (e + 1074) ltac:(lia) ltac:(lia)) as Hpos.
    rewrite (Z.pow_succ_r 2 1020 : 0 <= 1020 -> 2 ^ 1021 = _) by done.
    revert Hq Hpos. generalize (2 ^ 1020) (2 ^ (e + 1074)). intros P Q Hq Hpos.
    transitivity (2 ^ 53 * P); [nia|]. nia.
Qed.

Lemma below_09_float x :
  valid_binary 53 1024 x = true -> float_le (lit 0 1) x = true -> float_lt x (lit 9 10) = true -> below_09 x.
Proof.
  rewrite lit_09. change (lit 0 1) with (S754_zero false). unfold below_09.
  destruct x as [s|s| |s m e].
  - intros _ _ _. exists 0. split; [reflexivity|]. split; [reflexivity|].
    apply Z.mul_nonneg_nonneg; [done|]. by apply Z.pow_nonneg.
  - destruct s; intros _ H1 H2; [discriminate H1|discriminate H2].
  - intros _ H1 _. discriminate H1.
  - destruct s; [intros _ H1 _; discriminate H1|]. unfold valid_binary, bounded, canonical_mantissa.
    intros Hv _ Hlt. apply andb_true_iff in Hv as [Hcan _]. apply Z.eqb_eq in Hcan.
    unfold fexp, emin in Hcan. rewrite digits2_log2 in Hcan.
    exists (Zpos m * 2 ^ (e + 1074)). split; [reflexivity|].
    split; [apply Z.mul_nonneg_nonneg; [done|apply Z.pow_nonneg; lia]|].
    exact (finite_below m e 8106479329266893 Hcan ltac:(discriminate) Hlt).
Qed.

Lemma finite_dyadics (P : Z -> Prop) l :
  Forall (fun x => exists X, dyadic x = Some X /\ P X) l ->
  nonfinite_sum l = None /\ length (dyadics l) = length l /\ Forall P (dyadics l).
Proof.
  unfold nonfinite_sum, dyadics. induction 1 as [|x l (X & Ex & HX) _ (IH1 & IH2 & IH3)].
  { repeat split. constructor. }
  rewrite filter_cons, decide_False by (by rewrite Ex). split; [done|].
  cbn [omap list_omap]. rewrite Ex. split; [simpl; congruence|by constructor].
Qed.

Lemma sumZ_bound B l :
  Forall (fun X => 0 <= X <= B) l -> 0 <= sumZ l <= Z.of_nat (length l) * B.
Proof. induction 1; simpl; lia. Qed.

Lemma sumZ_squares_bound B l :
  Forall (fun X => 0 <= X <= B) l -> 0 <= sumZ (map (fun x => x * x) l) <= Z.of_nat (length l) * (B * B).
Proof. induction 1; simpl; [lia|]. nia. Qed.

Lemma scale_half : scale = 2 ^ 53 * 2 ^ 1021.
Proof. unfold scale. rewrite <- Z.pow_add_r by lia. reflexivity. Qed.

(** The mean of such ratios is below 0.9. *)
Lemma mean_below_09 l :
  Forall below_09 l -> l <> [] ->
  exists x, stat_mean l = Ok x /\ float_lt x (lit 9 10) = true.
Proof.
  intros Hl Hne. destruct (finite_dyadics _ l Hl) as (Hf & Hlen & Hb). apply sumZ_bound in Hb.
  rewrite Hlen in Hb. assert (Hn : 0 < Z.of_nat (length l)) by (destruct l; [done|simpl; lia]).
  unfold stat_mean. rewrite Hf. destruct l as [|a l']; [done|]. set (l := a :: l') in *.
  unfold truediv. pose proof (Z.pow_pos_nonneg 2 1021 ltac:(lia) ltac:(lia)) as Hp.
  assert (Hd : 0 < Z.of_nat (length l) * scale) by (rewrite scale_half; nia).
  rewrite (proj2 (Z.eqb_neq _ 0)), !(proj2 (Z.ltb_ge _ 0)) by lia. simpl xorb. rewrite !Z.abs_eq by lia.
  rewrite lit_09. apply round_quot_below; [lia|done|lia|].
  rewrite scale_half. change (8106479329266893 - 1) with 8106479329266892. nia.
Qed.

(** A finite double between 0 and 4. *)
Definition moderate (x : float64) : Prop := exists X, dyadic x = Some X /\ 0 <= X <= 4 * scale.

Lemma below_09_moderate x : below_09 x -> moderate x.
Proof.
  intros (X & E & HX). exists X. split; [done|]. rewrite scale_half.
  pose proof (Z.pow_pos_nonneg 2 1021 ltac:(lia) ltac:(lia)). nia.
Qed.

Lemma moderate_dyadics l :
  Forall moderate l ->
  nonfinite_sum l = None /\ length (dyadics l) = length l /\
  Forall (fun X => 0 <= X <= 4 * scale) (dyadics l).
Proof. apply finite_dyadics. Qed.

Lemma scale_pos : 0 < scale.
Proof. unfold scale. by apply Z.pow_pos_nonneg. Qed.

Lemma mean_moderate l : Forall moderate l -> l <> [] -> exists x, stat_mean l = Ok x.
Proof.
  intros Hl Hne. destruct (moderate_dyadics l Hl) as (Hf & Hlen & Hb). apply sumZ_bound in Hb.
  rewrite Hlen in Hb. assert (Hn : 0 < Z.of_nat (length l)) by (destruct l; [done|simpl; lia]).
  unfold stat_mean. rewrite Hf. destruct l as [|a l']; [done|]. set (l := a :: l') in *.
  set (D := Z.of_nat (length l) * scale). assert (HD : 0 < D) by (apply Z.mul_pos_pos; [done|apply scale_pos]).
  assert (HDb : 0 <= sumZ (dyadics l) <= 4 * D) by (unfold D; lia). clear Hb. apply truediv_small; [lia|].
  rewrite !Z.abs_eq by lia. change (2 ^ 1000) with (8 * 2 ^ 997).
  pose proof (Z.pow_pos_nonneg 2 997 ltac:(lia) ltac:(lia)). nia.
Qed.

(** The sum of squared deviations is of the order of the denominator. *)
Lemma sum_squares_bound l :
  Forall moderate l -> (2 <= length l)%nat ->
  0 < variance_denominator l /\ Z.abs (sum_squares l) <= 64 * variance_denominator l.
Proof.
  intros Hl Hlen. destruct (moderate_dyadics l Hl) as (_ & Hlen' & Hb).
  pose proof (sumZ_bound _ _ Hb) as H1. pose proof (sumZ_squares_bound _ _ Hb) as H2.
  rewrite Hlen' in H1, H2. unfold sum_squares, variance_denominator. pose proof scale_pos as Hs.
  generalize dependent scale. intros sc Hb H1 H2 Hs.
  set (n := Z.of_nat (length l)) in *. assert (Hn : 2 <= n) by (unfold n; lia).
  set (S1 := sumZ (dyadics l)) in *. set (S2 := sumZ (map _ (dyadics l))) in *.
  assert (Hq : 0 <= n * S2 <= 16 * (n * n * (sc * sc))) by nia.
  assert (Hr : 0 <= S1 * S1 <= 16 * (n * n * (sc * sc))).
  { split; [nia|]. assert (S1 <= 4 * (n * sc)) by nia. nia. }
  assert (Hnn : n * n <= 2 * (n * (n - 1))) by nia. split; nia.
Qed.

Lemma variance_moderate l :
  Forall moderate l -> (2 <= length l)%nat -> exists x, stat_variance l = Ok x.
Proof.
  intros Hl Hlen. unfold stat_variance. destruct (moderate_dyadics l Hl) as (-> & _ & _).
  destruct (sum_squares_bound l Hl Hlen). apply truediv_small; [lia|].
  change (2 ^ 1000) with (128 * 2 ^ 993). pose proof (Z.pow_pos_nonneg 2 993 ltac:(lia) ltac:(lia)). nia.
Qed.

Lemma sqrt_rto_bound n m r :
  0 < m -> 0 <= r -> n < r * r * m -> 0 <= sqrt_rto n m <= 2 * r + 1.
Proof.
  intros Hm Hr Hn. unfold sqrt_rto. set (a := Z.sqrt (n / m)).
  assert (Ha : 0 <= a <= r).
  { split; [apply Z.sqrt_nonneg|]. destruct (Z.lt_ge_cases (n / m) 0) as [?|Hd].
    - unfold a. rewrite Z.sqrt_neg by lia. done.
    - assert (n / m <= r * r) by (apply Z.lt_succ_r, Z.div_lt_upper_bound; nia).
      unfold a. rewrite <- (Z.sqrt_square r) by done. by apply Z.sqrt_le_mono. }
  assert (Hlor : forall b, b = 0 \/ b = 1 -> 0 <= Z.lor a b <= a + 1).
  { intros b Hb. assert (0 <= Z.land a b) by (apply Z.land_nonneg; lia).
    assert (0 <= Z.lor a b) by (apply Z.lor_nonneg; lia). pose proof (Z.add_lor_land a b). lia. }
  pose proof (Hlor 0 ltac:(auto)). pose proof (Hlor 1 ltac:(auto)). destruct (a * a * m =? n); lia.
Qed.

Lemma py_bit_length_range z : 0 <= py_bit_length z.
Proof. unfold py_bit_length. pose proof (Z.log2_nonneg z). destruct (z =? 0); lia. Qed.

Lemma float_sqrt_small n m :
  0 < m -> Z.abs n <= 64 * m -> exists x, float_sqrt_of_frac n m = Ok x.
Proof.
  intros Hm Hn. unfold float_sqrt_of_frac. set (q := (_ - _ - 109) / 2).
  assert (Hq : q < 0).
  { unfold q. apply Z.div_lt_upper_bound; [lia|]. unfold py_bit_length.
    rewrite (proj2 (Z.eqb_neq m 0)) by lia. pose proof (Z.log2_nonneg m).
    destruct (Z.eqb_spec n 0); [lia|]. destruct (Z.lt_ge_cases n 0) as [?|Hn0].
    - rewrite Z.log2_nonpos by lia. lia.
    - pose proof (Z.log2_le_mono n (2 ^ 6 * m) ltac:(lia)) as Hl.
      rewrite Z.mul_comm, Z.log2_mul_pow2 in Hl by lia. lia. }
  rewrite (proj2 (Z.leb_gt _ _)) by done.
  set (p := 2 ^ (- q)). assert (Hp : 0 < p) by (apply Z.pow_pos_nonneg; lia).
  assert (Hb : 0 <= sqrt_rto (Z.shiftl n (-2 * q)) m <= 2 * (9 * p) + 1).
  { apply sqrt_rto_bound; [done|lia|]. rewrite Z.shiftl_mul_pow2 by lia.
    replace (-2 * q) with (- q + - q) by lia. rewrite Z.pow_add_r by lia. fold p. nia. }
  apply truediv_small; [lia|]. rewrite !Z.abs_eq by lia.
  change (2 ^ 1000) with (32 * 2 ^ 995). pose proof (Z.pow_pos_nonneg 2 995 ltac:(lia) ltac:(lia)). nia.
Qed.

Lemma stdev_moderate l :
  Forall moderate l -> (2 <= length l)%nat -> exists x, stat_stdev l = Ok x.
Proof.
  intros Hl Hlen. unfold stat_stdev. destruct (moderate_dyadics l Hl) as (-> & _ & _).
  destruct (sum_squares_bound l Hl Hlen) as [Hd Hn].
  set (n := sum_squares l) in *. set (d := variance_denominator l) in *. set (g := Z.gcd n d).
  assert (Hg : 0 < g).
  { unfold g. pose proof (Z.gcd_nonneg n d). destruct (Z.eq_dec (Z.gcd n d) 0) as [E|?]; [|lia].
    apply Z.gcd_eq_0_r in E. lia. }
  destruct (Z.gcd_divide_l n d) as [n' En]. destruct (Z.gcd_divide_r n d) as [d' Ed]. fold g in En, Ed.
  rewrite En, Ed, !Z.div_mul by lia. rewrite En, Ed in Hn. rewrite Ed in Hd.
  apply float_sqrt_small; [nia|]. rewrite Z.abs_mul in Hn. rewrite (Z.abs_eq g) in Hn by lia. nia.
Qed.

(** ** The decision on fast routes *)

(** A ratio below 0.9 that a validator can report. *)
Definition fast_ratio (m : RTTMeasurement) : Prop :=
  valid_binary 53 1024 (rtt_ratio m) = true /\ float_le (lit 0 1) (rtt_ratio m) = true /\
  float_lt (rtt_ratio m) (lit 9 10) = true.

Lemma fast_below ms : Forall fast_ratio ms -> Forall below_09 (ratios ms).
Proof.
  intros H. apply Forall_map. eapply Forall_impl; [exact H|]. intros m (Hv & H0 & H9).
  by apply below_09_float.
Qed.

(** The values of [by_target] are values of the function. *)
Lemma by_target_values f P l :
  Forall (fun m => P (f m)) l -> Forall P (map snd (by_target f l)).
Proof.
  intros Hl. unfold by_target.
  assert (Hg : forall d : dict bytes float64, Forall P (map snd d) -> forall l, Forall (fun m => P (f m)) l ->
    Forall P (map snd (foldl (fun d m => dict_set (rm_target_id m) (f m) d) d l))).
  { intros d Hd l' Hl'. revert d Hd. induction Hl' as [|m l' Hm _ IH]; intros d Hd; [done|].
    cbn [foldl]. apply IH. clear IH.
    induction d as [|[k x] d IH]; cbn [dict_set]; [by repeat constructor|].
    cbn [map snd] in Hd. apply Forall_cons in Hd as [Hx Hd].
    case_decide; cbn [map snd]; constructor; auto. }
  apply Hg; [constructor|done].
Qed.

Definition moderate_ratio (m : RTTMeasurement) : Prop := moderate (rtt_ratio m).

Lemma fast_moderate m : fast_ratio m -> moderate_ratio m.
Proof. intros (Hv & H0 & H9). by apply below_09_moderate, below_09_float. Qed.

Lemma check_path_ok g v :
  Forall moderate_ratio (measurements_of g v) -> exists r, check_path_consistency g v = Ok r.
Proof.
  intros H. unfold check_path_consistency. destruct (length (measurements_of g v) <? 2)%nat; [by eexists|].
  assert (Hrs : Forall moderate (map snd (by_target rtt_ratio (measurements_of g v)))) by (by apply by_target_values).
  set (rs := map snd _) in *. destruct (Nat.ltb_spec (length rs) 2); [by eexists|].
  destruct (mean_moderate rs Hrs) as (x & ->); [intros E; rewrite E in *; simpl in *; lia|].
  destruct (stdev_moderate rs Hrs) as (y & ->); [lia|]. by eexists.
Qed.

Lemma check_variance_ok ms : Forall moderate_ratio ms -> exists r, check_variance ms = Ok r.
Proof.
  intros H. unfold check_variance. destruct (Nat.ltb_spec (length ms) 2); [by eexists|].
  destruct (variance_moderate (ratios ms)) as (x & ->); [by apply Forall_map|unfold ratios; rewrite length_map; lia|].
  by eexists.
Qed.

Lemma triangle_rate_ok k n :
  0 <= k <= n -> exists x, truediv k (Z.max n 1) = Ok x.
Proof.
  intros Hk. apply truediv_small; [lia|]. rewrite !Z.abs_eq by lia.
  pose proof (Z.pow_pos_nonneg 2 1000 ltac:(lia) ltac:(lia)).
  assert (2 <= 2 ^ 1000) by (change 2 with (2 ^ 1) at 1; by apply Z.pow_le_mono_r). nia.
Qed.

(** Ratios between 0 and 4 are analysed without an exception; a mean below 0.9 is suspicious. *)
Lemma analyze_moderate (e : DetectionEngine) (v : bytes) :
  measurements_of (de_measurement_graph e) v <> [] ->
  Forall moderate_ratio (measurements_of (de_measurement_graph e) v) ->
  exists r mean signals, analyze_validator e v = Ok r /\
    stat_mean (ratios (measurements_of (de_measurement_graph e) v)) = Ok mean /\
    dr_validator_id r = v /\ dr_is_suspicious r = (2 <=? signals) || float_lt mean (lit 9 10).
Proof.
  intros Hne Hmod. unfold analyze_validator. set (g := de_measurement_graph e) in *.
  set (ms := measurements_of g v) in *.
  destruct (check_path_ok g v Hmod) as (path & Hpath). destruct (check_variance_ok ms Hmod) as (var & Hvar).
  destruct (mean_moderate (ratios ms)) as (mean & Hmean);
    [by apply Forall_map|unfold ratios; by destruct ms|].
  assert (Hratio : exists r, check_ratios ms = Ok r).
  { unfold check_ratios. rewrite Hmean. destruct ms; [done|by eexists]. }
  destruct Hratio as (ratio & ->). rewrite Hvar, Hpath, Hmean.
  destruct (triangle_rate_ok (count_true (map (fun t => negb (tc_is_valid t)) (check_triangles g v)))
    (Z.of_nat (length (check_triangles g v)))) as (rate & Hrate).
  { unfold count_true. pose proof (length_filter (fun b => b = true)
      (map (fun t => negb (tc_is_valid t)) (check_triangles g v))) as Hl. rewrite length_map in Hl. lia. }
  destruct (truediv_small (count_true [ratio.1; var.1; float_lt (lit 3 10) rate; path.1]) 4) as (conf & Hconf);
    [done| |].
  { unfold count_true. pose proof (length_filter (fun b => b = true)
      [ratio.1; var.1; float_lt (lit 3 10) rate; path.1]) as Hl. cbn [length] in Hl.
    rewrite !Z.abs_eq by lia. assert (2 <= 2 ^ 1000) by (change 2 with (2 ^ 1) at 1; by apply Z.pow_le_mono_r). lia. }
  destruct ms as [|m ms']; [done|]. rewrite bind_Ok, Hrate, !bind_Ok. cbv zeta. rewrite Hconf, bind_Ok.
  eexists _, mean, _. do 3 (split; [reflexivity|]). reflexivity.
Qed.

(** The analysis raises only on a ratio that is not a number between 0 and 4. *)
Lemma analyze_all_moderate (e : DetectionEngine) :
  (forall v, Forall moderate_ratio (measurements_of (de_measurement_graph e) v)) ->
  exists results, analyze_all e = Ok results.
Proof.
  intros Hmod. unfold analyze_all. generalize (de_results e).
  induction (dict_keys (de_measurement_graph e)) as [|v vs IH]; intros results; [by eexists|]. cbn [analyze_loop].
  assert (exists r, analyze_validator e v = Ok r) as (r & ->); [|apply IH].
  destruct (measurements_of (de_measurement_graph e) v) as [|m ms] eqn:E.
  - unfold analyze_validator. rewrite E. by eexists.
  - destruct (analyze_moderate e v) as (r & _ & _ & Er & _); [by rewrite E|apply Hmod|by exists r].
Qed.

#[export] Instance moderate_dec x : Decision (moderate x).
Proof.
  refine (match dyadic x as d return dyadic x = d -> Decision (moderate x) with
          | Some X => fun E => cast_if (decide (0 <= X <= 4 * scale))
          | None => fun E => right _
          end eq_refl).
  - exists X. by rewrite E.
  - intros (Y & EY & HY). by simplify_eq.
  - intros (Y & EY & HY). by rewrite E in EY.
Defined.

#[export] Instance moderate_ratio_dec m : Decision (moderate_ratio m).
Proof. unfold moderate_ratio. apply _. Defined.

(** So behind an exception there is such a ratio. *)
Lemma analyze_all_raises (e : DetectionEngine) x :
  analyze_all e = Err x ->
  exists v ms m, (v, ms) ∈ de_measurement_graph e /\ m ∈ ms /\ ~ moderate_ratio m.
Proof.
  intros Hx. destruct (decide (Forall (fun kv => Forall moderate_ratio kv.2) (de_measurement_graph e))) as [Hall|Hno].
  - destruct (analyze_all_moderate e) as (results & E); [|congruence]. intros v. unfold measurements_of.
    destruct (dict_get v (de_measurement_graph e)) as [ms|] eqn:E; [|constructor]. simpl.
    rewrite Forall_forall in Hall. by apply (Hall (v, ms)), dict_get_in.
  - apply not_Forall_Exists in Hno; [|apply _]. apply Exists_exists in Hno as ([k ms] & Hin & Hms).
    simpl in Hms. apply not_Forall_Exists in Hms; [|apply _]. apply Exists_exists in Hms as (m & Hm & Hmod).
    by exists k, ms, m.
Qed.

(** Optimised routes are flagged.  A validator all of whose reported round trips have a
    ratio to the theoretical time that is non-negative and below 0.9 is declared suspicious,
    and analysing it raises no exception, whatever the other validators measured. *)
Theorem fast_routes_flagged (e : DetectionEngine) (v : bytes)
    (Hne : measurements_of (de_measurement_graph e) v <> [])
    (Hfast : Forall fast_ratio (measurements_of (de_measurement_graph e) v)) :
  exists r, analyze_validator e v = Ok r /\ dr_validator_id r = v /\ dr_is_suspicious r = true.
Proof.
  destruct (analyze_moderate e v Hne) as (r & mean & signals & E & Hmean & Hid & Hs).
  { eapply Forall_impl; [exact Hfast|]. exact fast_moderate. }
  destruct (mean_below_09 (ratios (measurements_of (de_measurement_graph e) v)) (fast_below _ Hfast))
    as (mean' & Hmean' & Hlt); [unfold ratios; by destruct (measurements_of _ v)|].
  exists r. split; [done|]. split; [done|]. rewrite Hmean in Hmean'. injection Hmean' as <-.
  rewrite Hs, Hlt. apply orb_true_r.
Qed.

(** ** Sample run *)

Definition demo_engine : DetectionEngine :=
  load_measurements [(replicate 32 Byte.x01, [demo_rtt Byte.x03 82 100; demo_rtt Byte.x04 160 200])] [].

Lemma fast_routes_flagged_witness :
  exists r, analyze_validator demo_engine (replicate 32 Byte.x01) = Ok r /\
    dr_validator_id r = replicate 32 Byte.x01 /\ dr_is_suspicious r = true.
Proof.
  apply (fast_routes_flagged demo_engine (replicate 32 Byte.x01)).
  - vm_compute. discriminate.
  - repeat constructor; vm_compute; reflexivity.
Defined.
