(* ===== verification/NodeCodec.v ===== *)
(** * Wire formats of the consensus messages ([src/src/node.py], lines 379-571)

    The serializers a node uses to ship commitments, reveals, proposals and votes.  A decoder
    catches every exception and returns [None].  Main results: commitments and votes are
    decoded to what was encoded, and proposals lose their detection results and their empty
    roots ([wire_roundtrip]); a proposal with empty roots, the only kind the node itself makes,
    arrives with another hash, so no vote on it matches ([empty_roots_change_hash]); no reveal is ever decoded ([reveal_never_decoded]). *)

From stdpp Require Import prelude list gmap strings.
From Stdlib Require Import Strings.Byte ZArith Lia.
From S2P Require Import Prelude.
From S2P Require Import Dict.
From S2P Require Import PyFloat.
From S2P Require Import Crypto.
From S2P Require Import Consensus.
From S2P Require Import Blocks.
From S2P Require Import Peers.
From S2P Require Import Measurement.

Set Default Goal Selector "!".

(** [try: ... except Exception: return None]. *)
Definition try_none {A} (r : res A) : option A := match r with Ok a => Some a | Err _ => None end.

(** [struct.pack(">QI", a, b)] and its inverse. *)
Definition pack_QI (a b : Z) : res bytes := x ← pack_uint 8 a; y ← pack_uint 4 b; Ok (x ++ y).

Definition unpack_QI (data : bytes) : res (Z * Z) :=
  if length data =? 12 then
    a ← unpack_uint 8 (take 8 data); b ← unpack_uint 4 (drop 8 data); Ok (a, b)
  else Err StructError.

(** ** Commitments *)

Definition serialize_commitment (c : MeasurementCommitment) : res bytes :=
  ep ← pack_uint 8 (mc_epoch c);
  n ← pack_uint 4 (Z.of_nat (length (mc_target_ids c)));
  ts ← pack_uint 8 (mc_timestamp c);
  Ok (mc_validator_id c ++ ep ++ n ++ concat (mc_target_ids c) ++ mc_commitment_hash c ++ ts).

(** The loop over [range(num_targets)]: slices past the end are short. *)
Fixpoint read_targets (n : nat) (data : bytes) (off : nat) : list bytes :=
  match n with
  | O => []
  | S n => slice off (off + 32) data :: read_targets n data (off + 32)
  end.

Definition parse_commitment (data : bytes) : res MeasurementCommitment :=
  let validator_id := slice 0 32 data in
  epoch ← unpack_uint 8 (slice 32 40 data);
  num_targets ← unpack_uint 4 (slice 40 44 data);
  let n := Z.to_nat num_targets in
  let target_ids := read_targets n data 44 in
  let off := 44 + 32 * n in
  let commitment_hash := slice off (off + 32) data in
  timestamp ← unpack_uint 8 (slice (off + 32) (off + 40) data);
  Ok (mkCommitment validator_id epoch target_ids commitment_hash timestamp []).

Definition deserialize_commitment (data : bytes) : option MeasurementCommitment :=
  try_none (parse_commitment data).

(** ** Reveals *)

Section Codec.
Context `{Hashlib}.

Definition serialize_measurement (m : RTTMeasurement) : res bytes :=
  mb ← rtt_to_bytes m; n ← pack_uint 4 (Z.of_nat (length mb)); Ok (n ++ mb).

Definition serialize_reveal (r : MeasurementReveal) : res bytes :=
  ep ← pack_uint 8 (mr_epoch r);
  n ← pack_uint 4 (Z.of_nat (length (mr_measurements r)));
  ms ← res_map serialize_measurement (mr_measurements r);
  c ← match mr_commitment r with None => Err AttributeError | Some c => Ok c end;
  cdata ← serialize_commitment c;
  cn ← pack_uint 4 (Z.of_nat (length cdata));
  Ok (mr_validator_id r ++ ep ++ n ++ concat ms ++ cn ++ cdata).

(** The loop over the measurements: [RTTMeasurement] has no [from_bytes], so each one is
    skipped and only the offset moves. *)
Fixpoint skip_measurements (n : nat) (data : bytes) (offset : nat) : res nat :=
  match n with
  | O => Ok offset
  | S n =>
      m_len ← unpack_uint 4 (slice offset (offset + 4) data);
      skip_measurements n data (offset + 4 + Z.to_nat m_len)
  end.

(** The constructor is called with the keyword [commitment_hash], which [MeasurementReveal]
    does not have. *)
Definition parse_reveal (data : bytes) : res MeasurementReveal :=
  let validator_id := slice 0 32 data in
  epoch ← unpack_uint 8 (slice 32 40 data);
  m_count ← unpack_uint 4 (slice 40 44 data);
  offset ← skip_measurements (Z.to_nat m_count) data 44;
  c_len ← unpack_uint 4 (slice offset (offset + 4) data);
  let c_data := slice (offset + 4) (offset + 4 + Z.to_nat c_len) data in
  let commitment := deserialize_commitment c_data in
  let commitment_hash := sha3_256 [] in
  Err TypeError.

Definition deserialize_reveal (data : bytes) : option MeasurementReveal :=
  if length data <? 44 then None else try_none (parse_reveal data).

(** ** Proposals *)

(** [root if root else b"\x00" * 32]. *)
Definition root_or_zero (root : bytes) : bytes := match root with [] => zero32 | _ => root end.

(** [struct.pack(">Q", timestamp)]: a [float] is refused. *)
Definition pack_timestamp (t : pyarg) : res bytes :=
  match t with PInt z => pack_uint 8 z | _ => Err StructError end.

Definition serialize_proposal (p : ConsensusProposal) : res bytes :=
  er ← pack_QI (cp_epoch p) (cp_round p);
  ts ← pack_timestamp (cp_timestamp p);
  Ok (cp_proposer_id p ++ er ++ cp_measurement_root p ++ root_or_zero (cp_transaction_root p)
      ++ root_or_zero (cp_state_root p) ++ ts).

Definition parse_proposal (data : bytes) : res ConsensusProposal :=
  let proposer_id := slice 0 32 data in
  er ← unpack_QI (slice 32 44 data);
  let measurement_root := slice 44 76 data in
  let transaction_root := slice 76 108 data in
  let state_root := slice 108 140 data in
  timestamp ← unpack_uint 8 (slice 140 148 data);
  Ok (mkConsensusProposal proposer_id er.1 er.2 measurement_root ∅ transaction_root state_root
        (PInt timestamp) []).

Definition deserialize_proposal (data : bytes) : option ConsensusProposal :=
  try_none (parse_proposal data).

(** ** Votes *)

Definition serialize_vote (v : ConsensusVote) : res bytes :=
  er ← pack_QI (cv_epoch v) (cv_round v);
  st ← pack_uint 8 (cv_stake v);
  ts ← pack_uint 8 (cv_timestamp v);
  Ok (cv_voter_id v ++ er ++ cv_proposal_hash v ++ st ++ ts).

Definition parse_vote (data : bytes) (vote_type : string) : res ConsensusVote :=
  let voter_id := slice 0 32 data in
  er ← unpack_QI (slice 32 44 data);
  let proposal_hash := slice 44 76 data in
  stake ← unpack_uint 8 (slice 76 84 data);
  timestamp ← unpack_uint 8 (slice 84 92 data);
  Ok (mkConsensusVote voter_id er.1 er.2 proposal_hash vote_type stake timestamp []).

Definition deserialize_vote (data : bytes) (vote_type : string) : option ConsensusVote :=
  try_none (parse_vote data vote_type).

Definition serialize_block_hash (block : ConsensusBlock) : bytes := cb_block_hash block.

(** ** Lemmas *)

Lemma unpack_QI_ok a b :
  (0 <= a < 2 ^ 64)%Z -> (0 <= b < 2 ^ 32)%Z ->
  exists l, pack_QI a b = Ok l /\ length l = 12 /\ unpack_QI l = Ok (a, b).
Proof.
  intros Ha Hb. unfold pack_QI, unpack_QI. rewrite !pack_uint_ok by (simpl; lia).
  cbn [mbind res_bind]. eexists. split; [reflexivity|]. rewrite length_app, !be_encode_length.
  split; [done|]. cbn [Nat.add Nat.eqb].
  rewrite take_app_length', drop_app_length' by (by rewrite be_encode_length).
  rewrite (unpack_be 8 a), (unpack_be 4 b) by (simpl; lia || done). done.
Qed.

Lemma read_targets_concat ts pre suf :
  Forall (fun t => length t = 32) ts ->
  read_targets (length ts) (pre ++ concat ts ++ suf) (length pre) = ts.
Proof.
  intros Hts. revert pre. induction Hts as [|t ts Ht _ IH]; intros pre; [done|].
  cbn [length read_targets concat]. f_equal.
  - rewrite <- app_assoc. by apply (slice_at pre t (concat ts ++ suf)); rewrite ?Ht.
  - replace (length pre + 32) with (length (pre ++ t)) by (rewrite length_app; lia).
    rewrite <- app_assoc, (assoc_L _ pre). apply IH.
Qed.

(** Messages whose fields fit the wire format. *)
Record commitment_wf (c : MeasurementCommitment) : Prop := {
  cwf_id : length (mc_validator_id c) = 32;
  cwf_epoch : (0 <= mc_epoch c < 2 ^ 64)%Z;
  cwf_count : (Z.of_nat (length (mc_target_ids c)) < 2 ^ 32)%Z;
  cwf_targets : Forall (fun t => length t = 32) (mc_target_ids c);
  cwf_hash : length (mc_commitment_hash c) = 32;
  cwf_time : (0 <= mc_timestamp c < 2 ^ 64)%Z;
  cwf_signature : mc_signature c = [];
}.

Record proposal_fits (p : ConsensusProposal) : Prop := {
  pf_id : length (cp_proposer_id p) = 32;
  pf_epoch : (0 <= cp_epoch p < 2 ^ 64)%Z;
  pf_round : (0 <= cp_round p < 2 ^ 32)%Z;
  pf_root : length (cp_measurement_root p) = 32;
  pf_time : exists t, cp_timestamp p = PInt t /\ (0 <= t < 2 ^ 64)%Z;
}.

Record vote_fits (v : ConsensusVote) : Prop := {
  vf_id : length (cv_voter_id v) = 32;
  vf_epoch : (0 <= cv_epoch v < 2 ^ 64)%Z;
  vf_round : (0 <= cv_round v < 2 ^ 32)%Z;
  vf_hash : length (cv_proposal_hash v) = 32;
  vf_stake : (0 <= cv_stake v < 2 ^ 64)%Z;
  vf_time : (0 <= cv_timestamp v < 2 ^ 64)%Z;
  vf_signature : cv_signature v = [];
}.

Lemma commitment_wire c :
  commitment_wf c ->
  exists data, serialize_commitment c = Ok data /\ deserialize_commitment data = Some c.
Proof.
  intros [Hid He Hn Hts Hh Ht Hsig]. unfold serialize_commitment.
  rewrite !pack_uint_ok by (simpl; lia). cbn [mbind res_bind]. eexists. split; [reflexivity|].
  set (ep := be_encode 8 (mc_epoch c)). set (nb := be_encode 4 _). set (tb := be_encode 8 (mc_timestamp c)).
  assert (Lep : length ep = 8) by apply be_encode_length.
  assert (Lnb : length nb = 4) by apply be_encode_length.
  assert (Ltb : length tb = 8) by apply be_encode_length.
  assert (Lts : length (concat (mc_target_ids c)) = 32 * length (mc_target_ids c))
    by (by apply concat_length_same).
  unfold deserialize_commitment, parse_commitment. set (data := mc_validator_id c ++ _).
  set (ids := concat (mc_target_ids c)) in *. set (h := mc_commitment_hash c) in *.
  rewrite (slice_at [] (mc_validator_id c) (ep ++ nb ++ ids ++ h ++ tb) data 0 32) by (done || simpl; lia).
  rewrite (slice_at (mc_validator_id c) ep (nb ++ ids ++ h ++ tb) data 32 40) by (done || lia).
  rewrite (unpack_be 8 (mc_epoch c)) by (simpl; lia || done).
  rewrite (slice_at (mc_validator_id c ++ ep) nb (ids ++ h ++ tb) data 40 44)
    by (unfold data; rewrite ?length_app, <- ?app_assoc; done || lia).
  rewrite (unpack_be 4 (Z.of_nat (length (mc_target_ids c)))) by (simpl; lia || done).
  cbn [mbind res_bind]. rewrite Nat2Z.id.
  set (n := length (mc_target_ids c)) in *.
  assert (Hread : read_targets n data 44 = mc_target_ids c).
  { unfold data, ids. rewrite (assoc_L _ (mc_validator_id c)), (assoc_L _ _ nb).
    replace 44 with (length ((mc_validator_id c ++ ep) ++ nb)) by (rewrite !length_app; lia).
    by apply read_targets_concat. }
  rewrite Hread.
  rewrite (slice_at (mc_validator_id c ++ ep ++ nb ++ ids) h tb data (44 + 32 * n) (44 + 32 * n + 32))
    by (unfold data; rewrite ?length_app, <- ?app_assoc; done || lia).
  rewrite (slice_at (mc_validator_id c ++ ep ++ nb ++ ids ++ h) tb [] data (44 + 32 * n + 32) (44 + 32 * n + 40))
    by (unfold data; rewrite ?app_nil_r, ?length_app, <- ?app_assoc; done || lia).
  rewrite (unpack_be 8 (mc_timestamp c)) by (simpl; lia || done).
  cbn [mbind res_bind try_none]. unfold h. rewrite <- Hsig. clear. by destruct c.
Qed.

(** What a proposal becomes on the wire: without its detection results and signature, with
    zeros for empty roots. *)
Definition on_the_wire (p : ConsensusProposal) : ConsensusProposal :=
  mkConsensusProposal (cp_proposer_id p) (cp_epoch p) (cp_round p) (cp_measurement_root p) ∅
    (root_or_zero (cp_transaction_root p)) (root_or_zero (cp_state_root p)) (cp_timestamp p) [].

Lemma proposal_wire p :
  proposal_fits p -> length (root_or_zero (cp_transaction_root p)) = 32 ->
  length (root_or_zero (cp_state_root p)) = 32 ->
  exists data, serialize_proposal p = Ok data /\ deserialize_proposal data = Some (on_the_wire p).
Proof.
  intros [Hid He Hr Hm (t & Et & Ht)] Htr Hsr. unfold serialize_proposal, pack_timestamp.
  destruct (unpack_QI_ok _ _ He Hr) as (er & Eer & Ler & Uer). rewrite Eer, Et.
  rewrite pack_uint_ok by (simpl; lia). cbn [mbind res_bind]. eexists. split; [reflexivity|].
  set (tr := root_or_zero (cp_transaction_root p)) in *. set (sr := root_or_zero (cp_state_root p)) in *.
  set (id := cp_proposer_id p) in *. set (mr := cp_measurement_root p) in *.
  set (tb := be_encode 8 t). assert (Ltb : length tb = 8) by apply be_encode_length.
  unfold deserialize_proposal, parse_proposal. set (data := id ++ _).
  rewrite (slice_at [] id (er ++ mr ++ tr ++ sr ++ tb) data 0 32) by (done || simpl; lia).
  rewrite (slice_at id er (mr ++ tr ++ sr ++ tb) data 32 44) by (done || lia). rewrite Uer.
  rewrite (slice_at (id ++ er) mr (tr ++ sr ++ tb) data 44 76)
    by (unfold data; rewrite ?length_app, <- ?app_assoc; done || lia).
  rewrite (slice_at (id ++ er ++ mr) tr (sr ++ tb) data 76 108)
    by (unfold data; rewrite ?length_app, <- ?app_assoc; done || lia).
  rewrite (slice_at (id ++ er ++ mr ++ tr) sr tb data 108 140)
    by (unfold data; rewrite ?length_app, <- ?app_assoc; done || lia).
  rewrite (slice_at (id ++ er ++ mr ++ tr ++ sr) tb [] data 140 148)
    by (unfold data; rewrite ?app_nil_r, ?length_app, <- ?app_assoc; done || lia).
  cbn [mbind res_bind]. rewrite (unpack_be 8 t) by (simpl; lia || done).
  cbn [mbind res_bind try_none fst snd]. unfold on_the_wire. by rewrite Et.
Qed.

Lemma serialize_vote_length v data :
  serialize_vote v = Ok data -> length (cv_voter_id v) = 32 -> length (cv_proposal_hash v) = 32 ->
  length data = 92.
Proof.
  intros E Hid Hh. unfold serialize_vote, pack_QI in E. inv_res.
  repeat match goal with E : pack_uint _ _ = Ok _ |- _ => apply pack_uint_inv in E as [_ ->] end.
  by rewrite !length_app, !be_encode_length, Hid, Hh.
Qed.

Lemma vote_wire v :
  vote_fits v ->
  exists data, serialize_vote v = Ok data /\ deserialize_vote data (cv_vote_type v) = Some v.
Proof.
  intros [Hid He Hr Hh Hs Ht Hsig]. unfold serialize_vote.
  destruct (unpack_QI_ok _ _ He Hr) as (er & Eer & Ler & Uer). rewrite Eer.
  rewrite !pack_uint_ok by (simpl; lia). cbn [mbind res_bind]. eexists. split; [reflexivity|].
  set (id := cv_voter_id v) in *. set (h := cv_proposal_hash v) in *.
  set (sb := be_encode 8 (cv_stake v)). set (tb := be_encode 8 (cv_timestamp v)).
  assert (Lsb : length sb = 8) by apply be_encode_length.
  assert (Ltb : length tb = 8) by apply be_encode_length.
  unfold deserialize_vote, parse_vote. set (data := id ++ _).
  rewrite (slice_at [] id (er ++ h ++ sb ++ tb) data 0 32) by (done || simpl; lia).
  rewrite (slice_at id er (h ++ sb ++ tb) data 32 44) by (done || lia). rewrite Uer.
  rewrite (slice_at (id ++ er) h (sb ++ tb) data 44 76)
    by (unfold data; rewrite ?length_app, <- ?app_assoc; done || lia).
  rewrite (slice_at (id ++ er ++ h) sb tb data 76 84)
    by (unfold data; rewrite ?length_app, <- ?app_assoc; done || lia).
  rewrite (slice_at (id ++ er ++ h ++ sb) tb [] data 84 92)
    by (unfold data; rewrite ?app_nil_r, ?length_app, <- ?app_assoc; done || lia).
  cbn [mbind res_bind]. rewrite (unpack_be 8 (cv_stake v) sb) by (simpl; lia || done).
  cbn [mbind res_bind]. rewrite (unpack_be 8 (cv_timestamp v) tb) by (simpl; lia || done).
  cbn [mbind res_bind try_none fst snd]. unfold id, h. rewrite <- Hsig. clear. by destruct v.
Qed.

(** The string that is hashed grows by the zeros that replace empty roots. *)
Lemma wire_preimage_length p d d' :
  (0 <= cp_epoch p < 2 ^ 64)%Z -> (0 <= cp_round p < 2 ^ 64)%Z ->
  proposal_preimage p = Ok d -> proposal_preimage (on_the_wire p) = Ok d' ->
  length d' + length (cp_transaction_root p) + length (cp_state_root p) =
    length d + length (root_or_zero (cp_transaction_root p)) + length (root_or_zero (cp_state_root p)).
Proof.
  intros He Hr. unfold proposal_preimage, on_the_wire. cbn [cp_proposer_id cp_epoch cp_round
    cp_measurement_root cp_transaction_root cp_state_root].
  rewrite !py_concat_cons, py_concat_nil, !concat_arg_int by done. cbn [concat_arg mbind res_bind].
  intros <-%Ok_inj <-%Ok_inj. rewrite !length_app. simpl. lia.
Qed.

(** Only a proposal with both roots keeps its hash. *)
Lemma wire_hash p :
  collision_free sha3_256 (proposal_queries p ++ proposal_queries (on_the_wire p)) ->
  (0 <= cp_epoch p < 2 ^ 64)%Z -> (0 <= cp_round p < 2 ^ 64)%Z ->
  proposal_hash (on_the_wire p) = proposal_hash p <-> cp_transaction_root p <> [] /\ cp_state_root p <> [].
Proof.
  intros Hcf He Hr. split.
  - intros E. assert (exists h, proposal_hash p = Ok h) as [h Hh].
    { unfold proposal_hash. rewrite !py_concat_cons, py_concat_nil, !concat_arg_int by done. by eexists. }
    rewrite Hh in E. apply proposal_hash_inv in Hh as (d & Ed & Qd & ->), E as (d' & Ed' & Qd' & Eh).
    rewrite Qd, Qd' in Hcf. assert (d = d') as <- by (apply Hcf; [set_solver|set_solver|done]).
    pose proof (wire_preimage_length p d d He Hr Ed Ed') as Hl.
    destruct (cp_transaction_root p), (cp_state_root p); simpl in Hl; try (by split); lia.
  - intros [Ht Hs]. unfold proposal_hash, on_the_wire. cbn.
    by destruct (cp_transaction_root p), (cp_state_root p).
Qed.

(** C38. What arrives of a consensus message.  Commitments and votes that carry no signature, as
    the program makes them, and whose fields fit the format are decoded to themselves.  A
    proposal that fits, its roots empty or 32 bytes long, is decoded to the proposal without its
    detection results and signature and with 32 zeros for an empty root; barring a collision, it
    has the same hash exactly if neither root was empty. *)
Theorem wire_roundtrip (c : MeasurementCommitment) (v : ConsensusVote) (p : ConsensusProposal)
    (Hc : commitment_wf c) (Hv : vote_fits v) (Hp : proposal_fits p)
    (Htr : length (root_or_zero (cp_transaction_root p)) = 32)
    (Hsr : length (root_or_zero (cp_state_root p)) = 32)
    (Hcf : collision_free sha3_256 (proposal_queries p ++ proposal_queries (on_the_wire p))) :
  (exists data, serialize_commitment c = Ok data /\ deserialize_commitment data = Some c) /\
  (exists data, serialize_vote v = Ok data /\ deserialize_vote data (cv_vote_type v) = Some v) /\
  (exists data q, serialize_proposal p = Ok data /\ deserialize_proposal data = Some q /\
     q = mkConsensusProposal (cp_proposer_id p) (cp_epoch p) (cp_round p) (cp_measurement_root p) ∅
           (root_or_zero (cp_transaction_root p)) (root_or_zero (cp_state_root p)) (cp_timestamp p) [] /\
     (proposal_hash q = proposal_hash p <-> cp_transaction_root p <> [] /\ cp_state_root p <> [])).
Proof.
  split; [by apply commitment_wire|]. split; [by apply vote_wire|].
  destruct (proposal_wire p Hp Htr Hsr) as (data & E & D). exists data, (on_the_wire p).
  split; [done|]. split; [done|]. split; [done|].
  apply wire_hash; [done|apply Hp|]. destruct (pf_round p Hp). lia.
Qed.

(** A proposal with empty roots changes its hash in transit.  [create_proposal] as the
    node calls it leaves both roots empty; the serializer writes zeros for them, so what the
    other nodes decode hashes to something else (unless SHA3-256 collides on the two strings)
    and their votes name a proposal the proposer does not have. *)
Theorem empty_roots_change_hash (p : ConsensusProposal) (d d' : bytes)
    (Hp : proposal_fits p) (Htr : cp_transaction_root p = []) (Hsr : cp_state_root p = [])
    (Hd : py_concat [PBytes (cp_proposer_id p); PInt (cp_epoch p); PInt (cp_round p);
                     PBytes (cp_measurement_root p); PBytes []; PBytes []] = Ok d)
    (Hd' : py_concat [PBytes (cp_proposer_id p); PInt (cp_epoch p); PInt (cp_round p);
                      PBytes (cp_measurement_root p); PBytes zero32; PBytes zero32] = Ok d')
    (Hcf : collision_free sha3_256 [d; d']) :
  exists data q h h', serialize_proposal p = Ok data /\ deserialize_proposal data = Some q /\
    proposal_hash p = Ok h /\ proposal_hash q = Ok h' /\ h <> h'.
Proof.
  destruct (proposal_wire p Hp) as (data & E & D); [by rewrite Htr|by rewrite Hsr|].
  exists data, (on_the_wire p), (sha3_256 d), (sha3_256 d'). split; [done|]. split; [done|].
  unfold proposal_hash, on_the_wire. cbn [cp_proposer_id cp_epoch cp_round cp_measurement_root
    cp_transaction_root cp_state_root]. rewrite Htr, Hsr. cbn [root_or_zero]. rewrite Hd, Hd'.
  split; [done|]. split; [done|]. intros Hh. assert (d = d') as <- by (apply Hcf; set_solver).
  rewrite !py_concat_cons, py_concat_nil in Hd, Hd'. destruct Hp as [_ He Hr _ _].
  rewrite !concat_arg_int in Hd, Hd' by lia. cbn [concat_arg mbind res_bind] in Hd, Hd'.
  apply Ok_inj in Hd as <-. apply Ok_inj in Hd'. apply (f_equal length) in Hd'.
  rewrite !length_app in Hd'. simpl in Hd'. lia.
Qed.

(** No reveal arrives.  Whatever bytes a node receives, the reveal decoder returns
    nothing: every measurement is skipped and the constructor is called with an argument it
    does not have, so the measurements of other validators never reach the consensus. *)
Theorem reveal_never_decoded (data : bytes) : deserialize_reveal data = None.
Proof.
  unfold deserialize_reveal, parse_reveal. case_match; [done|].
  destruct (unpack_uint 8 _); [|done]. rewrite bind_Ok. destruct (unpack_uint 4 _); [|done].
  rewrite bind_Ok. destruct (skip_measurements _ _ _); [|done]. rewrite bind_Ok.
  by destruct (unpack_uint 4 _).
Qed.

End Codec.

(** ** Sample data *)

Definition wire_commitment : MeasurementCommitment :=
  mkCommitment (replicate 32 Byte.x01) 7 [replicate 32 Byte.x02; replicate 32 Byte.x03]
    (replicate 32 Byte.x04) 1700000000000 [].

Definition wire_vote : ConsensusVote :=
  mkConsensusVote (replicate 32 Byte.x01) 7 0 (replicate 32 Byte.x05) "pre-vote" 1000 1700000000000 [].

Definition wire_proposal (root : bytes) : ConsensusProposal :=
  mkConsensusProposal (replicate 32 Byte.x01) 7 0 (replicate 32 Byte.x06) ∅ root root
    (PInt 1700000000000) [].

Lemma wire_proposal_fits root : proposal_fits (wire_proposal root).
Proof. split; simpl; try done; try lia. eexists. split; [done|lia]. Qed.

(** The second root is empty. *)
Definition wire_half_rooted : ConsensusProposal :=
  mkConsensusProposal (replicate 32 Byte.x01) 7 0 (replicate 32 Byte.x06)
    {[replicate 32 Byte.x09 := mkDetectionResult (replicate 32 Byte.x09) true (lit 1 1) [] (lit 1 1) 0 (lit 0 1) (lit 0 1)]}
    (replicate 32 Byte.x08) [] (PInt 1700000000000) [Byte.x01].

Lemma wire_roundtrip_witness :
  (exists data, serialize_commitment wire_commitment = Ok data /\
     deserialize_commitment data = Some wire_commitment) /\
  (exists data, serialize_vote wire_vote = Ok data /\ deserialize_vote data "pre-vote" = Some wire_vote) /\
  (exists data q, serialize_proposal wire_half_rooted = Ok data /\
     deserialize_proposal data = Some q /\
     q = mkConsensusProposal (replicate 32 Byte.x01) 7 0 (replicate 32 Byte.x06) ∅
           (replicate 32 Byte.x08) zero32 (PInt 1700000000000) [] /\
     (proposal_hash (H := toy_hashlib) q = proposal_hash (H := toy_hashlib) wire_half_rooted <->
       replicate 32 Byte.x08 <> [] /\ [] <> ([] : bytes))).
Proof.
  apply (@wire_roundtrip toy_hashlib wire_commitment wire_vote wire_half_rooted).
  - split; simpl; try done; try lia. by repeat constructor.
  - split; simpl; try done; lia.
  - split; simpl; try done; try lia. eexists. split; [done|lia].
  - reflexivity.
  - reflexivity.
  - apply collision_free_b_sound. vm_compute. reflexivity.
Defined.

Lemma empty_roots_change_hash_witness :
  exists data q h h', serialize_proposal (wire_proposal []) = Ok data /\
    deserialize_proposal data = Some q /\
    proposal_hash (H := toy_hashlib) (wire_proposal []) = Ok h /\
    proposal_hash (H := toy_hashlib) q = Ok h' /\ h <> h'.
Proof.
  eapply (@empty_roots_change_hash toy_hashlib (wire_proposal [])).
  - apply wire_proposal_fits.
  - reflexivity.
  - reflexivity.
  - vm_compute. reflexivity.
  - vm_compute. reflexivity.
  - apply collision_free_b_sound. vm_compute. reflexivity.
Defined.
