(* ===== verification/Validator.v ===== *)
(** * The validator node ([src/src/validator.py])

    [ValidatorNode] composes the epoch manager, the temporal key, the measurement protocol,
    the detection engine and the BFT consensus, and queues its messages in an outbox.  The
    clock readings, nonces and normal deviates a call makes are arguments; logging is left
    out.  Main results: a validator alone in the network finalizes a block in every epoch it
    runs ([single_node_finalizes]); the pre-commit that completes a quorum makes its receiver
    record the block and finalize the epoch ([quorum_vote_finalizes]). *)

From stdpp Require Import prelude list gmap strings.
From Stdlib Require Import Strings.Byte ZArith Lia SpecFloat.
From S2P Require Import Prelude.
From S2P Require Import Dict.
From S2P Require Import PyFloat.
From S2P Require Import Crypto.
From S2P Require Import TemporalAuth.
From S2P Require Import Consensus.
From S2P Require Import Measurement.
From S2P Require Import Epoch.
From S2P Require Import Detection.

Set Default Goal Selector "!".

(** ** Data *)

Inductive ValidatorState :=
  | INITIALIZING | SYNCING | ACTIVE | MEASURING | VOTING | SLASHED | OFFLINE.

Definition at_degrees (lat lon : Z) : location := (lit lat 10000, lit lon 10000).

(** [ZONE_LOCATIONS] of [measurement.py]. *)
Definition zone_locations (zone_id : Z) : option (list (string * location)) :=
  match zone_id with
  | 0 => Some
    [("New York", at_degrees 407128 (-740060)); ("Los Angeles", at_degrees 340522 (-1182437));
     ("Chicago", at_degrees 418781 (-876298)); ("Dallas", at_degrees 327767 (-967970));
     ("Seattle", at_degrees 476062 (-1223321))]
  | 1 => Some
    [("London", at_degrees 515074 (-1278)); ("Frankfurt", at_degrees 501109 86821);
     ("Paris", at_degrees 488566 23522); ("Amsterdam", at_degrees 523676 49041);
     ("Stockholm", at_degrees 593293 180686)]
  | 2 => Some
    [("Tokyo", at_degrees 356762 1396503); ("Singapore", at_degrees 13521 1038198);
     ("Sydney", at_degrees (-338688) 1512093); ("Hong Kong", at_degrees 223193 1141694);
     ("Seoul", at_degrees 375665 1269780)]
  | 3 => Some
    [("São Paulo", at_degrees (-235505) (-466333)); ("Buenos Aires", at_degrees (-346037) (-583816));
     ("Lima", at_degrees (-120464) (-770428)); ("Bogotá", at_degrees 47110 (-740721));
     ("Santiago", at_degrees (-334489) (-706693))]
  | 4 => Some
    [("Cape Town", at_degrees (-339249) 184241); ("Lagos", at_degrees 65244 33792);
     ("Cairo", at_degrees 300444 312357); ("Nairobi", at_degrees (-12921) 368219);
     ("Johannesburg", at_degrees (-262041) 280473)]
  | 5 => Some
    [("Dubai", at_degrees 252048 552708); ("Tel Aviv", at_degrees 320853 347818);
     ("Istanbul", at_degrees 410082 289784); ("Riyadh", at_degrees 247136 466753);
     ("Doha", at_degrees 252854 515310)]
  | _ => None
  end%string%Z.

(** [random.choice] picks the entry at [choice]. *)
Definition get_random_location (zone_id : Z) (choice : nat) : option (string * location) :=
  let locations := default (default [] (zone_locations 0)) (zone_locations zone_id) in
  locations !! (choice mod length locations).

Record ValidatorConfig := mkValidatorConfig {
  vc_zone_id : Z;
  vc_stake : Z;
  vc_location : location;
  vc_city : option string;
  vc_is_adversary : bool;
}.

(** [ValidatorConfig(...)] with its [__post_init__]. *)
Definition validator_config (zone_id stake : Z) (loc : option location) (city : option string)
    (is_adversary : bool) (choice : nat) : option ValidatorConfig :=
  match loc with
  | Some l => Some (mkValidatorConfig zone_id stake l city is_adversary)
  | None => '(c, l) ← get_random_location zone_id choice;
            Some (mkValidatorConfig zone_id stake l (Some c) is_adversary)
  end.

Record ValidatorStats := mkValidatorStats {
  vs_epochs_participated : Z;
  vs_blocks_proposed : Z;
  vs_votes_cast : Z;
  vs_measurements_made : Z;
  vs_detection_flags : Z;
  vs_slashing_proposals : Z;
}.

(** The second component of a queued message and its tag. *)
Inductive Message :=
  | CommitmentMsg (c : MeasurementCommitment)
  | RevealMsg (r : MeasurementReveal)
  | ProposalMsg (p : ConsensusProposal)
  | VoteMsg (v : ConsensusVote).

(** [vn_peers] maps identities to the peer objects, of which only the configuration is
    read. *)
Record ValidatorNode := mkValidator {
  vn_config : ValidatorConfig;
  vn_validator_id : bytes;
  vn_state : ValidatorState;
  vn_stats : ValidatorStats;
  vn_temporal_key : TemporalKey;
  vn_epoch_manager : EpochManager;
  vn_protocol : MeasurementProtocol;
  vn_consensus : BFTConsensus;
  vn_peers : dict bytes ValidatorConfig;
  vn_inbox : list Message;
  vn_outbox : list (bytes * Message);
  vn_current_measurements : list RTTMeasurement;
  vn_current_commitment : option MeasurementCommitment;
}.

Definition set_state (v : ValidatorNode) (st : ValidatorState) : ValidatorNode :=
  mkValidator (vn_config v) (vn_validator_id v) st (vn_stats v) (vn_temporal_key v)
    (vn_epoch_manager v) (vn_protocol v) (vn_consensus v) (vn_peers v) (vn_inbox v) (vn_outbox v)
    (vn_current_measurements v) (vn_current_commitment v).

Definition set_stats (v : ValidatorNode) (s : ValidatorStats) : ValidatorNode :=
  mkValidator (vn_config v) (vn_validator_id v) (vn_state v) s (vn_temporal_key v)
    (vn_epoch_manager v) (vn_protocol v) (vn_consensus v) (vn_peers v) (vn_inbox v) (vn_outbox v)
    (vn_current_measurements v) (vn_current_commitment v).

Definition set_key (v : ValidatorNode) (k : TemporalKey) : ValidatorNode :=
  mkValidator (vn_config v) (vn_validator_id v) (vn_state v) (vn_stats v) k
    (vn_epoch_manager v) (vn_protocol v) (vn_consensus v) (vn_peers v) (vn_inbox v) (vn_outbox v)
    (vn_current_measurements v) (vn_current_commitment v).

Definition set_manager (v : ValidatorNode) (m : EpochManager) : ValidatorNode :=
  mkValidator (vn_config v) (vn_validator_id v) (vn_state v) (vn_stats v) (vn_temporal_key v)
    m (vn_protocol v) (vn_consensus v) (vn_peers v) (vn_inbox v) (vn_outbox v)
    (vn_current_measurements v) (vn_current_commitment v).

Definition set_protocol (v : ValidatorNode) (p : MeasurementProtocol) : ValidatorNode :=
  mkValidator (vn_config v) (vn_validator_id v) (vn_state v) (vn_stats v) (vn_temporal_key v)
    (vn_epoch_manager v) p (vn_consensus v) (vn_peers v) (vn_inbox v) (vn_outbox v)
    (vn_current_measurements v) (vn_current_commitment v).

Definition set_consensus (v : ValidatorNode) (s : BFTConsensus) : ValidatorNode :=
  mkValidator (vn_config v) (vn_validator_id v) (vn_state v) (vn_stats v) (vn_temporal_key v)
    (vn_epoch_manager v) (vn_protocol v) s (vn_peers v) (vn_inbox v) (vn_outbox v)
    (vn_current_measurements v) (vn_current_commitment v).

Definition set_peers (v : ValidatorNode) (peers : dict bytes ValidatorConfig) : ValidatorNode :=
  mkValidator (vn_config v) (vn_validator_id v) (vn_state v) (vn_stats v) (vn_temporal_key v)
    (vn_epoch_manager v) (vn_protocol v) (vn_consensus v) peers (vn_inbox v) (vn_outbox v)
    (vn_current_measurements v) (vn_current_commitment v).

Definition set_queues (v : ValidatorNode) (inbox : list Message) (outbox : list (bytes * Message))
    : ValidatorNode :=
  mkValidator (vn_config v) (vn_validator_id v) (vn_state v) (vn_stats v) (vn_temporal_key v)
    (vn_epoch_manager v) (vn_protocol v) (vn_consensus v) (vn_peers v) inbox outbox
    (vn_current_measurements v) (vn_current_commitment v).

Definition set_current (v : ValidatorNode) (ms : list RTTMeasurement)
    (c : option MeasurementCommitment) : ValidatorNode :=
  mkValidator (vn_config v) (vn_validator_id v) (vn_state v) (vn_stats v) (vn_temporal_key v)
    (vn_epoch_manager v) (vn_protocol v) (vn_consensus v) (vn_peers v) (vn_inbox v) (vn_outbox v)
    ms c.

Definition count_stats (v : ValidatorNode) (epochs proposed votes measured flags : Z) : ValidatorNode :=
  let s := vn_stats v in
  set_stats v (mkValidatorStats (vs_epochs_participated s + epochs) (vs_blocks_proposed s + proposed)
    (vs_votes_cast s + votes) (vs_measurements_made s + measured) (vs_detection_flags s + flags)
    (vs_slashing_proposals s)).

Section Validator.
Context `{Hashlib}.

(** [ValidatorNode(config, genesis_time)]: the identity, key seed and entropy seed are random. *)
Definition validator_new (config : ValidatorConfig) (validator_id key_seed entropy_seed : bytes)
    (genesis_time : option float64) (now : float64) : res ValidatorNode :=
  k ← create key_seed;
  Ok (mkValidator config validator_id INITIALIZING (mkValidatorStats 0 0 0 0 0 0) k
        (epoch_manager_new genesis_time now entropy_seed)
        (protocol_new validator_id (vc_location config) (vc_zone_id config) false)
        (bft_new validator_id (vc_stake config)) [] [] [] [] None).

(** ** Peers *)

Definition vn_add_peer (v : ValidatorNode) (peer_id : bytes) (config : ValidatorConfig) (now : float64)
    : ValidatorNode :=
  let v := set_peers v (dict_set peer_id config (vn_peers v)) in
  let info := mkPeerInfo peer_id (vc_location config) (vc_zone_id config) (vc_stake config) now in
  let v := set_protocol v (mp_add_peer (vn_protocol v) info) in
  set_consensus v (register_validator (vn_consensus v) peer_id (vc_stake config)).

(** The consensus keeps the peer's stake. *)
Definition vn_remove_peer (v : ValidatorNode) (peer_id : bytes) : ValidatorNode :=
  let v := set_peers v (dict_del peer_id (vn_peers v)) in
  set_protocol v (mp_remove_peer (vn_protocol v) peer_id).

(** ** Epoch lifecycle *)

Definition vn_start_epoch (v : ValidatorNode) (epoch : Z) (now : float64) : ValidatorNode * res unit :=
  let v := set_state v ACTIVE in
  match advance_epoch (vn_epoch_manager v) now with
  | (m, Err e) => (set_manager v m, Err e)
  | (m, Ok (_, entropy)) =>
      let v := set_manager v m in
      match evolve (vn_temporal_key v) (ee_combined_entropy entropy) with
      | Err e => (v, Err e)
      | Ok k =>
          let v := set_key v k in
          let v := set_protocol v (mp_start_epoch (vn_protocol v) epoch) in
          let v := set_consensus v (start_round (vn_consensus v) epoch 0) in
          (count_stats (set_current v [] None) 1 0 0 0 0, Ok tt)
      end
  end.

Definition run_measurement_phase `{PyRandom, Libm} (v : ValidatorNode)
    (gauss : nat -> float64 -> float64 -> float64) (nonces : nat -> bytes) (now : float64)
    : ValidatorNode * res (list RTTMeasurement) :=
  let v := set_state v MEASURING in
  match select_targets (vn_protocol v) MIN_PEERS with
  | (p, Err e) => (set_protocol v p, Err e)
  | (p, Ok _) =>
      match execute_measurements p (vc_is_adversary (vn_config v)) gauss nonces now with
      | (p, Err e) => (set_protocol v p, Err e)
      | (p, Ok ms) =>
          let v := set_current (set_protocol v p) ms (vn_current_commitment v) in
          (count_stats v 0 0 0 (Z.of_nat (length ms)) 0, Ok ms)
      end
  end.

Definition create_measurement_commitment (v : ValidatorNode) (now : float64)
    : ValidatorNode * res MeasurementCommitment :=
  match create_commitment (vn_protocol v) now with
  | (p, Err e) => (set_protocol v p, Err e)
  | (p, Ok c) => (set_current (set_protocol v p) (vn_current_measurements v) (Some c), Ok c)
  end.

(** Append one copy of the message per peer. *)
Definition queue_to_peers (v : ValidatorNode) (m : Message) : ValidatorNode :=
  set_queues v (vn_inbox v) (vn_outbox v ++ map (fun id => (id, m)) (dict_keys (vn_peers v))).

Definition broadcast_commitment (v : ValidatorNode) : ValidatorNode :=
  match vn_current_commitment v with
  | None => v
  | Some c => queue_to_peers v (CommitmentMsg c)
  end.

Definition vn_receive_commitment (v : ValidatorNode) (c : MeasurementCommitment) : ValidatorNode * bool :=
  let '(p, b) := receive_commitment (vn_protocol v) c in (set_protocol v p, b).

Definition vn_create_reveal (v : ValidatorNode) : ValidatorNode * MeasurementReveal :=
  let '(p, r) := create_reveal (vn_protocol v) in (set_protocol v p, r).

Definition broadcast_reveal (v : ValidatorNode) : ValidatorNode :=
  let '(v, r) := vn_create_reveal v in queue_to_peers v (RevealMsg r).

Definition vn_receive_reveal (v : ValidatorNode) (r : MeasurementReveal)
    : ValidatorNode * res (bool * string) :=
  let '(p, out) := receive_reveal (vn_protocol v) r in (set_protocol v p, out).

(** ** Consensus *)

(** [BFTConsensus.create_proposal] with its detection run and measurement hashes. *)
Definition propose (s : BFTConsensus) (measurements : graph) (locations : dict bytes location)
    (now : float64) : BFTConsensus * res ConsensusProposal :=
  match (results ← analyze_all (load_measurements measurements locations);
         hs ← res_map rtt_commitment (concat (map snd measurements)); Ok (results, hs)) with
  | Err e => (s, Err e)
  | Ok (results, hs) => create_proposal s hs (list_to_map results) [] [] now
  end.

Definition broadcast_proposal (v : ValidatorNode) (p : ConsensusProposal) : ValidatorNode :=
  queue_to_peers v (ProposalMsg p).

Definition broadcast_vote (v : ValidatorNode) (vote : ConsensusVote) : ValidatorNode :=
  queue_to_peers v (VoteMsg vote).

(** It always returns [None] to its caller: the block comes out of the votes. *)
Definition run_consensus_phase (v : ValidatorNode) (now : float64) : ValidatorNode * res unit :=
  let v := set_state v VOTING in
  let all_measurements := get_all_measurements (vn_protocol v) in
  let locations := dict_set (vn_validator_id v) (vc_location (vn_config v))
                     (map (fun kv => (kv.1, vc_location kv.2)) (vn_peers v)) in
  match am_i_proposer (vn_consensus v) with
  | Err e => (v, Err e)
  | Ok false => (v, Ok tt)
  | Ok true =>
      match propose (vn_consensus v) all_measurements locations now with
      | (s, Err e) => (set_consensus v s, Err e)
      | (s, Ok p) =>
          (broadcast_proposal (count_stats (set_consensus v s) 0 1 0 0 0) p, Ok tt)
      end
  end.

Definition vn_receive_proposal (v : ValidatorNode) (p : ConsensusProposal) (now : float64)
    : ValidatorNode * res (bool * string) :=
  match receive_proposal (vn_consensus v) p with
  | (s, Err e) => (set_consensus v s, Err e)
  | (s, Ok (false, reason)) => (set_consensus v s, Ok (false, reason))
  | (s, Ok (true, reason)) =>
      match proposal_hash p with
      | Err e => (set_consensus v s, Err e)
      | Ok h =>
          match create_pre_vote s h now with
          | (s, Err e) => (set_consensus v s, Err e)
          | (s, Ok vote) =>
              (count_stats (broadcast_vote (set_consensus v s) vote) 0 0 1 0 0, Ok (true, reason))
          end
      end
  end.

Definition on_block_finalized (v : ValidatorNode) (block : ConsensusBlock) : ValidatorNode :=
  let v := set_state v ACTIVE in
  let v := set_manager v (finalize_epoch (vn_epoch_manager v) (cb_epoch block) (cb_block_hash block)) in
  let flagged := filter (fun kv => dr_is_suspicious kv.2 = true)
                   (map_to_list (cp_detection_results (cb_proposal block))) in
  count_stats v 0 0 0 0 (Z.of_nat (length flagged)).

(** The pre-vote branch; [now] is the clock at the pre-commit. *)
Definition receive_pre_vote_msg (v : ValidatorNode) (vote : ConsensusVote) (now : float64)
    : ValidatorNode * res (bool * string) :=
  let '(s, vote, (valid, reason)) := receive_pre_vote (vn_consensus v) vote in
  let v := set_consensus v s in
  if negb valid then (v, Ok (valid, reason))
  else match check_pre_vote_threshold s (cv_proposal_hash vote) with
  | Err e => (v, Err e)
  | Ok (false, _) => (v, Ok (valid, reason))
  | Ok (true, _) =>
      match create_pre_commit s (cv_proposal_hash vote) now with
      | (s, Err e) => (set_consensus v s, Err e)
      | (s, Ok None) => (set_consensus v s, Ok (valid, reason))
      | (s, Ok (Some commit_vote)) =>
          (count_stats (broadcast_vote (set_consensus v s) commit_vote) 0 0 1 0 0, Ok (valid, reason))
      end
  end.

Definition receive_pre_commit_msg (v : ValidatorNode) (vote : ConsensusVote) (now : float64)
    : ValidatorNode * res (bool * string) :=
  let '(s, vote, (valid, reason)) := receive_pre_commit (vn_consensus v) vote in
  let v := set_consensus v s in
  if negb valid then (v, Ok (valid, reason))
  else match check_pre_commit_threshold s (cv_proposal_hash vote) with
  | Err e => (v, Err e)
  | Ok (false, _) => (v, Ok (valid, reason))
  | Ok (true, _) =>
      match try_finalize s (cv_proposal_hash vote) now with
      | (s, Err e) => (set_consensus v s, Err e)
      | (s, Ok None) => (set_consensus v s, Ok (valid, reason))
      | (s, Ok (Some block)) => (on_block_finalized (set_consensus v s) block, Ok (valid, reason))
      end
  end.

Definition receive_vote (v : ValidatorNode) (vote : ConsensusVote) (now : float64)
    : ValidatorNode * res (bool * string) :=
  if bool_decide (cv_vote_type vote = "pre-vote"%string) then receive_pre_vote_msg v vote now
  else receive_pre_commit_msg v vote now.

(** ** Queues *)

Definition process_message (v : ValidatorNode) (m : Message) (now : float64) : ValidatorNode * res unit :=
  let drop {A} (x : ValidatorNode * res A) : ValidatorNode * res unit :=
    (x.1, match x.2 with Ok _ => Ok tt | Err e => Err e end) in
  match m with
  | CommitmentMsg c => ((vn_receive_commitment v c).1, Ok tt)
  | RevealMsg r => drop (vn_receive_reveal v r)
  | ProposalMsg p => drop (vn_receive_proposal v p now)
  | VoteMsg vote => drop (receive_vote v vote now)
  end.

(** Each message leaves the inbox before it is handled; an exception leaves the later ones
    there. *)
Fixpoint process_messages (v : ValidatorNode) (inbox : list Message) (now : float64)
    : ValidatorNode * res unit :=
  match inbox with
  | [] => (set_queues v [] (vn_outbox v), Ok tt)
  | m :: inbox =>
      let v := set_queues v inbox (vn_outbox v) in
      match process_message v m now with
      | (v, Err e) => (v, Err e)
      | (v, Ok _) => process_messages v inbox now
      end
  end.

Definition process_inbox (v : ValidatorNode) (now : float64) : ValidatorNode * res unit :=
  process_messages v (vn_inbox v) now.

Definition deliver_outbox (v : ValidatorNode) : ValidatorNode * list (bytes * Message) :=
  (set_queues v (vn_inbox v) [], vn_outbox v).

(** ** Single-node epoch *)

(** The consensus part, for a validator without peers; [clock k] is the [k]-th reading of the
    clock in the whole call. *)
Definition finalize_alone (v : ValidatorNode) (clock : nat -> float64)
    : ValidatorNode * res (option ConsensusBlock) :=
  let id := vn_validator_id v in
  match propose (vn_consensus v) [(id, vn_current_measurements v)] [(id, vc_location (vn_config v))]
          (clock 4) with
  | (s, Err e) => (set_consensus v s, Err e)
  | (s, Ok p) =>
      match proposal_hash p with
      | Err e => (set_consensus v s, Err e)
      | Ok h =>
          match create_pre_vote s h (clock 5) with
          | (s, Err e) => (set_consensus v s, Err e)
          | (s, Ok vote) =>
              let s := (receive_pre_vote s vote).1.1 in
              match create_pre_commit s h (clock 6) with
              | (s, Err e) => (set_consensus v s, Err e)
              | (s, Ok commit) =>
                  let s := match commit with
                           | Some c => (receive_pre_commit s c).1.1
                           | None => s
                           end in
                  match try_finalize s h (clock 7) with
                  | (s, Err e) => (set_consensus v s, Err e)
                  | (s, Ok None) => (set_consensus v s, Ok None)
                  | (s, Ok (Some block)) => (on_block_finalized (set_consensus v s) block, Ok (Some block))
                  end
              end
          end
      end
  end.

Definition simulate_full_epoch `{PyRandom, Libm} (v : ValidatorNode)
    (gauss : nat -> float64 -> float64 -> float64) (nonces : nat -> bytes) (clock : nat -> float64)
    : ValidatorNode * res (option ConsensusBlock) :=
  match get_current_epoch (vn_epoch_manager v) (clock 0) with
  | Err e => (v, Err e)
  | Ok epoch =>
      match vn_start_epoch v epoch (clock 1) with
      | (v, Err e) => (v, Err e)
      | (v, Ok _) =>
          match run_measurement_phase v gauss nonces (clock 2) with
          | (v, Err e) => (v, Err e)
          | (v, Ok _) =>
              match create_measurement_commitment v (clock 3) with
              | (v, Err e) => (v, Err e)
              | (v, Ok _) =>
                  match vn_peers v with
                  | [] => finalize_alone v clock
                  | _ => (v, Ok None)
                  end
              end
          end
      end
  end.

End Validator.

(** ** A validator alone *)

Section Alone.
Context `{Hashlib}.

(** A clock reading that the node can pack into a message. *)
Definition reading_ok (now : float64) : Prop := exists ms, to_ms now = Ok ms /\ (0 <= ms < 2 ^ 64)%Z.

Lemma lookup_default_singleton {V} (d v : V) (k : bytes) :
  lookup_default d {[k := v]} k = v.
Proof. unfold lookup_default. by rewrite lookup_singleton_eq. Qed.

(** The consensus of a validator that knows only itself. *)
Record solo (s : BFTConsensus) (id : bytes) (stake : Z) : Prop := {
  so_id : bft_validator_id s = id;
  so_validators : validators s = {[id := stake]};
  so_total : total_stake s = stake;
}.

Lemma solo_stakes_ok s id stake : solo s id stake -> (0 <= stake)%Z -> stakes_ok s.
Proof.
  intros [_ Hv Ht] Hs. split; rewrite ?Ht, Hv.
  - unfold stake_sum. rewrite <- insert_empty, map_sum_insert, map_sum_empty by apply lookup_empty.
    simpl. lia.
  - by apply map_Forall_singleton.
Qed.

(** Votes of its own, and at least one, are a quorum. *)
Lemma solo_threshold s id stake votes :
  solo s id stake -> (0 < stake < 2 ^ 49)%Z -> votes <> [] ->
  Forall (fun v => cv_voter_id v = id) votes ->
  exists ratio, check_threshold s votes = Ok (true, ratio) /\
    stake_sum (voter_stakes s votes) = stake.
Proof.
  intros Hs Hst Hne Hall. pose proof (solo_stakes_ok s id stake Hs ltac:(lia)) as Hok.
  destruct Hs as [_ Hv Ht].
  assert (Hsum : set_sum (stake_of s) (voters votes) = stake).
  { assert (Hvs : voters votes = {[id]}).
    { unfold voters. destruct Hall as [|v l Hv0 Hall]; [done|]. simpl. rewrite Hv0.
      apply set_eq. intros x. split; [|set_solver]. rewrite elem_of_union, elem_of_list_to_set.
      intros [Hx|Hx]; [done|]. apply list_elem_of_fmap in Hx as (w & -> & Hw).
      rewrite Forall_forall in Hall. rewrite (Hall w Hw). set_solver. }
    rewrite Hvs. unfold set_sum. rewrite elements_singleton. simpl.
    unfold stake_of, lookup_default. rewrite Hv, lookup_singleton_eq. simpl. lia. }
  rewrite supporting_spec, Hsum. destruct (check_threshold_exact s votes Hok) as (r & ->); [lia|].
  rewrite Hsum, Ht. exists r. rewrite (proj2 (Z.ltb_lt _ _)), (proj2 (Z.leb_le _ _)) by lia. done.
Qed.

Lemma proposal_hash_ok p :
  (0 <= cp_epoch p < 2 ^ 64)%Z -> (0 <= cp_round p < 2 ^ 64)%Z -> exists h, proposal_hash p = Ok h.
Proof.
  intros He Hr. unfold proposal_hash. rewrite !py_concat_cons, py_concat_nil, !concat_arg_int by done.
  cbn [concat_arg mbind res_bind]. by eexists.
Qed.

Lemma new_block_ok epoch round p h votes total supporting now :
  proposal_hash p = Ok h -> reading_ok now -> (0 <= total < 2 ^ 64)%Z -> (0 <= supporting < 2 ^ 64)%Z ->
  exists b, new_block epoch round p votes total supporting now = Ok b /\ cb_epoch b = epoch /\
    cb_proposal b = p /\ cb_total_stake b = total /\ cb_supporting_stake b = supporting.
Proof.
  intros Hh (ms & Hms & Hr) Ht Hs. unfold new_block. rewrite Hh, bind_Ok, Hms, bind_Ok.
  rewrite !py_concat_cons, py_concat_nil, !concat_arg_int by done. cbn [concat_arg mbind res_bind].
  eexists. split; [reflexivity|done].
Qed.

(** The state right after [start_round]. *)
Record fresh_round (s : BFTConsensus) : Prop := {
  fr_pre_votes : pre_votes s = ∅;
  fr_pre_commits : pre_commits s = ∅;
  fr_pv_choices : pre_vote_choices s = ∅;
  fr_pc_choices : pre_commit_choices s = ∅;
}.

(** A validator that receives its own vote records it a second time. *)
Lemma solo_receive_pre_vote s id stake vote h :
  solo s id stake -> pre_vote_choices s = ∅ -> pre_votes s = {[h := [vote]]} ->
  cv_epoch vote = current_epoch s -> cv_vote_type vote = "pre-vote"%string ->
  cv_voter_id vote = id -> cv_proposal_hash vote = h ->
  let s' := (receive_pre_vote s vote).1.1 in
  pre_votes s' = {[h := [vote; with_stake vote stake]]} /\ solo s' id stake /\
  pre_commits s' = pre_commits s /\ pre_commit_choices s' = pre_commit_choices s /\
  received_proposals s' = received_proposals s /\ current_epoch s' = current_epoch s /\
  current_round s' = current_round s /\ finalized_blocks s' = finalized_blocks s.
Proof.
  intros [Hid Hv Ht] Hch Hpv He Hty Hvid Hh. unfold receive_pre_vote.
  rewrite He, Z.eqb_refl, bool_decide_eq_true_2 by done. cbn [negb].
  rewrite Hvid, Hv, lookup_singleton_eq, Hch, lookup_empty. cbn [fst].
  split; [|by repeat split]. cbn [set_pre_votes pre_votes with_stake cv_proposal_hash].
  unfold append_vote. rewrite Hh, Hpv, lookup_default_singleton. apply insert_singleton_eq.
Qed.

Lemma solo_receive_pre_commit s id stake c h :
  solo s id stake -> pre_commit_choices s = ∅ -> pre_commits s = {[h := [c]]} ->
  cv_epoch c = current_epoch s -> cv_vote_type c = "pre-commit"%string ->
  cv_voter_id c = id -> cv_proposal_hash c = h ->
  let s' := (receive_pre_commit s c).1.1 in
  pre_commits s' = {[h := [c; with_stake c stake]]} /\ solo s' id stake /\
  pre_votes s' = pre_votes s /\ received_proposals s' = received_proposals s /\
  current_epoch s' = current_epoch s /\ current_round s' = current_round s /\
  finalized_blocks s' = finalized_blocks s.
Proof.
  intros [Hid Hv Ht] Hch Hpv He Hty Hvid Hh. unfold receive_pre_commit.
  rewrite He, Z.eqb_refl, bool_decide_eq_true_2 by done. cbn [negb].
  rewrite Hvid, Hv, lookup_singleton_eq, Hch, lookup_empty. cbn [fst].
  split; [|by repeat split]. cbn [set_pre_commits pre_commits with_stake cv_proposal_hash].
  unfold append_vote. rewrite Hh, Hpv, lookup_default_singleton. apply insert_singleton_eq.
Qed.

(** From the own pre-vote to the block. *)
Lemma solo_commit s id stake p h votes t3 t4 :
  solo s id stake -> (0 < stake < 2 ^ 49)%Z -> reading_ok t3 -> reading_ok t4 ->
  pre_votes s = {[h := votes]} -> votes <> [] -> Forall (fun v => cv_voter_id v = id) votes ->
  pre_commits s = ∅ -> pre_commit_choices s = ∅ ->
  received_proposals s !! h = Some p -> proposal_hash p = Ok h ->
  exists s4 c s6 b,
    create_pre_commit s h t3 = (s4, Ok (Some c)) /\
    try_finalize (receive_pre_commit s4 c).1.1 h t4 = (s6, Ok (Some b)) /\
    solo s6 id stake /\ finalized_blocks s6 = <[current_epoch s := b]> (finalized_blocks s) /\
    cb_epoch b = current_epoch s /\ cb_total_stake b = stake /\ cb_supporting_stake b = stake.
Proof.
  intros Hs Hst (m3 & E3 & _) R4 Hpv Hne Hall Hpc Hpcc Hrec Hh.
  unfold create_pre_commit, check_pre_vote_threshold. rewrite Hpv, lookup_default_singleton.
  destruct (solo_threshold s id stake votes Hs Hst Hne Hall) as (r3 & -> & _). cbn [negb]. rewrite E3.
  set (c := mkConsensusVote _ _ _ _ _ _ _ _). set (s4 := Consensus.set_phase _ _). exists s4, c.
  pose proof Hs as [Hid Hv Ht].
  destruct (solo_receive_pre_commit s4 id stake c h) as (P5 & S5 & _ & R5 & Ep5 & Ro5 & Fb5);
    [by split|exact Hpcc| |done|done|exact Hid|done|].
  { unfold s4, append_vote. cbn [Consensus.set_phase set_pre_commits pre_commits]. rewrite Hpc.
    unfold lookup_default. by rewrite lookup_empty. }
  set (s5 := (receive_pre_commit s4 c).1.1) in *. clearbody s5. pose proof S5 as [Hid5 Hv5 Ht5].
  unfold try_finalize, check_pre_commit_threshold. rewrite P5, !lookup_default_singleton.
  destruct (solo_threshold s5 id stake [c; with_stake c stake] S5 Hst) as (r5 & -> & Sup5);
    [done|by repeat constructor|]. cbn [negb]. rewrite R5. change (received_proposals s4) with (received_proposals s).
  rewrite Hrec, Sup5.
  destruct (new_block_ok (current_epoch s5) (current_round s5) p h
    (lookup_default [] (pre_votes s5) h ++ [c; with_stake c stake]) (total_stake s5) stake t4 Hh R4)
    as (b & Eb & B1 & _ & B3 & B4); [lia|lia|]. rewrite Eb.
  eexists _, b. split; [reflexivity|]. split; [reflexivity|]. split; [by split|].
  cbn [Consensus.set_phase set_finalized finalized_blocks].
  split; [by rewrite Ep5, Fb5|]. split; [by rewrite B1, Ep5|]. split; [congruence|done].
Qed.

(** The round of a solo validator, call by call. *)
Lemma solo_round s id stake results t1 t2 t3 t4 :
  solo s id stake -> fresh_round s -> (0 < stake < 2 ^ 49)%Z ->
  (0 <= current_epoch s < 2 ^ 64)%Z -> (0 <= current_round s < 2 ^ 64)%Z ->
  reading_ok t1 -> reading_ok t2 -> reading_ok t3 -> reading_ok t4 ->
  exists s1 p h s2 vote s4 c s6 b,
    create_proposal s [] results [] [] t1 = (s1, Ok p) /\ proposal_hash p = Ok h /\
    create_pre_vote s1 h t2 = (s2, Ok vote) /\
    create_pre_commit (receive_pre_vote s2 vote).1.1 h t3 = (s4, Ok (Some c)) /\
    try_finalize (receive_pre_commit s4 c).1.1 h t4 = (s6, Ok (Some b)) /\
    solo s6 id stake /\ finalized_blocks s6 = <[current_epoch s := b]> (finalized_blocks s) /\
    cb_epoch b = current_epoch s /\ cb_total_stake b = stake /\ cb_supporting_stake b = stake.
Proof.
  intros Hs [F1 F2 F3 F4] Hst He Hr (m1 & E1 & _) (m2 & E2 & _) R3 R4. pose proof Hs as [Hid Hv Ht].
  unfold create_proposal. rewrite E1. set (p := mkConsensusProposal _ _ _ _ _ _ _ _ _).
  destruct (proposal_hash_ok p He Hr) as [h Hh]. rewrite Hh.
  set (s1 := Consensus.set_phase _ _). exists s1, p, h.
  unfold create_pre_vote. rewrite E2. set (vote := mkConsensusVote _ _ _ _ _ _ _ _).
  set (s2 := set_pre_votes _ _ _). exists s2, vote.
  destruct (solo_receive_pre_vote s2 id stake vote h) as (P3 & S3 & C3 & CC3 & Rec3 & Ep3 & Ro3 & Fb3);
    [by split|exact F3| |done|done|exact Hid|done|].
  { unfold s2, append_vote. cbn [set_pre_votes pre_votes]. change (pre_votes s1) with (pre_votes s).
    rewrite F1. unfold lookup_default. by rewrite lookup_empty. }
  set (s3 := (receive_pre_vote s2 vote).1.1) in *. clearbody s3.
  destruct (solo_commit s3 id stake p h [vote; with_stake vote stake] t3 t4)
    as (s4 & c & s6 & b & Ec & Ef & S6 & Fb6 & B1 & B2 & B3); try done.
  { by repeat constructor. }
  { rewrite C3. exact F2. }
  { rewrite CC3. exact F4. }
  { rewrite Rec3. unfold s2, s1. cbn [set_pre_votes Consensus.set_phase set_proposals received_proposals].
    apply lookup_insert_eq. }
  exists s4, c, s6, b. rewrite Ep3 in Fb6, B1. rewrite Fb3 in Fb6. done.
Qed.

End Alone.

Section SingleNode.
Context `{Hashlib, PyRandom, Libm}.

(** What a validator without peers keeps from epoch to epoch. *)
Record alone (v : ValidatorNode) (id : bytes) (stake : Z) : Prop := {
  al_peers : vn_peers v = [];
  al_id : vn_validator_id v = id;
  al_protocol_peers : mp_peers (vn_protocol v) = [];
  al_consensus : solo (vn_consensus v) id stake;
}.

Lemma evolve_ok k e : exists k', evolve k e = Ok k'.
Proof. unfold evolve. rewrite py_concat_2. by eexists. Qed.

Lemma start_epoch_alone v id stake epoch now :
  alone v id stake -> is_Ok (to_ms now) -> (0 <= em_current_epoch (vn_epoch_manager v) + 1 < 2 ^ 64)%Z ->
  exists v', vn_start_epoch v epoch now = (v', Ok tt) /\ alone v' id stake /\
    fresh_round (vn_consensus v') /\ current_epoch (vn_consensus v') = epoch /\
    current_round (vn_consensus v') = 0%Z /\ mp_current_epoch (vn_protocol v') = epoch /\
    em_current_epoch (vn_epoch_manager v') = (em_current_epoch (vn_epoch_manager v) + 1)%Z /\
    em_genesis_time (vn_epoch_manager v') = em_genesis_time (vn_epoch_manager v).
Proof.
  intros [Hp Hi Hm [S1 S2 S3]] Hnow Hn. unfold vn_start_epoch.
  change (vn_epoch_manager (set_state v ACTIVE)) with (vn_epoch_manager v).
  destruct (advance_epoch_ok (vn_epoch_manager v) now Hnow Hn) as (m & e & -> & Hc & Hg).
  destruct (evolve_ok (vn_temporal_key (set_manager (set_state v ACTIVE) m)) (ee_combined_entropy e)) as (k & ->).
  eexists. split; [reflexivity|]. split; [by repeat split|]. by repeat split.
Qed.

(** Without peers the measurement phase selects nobody and measures nothing. *)
Lemma measurement_alone v id stake gauss nonces now :
  alone v id stake -> is_Ok (to_ms now) -> (0 <= mp_current_epoch (vn_protocol v) < 2 ^ 64)%Z ->
  exists v', run_measurement_phase v gauss nonces now = (v', Ok []) /\ alone v' id stake /\
    vn_consensus v' = vn_consensus v /\ vn_epoch_manager v' = vn_epoch_manager v /\
    vn_current_measurements v' = [] /\ mp_measurements (vn_protocol v') = [].
Proof.
  intros [Hp Hi Hm Hs] [ms Hnow] He. unfold run_measurement_phase, select_targets.
  change (vn_protocol (set_state v MEASURING)) with (vn_protocol v). rewrite Hm.
  rewrite !py_concat_cons, py_concat_nil, concat_arg_int by done. cbn [concat_arg mbind res_bind].
  unfold execute_measurements. rewrite Hnow. cbn [dict_keys map length Nat.ltb Nat.leb MIN_PEERS take].
  cbn [set_own mp_selected_targets]. cbn [measure_loop].
  eexists. split; [reflexivity|]. split; [by split|]. done.
Qed.

Lemma commitment_alone v id stake now :
  alone v id stake -> is_Ok (to_ms now) -> mp_measurements (vn_protocol v) = [] ->
  exists v' c, create_measurement_commitment v now = (v', Ok c) /\ alone v' id stake /\
    vn_consensus v' = vn_consensus v /\ vn_epoch_manager v' = vn_epoch_manager v /\
    vn_current_measurements v' = vn_current_measurements v.
Proof.
  intros [Hp Hi Hm Hs] [ms Hnow] Hms. unfold create_measurement_commitment, create_commitment.
  rewrite Hms, Hnow. cbn [combined_hash res_map mbind res_bind].
  eexists _, _. split; [reflexivity|]. split; [by split|]. done.
Qed.

(** Nothing is suspicious about a validator that measured nothing. *)
Lemma propose_alone s id loc now :
  exists results, propose s [(id, [])] [(id, loc)] now = create_proposal s [] results [] [] now.
Proof.
  unfold propose, analyze_all, load_measurements. cbn [de_measurement_graph dict_keys map fst de_results].
  cbn [analyze_loop]. unfold analyze_validator, measurements_of. cbn [de_measurement_graph dict_get].
  rewrite decide_True by done. cbn [default]. eexists. reflexivity.
Qed.

Lemma finalize_epoch_clock m e r :
  em_current_epoch (finalize_epoch m e r) = em_current_epoch m /\
  em_genesis_time (finalize_epoch m e r) = em_genesis_time m.
Proof. unfold finalize_epoch. by case_match. Qed.

(** One epoch of a validator without peers. *)
Lemma simulate_alone v id stake gauss nonces clock epoch :
  alone v id stake -> (0 < stake < 2 ^ 49)%Z -> (forall k, reading_ok (clock k)) ->
  get_current_epoch (vn_epoch_manager v) (clock 0) = Ok epoch -> (0 <= epoch < 2 ^ 64)%Z ->
  (0 <= em_current_epoch (vn_epoch_manager v) + 1 < 2 ^ 64)%Z ->
  exists v' b, simulate_full_epoch v gauss nonces clock = (v', Ok (Some b)) /\ alone v' id stake /\
    vn_state v' = ACTIVE /\ finalized_blocks (vn_consensus v') !! epoch = Some b /\
    cb_epoch b = epoch /\ cb_total_stake b = stake /\ cb_supporting_stake b = stake /\
    em_current_epoch (vn_epoch_manager v') = (em_current_epoch (vn_epoch_manager v) + 1)%Z /\
    em_genesis_time (vn_epoch_manager v') = em_genesis_time (vn_epoch_manager v).
Proof.
  intros Hv Hst Hclock Hepoch He Hn.
  assert (Hok : forall k, is_Ok (to_ms (clock k))).
  { intros k. destruct (Hclock k) as (ms & E & _). by exists ms. }
  unfold simulate_full_epoch. rewrite Hepoch.
  destruct (start_epoch_alone v id stake epoch (clock 1) Hv (Hok 1) Hn)
    as (v1 & -> & A1 & F1 & E1 & R1 & M1 & C1 & G1).
  destruct (measurement_alone v1 id stake gauss nonces (clock 2) A1 (Hok 2)) as (v2 & -> & A2 & S2 & T2 & K2 & L2);
    [by rewrite M1|].
  destruct (commitment_alone v2 id stake (clock 3) A2 (Hok 3) L2) as (v3 & c & -> & A3 & S3 & T3 & K3).
  rewrite (al_peers _ _ _ A3). unfold finalize_alone. rewrite K3, K2, (al_id _ _ _ A3), S3, S2.
  destruct (propose_alone (vn_consensus v1) id (vc_location (vn_config v3)) (clock 4)) as (results & ->).
  destruct (solo_round (vn_consensus v1) id stake results (clock 4) (clock 5) (clock 6) (clock 7))
    as (s1 & p & h & s2 & vote & s4 & c' & s6 & b & P1 & P2 & P3 & P4 & P5 & S6 & Fb & B1 & B2 & B3);
    [apply A1|done|done|lia|lia|apply Hclock..|].
  rewrite P1, P2, P3, P4, P5. eexists _, b. split; [reflexivity|].
  destruct (finalize_epoch_clock (vn_epoch_manager v3) (cb_epoch b) (cb_block_hash b)) as [Q1 Q2].
  destruct A3 as [A3p A3i A3m _].
  split; [by split|]. split; [done|].
  split; [cbn; by rewrite Fb, E1, lookup_insert_eq|].
  split; [by rewrite B1|]. split; [done|]. split; [done|].
  cbn. rewrite Q1, Q2, T3, T2. done.
Qed.

Lemma new_alone config id key_seed entropy_seed genesis now v :
  validator_new config id key_seed entropy_seed genesis now = Ok v ->
  alone v id (vc_stake config) /\ em_current_epoch (vn_epoch_manager v) = 0%Z.
Proof.
  unfold validator_new. intros Hnew. inv_res. split; [|done]. split; [done|done|done|].
  split; [done|..]; cbn [vn_consensus bft_new register_validator set_validators validators total_stake].
  - by rewrite insert_empty.
  - unfold stake_sum. rewrite map_sum_insert, map_sum_empty by apply lookup_empty. simpl. lia.
Qed.

(** Successive epochs, each with its own clock readings. *)
Fixpoint run_alone (v : ValidatorNode) (gauss : nat -> float64 -> float64 -> float64)
    (nonces : nat -> bytes) (clocks : list (nat -> float64)) : list (res (option ConsensusBlock)) :=
  match clocks with
  | [] => []
  | clock :: clocks =>
      let '(v, r) := simulate_full_epoch v gauss nonces clock in
      r :: run_alone v gauss nonces clocks
  end.

(** The clock of an epoch gives packable readings, the first of them in a packable epoch. *)
Definition epoch_clock_ok (m : EpochManager) (clock : nat -> float64) : Prop :=
  (forall k, reading_ok (clock k)) /\
  exists e, get_current_epoch m (clock 0) = Ok e /\ (0 <= e < 2 ^ 64)%Z.

(** A validator alone makes progress.  A freshly created validator with a positive stake
    below [2^49] and no peers finalizes a block in every epoch it runs, for any number of
    epochs and any clock readings that fit the encodings; each block is backed by the whole
    stake. *)
Theorem single_node_finalizes (config : ValidatorConfig) (id key_seed entropy_seed : bytes)
    (genesis : option float64) (now : float64) (v : ValidatorNode)
    (gauss : nat -> float64 -> float64 -> float64) (nonces : nat -> bytes)
    (clocks : list (nat -> float64))
    (Hnew : validator_new config id key_seed entropy_seed genesis now = Ok v)
    (Hstake : (0 < vc_stake config < 2 ^ 49)%Z)
    (Hclocks : Forall (epoch_clock_ok (vn_epoch_manager v)) clocks)
    (Hlen : (Z.of_nat (length clocks) < 2 ^ 64)%Z) :
  length (run_alone v gauss nonces clocks) = length clocks /\
  Forall (fun r => exists b, r = Ok (Some b) /\ cb_total_stake b = vc_stake config /\
                     cb_supporting_stake b = vc_stake config)
    (run_alone v gauss nonces clocks).
Proof.
  destruct (new_alone _ _ _ _ _ _ _ Hnew) as [Ha Hc]. clear Hnew.
  assert (Hb : (em_current_epoch (vn_epoch_manager v) + Z.of_nat (length clocks) < 2 ^ 64)%Z) by lia.
  assert (Hpos : (0 <= em_current_epoch (vn_epoch_manager v))%Z) by lia. clear Hc Hlen.
  revert v Ha Hclocks Hb Hpos. induction clocks as [|clock clocks IH]; intros v Ha Hcl Hb Hpos; [done|].
  apply Forall_cons in Hcl as [[Hr (e & He & Her)] Hcl]. cbn [length] in Hb.
  destruct (simulate_alone v id (vc_stake config) gauss nonces clock e Ha Hstake Hr He Her)
    as (v' & b & Es & A' & _ & _ & _ & B2 & B3 & C' & G'); [lia|].
  cbn [run_alone]. rewrite Es. cbn [length].
  destruct (IH v' A') as [IH1 IH2]; [|lia|lia|].
  { eapply Forall_impl; [exact Hcl|]. intros cl [Hcr Hce]. split; [done|].
    unfold get_current_epoch in *. by rewrite G'. }
  split; [by rewrite IH1|]. constructor; [|done]. exists b. done.
Qed.

End SingleNode.

(** ** Votes of others *)

Section Votes.
Context `{Hashlib}.

(** The pre-commit is acceptable to the consensus [s]. *)
Record acceptable (s : BFTConsensus) (w : ConsensusVote) : Prop := {
  ac_epoch : cv_epoch w = current_epoch s;
  ac_type : cv_vote_type w = "pre-commit"%string;
  ac_voter : is_Some (validators s !! cv_voter_id w);
  ac_choice : forall h, pre_commit_choices s !! cv_voter_id w = Some h -> h = cv_proposal_hash w;
}.

Lemma receive_acceptable s w :
  acceptable s w ->
  exists s' w', receive_pre_commit s w = (s', w', (true, "valid"%string)) /\
    cv_proposal_hash w' = cv_proposal_hash w /\ cv_voter_id w' = cv_voter_id w /\
    lookup_default [] (pre_commits s') (cv_proposal_hash w) =
      lookup_default [] (pre_commits s) (cv_proposal_hash w) ++ [w'] /\
    validators s' = validators s /\ total_stake s' = total_stake s /\
    received_proposals s' = received_proposals s /\ current_epoch s' = current_epoch s /\
    finalized_blocks s' = finalized_blocks s /\ current_round s' = current_round s /\
    pre_commit_choices s' = <[cv_voter_id w := cv_proposal_hash w]> (pre_commit_choices s).
Proof.
  intros [He Ht [st Hst] Hch]. unfold receive_pre_commit.
  rewrite He, Z.eqb_refl, bool_decide_eq_true_2, Hst by done. cbn [negb].
  assert (Hc : (match pre_commit_choices s !! cv_voter_id (with_stake w st) with
     | Some h => negb (bool_decide (h = cv_proposal_hash (with_stake w st))) | None => false end) = false).
  { cbn [with_stake cv_voter_id cv_proposal_hash].
    destruct (pre_commit_choices s !! cv_voter_id w) as [h|] eqn:E; [|done].
    by rewrite (Hch h eq_refl), bool_decide_eq_true_2. }
  rewrite Hc. eexists _, (with_stake w st). split; [reflexivity|]. split; [done|]. split; [done|].
  split; [|by repeat split]. cbn [set_pre_commits pre_commits]. unfold append_vote.
  by rewrite lookup_default_insert_eq.
Qed.

Lemma voters_snoc l w : voters (l ++ [w]) = voters l ∪ {[cv_voter_id w]}.
Proof. unfold voters. rewrite map_app, list_to_set_app_L. simpl. set_solver. Qed.

(** An acceptable pre-commit is recorded, and finalizes the block when it completes a quorum. *)
Lemma receive_pre_commit_vote v w p now :
  acceptable (vn_consensus v) w -> stakes_ok (vn_consensus v) ->
  (0 < total_stake (vn_consensus v) < 2 ^ 49)%Z ->
  received_proposals (vn_consensus v) !! cv_proposal_hash w = Some p ->
  proposal_hash p = Ok (cv_proposal_hash w) -> reading_ok now ->
  let s := vn_consensus v in
  let vs := voters (lookup_default [] (pre_commits s) (cv_proposal_hash w)) ∪ {[cv_voter_id w]} in
  exists v', receive_vote v w now = (v', Ok (true, "valid"%string)) /\
    let s' := vn_consensus v' in
    validators s' = validators s /\ total_stake s' = total_stake s /\
    received_proposals s' = received_proposals s /\ current_epoch s' = current_epoch s /\
    current_round s' = current_round s /\
    voters (lookup_default [] (pre_commits s') (cv_proposal_hash w)) = vs /\
    pre_commit_choices s' = <[cv_voter_id w := cv_proposal_hash w]> (pre_commit_choices s) /\
    ((67 * total_stake s <= 100 * set_sum (stake_of s) vs)%Z ->
     exists b, finalized_blocks s' !! current_epoch s = Some b /\
       cb_epoch b = current_epoch s /\ cb_proposal b = p /\ vn_state v' = ACTIVE /\
       vn_epoch_manager v' = finalize_epoch (vn_epoch_manager v) (current_epoch s) (cb_block_hash b)).
Proof.
  intros Hw Hok Htot Hp Hh Hnow s vs. fold s in Hw, Hok, Htot, Hp. destruct (receive_acceptable s w Hw)
    as (s' & w' & E & W1 & W2 & Hpc & Hv & Ht & Hr & Hep & Hfb & Hro & Hch).
  unfold receive_vote, receive_pre_commit_msg. rewrite (ac_type _ _ Hw), bool_decide_eq_false_2 by done.
  fold s. rewrite E. cbn [negb]. unfold check_pre_commit_threshold. rewrite W1, Hpc.
  assert (Hok' : stakes_ok s') by (unfold stakes_ok; by rewrite Hv, Ht).
  assert (Hst : stake_of s' = stake_of s) by (unfold stake_of; by rewrite Hv).
  set (l := lookup_default [] (pre_commits s) (cv_proposal_hash w) ++ [w']) in *.
  assert (Hvot : voters l = vs) by (unfold l; by rewrite voters_snoc, W2).
  destruct (check_threshold_exact s' l Hok') as (r & Hthr); [lia|]. rewrite Ht, Hst, Hvot in Hthr.
  destruct (Z.leb_spec (67 * total_stake s) (100 * set_sum (stake_of s) vs)) as [Hq|Hq].
  - rewrite (proj2 (Z.ltb_lt 0 _)) in Hthr by lia. cbn [andb] in Hthr. rewrite Hthr.
    unfold try_finalize, check_pre_commit_threshold. rewrite Hpc, Hthr. cbn [negb]. rewrite Hr, Hp.
    pose proof (set_stake_le_total s' (voters l) Hok') as Hle. rewrite <- (supporting_spec s' l) in Hle.
    assert (0 <= stake_sum (voter_stakes s' l))%Z.
    { rewrite supporting_spec. apply set_sum_nonneg. intros. by apply stake_of_nonneg. }
    destruct (new_block_ok (current_epoch s') (current_round s') p (cv_proposal_hash w)
      (lookup_default [] (pre_votes s') (cv_proposal_hash w) ++ l) (total_stake s')
      (stake_sum (voter_stakes s' l)) now Hh Hnow) as (b & Eb & B1 & B2 & _ & _); [lia|lia|].
    rewrite Eb. eexists. split; [reflexivity|]. cbn. rewrite Hpc. do 7 (split; [done|]). intros _.
    exists b. rewrite Hfb, Hep, lookup_insert_eq, B1, Hep. done.
  - rewrite andb_false_r in Hthr. rewrite Hthr. eexists. split; [reflexivity|]. cbn. rewrite Hpc.
    do 7 (split; [done|]). lia.
Qed.

(** C25. The vote that completes a quorum finalizes the block.  When a validator that has the
    proposal receives an acceptable pre-commit and the distinct voters of that proposal then
    hold at least 67% of the registered stake (at most [2^49 - 1] in total), the vote is
    accepted, a block of the current epoch with that support is recorded, the validator is
    active again, and the epoch manager finalizes that epoch if it has it. *)
Theorem quorum_vote_finalizes (v : ValidatorNode) (w : ConsensusVote) (p : ConsensusProposal)
    (now : float64)
    (Hw : acceptable (vn_consensus v) w)
    (Hok : stakes_ok (vn_consensus v)) (Htot : (0 < total_stake (vn_consensus v) < 2 ^ 49)%Z)
    (Hp : received_proposals (vn_consensus v) !! cv_proposal_hash w = Some p)
    (Hh : proposal_hash p = Ok (cv_proposal_hash w)) (Hnow : reading_ok now)
    (Hquorum : (67 * total_stake (vn_consensus v) <=
      100 * set_sum (stake_of (vn_consensus v))
        (voters (lookup_default [] (pre_commits (vn_consensus v)) (cv_proposal_hash w))
           ∪ {[cv_voter_id w]}))%Z) :
  exists v' b, receive_vote v w now = (v', Ok (true, "valid"%string)) /\
    finalized_blocks (vn_consensus v') !! current_epoch (vn_consensus v) = Some b /\
    cb_epoch b = current_epoch (vn_consensus v) /\ cb_proposal b = p /\ vn_state v' = ACTIVE /\
    vn_epoch_manager v' = finalize_epoch (vn_epoch_manager v) (current_epoch (vn_consensus v)) (cb_block_hash b).
Proof.
  destruct (receive_pre_commit_vote v w p now Hw Hok Htot Hp Hh Hnow) as (v' & E & R).
  destruct R as (_ & _ & _ & _ & _ & _ & _ & Hb). destruct (Hb Hquorum) as (b & Hb1). by exists v', b.
Qed.

End Votes.

(** ** Sample runs *)

#[local] Instance no_libm : Libm := {
  m_sin := fun _ => Ok (lit 0 1);
  m_cos := fun _ => Ok (lit 1 1);
  m_asin := fun x => Ok x;
  m_square := fun x => Ok (float_mul x x);
}.

#[local] Instance no_shuffle : PyRandom := {
  shuffle := fun _ l => l;
  shuffle_permutes := fun _ l => Permutation_refl l;
}.

Definition demo_config (stake : Z) : ValidatorConfig :=
  mkValidatorConfig 0 stake (at_degrees 407128 (-740060)) None false.

Definition demo_validator (stake : Z) : res ValidatorNode :=
  validator_new (H := toy_hashlib) (demo_config stake) (replicate 32 Byte.x01)
    (replicate 64 Byte.x02) (replicate 64 Byte.x03) (Some (lit 1 1)) (lit 1 1).

Lemma single_node_finalizes_witness :
  exists v, demo_validator 100 = Ok v /\
    length (run_alone (H := toy_hashlib) v (fun _ m _ => m) (fun _ => []) [fun _ => lit 2 1; fun _ => lit 1000 1]) = 2 /\
    Forall (fun r => exists b, r = Ok (Some b) /\ cb_total_stake b = 100%Z /\ cb_supporting_stake b = 100%Z)
      (run_alone (H := toy_hashlib) v (fun _ m _ => m) (fun _ => []) [fun _ => lit 2 1; fun _ => lit 1000 1]).
Proof.
  eexists. split; [reflexivity|].
  apply (@single_node_finalizes toy_hashlib _ _ (demo_config 100) (replicate 32 Byte.x01)
    (replicate 64 Byte.x02) (replicate 64 Byte.x03) (Some (lit 1 1)) (lit 1 1)).
  - reflexivity.
  - split; reflexivity.
  - repeat constructor.
    + eexists. split; [vm_compute; reflexivity|]. split; [discriminate|reflexivity].
    + exists 0%Z. split; [vm_compute; reflexivity|]. split; [discriminate|reflexivity].
    + eexists. split; [vm_compute; reflexivity|]. split; [discriminate|reflexivity].
    + exists 1%Z. split; [vm_compute; reflexivity|]. split; [discriminate|reflexivity].
  - reflexivity.
Defined.

Definition peer_id : bytes := replicate 32 Byte.x07.

Definition pending_proposal : ConsensusProposal :=
  mkConsensusProposal peer_id 0 0 (replicate 32 Byte.x06) ∅ [] [] (PInt 5) [].

Definition pending_hash : bytes :=
  match proposal_hash (H := toy_hashlib) pending_proposal with Ok h => h | Err _ => [] end.

(** A validator with 30 of 130 that has received a proposal of the peer with 100. *)
Definition pending_consensus : BFTConsensus :=
  set_proposals (register_validator (bft_new (replicate 32 Byte.x01) 30) peer_id 100) None
    {[pending_hash := pending_proposal]}.

Definition pending_node : ValidatorNode :=
  mkValidator (demo_config 30) (replicate 32 Byte.x01) VOTING (mkValidatorStats 1 0 0 0 0 0)
    (mkTemporalKey [] 0 []) (epoch_manager_new (Some (lit 1 1)) (lit 1 1) [])
    (protocol_new (replicate 32 Byte.x01) (vc_location (demo_config 30)) 0 false) pending_consensus
    [(peer_id, demo_config 100)] [] [] [] None.

Definition peer_vote : ConsensusVote :=
  mkConsensusVote peer_id 0 0 pending_hash "pre-commit" 1 5 [].

Lemma quorum_vote_finalizes_witness :
  exists v' b, receive_vote (H := toy_hashlib) pending_node peer_vote (lit 9 1) = (v', Ok (true, "valid"%string)) /\
    finalized_blocks (vn_consensus v') !! current_epoch pending_consensus = Some b /\
    cb_epoch b = current_epoch pending_consensus /\ cb_proposal b = pending_proposal /\
    vn_state v' = ACTIVE /\
    vn_epoch_manager v' = finalize_epoch (H := toy_hashlib) (vn_epoch_manager pending_node)
      (current_epoch pending_consensus) (cb_block_hash b).
Proof.
  apply (@quorum_vote_finalizes toy_hashlib pending_node peer_vote pending_proposal (lit 9 1)).
  - split; [reflexivity|reflexivity| |].
    + exists 100%Z. reflexivity.
    + intros h E. discriminate E.
  - apply (stakes_ok_register (bft_new (replicate 32 Byte.x01) 30) peer_id 100); [|lia].
    apply (stakes_ok_register (mkBFTConsensus (replicate 32 Byte.x01) 30 0 0 IDLE None ∅ ∅ ∅ ∅ ∅ ∅ 0 ∅)); [|lia].
    split; [reflexivity|]. apply map_Forall_empty.
  - split; reflexivity.
  - vm_compute. reflexivity.
  - vm_compute. reflexivity.
  - eexists. split; [vm_compute; reflexivity|]. split; [discriminate|reflexivity].
  - vm_compute. discriminate.
Defined.
