(* ===== verification/Cluster.v ===== *)
(** * Agreement of whole validators

    [Agreement.v] runs the consensus objects alone.  Here whole validators of
    [src/src/validator.py] run: they queue messages in their outboxes, find messages in their
    inboxes and process them, in any interleaving.  The network may lose, delay, repeat and forge
    messages, except that a pre-commit that arrives in the name of one of the validators was
    posted by it.  Every step of such a cluster is a sequence of steps of the consensus
    ([cluster_simulated]), so the validators agree on the blocks ([validators_agree]). *)

From stdpp Require Import prelude list gmap strings.
From Stdlib Require Import Strings.Byte ZArith Lia SpecFloat.
From S2P Require Import Prelude.
From S2P Require Import Dict.
From S2P Require Import PyFloat.
From S2P Require Import Crypto.
From S2P Require Import TemporalAuth.
From S2P Require Import Consensus.
From S2P Require Import Agreement.
From S2P Require Import Measurement.
From S2P Require Import Epoch.
From S2P Require Import Detection.
From S2P Require Import Validator.

Set Default Goal Selector "!".

Section Cluster.
Context {hashlib : Hashlib} {random : PyRandom} {libm : Libm}.

(** ** Validators and messages *)

(** The validators by identity, and every message that was ever in an outbox. *)
Record Cluster := mkCluster {
  members : gmap bytes ValidatorNode;
  posted : list Message;
}.

Definition is_pre_commit (v : ConsensusVote) : Prop := cv_vote_type v = "pre-commit"%string.

(** A pre-commit in the name of a member was posted as one, with any stake, time and signature. *)
Definition genuine (c : Cluster) (m : Message) : Prop :=
  match m with
  | VoteMsg v => is_pre_commit v -> cv_voter_id v ∉ dom (members c) \/
      exists v', VoteMsg v' ∈ posted c /\ is_pre_commit v' /\ cv_voter_id v' = cv_voter_id v /\
        cv_epoch v' = cv_epoch v /\ cv_proposal_hash v' = cv_proposal_hash v
  | _ => True
  end.

Inductive member_call :=
  | MStartEpoch (epoch : Z) (now : float64)
  | MMeasure (gauss : nat -> float64 -> float64 -> float64) (nonces : nat -> bytes) (now : float64)
  | MCommit (now : float64)
  | MBroadcastCommitment
  | MBroadcastReveal
  | MConsensusPhase (now : float64)
  | MArrive (m : Message)
  | MProcessInbox (now : float64)
  | MDeliverOutbox.

Definition member_do (v : ValidatorNode) (call : member_call) : ValidatorNode :=
  match call with
  | MStartEpoch epoch now => (vn_start_epoch v epoch now).1
  | MMeasure gauss nonces now => (run_measurement_phase v gauss nonces now).1
  | MCommit now => (create_measurement_commitment v now).1
  | MBroadcastCommitment => broadcast_commitment v
  | MBroadcastReveal => broadcast_reveal v
  | MConsensusPhase now => (run_consensus_phase v now).1
  | MArrive m => set_queues v (vn_inbox v ++ [m]) (vn_outbox v)
  | MProcessInbox now => (process_inbox v now).1
  | MDeliverOutbox => (deliver_outbox v).1
  end.

Definition member_allowed (c : Cluster) (v : ValidatorNode) (call : member_call) : Prop :=
  match call with
  | MStartEpoch epoch _ => phase (vn_consensus v) = IDLE \/ (current_epoch (vn_consensus v) < epoch)%Z
  | MArrive m => genuine c m
  | _ => True
  end.

Inductive cluster_step (c : Cluster) : Cluster -> Prop :=
  | cluster_call n v call : members c !! n = Some v -> member_allowed c v call ->
      let v' := member_do v call in
      cluster_step c (mkCluster (<[n := v']> (members c)) (posted c ++ map snd (vn_outbox v'))).

(** A new validator to which its peers were added. *)
Definition joined (n : bytes) (v : ValidatorNode) : Prop :=
  exists config key_seed entropy_seed genesis now v0 peers,
    validator_new config n key_seed entropy_seed genesis now = Ok v0 /\
    Forall (fun x => 0 <= vc_stake x.2)%Z ((n, config) :: peers) /\
    v = foldl (fun v x => vn_add_peer v x.1 x.2 now) v0 peers.

Definition cluster_initial (stakes : gmap bytes Z) (c : Cluster) : Prop :=
  posted c = [] /\ forall n v, members c !! n = Some v -> joined n v /\ validators (vn_consensus v) = stakes.

Definition cluster_reachable (stakes : gmap bytes Z) (c : Cluster) : Prop :=
  exists c0, cluster_initial stakes c0 /\ rtc cluster_step c0 c.

(** ** What a handler does to the consensus *)

(** Later in a run: the same nodes, and everything sent is still known. *)
Definition grown (w w' : System) : Prop :=
  dom (nodes w') = dom (nodes w) /\ forall x, x ∈ sent w -> x ∈ sent w'.

#[local] Instance grown_preorder : PreOrder grown.
Proof. split; [by intros w|]. intros w1 w2 w3 [H1 H2] [H3 H4]. split; [congruence|auto]. Qed.

(** Node [n] goes from [v] to [v'] by steps of the consensus, and the pre-commits that it queued
    on the way are known as sent. *)
Definition moves (n : bytes) (w : System) (v v' : ValidatorNode) : Prop :=
  exists w', rtc step w w' /\ nodes w' = <[n := vn_consensus v']> (nodes w) /\ grown w w' /\
    forall x, VoteMsg x ∈ map snd (vn_outbox v') -> is_pre_commit x ->
      x ∈ sent w' \/ VoteMsg x ∈ map snd (vn_outbox v).

Lemma moves_skip n w v v' :
  nodes w !! n = Some (vn_consensus v) -> vn_consensus v' = vn_consensus v ->
  (forall x, VoteMsg x ∈ map snd (vn_outbox v') -> is_pre_commit x -> VoteMsg x ∈ map snd (vn_outbox v)) ->
  moves n w v v'.
Proof.
  intros En Ev Hout. exists w. split; [done|]. split; [by rewrite Ev, insert_id|]. split; [done|].
  intros x Hx Hp. right. by apply Hout.
Qed.

Lemma moves_op n w v v' op :
  nodes w !! n = Some (vn_consensus v) -> vn_consensus v' = bft_step (vn_consensus v) op ->
  allowed w (vn_consensus v) op ->
  (forall x, VoteMsg x ∈ map snd (vn_outbox v') -> is_pre_commit x ->
     x ∈ emitted (vn_consensus v) op \/ VoteMsg x ∈ map snd (vn_outbox v)) ->
  moves n w v v'.
Proof.
  intros En Ev Ha Hout. exists (after w n (vn_consensus v) op). split; [by apply rtc_once, step_call|].
  split; [by rewrite Ev|]. split; [split; [by apply after_dom|apply after_sent]|].
  intros x Hx Hp. destruct (Hout x Hx Hp) as [Hx'|Hx']; [left|by right].
  cbn [after sent]. apply elem_of_app. by right.
Qed.

Lemma moves_trans n w v v1 v' :
  moves n w v v1 -> (forall w1, nodes w1 !! n = Some (vn_consensus v1) -> grown w w1 -> moves n w1 v1 v') ->
  moves n w v v'.
Proof.
  intros (w1 & Hs1 & En1 & Hg1 & Ho1) Hk.
  destruct (Hk w1) as (w2 & Hs2 & En2 & Hg2 & Ho2); [by rewrite En1, lookup_insert_eq|done|].
  exists w2. split; [by etrans|]. split; [by rewrite En2, En1, insert_insert_eq|]. split; [by etrans|].
  intros x Hx Hp. destruct (Ho2 x Hx Hp) as [Hx'|Hx']; [by left|].
  destruct (Ho1 x Hx' Hp) as [Hx''|Hx'']; [left; by apply Hg2|by right].
Qed.

Lemma queued_vote v m x :
  VoteMsg x ∈ map snd (vn_outbox (queue_to_peers v m)) -> m = VoteMsg x \/ VoteMsg x ∈ map snd (vn_outbox v).
Proof.
  cbn [queue_to_peers set_queues vn_outbox]. rewrite map_app, elem_of_app. intros [Hx|Hx]; [by right|left].
  rewrite map_map in Hx. apply list_elem_of_fmap in Hx as (? & E & _). exact (eq_sym E).
Qed.

Lemma authentic_grown w w' v : grown w w' -> authentic w v -> authentic w' v.
Proof. intros [Hd Hs] [Hn|(x & Hx & Hr)]; [left; by rewrite Hd|right; exists x; split; [by apply Hs|done]]. Qed.


(** ** The handlers *)

Lemma start_epoch_moves n w v epoch now :
  nodes w !! n = Some (vn_consensus v) ->
  phase (vn_consensus v) = IDLE \/ (current_epoch (vn_consensus v) < epoch)%Z ->
  moves n w v (vn_start_epoch v epoch now).1.
Proof.
  intros En He. unfold vn_start_epoch.
  destruct (advance_epoch _ now) as [m [[k entropy]|]]; [|by apply moves_skip].
  destruct (evolve _ _) as [key|]; [|by apply moves_skip].
  apply (moves_op n w v _ (BStartRound epoch 0)); [done|done|exact He|]. intros x Hx _. by right.
Qed.

Lemma measure_moves n w v gauss nonces now :
  nodes w !! n = Some (vn_consensus v) -> moves n w v (run_measurement_phase v gauss nonces now).1.
Proof.
  intros En. unfold run_measurement_phase.
  destruct (select_targets _ _) as [p [?|]]; [|by apply moves_skip].
  destruct (execute_measurements _ _ _ _ _) as [p' [?|]]; by apply moves_skip.
Qed.

Lemma commit_moves n w v now :
  nodes w !! n = Some (vn_consensus v) -> moves n w v (create_measurement_commitment v now).1.
Proof. intros En. unfold create_measurement_commitment. destruct (create_commitment _ now) as [p [c|]]; by apply moves_skip. Qed.

Lemma queue_moves n w v v' m :
  nodes w !! n = Some (vn_consensus v) -> vn_consensus v' = vn_consensus v -> vn_outbox v' = vn_outbox v ->
  (forall x, m = VoteMsg x -> ~ is_pre_commit x) -> moves n w v (queue_to_peers v' m).
Proof.
  intros En Ev Eo Hm. apply moves_skip; [done|done|]. intros x Hx Hp. rewrite <- Eo.
  apply queued_vote in Hx as [E|Hx]; [|done]. by destruct (Hm x E).
Qed.

Lemma broadcast_commitment_moves n w v :
  nodes w !! n = Some (vn_consensus v) -> moves n w v (broadcast_commitment v).
Proof.
  intros En. unfold broadcast_commitment. destruct (vn_current_commitment v); [|by apply moves_skip]. by apply queue_moves.
Qed.

Lemma broadcast_reveal_moves n w v :
  nodes w !! n = Some (vn_consensus v) -> moves n w v (broadcast_reveal v).
Proof.
  intros En. unfold broadcast_reveal, vn_create_reveal. destruct (create_reveal _) as [p r]. by apply queue_moves.
Qed.

(** A proposal is made by one call of the consensus, or by none. *)
Lemma propose_op s measurements locations now :
  (propose s measurements locations now).1 = s \/
  exists hs results, (propose s measurements locations now).1 = bft_step s (BCreateProposal hs results [] [] now).
Proof.
  unfold propose. destruct (mbind _ _) as [[results hs]|]; [|by left]. right. by exists hs, (list_to_map results).
Qed.

Lemma consensus_phase_moves n w v now :
  nodes w !! n = Some (vn_consensus v) -> moves n w v (run_consensus_phase v now).1.
Proof.
  intros En. unfold run_consensus_phase. cbn [set_state vn_consensus].
  destruct (am_i_proposer _) as [[]|]; [|by apply moves_skip..].
  match goal with |- context [propose ?s ?m ?l ?t] => destruct (propose_op s m l t) as [E|(hs & results & E)];
    destruct (propose s m l t) as [s' [p|]] end; cbn [fst] in *.
  - apply moves_skip; [done|exact E|]. intros x Hx Hp. by apply queued_vote in Hx as [?|?].
  - by apply moves_skip.
  - apply (moves_op n w v _ (BCreateProposal hs results [] [] now) En); [exact E|done|].
    intros x Hx Hp. right. by apply queued_vote in Hx as [?|?].
  - apply (moves_op n w v _ (BCreateProposal hs results [] [] now) En); [exact E|done|]. intros x Hx Hp. by right.
Qed.

Lemma receive_proposal_moves n w v p now :
  nodes w !! n = Some (vn_consensus v) -> moves n w v (vn_receive_proposal v p now).1.
Proof.
  intros En. unfold vn_receive_proposal. destruct (receive_proposal (vn_consensus v) p) as [s r] eqn:Er.
  assert (Hmove : moves n w v (set_consensus v s)).
  { apply (moves_op n w v _ (BReceiveProposal p)); [done| |done|by right]. cbn. by rewrite Er. }
  destruct r as [[[] reason]|]; try exact Hmove. destruct (proposal_hash p) as [h|]; [|exact Hmove].
  apply (moves_trans _ _ _ _ _ Hmove). intros w1 En1 _. cbn [set_consensus vn_consensus] in En1.
  destruct (create_pre_vote s h now) as [s' [vote|]] eqn:Ec; cbn [fst].
  - apply (moves_op n w1 (set_consensus v s) _ (BCreatePreVote h now) En1); [cbn; by rewrite Ec|done|].
    intros x Hx Hp. right. apply queued_vote in Hx as [E|?]; [|done]. injection E as <-.
    unfold create_pre_vote in Ec. destruct (to_ms now); [|done]. injection Ec as _ <-. done.
  - apply (moves_op n w1 (set_consensus v s) _ (BCreatePreVote h now) En1); [cbn; by rewrite Ec|done|by right].
Qed.

Lemma receive_pre_vote_moves n w v vote now :
  nodes w !! n = Some (vn_consensus v) -> moves n w v (receive_pre_vote_msg v vote now).1.
Proof.
  intros En. unfold receive_pre_vote_msg.
  destruct (receive_pre_vote (vn_consensus v) vote) as [[s vote'] [valid reason]] eqn:Er.
  assert (Hmove : moves n w v (set_consensus v s)).
  { apply (moves_op n w v _ (BReceivePreVote vote)); [done| |done|by right]. cbn. by rewrite Er. }
  destruct (negb valid); [exact Hmove|].
  destruct (check_pre_vote_threshold s (cv_proposal_hash vote')) as [[[] ratio]|]; try exact Hmove.
  apply (moves_trans _ _ _ _ _ Hmove). intros w1 En1 _. cbn [set_consensus vn_consensus] in En1.
  set (h := cv_proposal_hash vote'). destruct (create_pre_commit s h now) as [s' r] eqn:Ec.
  assert (Hop : bft_step s (BCreatePreCommit h now) = s') by (cbn; by rewrite Ec).
  destruct r as [[commit|]|]; apply (moves_op n w1 (set_consensus v s) _ (BCreatePreCommit h now) En1); try done; try (by right).
  intros x Hx Hp. apply queued_vote in Hx as [E|?]; [|by right]. injection E as <-. left.
  cbn [emitted set_consensus vn_consensus]. rewrite Ec. by left.
Qed.

Lemma receive_pre_commit_moves n w v vote now :
  nodes w !! n = Some (vn_consensus v) -> (is_pre_commit vote -> authentic w vote) ->
  moves n w v (receive_pre_commit_msg v vote now).1.
Proof.
  intros En Ha. unfold receive_pre_commit_msg.
  destruct (receive_pre_commit (vn_consensus v) vote) as [[s vote'] [valid reason]] eqn:Er.
  assert (Hmove : moves n w v (set_consensus v s)).
  { destruct (decide (is_pre_commit vote)) as [Hp|Hp].
    - apply (moves_op n w v _ (BReceivePreCommit vote)); [done|cbn; by rewrite Er|by apply Ha|by right].
    - apply moves_skip; [done| |done]. unfold receive_pre_commit in Er. unfold is_pre_commit in Hp.
      rewrite (bool_decide_eq_false_2 _ Hp) in Er. by destruct (negb _); injection Er as <- _ _ _. }
  destruct (negb valid); [exact Hmove|].
  destruct (check_pre_commit_threshold s (cv_proposal_hash vote')) as [[[] ratio]|]; try exact Hmove.
  apply (moves_trans _ _ _ _ _ Hmove). intros w1 En1 _. cbn [set_consensus vn_consensus] in En1.
  set (h := cv_proposal_hash vote'). destruct (try_finalize s h now) as [s' r] eqn:Ef.
  assert (Hop : bft_step s (BTryFinalize h now) = s') by (cbn; by rewrite Ef).
  destruct r as [[block|]|]; apply (moves_op n w1 (set_consensus v s) _ (BTryFinalize h now) En1); try done; by right.
Qed.

(** What is known of a message that a member processes. *)
Definition message_ok (w : System) (m : Message) : Prop :=
  match m with VoteMsg v => is_pre_commit v -> authentic w v | _ => True end.

Lemma message_ok_grown w w' m : grown w w' -> message_ok w m -> message_ok w' m.
Proof. intros Hg. destruct m; try done. intros Hm Hp. by apply (authentic_grown w), Hm. Qed.

Lemma process_message_moves n w v m now :
  nodes w !! n = Some (vn_consensus v) -> message_ok w m -> moves n w v (process_message v m now).1.
Proof.
  intros En Hm. destruct m; cbn [process_message fst].
  - unfold vn_receive_commitment. destruct (receive_commitment _ c) as [p b]. by apply moves_skip.
  - unfold vn_receive_reveal. destruct (receive_reveal _ r) as [p out]. by apply moves_skip.
  - by apply receive_proposal_moves.
  - unfold receive_vote. destruct (bool_decide _); [by apply receive_pre_vote_moves|by apply receive_pre_commit_moves].
Qed.

Lemma process_messages_moves n inbox now : forall w v,
  nodes w !! n = Some (vn_consensus v) -> Forall (message_ok w) inbox ->
  moves n w v (process_messages v inbox now).1.
Proof.
  induction inbox as [|m inbox IH]; intros w v En Hok; cbn [process_messages]; [by apply moves_skip|].
  apply Forall_cons in Hok as [Hm Hok]. set (v0 := set_queues v inbox (vn_outbox v)).
  apply (moves_trans _ _ _ v0); [by apply moves_skip|]. intros w0 En0 Hg0.
  pose proof (process_message_moves n w0 v0 m now En0 (message_ok_grown _ _ _ Hg0 Hm)) as Hmove.
  destruct (process_message v0 m now) as [v1 [[]|]]; [|exact Hmove].
  apply (moves_trans _ _ _ _ _ Hmove). intros w1 En1 Hg1. apply IH; [done|].
  eapply Forall_impl; [exact Hok|]. intros m'. apply message_ok_grown. by etrans.
Qed.

(** ** The simulation *)

Record related (c : Cluster) (w : System) : Prop := {
  rl_nodes : nodes w = vn_consensus <$> members c;
  rl_posted v : VoteMsg v ∈ posted c -> is_pre_commit v -> v ∈ sent w;
  rl_outbox n v m : members c !! n = Some v -> m ∈ map snd (vn_outbox v) -> m ∈ posted c;
  rl_inbox n v m : members c !! n = Some v -> m ∈ vn_inbox v -> message_ok w m;
}.

Lemma related_dom c w : related c w -> dom (nodes w) = dom (members c).
Proof. intros Hr. by rewrite (rl_nodes _ _ Hr), dom_fmap_L. Qed.

Lemma genuine_ok c w m : related c w -> genuine c m -> message_ok w m.
Proof.
  intros Hr. destruct m; try done. intros Hg Hp. destruct (Hg Hp) as [Hn|(v' & Hv' & Hp' & Hrest)].
  - left. by rewrite (related_dom _ _ Hr).
  - right. exists v'. split; [by apply (rl_posted _ _ Hr)|done].
Qed.

(** Messages enter an inbox only by arriving. *)
Lemma process_messages_inbox v inbox now m :
  m ∈ vn_inbox (process_messages v inbox now).1 -> m ∈ inbox.
Proof.
  revert v. induction inbox as [|m0 inbox IH]; intros v; cbn [process_messages]; [by intros ?%elem_of_nil|].
  assert (Hin : forall v, vn_inbox (process_message v m0 now).1 = vn_inbox v).
  { clear. intros v. destruct m0; cbn [process_message fst].
    - unfold vn_receive_commitment. by destruct (receive_commitment _ c).
    - unfold vn_receive_reveal. by destruct (receive_reveal _ r).
    - unfold vn_receive_proposal. repeat case_match; done.
    - unfold receive_vote, receive_pre_vote_msg, receive_pre_commit_msg. repeat case_match; done. }
  specialize (Hin (set_queues v inbox (vn_outbox v))).
  destruct (process_message _ m0 now) as [v1 [[]|]]; cbn [fst] in *.
  - intros Hm%IH. by right.
  - rewrite Hin. by right.
Qed.

Lemma member_do_inbox v call m :
  m ∈ vn_inbox (member_do v call) -> m ∈ vn_inbox v \/ call = MArrive m.
Proof.
  destruct call; cbn [member_do]; try (by left).
  - unfold vn_start_epoch. repeat case_match; by left.
  - unfold run_measurement_phase. repeat case_match; by left.
  - unfold create_measurement_commitment. repeat case_match; by left.
  - unfold broadcast_commitment. repeat case_match; by left.
  - unfold run_consensus_phase. repeat case_match; by left.
  - cbn [set_queues vn_inbox]. rewrite elem_of_app, list_elem_of_singleton. intros [?| ->]; [by left|by right].
  - intros Hm. left. by apply (process_messages_inbox v _ now).
Qed.

Lemma member_do_moves c w n v call :
  related c w -> members c !! n = Some v -> member_allowed c v call -> moves n w v (member_do v call).
Proof.
  intros Hr Em Ha. assert (En : nodes w !! n = Some (vn_consensus v)) by (by rewrite (rl_nodes _ _ Hr), lookup_fmap, Em).
  destruct call; cbn [member_do].
  - by apply start_epoch_moves.
  - by apply measure_moves.
  - by apply commit_moves.
  - by apply broadcast_commitment_moves.
  - by apply broadcast_reveal_moves.
  - by apply consensus_phase_moves.
  - by apply moves_skip.
  - apply process_messages_moves; [done|]. apply Forall_forall. intros m Hm. by apply (rl_inbox _ _ Hr n v).
  - apply moves_skip; [done|done|]. intros x Hx. by apply elem_of_nil in Hx.
Qed.

(** A step of the cluster is a sequence of steps of the consensus. *)
Lemma cluster_step_simulated c c' w :
  related c w -> cluster_step c c' -> exists w', rtc step w w' /\ related c' w'.
Proof.
  intros Hr [n v call Em Ha v']. destruct (member_do_moves c w n v call Hr Em Ha) as (w' & Hs & En & Hg & Ho).
  exists w'. split; [done|]. constructor; cbn [members posted].
  - by rewrite En, (rl_nodes _ _ Hr), fmap_insert.
  - intros x [Hx|Hx]%elem_of_app Hp; [apply Hg; by apply (rl_posted _ _ Hr)|].
    destruct (Ho x Hx Hp) as [?|Hx']; [done|]. apply Hg. apply (rl_posted _ _ Hr); [|done].
    by apply (rl_outbox _ _ Hr n v).
  - intros n' u m [[<- <-]|[_ Eu]]%lookup_insert_Some Hm; apply elem_of_app; [by right|left].
    by apply (rl_outbox _ _ Hr n' u).
  - intros n' u m [[<- <-]|[_ Eu]]%lookup_insert_Some Hm.
    + destruct (member_do_inbox v call m Hm) as [Hm'| ->]; apply (message_ok_grown w); try done.
      * by apply (rl_inbox _ _ Hr n v).
      * by apply (genuine_ok c).
    + apply (message_ok_grown w); [done|]. by apply (rl_inbox _ _ Hr n' u).
Qed.

(** Adding peers registers their stakes. *)
Lemma joined_consensus n v :
  joined n v -> vn_inbox v = [] /\ vn_outbox v = [] /\
    exists stake registrations, vn_consensus v = bft_run n stake registrations /\ (0 <= stake)%Z /\
      Forall (fun op => match op with BRegister _ st => (0 <= st)%Z | _ => False end) registrations.
Proof.
  intros (config & key_seed & entropy_seed & genesis & now & v0 & peers & E0 & [Hst Hp]%Forall_cons & ->).
  unfold validator_new in E0. destruct (create key_seed) as [k|]; [|done]. cbn [mbind res_bind] in E0. injection E0 as <-.
  set (v0 := mkValidator _ _ _ _ _ _ _ _ _ _ _ _ _).
  assert (Hgen : forall v, let v' := foldl (fun v x => vn_add_peer v x.1 x.2 now) v peers in
    vn_inbox v' = vn_inbox v /\ vn_outbox v' = vn_outbox v /\
    vn_consensus v' = foldl bft_step (vn_consensus v) (map (fun x => BRegister x.1 (vc_stake x.2)) peers)).
  { clear. induction peers as [|x peers IH]; intros v; [done|]. cbn [foldl map]. by destruct (IH (vn_add_peer v x.1 x.2 now)). }
  destruct (Hgen v0) as (-> & -> & ->). split; [done|]. split; [done|].
  exists (vc_stake config), (map (fun x => BRegister x.1 (vc_stake x.2)) peers). split; [done|]. split; [done|].
  by apply Forall_fmap.
Qed.

Lemma cluster_initial_related stakes c :
  cluster_initial stakes c -> exists w, initial stakes w /\ related c w.
Proof.
  intros [Hp Hm]. exists (mkSystem (vn_consensus <$> members c) []). split.
  - split; [done|]. intros n s. cbn [nodes]. rewrite lookup_fmap. intros (v & Ev & ->)%fmap_Some.
    destruct (Hm n v Ev) as [(_ & _ & st & l & E & Hst & Hl)%joined_consensus Hv]. exists st, l. by rewrite <- E.
  - constructor; cbn [nodes sent]; [done|rewrite Hp; by intros v ?%elem_of_nil| |].
    + intros n v m Ev. destruct (Hm n v Ev) as [(_ & Eo & _)%joined_consensus _]. rewrite Eo. by intros ?%elem_of_nil.
    + intros n v m Ev. destruct (Hm n v Ev) as [(Ei & _)%joined_consensus _]. rewrite Ei. by intros ?%elem_of_nil.
Qed.

(** Every state of a cluster is, up to the consensus of its members, a state of the nodes of
    [Agreement.v]. *)
Lemma cluster_simulated stakes c :
  cluster_reachable stakes c -> exists w, reachable stakes w /\ nodes w = vn_consensus <$> members c.
Proof.
  intros (c0 & H0 & Hs). destruct (cluster_initial_related _ _ H0) as (w0 & Hw0 & Hr0).
  enough (exists w, rtc step w0 w /\ related c w) as (w & Hw & Hr).
  { exists w. split; [by exists w0|apply Hr]. }
  clear H0 Hw0. revert w0 Hr0. induction Hs as [c|c1 c2 c3 Hstep _ IH]; intros w0 Hr0; [by exists w0|].
  destruct (cluster_step_simulated c1 c2 w0 Hr0 Hstep) as (w1 & Hs1 & Hr1).
  destruct (IH w1 Hr1) as (w & Hw & Hr). exists w. split; [by etrans|done].
Qed.

(** C4. Validators agree.  Let any number of validators, created and joined so that all know the
    same stakes, run in any interleaving, starting increasing epochs, measuring, proposing,
    posting and processing messages, over a network that loses, delays, repeats and forges
    anything but pre-commits in their own names.  If no validator holds 34% of the stake, and
    those outside do not together, then the blocks that two validators finalize for one epoch
    have the same proposal hash; and unless SHA3-256 collides on the two hashed strings, or the
    fields are cut at different lengths, they have the same proposer, epoch, round and
    measurement, transaction and state roots.  The hash leaves out the detection results and the
    time of the proposal, on which they may differ ([detection_results_unbound]). *)
Theorem validators_agree (stakes : gmap bytes Z) (c : Cluster) (n1 n2 : bytes) (v1 v2 : ValidatorNode)
    (e : Z) (b1 b2 : ConsensusBlock)
    (Htot : (stake_sum stakes < 2 ^ 49)%Z) (Hreach : cluster_reachable stakes c)
    (Hsmall : forall n, n ∈ dom (members c) -> (100 * stake stakes n < 34 * stake_sum stakes)%Z)
    (Hout : (100 * set_sum (stake stakes) (dom stakes ∖ dom (members c)) < 34 * stake_sum stakes)%Z)
    (Hv1 : members c !! n1 = Some v1) (Hv2 : members c !! n2 = Some v2)
    (Hb1 : finalized_blocks (vn_consensus v1) !! e = Some b1)
    (Hb2 : finalized_blocks (vn_consensus v2) !! e = Some b2) :
  exists h, proposal_hash (cb_proposal b1) = Ok h /\ proposal_hash (cb_proposal b2) = Ok h /\
    (proposal_shape (cb_proposal b1) = proposal_shape (cb_proposal b2) ->
     collision_free sha3_256 (proposal_queries (cb_proposal b1) ++ proposal_queries (cb_proposal b2)) ->
     proposal_header (cb_proposal b1) = proposal_header (cb_proposal b2)).
Proof.
  destruct (cluster_simulated _ _ Hreach) as (w & Hw & En).
  assert (Hd : dom (nodes w) = dom (members c)) by (by rewrite En, dom_fmap_L).
  assert (Hsys : system_inv stakes w) by (apply reachable_inv; [done..|unfold dispersed; by rewrite Hd]).
  destruct (finalized_agree stakes w n1 n2 (vn_consensus v1) (vn_consensus v2) e b1 b2 Hsys)
    as (h & Hh1 & Hh2); try done.
  - by rewrite Hd.
  - by rewrite En, lookup_fmap, Hv1.
  - by rewrite En, lookup_fmap, Hv2.
  - exists h. split; [done|]. split; [done|]. intros Hs Hcf. by apply (proposal_hash_header _ _ h).
Qed.

End Cluster.

(** ** Runs by evaluation *)

Section Runs.
Context {hashlib : Hashlib} {random : PyRandom} {libm : Libm}.

Definition posts_same (v : ConsensusVote) (m : Message) : bool :=
  match m with
  | VoteMsg v' => bool_decide (is_pre_commit v') && same_vote v v'
  | _ => false
  end.

Definition genuine_b (c : Cluster) (m : Message) : bool :=
  match m with
  | VoteMsg v => negb (bool_decide (is_pre_commit v)) || bool_decide (cv_voter_id v ∉ dom (members c)) ||
                 existsb (posts_same v) (posted c)
  | _ => true
  end.

Definition member_allowed_b (c : Cluster) (v : ValidatorNode) (call : member_call) : bool :=
  match call with
  | MStartEpoch epoch _ =>
      match phase (vn_consensus v) with IDLE => true | _ => (current_epoch (vn_consensus v) <? epoch)%Z end
  | MArrive m => genuine_b c m
  | _ => true
  end.

Fixpoint cluster_run (c : Cluster) (calls : list (bytes * member_call)) : option Cluster :=
  match calls with
  | [] => Some c
  | (n, call) :: calls =>
      v ← members c !! n;
      if member_allowed_b c v call then
        let v' := member_do v call in
        cluster_run (mkCluster (<[n := v']> (members c)) (posted c ++ map snd (vn_outbox v'))) calls
      else None
  end.

Lemma genuine_b_sound c m : genuine_b c m = true -> genuine c m.
Proof.
  destruct m; try done. cbn [genuine_b genuine]. intros [[Hb|Hb]%orb_true_iff|Hb]%orb_true_iff Hp.
  - by rewrite bool_decide_eq_true_2 in Hb.
  - left. by apply bool_decide_eq_true in Hb.
  - right. apply existsb_exists in Hb as (m & Hm & Hs). destruct m as [| | |v']; try done.
    apply andb_true_iff in Hs as [Hp'%bool_decide_eq_true Hs]. unfold same_vote in Hs. bool_to_prop.
    exists v'. by split; [apply list_elem_of_In|].
Qed.

Lemma member_allowed_b_sound c v call : member_allowed_b c v call = true -> member_allowed c v call.
Proof.
  destruct call; cbn [member_allowed_b member_allowed]; try done; [|by apply genuine_b_sound].
  destruct (phase _); [by left|..]; intros ?%Z.ltb_lt; by right.
Qed.

Lemma cluster_run_steps c calls c' : cluster_run c calls = Some c' -> rtc cluster_step c c'.
Proof.
  revert c. induction calls as [|[n call] calls IH]; intros c; cbn [cluster_run]; [by intros [= ->]|].
  destruct (members c !! n) as [v|] eqn:Em; [|done]. cbn [mbind option_bind].
  destruct (member_allowed_b c v call) eqn:Ea; [|done]. intros Hr. eapply rtc_l; [|by apply IH].
  apply cluster_call; [done|by apply member_allowed_b_sound].
Qed.

End Runs.

Section Samples.
#[local] Existing Instance toy_hashlib.
#[local] Existing Instance no_libm.
#[local] Existing Instance no_shuffle.

(** [a], [b] and [c] with 25% each join; [d] stays outside. *)
Definition sample_ids : list bytes := [b: "a"; b: "b"; b: "c"].

Definition sample_member (n : bytes) : res ValidatorNode :=
  v0 ← validator_new (demo_config 25) n (replicate 64 Byte.x02) (replicate 64 Byte.x03) (Some (lit 1 1)) (lit 1 1);
  Ok (foldl (fun v x => vn_add_peer v x.1 x.2 (lit 1 1)) v0
    (map (fun id => (id, demo_config 25)) (filter (fun id => id <> n) [b: "a"; b: "b"; b: "c"; b: "d"]))).

Definition sample_members : list (bytes * ValidatorNode) :=
  omap (fun n => match sample_member n with Ok v => Some (n, v) | Err _ => None end) sample_ids.

Definition sample_cluster : Cluster := mkCluster (list_to_map sample_members) [].

(** Everybody gets the proposal and the votes of the others. *)
Definition everybody (f : bytes -> list member_call) : list (bytes * member_call) :=
  concat (map (fun n => map (pair n) (f n)) sample_ids).

Definition votes_arrive (ty : string) (n : bytes) : list member_call :=
  map (fun id => MArrive (VoteMsg (vote_of id (hash_of proposal_3) ty))) (filter (fun id => id <> n) sample_ids) ++
  [MProcessInbox (lit 9 1)].

(** [p n] is the proposal that reaches [n]; the votes are on the hash of [proposal_3]. *)
Definition sample_run_of (p : bytes -> ConsensusProposal) : option Cluster :=
  cluster_run sample_cluster
    (everybody (fun _ => [MStartEpoch 4 (lit 2 1)]) ++
     everybody (fun n => [MArrive (ProposalMsg (p n)); MProcessInbox (lit 3 1)]) ++
     everybody (votes_arrive "pre-vote") ++ everybody (votes_arrive "pre-commit")).

Definition sample_run : option Cluster := sample_run_of (fun _ => proposal_3).

Definition same_proposal (p q : ConsensusProposal) : bool :=
  bool_decide (proposal_header p = proposal_header q) && bool_decide (dom (cp_detection_results p) = dom (cp_detection_results q)).

Definition finalized_by (c : Cluster) (n : bytes) (p : ConsensusProposal) : bool :=
  match members c !! n with
  | Some v => match finalized_blocks (vn_consensus v) !! 4%Z with
              | Some b => same_proposal (cb_proposal b) p
              | None => false
              end
  | None => false
  end.

Lemma finalized_by_inv c n p :
  finalized_by c n p = true -> exists v b, members c !! n = Some v /\
    finalized_blocks (vn_consensus v) !! 4%Z = Some b /\
    proposal_header (cb_proposal b) = proposal_header p /\
    dom (cp_detection_results (cb_proposal b)) = dom (cp_detection_results p).
Proof.
  unfold finalized_by. destruct (members c !! n) as [v|]; [|done].
  destruct (finalized_blocks (vn_consensus v) !! 4%Z) as [b|] eqn:Eb; [|done].
  intros [H1%bool_decide_eq_true H2%bool_decide_eq_true]%andb_true_iff. by exists v, b.
Qed.

(** The header determines the string that is hashed and where it is cut. *)
Lemma header_hashed p q : proposal_header p = proposal_header q ->
  proposal_shape p = proposal_shape q /\ proposal_queries p = proposal_queries q /\ proposal_hash p = proposal_hash q.
Proof.
  destruct p, q. unfold proposal_header, proposal_shape, proposal_queries, proposal_preimage, proposal_hash. cbn.
  by intros [= -> -> -> -> -> ->].
Qed.

Lemma sample_initial : cluster_initial even_table sample_cluster.
Proof.
  split; [done|]. intros n v Hv. apply elem_of_list_to_map_2 in Hv.
  assert (Hin : exists n', n' ∈ sample_ids /\ sample_member n' = Ok v /\ n = n').
  { unfold sample_members in Hv. apply list_elem_of_omap in Hv as (n' & Hn' & E).
    destruct (sample_member n') as [v'|] eqn:Ev; [|done]. injection E as <- <-. by exists n'. }
  destruct Hin as (n' & Hn' & Ev & ->). unfold sample_member in Ev.
  destruct (validator_new _ _ _ _ _ _) as [v0|] eqn:E0; [|done]. cbn [mbind res_bind] in Ev. injection Ev as <-. split.
  - unfold joined. eexists _, _, _, _, _, v0, _. split; [exact E0|]. split; [|reflexivity].
    apply Forall_cons. split; [cbn; lia|]. apply Forall_fmap, Forall_forall. intros id _. cbn. lia.
  - assert (Hc : vn_consensus v0 = bft_new n' 25).
    { unfold validator_new in E0. destruct (create _); [|done]. cbn [mbind res_bind] in E0. by injection E0 as <-. }
    assert (Hgen : forall l v, validators (vn_consensus (foldl (fun v x => vn_add_peer v x.1 x.2 (lit 1 1)) v l)) =
      foldl (fun m x => <[x.1 := vc_stake x.2]> m) (validators (vn_consensus v)) l).
    { clear. induction l as [|x l IH]; intros v; [done|]. cbn [foldl]. by rewrite IH. }
    rewrite Hgen, Hc. clear Hgen Hc E0 Hv v0.
    assert (n' = b: "a" \/ n' = b: "b" \/ n' = b: "c") as [->|[->| ->]] by (unfold sample_ids in Hn'; set_solver);
      apply (bool_decide_eq_true_1 _); vm_compute; reflexivity.
Qed.

Lemma sample_small c :
  dom (members c) = ({[b: "a"; b: "b"; b: "c"]} : gset bytes) ->
  (forall n, n ∈ dom (members c) -> (100 * stake even_table n < 34 * stake_sum even_table)%Z) /\
  (100 * set_sum (stake even_table) (dom even_table ∖ dom (members c)) < 34 * stake_sum even_table)%Z.
Proof.
  intros Hd. rewrite Hd. split; [|vm_compute; reflexivity].
  intros n Hn. assert (n = b: "a" \/ n = b: "b" \/ n = b: "c") as [->|[->| ->]] by set_solver; vm_compute; reflexivity.
Qed.

(** The two nodes of a run that finalizes. *)
Definition both_finalized (run : option Cluster) (p q : ConsensusProposal) : option (bool * bool * bool) :=
  (fun c => (finalized_by c (b: "a") p, finalized_by c (b: "b") q,
    bool_decide (dom (members c) = ({[b: "a"; b: "b"; b: "c"]} : gset bytes)))) <$> run.

Lemma both_finalized_inv run p q :
  both_finalized run p q = Some (true, true, true) -> exists c v1 v2 b1 b2, run = Some c /\
    dom (members c) = ({[b: "a"; b: "b"; b: "c"]} : gset bytes) /\
    members c !! (b: "a") = Some v1 /\ members c !! (b: "b") = Some v2 /\
    finalized_blocks (vn_consensus v1) !! 4%Z = Some b1 /\ finalized_blocks (vn_consensus v2) !! 4%Z = Some b2 /\
    proposal_header (cb_proposal b1) = proposal_header p /\ proposal_header (cb_proposal b2) = proposal_header q /\
    dom (cp_detection_results (cb_proposal b1)) = dom (cp_detection_results p) /\
    dom (cp_detection_results (cb_proposal b2)) = dom (cp_detection_results q).
Proof.
  unfold both_finalized. destruct run as [c|]; [|done]. cbn [fmap option_fmap option_map].
  intros [= H1 H2 Hd%bool_decide_eq_true].
  apply finalized_by_inv in H1 as (v1 & b1 & ? & ? & ? & ?). apply finalized_by_inv in H2 as (v2 & b2 & ? & ? & ? & ?).
  exists c, v1, v2, b1, b2. by repeat split.
Qed.

Lemma validators_agree_witness :
  exists c v1 v2 b1 b2, sample_run = Some c /\ members c !! (b: "a") = Some v1 /\ members c !! (b: "b") = Some v2 /\
    finalized_blocks (vn_consensus v1) !! 4%Z = Some b1 /\ finalized_blocks (vn_consensus v2) !! 4%Z = Some b2 /\
    proposal_header (cb_proposal b1) = proposal_header (cb_proposal b2).
Proof.
  assert (Hc : both_finalized sample_run proposal_3 proposal_3 = Some (true, true, true)) by (vm_compute; reflexivity).
  apply both_finalized_inv in Hc as (c & v1 & v2 & b1 & b2 & Ec & Hd & En1 & En2 & Eb1 & Eb2 & H1 & H2 & _).
  apply sample_small in Hd as [Hd Hout]. exists c, v1, v2, b1, b2. do 5 (split; [done|]).
  destruct (validators_agree even_table c (b: "a") (b: "b") v1 v2 4 b1 b2) as (h & _ & _ & Hagree);
    [vm_compute; reflexivity| |done..|].
  { exists sample_cluster. split; [exact sample_initial|by apply (cluster_run_steps _ _ _ Ec)]. }
  apply header_hashed in H1 as (S1 & Q1 & _). apply header_hashed in H2 as (S2 & Q2 & _).
  apply Hagree; [by rewrite S1, S2|]. rewrite Q1, Q2. apply collision_free_b_sound. vm_compute. reflexivity.
Defined.

(** [proposal_3] with a result of the detection. *)
Definition proposal_3_detected : ConsensusProposal :=
  mkConsensusProposal (cp_proposer_id proposal_3) (cp_epoch proposal_3) (cp_round proposal_3)
    (cp_measurement_root proposal_3)
    {[b: "c" := mkDetectionResult (b: "c") true (lit 1 1) [] (lit 1 1) 0 (lit 0 1) (lit 0 1)]}
    (cp_transaction_root proposal_3) (cp_state_root proposal_3) (cp_timestamp proposal_3) [].

(** The detection results are not agreed on.  In a reachable cluster, whose proposer sent one node a
    proposal with a detected adversary and the others the same without, two validators finalize
    blocks with one proposal hash that disagree on the adversary. *)
Theorem detection_results_unbound :
  exists c v1 v2 b1 b2, cluster_reachable even_table c /\
    members c !! (b: "a") = Some v1 /\ members c !! (b: "b") = Some v2 /\
    finalized_blocks (vn_consensus v1) !! 4%Z = Some b1 /\ finalized_blocks (vn_consensus v2) !! 4%Z = Some b2 /\
    proposal_hash (cb_proposal b1) = proposal_hash (cb_proposal b2) /\
    (b: "c") ∉ dom (cp_detection_results (cb_proposal b1)) /\ (b: "c") ∈ dom (cp_detection_results (cb_proposal b2)).
Proof.
  set (p := fun n => if bool_decide (n = b: "b") then proposal_3_detected else proposal_3).
  assert (Hc : both_finalized (sample_run_of p) proposal_3 proposal_3_detected = Some (true, true, true))
    by (vm_compute; reflexivity).
  apply both_finalized_inv in Hc as (c & v1 & v2 & b1 & b2 & Ec & _ & En1 & En2 & Eb1 & Eb2 & H1 & H2 & D1 & D2).
  exists c, v1, v2, b1, b2. split.
  { exists sample_cluster. split; [exact sample_initial|by apply (cluster_run_steps _ _ _ Ec)]. }
  do 4 (split; [done|]). apply header_hashed in H1 as (_ & _ & ->). apply header_hashed in H2 as (_ & _ & ->).
  split; [done|]. rewrite D1, D2. split; [apply (bool_decide_eq_true_1 _)|apply (bool_decide_eq_true_1 _)]; vm_compute; reflexivity.
Qed.

End Samples.
