(* ===== verification/Network.v ===== *)
(** * The simulated network ([src/src/network.py])

    [QRTBTestnet] holds the validators of a simulation in one process.  Its epoch calls their
    methods directly ([run_epoch]); the message queue with its delays ([route_messages],
    [deliver_messages], [process_all_inboxes]) is a second way of delivery, which the epoch
    does not use.  The loops run over the dictionary of validators, which is keyed by their
    identities; the clock is a stream read in order, and random draws are arguments.  Main
    results here: routing and delivery neither lose nor duplicate a message and deliver by
    time ([messages_delivered_in_order]); the epochs are the subject of [NetworkEpoch.v]. *)

From stdpp Require Import prelude list gmap strings sorting.
From Stdlib Require Import Strings.Byte ZArith Lia SpecFloat.
From S2P Require Import Prelude.
From S2P Require Import Dict.
From S2P Require Import PyFloat.
From S2P Require Import Crypto.
From S2P Require Import Consensus.
From S2P Require Import Measurement.
From S2P Require Import Epoch.
From S2P Require Import Detection.
From S2P Require Import Validator.

Set Default Goal Selector "!".

(** ** Data *)

Record NetworkConfig := mkNetworkConfig {
  num_zones : Z;
  validators_per_zone : Z;
  shards_per_zone : Z;
  base_stake : Z;
  adversary_percentage : float64;
  message_delay_ms : float64;
}.

(** An entry of the message queue; the type tag and the payload are one [Message]. *)
Record QueuedMessage := mkQueued {
  qm_delivery_time : float64;
  qm_sender : bytes;
  qm_target : bytes;
  qm_message : Message;
}.

(** The dictionary [_collect_epoch_stats] returns. *)
Record EpochStats := mkEpochStats {
  es_epoch : Z;
  es_finalized : bool;
  es_duration_ms : float64;
  es_validators : Z;
  es_adversaries : Z;
  es_honest : Z;
  es_adversaries_detected : Z;
  es_false_positives : Z;
  es_detection_rate : float64;
  es_false_positive_rate : float64;
  es_total_stake : Z;
  es_supporting_stake : Z;
  es_consensus_ratio : float64;
  es_messages_processed : Z;
}.

(** The dictionary [_aggregate_stats] returns for a non-empty list. *)
Record RunStats := mkRunStats {
  rs_epochs_run : Z;
  rs_epochs_finalized : Z;
  rs_finalization_rate : float64;
  rs_avg_duration_ms : float64;
  rs_avg_consensus_ratio : float64;
  rs_total_adversaries : Z;
  rs_total_honest : Z;
  rs_adversaries_detected_avg : float64;
  rs_detection_rate : float64;
  rs_false_positives_avg : float64;
  rs_false_positive_rate : float64;
}.

(** The network, with the clock its code and its validators read. *)
Record QRTBTestnet := mkTestnet {
  tn_config : NetworkConfig;
  tn_genesis_time : float64;
  tn_validators : dict bytes ValidatorNode;
  tn_zones : dict Z (list bytes);
  tn_message_queue : list QueuedMessage;
  tn_finalized_blocks : dict Z ConsensusBlock;
  tn_epoch_stats : dict Z EpochStats;
  tn_clock : nat -> float64;
  tn_ticks : nat;
}.

Definition set_validators_dict (n : QRTBTestnet) (vs : dict bytes ValidatorNode) : QRTBTestnet :=
  mkTestnet (tn_config n) (tn_genesis_time n) vs (tn_zones n) (tn_message_queue n)
    (tn_finalized_blocks n) (tn_epoch_stats n) (tn_clock n) (tn_ticks n).

Definition set_zones (n : QRTBTestnet) (zones : dict Z (list bytes)) : QRTBTestnet :=
  mkTestnet (tn_config n) (tn_genesis_time n) (tn_validators n) zones (tn_message_queue n)
    (tn_finalized_blocks n) (tn_epoch_stats n) (tn_clock n) (tn_ticks n).

Definition set_queue (n : QRTBTestnet) (queue : list QueuedMessage) : QRTBTestnet :=
  mkTestnet (tn_config n) (tn_genesis_time n) (tn_validators n) (tn_zones n) queue
    (tn_finalized_blocks n) (tn_epoch_stats n) (tn_clock n) (tn_ticks n).

Definition set_records (n : QRTBTestnet) (blocks : dict Z ConsensusBlock) (stats : dict Z EpochStats)
    : QRTBTestnet :=
  mkTestnet (tn_config n) (tn_genesis_time n) (tn_validators n) (tn_zones n) (tn_message_queue n)
    blocks stats (tn_clock n) (tn_ticks n).

Definition set_ticks (n : QRTBTestnet) (ticks : nat) : QRTBTestnet :=
  mkTestnet (tn_config n) (tn_genesis_time n) (tn_validators n) (tn_zones n) (tn_message_queue n)
    (tn_finalized_blocks n) (tn_epoch_stats n) (tn_clock n) ticks.

(** ** Calls *)

(** A call changes the network and returns or raises. *)
Definition sim (A : Type) : Type := QRTBTestnet -> QRTBTestnet * res A.

#[export] Instance sim_ret : MRet sim := fun A x n => (n, Ok x).
#[export] Instance sim_bind : MBind sim := fun A B k m n =>
  match m n with
  | (n, Ok x) => k x n
  | (n, Err e) => (n, Err e)
  end.

Definition sim_lift {A} (r : res A) : sim A := fun n => (n, r).
Definition sim_get : sim QRTBTestnet := fun n => (n, Ok n).
Definition sim_put (n : QRTBTestnet) : sim unit := fun _ => (n, Ok tt).

(** [time.time()]. *)
Definition sim_now : sim float64 := fun n => (set_ticks n (S (tn_ticks n)), Ok (tn_clock n (tn_ticks n))).

(** A method call on the validator under a key. *)
Definition on_node {A} (id : bytes) (f : ValidatorNode -> ValidatorNode * res A) : sim A := fun n =>
  match dict_get id (tn_validators n) with
  | None => (n, Err KeyError)
  | Some v => let '(v, r) := f v in (set_validators_dict n (dict_set id v (tn_validators n)), r)
  end.

Definition on_bft {A} (id : bytes) (f : BFTConsensus -> BFTConsensus * res A) : sim A :=
  on_node id (fun v => let '(s, r) := f (vn_consensus v) in (set_consensus v s, r)).

(** [for x in l: body(x)]. *)
Fixpoint for_each {A} (body : A -> sim unit) (l : list A) : sim unit :=
  match l with
  | [] => mret tt
  | x :: l => _ ← body x; for_each body l
  end.

(** The results of a loop, in order. *)
Fixpoint collect {A B} (body : A -> sim B) (l : list A) : sim (list B) :=
  match l with
  | [] => mret []
  | x :: l => y ← body x; ys ← collect body l; mret (y :: ys)
  end.

(** A loop that breaks at the first result. *)
Fixpoint first_of {A B} (body : A -> sim (option B)) (l : list A) : sim (option B) :=
  match l with
  | [] => mret None
  | x :: l =>
      r ← body x;
      match r with
      | Some y => mret (Some y)
      | None => first_of body l
      end
  end.

(** The keys of [self.validators], in the order of its values. *)
Definition node_ids : sim (list bytes) := fun n => (n, Ok (dict_keys (tn_validators n))).

(** The other validators of a list. *)
Definition others (id : bytes) (ids : list bytes) : list bytes := filter (fun peer => peer <> id) ids.

Section Network.
Context `{Hashlib, PyRandom, Libm}.

(** ** Set-up *)

(** What the constructor of one validator draws at random. *)
Record NodeDraw := mkDraw {
  dr_stake_offset : Z;
  dr_location : nat;
  dr_id : bytes;
  dr_key_seed : bytes;
  dr_entropy_seed : bytes;
}.

Definition testnet_new (config : NetworkConfig) (clock : nat -> float64) : QRTBTestnet :=
  mkTestnet config (clock 0) [] [] [] [] [] clock 1.

Definition add_validator (zone_id : Z) (is_adversary : bool) (d : NodeDraw) : sim unit :=
  n ← sim_get;
  match validator_config zone_id (base_stake (tn_config n) + dr_stake_offset d) None None
          is_adversary (dr_location d) with
  | None => sim_lift (Err (IndexError "Cannot choose from an empty sequence"))
  | Some config =>
      now ← sim_now;
      node ← sim_lift (validator_new config (dr_id d) (dr_key_seed d) (dr_entropy_seed d)
                         (Some (tn_genesis_time n)) now);
      n ← sim_get;
      let n := set_validators_dict n (dict_set (vn_validator_id node) node (tn_validators n)) in
      sim_put (set_zones n (dict_set zone_id
        (default [] (dict_get zone_id (tn_zones n)) ++ [vn_validator_id node]) (tn_zones n)))
  end.

(** The nested loops over the zones and their validators; the index counts all of them. *)
Fixpoint create_validators (draws : nat -> NodeDraw) (adversary_indices : list Z) (zones : list Z)
    (validator_index : nat) : sim unit :=
  match zones with
  | [] => mret tt
  | zone_id :: zones =>
      _ ← add_validator zone_id (bool_decide (Z.of_nat validator_index ∈ adversary_indices))
            (draws validator_index);
      create_validators draws adversary_indices zones (S validator_index)
  end.

Definition zone_plan (c : NetworkConfig) : list Z :=
  concat (map (fun z => replicate (Z.to_nat (validators_per_zone c)) (Z.of_nat z))
            (seq 0 (Z.to_nat (num_zones c)))).

Definition connect_validators : sim unit :=
  ids ← node_ids;
  for_each (fun id => for_each (fun peer =>
      n ← sim_get;
      match dict_get peer (tn_validators n) with
      | None => sim_lift (Err KeyError)
      | Some p =>
          now ← sim_now;
          on_node id (fun v => (vn_add_peer v (vn_validator_id p) (vn_config p) now, Ok tt))
      end) (others id ids)) ids.

(** [adversary_indices] is the sample of [random.sample]. *)
Definition initialize_network (adversary_indices : list Z) (draws : nat -> NodeDraw) : sim unit :=
  n ← sim_get;
  let c := tn_config n in
  let total := (num_zones c * validators_per_zone c)%Z in
  num_adversaries ← sim_lift (int_of_float (float_mul (float_of_Z total) (adversary_percentage c)));
  if (num_adversaries <? 0)%Z || (Z.max 0 total <? num_adversaries)%Z
  then sim_lift (Err (ValueError "Sample larger than population or is negative"))
  else
    _ ← create_validators draws adversary_indices (zone_plan c) 0;
    connect_validators.

(** ** Message routing *)

(** [jitter] is the drawn factor. *)
Definition calculate_delay (config : NetworkConfig) (sender target : ValidatorNode) (jitter : float64)
    : res float64 :=
  distance ← haversine_distance_km (vc_location (vn_config sender)) (vc_location (vn_config target));
  let theoretical := float_div (theoretical_rtt_ms distance) (lit 2 1) in
  let actual := float_mul theoretical jitter in
  Ok (if float_lt (message_delay_ms config) actual then actual else message_delay_ms config).

(** One message of an outbox; the [k]-th entry of the queue takes the [k]-th jitter. *)
Definition route_message (jitter : nat -> float64) (sender : bytes) (out : bytes * Message) : sim unit :=
  n ← sim_get;
  match dict_get sender (tn_validators n), dict_get out.1 (tn_validators n) with
  | Some node, Some target =>
      delay ← sim_lift (calculate_delay (tn_config n) node target (jitter (length (tn_message_queue n))));
      now ← sim_now;
      n ← sim_get;
      sim_put (set_queue n (tn_message_queue n ++
        [mkQueued (float_add now (float_div delay (lit 1000 1))) sender out.1 out.2]))
  | _, _ => mret tt
  end.

(** Insertion after the entries that are not later: [list.sort] is stable.  A delivery time
    that is not a number has no place in its order; here it counts as the latest. *)
Fixpoint insert_by_time (m : QueuedMessage) (queue : list QueuedMessage) : list QueuedMessage :=
  match queue with
  | [] => [m]
  | m' :: queue =>
      if float_lt (qm_delivery_time m) (qm_delivery_time m') then m :: m' :: queue
      else m' :: insert_by_time m queue
  end.

Definition sort_by_time (queue : list QueuedMessage) : list QueuedMessage :=
  foldl (fun q m => insert_by_time m q) [] queue.

Definition route_messages (jitter : nat -> float64) : sim unit :=
  ids ← node_ids;
  _ ← for_each (fun id =>
        messages ← on_node id (fun v => let '(v, out) := deliver_outbox v in (v, Ok out));
        for_each (route_message jitter id) messages) ids;
  n ← sim_get;
  sim_put (set_queue n (sort_by_time (tn_message_queue n))).

(** The loop of [_deliver_messages] over the queue. *)
Fixpoint deliver_ready (now : float64) (queue : list QueuedMessage) (delivered : Z) : sim Z :=
  match queue with
  | [] => mret delivered
  | m :: queue =>
      if float_le (qm_delivery_time m) now then
        n ← sim_get;
        _ ← sim_put (set_queue n queue);
        match dict_get (qm_target m) (tn_validators n) with
        | Some _ =>
            _ ← on_node (qm_target m) (fun v =>
                  (set_queues v (vn_inbox v ++ [qm_message m]) (vn_outbox v), Ok tt));
            deliver_ready now queue (delivered + 1)
        | None => deliver_ready now queue delivered
        end
      else mret delivered
  end.

Definition deliver_messages : sim Z :=
  now ← sim_now;
  n ← sim_get;
  deliver_ready now (tn_message_queue n) 0.

(** Each validator handles its inbox at one reading of the clock. *)
Definition process_all_inboxes : sim unit :=
  ids ← node_ids;
  for_each (fun id => now ← sim_now; on_node id (fun v => process_inbox v now)) ids.

(** ** An epoch *)

Definition start_phase (epoch : Z) (ids : list bytes) : sim unit :=
  for_each (fun id => now ← sim_now; on_node id (fun v => vn_start_epoch v epoch now)) ids.

(** The deviates and nonces are those of the validator that measures. *)
Definition measurement_phase (gauss : bytes -> nat -> float64 -> float64 -> float64)
    (nonces : bytes -> nat -> bytes) (ids : list bytes) : sim unit :=
  for_each (fun id =>
    now ← sim_now;
    _ ← on_node id (fun v => run_measurement_phase v (gauss id) (nonces id) now);
    now ← sim_now;
    _ ← on_node id (fun v => create_measurement_commitment v now);
    mret tt) ids.

Definition commit_phase (ids : list bytes) : sim unit :=
  for_each (fun id =>
    commitment ← on_node id (fun v => (v, Ok (vn_current_commitment v)));
    match commitment with
    | None => mret tt
    | Some c =>
        for_each (fun peer => on_node peer (fun v => ((vn_receive_commitment v c).1, Ok tt)))
          (others id ids)
    end) ids.

Definition reveal_phase (ids : list bytes) : sim unit :=
  for_each (fun id =>
    reveal ← on_node id (fun v => let '(v, r) := vn_create_reveal v in (v, Ok r));
    for_each (fun peer => _ ← on_node peer (fun v => vn_receive_reveal v reveal); mret tt)
      (others id ids)) ids.

(** The proposer's input: every validator's own measurements and location. *)
Definition network_measurements : sim (graph * dict bytes location) := fun n =>
  (n, Ok (map (fun kv => (kv.1, vn_current_measurements kv.2)) (tn_validators n),
          map (fun kv => (kv.1, vc_location (vn_config kv.2))) (tn_validators n))).

Definition propose_as (id : bytes) (ms : graph) (locations : dict bytes location)
    : sim (bytes * ConsensusProposal) :=
  now ← sim_now;
  p ← on_bft id (fun s => propose s ms locations now);
  mret (id, p).

(** The first validator that takes itself for the proposer, or else the first one. *)
Definition choose_proposal (ms : graph) (locations : dict bytes location) (ids : list bytes)
    : sim (bytes * ConsensusProposal) :=
  found ← first_of (fun id =>
    mine ← on_bft id (fun s => (s, am_i_proposer s));
    if (mine : bool) then (x ← propose_as id ms locations; mret (Some x)) else mret None) ids;
  match found, ids with
  | Some x, _ => mret x
  | None, id :: _ => propose_as id ms locations
  | None, [] => sim_lift (Err (IndexError "list index out of range"))
  end.

Definition proposal_phase (proposer : bytes) (p : ConsensusProposal) (ids : list bytes) : sim unit :=
  for_each (fun id => _ ← on_bft id (fun s => receive_proposal s p); mret tt) (others proposer ids).

(** One vote object goes around; each receiver may overwrite its stake. *)
Fixpoint send_vote
    (receive : BFTConsensus -> ConsensusVote -> BFTConsensus * ConsensusVote * (bool * string))
    (vote : ConsensusVote) (ids : list bytes) : sim unit :=
  match ids with
  | [] => mret tt
  | id :: ids =>
      if bool_decide (id = cv_voter_id vote) then send_vote receive vote ids
      else
        vote ← on_bft id (fun s => let '(s, vote, _) := receive s vote in (s, Ok vote));
        send_vote receive vote ids
  end.

Definition pre_vote_phase (h : bytes) (ids : list bytes) : sim unit :=
  all_votes ← collect (fun id => now ← sim_now; on_bft id (fun s => create_pre_vote s h now)) ids;
  for_each (fun vote => send_vote receive_pre_vote vote ids) all_votes.

Definition pre_commit_phase (h : bytes) (ids : list bytes) : sim unit :=
  commits ← collect (fun id => now ← sim_now; on_bft id (fun s => create_pre_commit s h now)) ids;
  for_each (fun vote => send_vote receive_pre_commit vote ids) (omap id commits).

Definition finalize_phase (epoch : Z) (h : bytes) (ids : list bytes) : sim (option ConsensusBlock) :=
  found ← first_of (fun id => now ← sim_now; on_bft id (fun s => try_finalize s h now)) ids;
  match found with
  | None => mret None
  | Some block =>
      n ← sim_get;
      _ ← sim_put (set_records n (dict_set epoch block (tn_finalized_blocks n)) (tn_epoch_stats n));
      mret (Some block)
  end.

(** ** Statistics *)

(** Suspicious verdicts on the validators that are, or are not, adversaries. *)
Definition count_verdicts (vs : dict bytes ValidatorNode) (block : option ConsensusBlock)
    (adversary : bool) : Z :=
  match block with
  | None => 0
  | Some b =>
      count_true (map (fun kv =>
        dr_is_suspicious kv.2 &&
        match dict_get kv.1 vs with
        | Some node => Bool.eqb (vc_is_adversary (vn_config node)) adversary
        | None => false
        end) (map_to_list (cp_detection_results (cb_proposal b))))
  end.

Definition collect_epoch_stats (vs : dict bytes ValidatorNode) (epoch : Z)
    (block : option ConsensusBlock) (duration : float64) : res EpochStats :=
  let nodes := map snd vs in
  let total_validators := Z.of_nat (length nodes) in
  let total_adversaries := count_true (map (fun v => vc_is_adversary (vn_config v)) nodes) in
  let total_honest := (total_validators - total_adversaries)%Z in
  let adversaries_detected := count_verdicts vs block true in
  let false_positives := count_verdicts vs block false in
  let total_stake := sumZ (map (fun v => vc_stake (vn_config v)) nodes) in
  let supporting_stake := match block with Some b => cb_supporting_stake b | None => 0%Z end in
  detection_rate ← truediv adversaries_detected (Z.max total_adversaries 1);
  false_positive_rate ← truediv false_positives (Z.max total_honest 1);
  consensus_ratio ← (if (total_stake =? 0)%Z then Ok (lit 0 1) else truediv supporting_stake total_stake);
  Ok (mkEpochStats epoch (match block with Some _ => true | None => false end)
        (float_mul duration (lit 1000 1)) total_validators total_adversaries total_honest
        adversaries_detected false_positives detection_rate false_positive_rate total_stake
        supporting_stake consensus_ratio
        (sumZ (map (fun v => vs_votes_cast (vn_stats v) + vs_measurements_made (vn_stats v))%Z nodes))).

(** The phases up to the attempt to finalize. *)
Definition run_phases (gauss : bytes -> nat -> float64 -> float64 -> float64)
    (nonces : bytes -> nat -> bytes) (epoch : Z) : sim (option ConsensusBlock) :=
  ids ← node_ids;
  _ ← start_phase epoch ids;
  _ ← measurement_phase gauss nonces ids;
  _ ← commit_phase ids;
  _ ← reveal_phase ids;
  data ← network_measurements;
  chosen ← choose_proposal data.1 data.2 ids;
  _ ← proposal_phase chosen.1 chosen.2 ids;
  h ← sim_lift (proposal_hash chosen.2);
  _ ← pre_vote_phase h ids;
  _ ← pre_commit_phase h ids;
  finalize_phase epoch h ids.

Definition run_epoch (gauss : bytes -> nat -> float64 -> float64 -> float64)
    (nonces : bytes -> nat -> bytes) (epoch : Z) : sim EpochStats :=
  epoch_start ← sim_now;
  block ← run_phases gauss nonces epoch;
  epoch_end ← sim_now;
  n ← sim_get;
  stats ← sim_lift (collect_epoch_stats (tn_validators n) epoch block (float_sub epoch_end epoch_start));
  _ ← sim_put (set_records n (tn_finalized_blocks n) (dict_set epoch stats (tn_epoch_stats n)));
  mret stats.

(** ** A run *)

(** [None] is the empty dictionary.  A consensus ratio of no stake counts as the float 0. *)
Definition aggregate_stats (all_stats : list EpochStats) : res (option RunStats) :=
  match all_stats with
  | [] => Ok None
  | first :: _ =>
      let n := Z.of_nat (length all_stats) in
      let finalized_count := count_true (map es_finalized all_stats) in
      avg_duration ← stat_mean (map es_duration_ms all_stats);
      avg_consensus ← stat_mean (map es_consensus_ratio all_stats);
      avg_detection ← stat_mean (map es_detection_rate all_stats);
      avg_fp_rate ← stat_mean (map es_false_positive_rate all_stats);
      finalization_rate ← truediv finalized_count n;
      detected_avg ← truediv (sumZ (map es_adversaries_detected all_stats)) n;
      fp_avg ← truediv (sumZ (map es_false_positives all_stats)) n;
      Ok (Some (mkRunStats n finalized_count finalization_rate avg_duration avg_consensus
                  (es_adversaries first) (es_honest first) detected_avg avg_detection fp_avg
                  avg_fp_rate))
  end.

(** The [epoch]-th epoch draws its own deviates and nonces. *)
Definition run (gauss : nat -> bytes -> nat -> float64 -> float64 -> float64)
    (nonces : nat -> bytes -> nat -> bytes) (num_epochs : Z) : sim (option RunStats) :=
  all_stats ← collect (fun epoch => run_epoch (gauss epoch) (nonces epoch) (Z.of_nat epoch))
                (seq 0 (Z.to_nat num_epochs));
  sim_lift (aggregate_stats all_stats).

(** ** Reporting *)

Definition state_name (st : ValidatorState) : string :=
  match st with
  | INITIALIZING => "INITIALIZING" | SYNCING => "SYNCING" | ACTIVE => "ACTIVE"
  | MEASURING => "MEASURING" | VOTING => "VOTING" | SLASHED => "SLASHED" | OFFLINE => "OFFLINE"
  end.

Record NetworkStatus := mkStatus {
  ns_total_validators : Z;
  ns_zones : Z;
  ns_validator_states : dict string Z;
  ns_zone_info : dict Z (Z * Z);
  ns_finalized_blocks : Z;
  ns_pending_messages : Z;
}.

Definition get_network_status (n : QRTBTestnet) : res NetworkStatus :=
  let states := foldl (fun d kv => let name := state_name (vn_state kv.2) in
                  dict_set name (default 0 (dict_get name d) + 1)%Z d) [] (tn_validators n) in
  zone_info ← res_map (fun kv =>
    flags ← res_map (fun vid => match dict_get vid (tn_validators n) with
                                | Some v => Ok (vc_is_adversary (vn_config v))
                                | None => Err KeyError
                                end) kv.2;
    Ok (kv.1, (Z.of_nat (length kv.2), count_true flags))) (tn_zones n);
  Ok (mkStatus (Z.of_nat (length (tn_validators n))) (Z.of_nat (length (tn_zones n))) states zone_info
        (Z.of_nat (length (tn_finalized_blocks n))) (Z.of_nat (length (tn_message_queue n)))).

End Network.

(** ** Loops *)

Section Loops.

(** The call returns, and its result and final state satisfy [Q]. *)
Definition ensures {A} (m : sim A) (n : QRTBTestnet) (Q : A -> QRTBTestnet -> Prop) : Prop :=
  exists n' a, m n = (n', Ok a) /\ Q a n'.

Lemma ensures_ret {A} (x : A) n (Q : A -> QRTBTestnet -> Prop) : Q x n -> ensures (mret x) n Q.
Proof. intros HQ. by exists n, x. Qed.

Lemma ensures_bind {A B} (m : sim A) (k : A -> sim B) n (Q : A -> QRTBTestnet -> Prop)
    (R : B -> QRTBTestnet -> Prop) :
  ensures m n Q -> (forall a n', Q a n' -> ensures (k a) n' R) -> ensures (m ≫= k) n R.
Proof.
  intros (n' & a & E & HQ) Hk. destruct (Hk a n' HQ) as (n'' & b & E' & HR).
  exists n'', b. split; [|done]. unfold mbind, sim_bind. by rewrite E.
Qed.

Lemma sim_bind_ok {A B} (m : sim A) (k : A -> sim B) n n' a :
  m n = (n', Ok a) -> (m ≫= k) n = k a n'.
Proof. intros E. unfold mbind, sim_bind. by rewrite E. Qed.

Lemma ensures_step {A B} (m : sim A) (k : A -> sim B) n n' a (R : B -> QRTBTestnet -> Prop) :
  m n = (n', Ok a) -> ensures (k a) n' R -> ensures (m ≫= k) n R.
Proof.
  intros E Hk. apply (ensures_bind m k n (fun b n'' => b = a /\ n'' = n')).
  - by exists n', a.
  - by intros ? ? [-> ->].
Qed.

Lemma ensures_mono {A} (m : sim A) n (Q R : A -> QRTBTestnet -> Prop) :
  ensures m n Q -> (forall a n', Q a n' -> R a n') -> ensures m n R.
Proof. intros (n' & a & E & HQ) HR. exists n', a. auto. Qed.

(** A loop keeps an invariant on the elements it has gone through. *)
Lemma ensures_for_each {A} (body : A -> sim unit) (l : list A) n (I : list A -> QRTBTestnet -> Prop) :
  I [] n ->
  (forall before x after n, l = before ++ x :: after -> I before n ->
     ensures (body x) n (fun _ n' => I (before ++ [x]) n')) ->
  ensures (for_each body l) n (fun _ n' => I l n').
Proof.
  intros Hi Hb. assert (Hgen : forall after before n, l = before ++ after -> I before n ->
    ensures (for_each body after) n (fun _ n' => I l n')).
  { induction after as [|x after IH]; intros before n' E HI.
    - rewrite app_nil_r in E. subst. by apply ensures_ret.
    - simpl. eapply ensures_bind; [by eapply Hb|]. intros [] n'' HI'. simpl in HI'.
      eapply IH; [|exact HI']. by rewrite <- app_assoc. }
  by eapply (Hgen l []).
Qed.

(** Only the validators and the count of clock readings have changed. *)
Definition rest (n n' : QRTBTestnet) : Prop :=
  exists vs t, n' = set_ticks (set_validators_dict n vs) t /\ dict_keys vs = dict_keys (tn_validators n).

#[export] Instance rest_preorder : PreOrder rest.
Proof.
  split.
  - intros []. eexists _, _. by split; [reflexivity|].
  - intros n1 n2 n3 (vs & t & -> & E) (vs' & t' & -> & E'). exists vs', t'. split; [done|].
    by rewrite E'.
Qed.

Lemma rest_clock n n' : rest n n' -> tn_clock n' = tn_clock n.
Proof. by intros (? & ? & -> & _). Qed.

Lemma rest_keys n n' : rest n n' -> dict_keys (tn_validators n') = dict_keys (tn_validators n).
Proof. by intros (? & ? & -> & E). Qed.

(** A state in which only the entry of [id] differs, now being [v]. *)
Record only_at (id : bytes) (v : ValidatorNode) (n n' : QRTBTestnet) : Prop := {
  oa_rest : rest n n';
  oa_at : dict_get id (tn_validators n') = Some v;
  oa_others : forall j, j <> id -> dict_get j (tn_validators n') = dict_get j (tn_validators n);
}.

Lemma only_at_trans id v v' n n' n'' : only_at id v n n' -> only_at id v' n' n'' -> only_at id v' n n''.
Proof.
  intros [R1 _ O1] [R2 A2 O2]. split; [by etrans|done|]. intros j Hj. by rewrite O2, O1.
Qed.

Lemma only_at_refl id v n : dict_get id (tn_validators n) = Some v -> only_at id v n n.
Proof. by split. Qed.

Lemma only_at_now id v n :
  dict_get id (tn_validators n) = Some v -> only_at id v n (sim_now n).1.
Proof. intros Hv. split; [|done|done]. exists (tn_validators n), (S (tn_ticks n)). by destruct n. Qed.

Lemma on_node_ok {A} id (f : ValidatorNode -> ValidatorNode * res A) n v v' r :
  dict_get id (tn_validators n) = Some v -> f v = (v', r) ->
  exists n', on_node id f n = (n', r) /\ only_at id v' n n'.
Proof.
  intros Hv Ef. unfold on_node. rewrite Hv, Ef. eexists. split; [reflexivity|]. split.
  - exists (dict_set id v' (tn_validators n)), (tn_ticks n). split; [by destruct n|].
    rewrite dict_set_keys. by rewrite decide_True by (by eapply dict_get_keys).
  - apply dict_get_set_eq.
  - intros j Hj. simpl. by apply dict_get_set_ne.
Qed.

(** A body that acts on the validator [id] alone, taking it from [P] to [Q]. *)
Definition local {A} (clock : nat -> float64) (body : sim A) (id : bytes) (P : ValidatorNode -> Prop)
    (Q : A -> ValidatorNode -> Prop) : Prop :=
  forall n v, tn_clock n = clock -> dict_get id (tn_validators n) = Some v -> P v ->
    exists n' v' a, body n = (n', Ok a) /\ only_at id v' n n' /\ Q a v'.

Lemma local_bind {A B} clock (m : sim A) (k : A -> sim B) id P Q R :
  local clock m id P Q -> (forall a, local clock (k a) id (Q a) R) -> local clock (m ≫= k) id P R.
Proof.
  intros Hm Hk n v Hc Hv HP. destruct (Hm n v Hc Hv HP) as (n1 & v1 & a & E1 & O1 & HQ).
  destruct (Hk a n1 v1) as (n2 & v2 & b & E2 & O2 & HR); [|apply O1|done|].
  { by rewrite (rest_clock _ _ (oa_rest _ _ _ _ O1)). }
  exists n2, v2, b. split; [|split; [by eapply only_at_trans|done]]. unfold mbind, sim_bind. by rewrite E1.
Qed.

Lemma local_ret {A} clock (x : A) id P : local clock (mret x) id P (fun a v => a = x /\ P v).
Proof. intros n v _ Hv HP. exists n, v, x. split; [done|]. split; [by apply only_at_refl|done]. Qed.

Lemma local_now clock id (P : ValidatorNode -> Prop) :
  local clock sim_now id P (fun a v => (exists k, a = clock k) /\ P v).
Proof.
  intros n v Hc Hv HP. exists (sim_now n).1, v, (tn_clock n (tn_ticks n)). split; [done|].
  split; [by apply only_at_now|]. rewrite Hc. eauto.
Qed.

Lemma local_on_node {A} clock id (f : ValidatorNode -> ValidatorNode * res A) P
    (Q : A -> ValidatorNode -> Prop) :
  (forall v, P v -> exists v' a, f v = (v', Ok a) /\ Q a v') -> local clock (on_node id f) id P Q.
Proof.
  intros Hf n v _ Hv HP. destruct (Hf v HP) as (v' & a & Ef & HQ).
  destruct (on_node_ok id f n v v' (Ok a) Hv Ef) as (n' & E & O). by exists n', v', a.
Qed.

(** Every validator satisfies the predicate of its key. *)
Definition nodes_are (P : bytes -> ValidatorNode -> Prop) (n : QRTBTestnet) : Prop :=
  forall id v, dict_get id (tn_validators n) = Some v -> P id v.

Lemma nodes_only_at (P Q : bytes -> ValidatorNode -> Prop) id v n n' :
  nodes_are P n -> only_at id v n n' -> Q id v ->
  nodes_are (fun j => if decide (j = id) then Q j else P j) n'.
Proof.
  intros HP [_ Hat Hoth] HQ j w Hj. case_decide as E.
  - subst. by assert (w = v) as -> by congruence.
  - rewrite Hoth in Hj by done. by apply HP.
Qed.

Lemma member_get id n :
  id ∈ dict_keys (tn_validators n) -> exists v, dict_get id (tn_validators n) = Some v.
Proof.
  intros Hin. destruct (dict_get id (tn_validators n)) as [v|] eqn:E; [by exists v|].
  by apply dict_get_None in E.
Qed.

(** A loop of local bodies over distinct validators takes each of them from [P] to [Q]. *)
Lemma local_each clock (body : bytes -> sim unit) (l : list bytes) (P Q : bytes -> ValidatorNode -> Prop) n :
  NoDup l -> l ⊆ dict_keys (tn_validators n) -> tn_clock n = clock -> nodes_are P n ->
  (forall id, id ∈ l -> local clock (body id) id (P id) (fun _ => Q id)) ->
  ensures (for_each body l) n (fun _ n' =>
    rest n n' /\ nodes_are (fun id v => if decide (id ∈ l) then Q id v else P id v) n').
Proof.
  intros Hnd Hsub Hc HP Hb. apply (ensures_for_each body l n (fun before n' =>
    rest n n' /\ nodes_are (fun id v => if decide (id ∈ before) then Q id v else P id v) n')).
  - split; [done|]. intros id v Hv. rewrite decide_False by apply not_elem_of_nil. by apply HP.
  - intros before x after n1 El [Hr HI].
    assert (Hx : x ∈ l) by (rewrite El; set_solver).
    assert (Hxb : x ∉ before).
    { intros Hin. rewrite El in Hnd. apply NoDup_app in Hnd as (_ & Hd & _). apply (Hd x Hin). by left. }
    destruct (member_get x n1) as [v Hv]; [rewrite (rest_keys _ _ Hr); by apply Hsub|].
    destruct (Hb x Hx n1 v) as (n2 & v2 & [] & E & O & HQ); [by rewrite (rest_clock _ _ Hr)|done| |].
    { pose proof (HI x v Hv) as HPx. simpl in HPx. by rewrite decide_False in HPx. }
    exists n2, tt. split; [done|]. split; [by etrans; [|apply O]|].
    intros j w Hj. pose proof (nodes_only_at _ Q x v2 n1 n2 HI O HQ j w Hj) as Hjw.
    simpl in Hjw. repeat case_decide; try done; set_solver.
Qed.

(** The same for a loop that collects results, each related to its validator by [V]. *)
Lemma local_collect {B} clock (body : bytes -> sim B) (l : list bytes)
    (P Q : bytes -> ValidatorNode -> Prop) (V : bytes -> B -> Prop) n :
  NoDup l -> l ⊆ dict_keys (tn_validators n) -> tn_clock n = clock -> nodes_are P n ->
  (forall id, id ∈ l -> local clock (body id) id (P id) (fun b v => V id b /\ Q id v)) ->
  ensures (collect body l) n (fun bs n' =>
    Forall2 V l bs /\ rest n n' /\
    nodes_are (fun id v => if decide (id ∈ l) then Q id v else P id v) n').
Proof.
  revert P n. induction l as [|x l IH]; intros P n Hnd Hsub Hc HP Hb.
  { apply ensures_ret. split; [constructor|]. split; [done|]. intros id v Hv.
    rewrite decide_False by apply not_elem_of_nil. by apply HP. }
  apply NoDup_cons in Hnd as [Hx Hnd]. simpl.
  destruct (member_get x n) as [v Hv]; [apply Hsub; by left|].
  destruct (Hb x ltac:(by left) n v Hc Hv (HP x v Hv)) as (n1 & v1 & b & E & O & HV & HQ).
  pose proof (oa_rest _ _ _ _ O) as Hr.
  apply (ensures_step _ _ _ _ _ _ E).
  destruct (IH (fun j => if decide (j = x) then Q j else P j) n1) as (n2 & bs & E2 & HVs & Hr2 & HN2); try done.
  - rewrite (rest_keys _ _ Hr). set_solver.
  - by rewrite (rest_clock _ _ Hr).
  - by apply (nodes_only_at P Q x v1 n).
  - intros id Hid. rewrite decide_False by set_solver. apply Hb. by right.
  - apply (ensures_step _ _ _ _ _ _ E2).
    apply ensures_ret. split; [by constructor|]. split; [by etrans|].
    intros j w Hj. pose proof (HN2 j w Hj) as HN. simpl in HN. repeat case_decide; try done; set_solver.
Qed.

End Loops.

(** ** Routing and delivery *)

Section Routing.
Context `{Libm}.

(** Sender, target and message of the outbox entries of [id] that have a known target. *)
Definition deliverable (vs : dict bytes ValidatorNode) (id : bytes) (out : list (bytes * Message))
    : list (bytes * bytes * Message) :=
  map (fun o => (id, o.1, o.2)) (filter (fun o => o.1 ∈ dict_keys vs) out).

(** All of them, in the order of the validators. *)
Definition sent (n : QRTBTestnet) : list (bytes * bytes * Message) :=
  concat (map (fun id => deliverable (tn_validators n) id
                (default [] (vn_outbox <$> dict_get id (tn_validators n)))) (dict_keys (tn_validators n))).

Definition unstamped (m : QueuedMessage) : bytes * bytes * Message :=
  (qm_sender m, qm_target m, qm_message m).

(** The distance between any two validators can be computed. *)
Definition distances_ok (n : QRTBTestnet) : Prop :=
  forall a b va vb, dict_get a (tn_validators n) = Some va -> dict_get b (tn_validators n) = Some vb ->
    is_Ok (haversine_distance_km (vc_location (vn_config va)) (vc_location (vn_config vb))).

(** The queue has grown by entries for the messages [sent]; the validators are [vs]. *)
Record routed (vs : bytes -> option ValidatorNode) (n : QRTBTestnet) (sent : list (bytes * bytes * Message))
    (n' : QRTBTestnet) : Prop := {
  ro_nodes id : dict_get id (tn_validators n') = vs id;
  ro_keys : dict_keys (tn_validators n') = dict_keys (tn_validators n);
  ro_clock : tn_clock n' = tn_clock n;
  ro_queue : exists new, tn_message_queue n' = tn_message_queue n ++ new /\ map unstamped new = sent;
}.

Lemma routed_trans vs vs' n n1 n2 l l' :
  routed vs n l n1 -> routed vs' n1 l' n2 -> routed vs' n (l ++ l') n2.
Proof.
  intros [_ K1 C1 (w1 & Q1 & M1)] [N2 K2 C2 (w2 & Q2 & M2)].
  split; [done|congruence|congruence|]. exists (w1 ++ w2).
  by rewrite Q2, Q1, app_assoc, map_app, M1, M2.
Qed.

Lemma route_message_ok jitter id n o :
  distances_ok n -> id ∈ dict_keys (tn_validators n) ->
  ensures (route_message jitter id o) n (fun _ =>
    routed (fun j => dict_get j (tn_validators n)) n (deliverable (tn_validators n) id [o])).
Proof.
  intros Hd [v Hv]%member_get. unfold route_message. eapply ensures_step; [reflexivity|]. rewrite Hv.
  unfold deliverable. rewrite filter_cons, filter_nil.
  destruct (dict_get o.1 (tn_validators n)) as [w|] eqn:Hw.
  - rewrite decide_True by (by eapply dict_get_keys). unfold calculate_delay.
    destruct (Hd id o.1 v w Hv Hw) as [dist ->]. rewrite bind_Ok.
    repeat (eapply ensures_step; [reflexivity|]). eexists _, tt. split; [reflexivity|].
    split; simpl; try done. by eexists [_].
  - rewrite decide_False by (by apply dict_get_None). apply ensures_ret. split; try done.
    exists []. by rewrite app_nil_r.
Qed.

Lemma route_outbox_ok jitter id n out :
  distances_ok n -> id ∈ dict_keys (tn_validators n) ->
  ensures (for_each (route_message jitter id) out) n (fun _ =>
    routed (fun j => dict_get j (tn_validators n)) n (deliverable (tn_validators n) id out)).
Proof.
  intros Hd Hin. apply (ensures_for_each _ _ _ (fun before =>
    routed (fun j => dict_get j (tn_validators n)) n (deliverable (tn_validators n) id before))).
  - split; try done. exists []. by rewrite app_nil_r.
  - intros before o after n1 _ HI. pose proof HI as [Hn Hk _ _]. eapply ensures_mono.
    + apply route_message_ok; [|by rewrite Hk]. intros a b va vb. rewrite !Hn. apply Hd.
    + intros [] n2 H2. destruct (routed_trans _ _ _ _ _ _ _ HI H2) as [N2 K2 C2 Q2]. split; [|done..|].
      * intros j. by rewrite N2, Hn.
      * destruct Q2 as (new & Q2 & M2). exists new. split; [done|]. rewrite M2. unfold deliverable.
        by rewrite Hk, filter_app, map_app.
Qed.

(** The outboxes of the validators in [l] emptied. *)
Definition cleared (l : list bytes) (vs : dict bytes ValidatorNode) (id : bytes) : option ValidatorNode :=
  (fun v => if decide (id ∈ l) then set_queues v (vn_inbox v) [] else v) <$> dict_get id vs.

Lemma cleared_distances l n n' :
  distances_ok n -> (forall id, dict_get id (tn_validators n') = cleared l (tn_validators n) id) ->
  distances_ok n'.
Proof.
  intros Hd He a b va vb. rewrite !He. unfold cleared.
  intros (wa & Ha & ->)%fmap_Some (wb & Hb & ->)%fmap_Some.
  destruct (Hd a b wa wb Ha Hb) as [d Ed]. exists d. by repeat case_decide.
Qed.

Lemma route_node_ok jitter id n :
  distances_ok n -> id ∈ dict_keys (tn_validators n) ->
  ensures (messages ← on_node id (fun v => let '(v, out) := deliver_outbox v in (v, Ok out));
           for_each (route_message jitter id) messages) n (fun _ =>
    routed (cleared [id] (tn_validators n)) n (deliverable (tn_validators n) id
      (default [] (vn_outbox <$> dict_get id (tn_validators n))))).
Proof.
  intros Hd Hin. destruct (member_get id n Hin) as [v Hv]. rewrite Hv. simpl.
  destruct (on_node_ok id (fun v => let '(v, out) := deliver_outbox v in (v, Ok out)) n v _ _ Hv eq_refl)
    as (n1 & E1 & [(vs & t & -> & K1) A1 O1]). apply (ensures_step _ _ _ _ _ _ E1). simpl in A1, O1.
  assert (Hc : forall j, dict_get j vs = cleared [id] (tn_validators n) j).
  { intros j. unfold cleared. destruct (decide (j = id)) as [->|Hne].
    - rewrite A1, Hv. simpl. by rewrite decide_True by (by left).
    - rewrite O1 by done. destruct (dict_get j (tn_validators n)); [simpl|done].
      rewrite decide_False; [done|]. by rewrite list_elem_of_singleton. }
  eapply ensures_mono; [apply route_outbox_ok|].
  - by apply (cleared_distances [id] n).
  - simpl. by rewrite K1.
  - intros [] n2 [N2 K2 C2 Q2]. simpl in *. split; [|congruence|done|].
    + intros j. by rewrite N2.
    + unfold deliverable in *. by rewrite <- K1.
Qed.

Lemma cleared_app l l' vs vs' id :
  dict_get id vs' = cleared l vs id -> cleared l' vs' id = cleared (l ++ l') vs id.
Proof.
  unfold cleared. intros ->. destruct (dict_get id vs); [|done]. simpl.
  f_equal. repeat case_decide; try done; set_solver.
Qed.

(** Routing empties the outboxes into the queue. *)
Lemma route_loop_ok jitter n :
  dict_wf (tn_validators n) -> distances_ok n ->
  ensures (for_each (fun id =>
        messages ← on_node id (fun v => let '(v, out) := deliver_outbox v in (v, Ok out));
        for_each (route_message jitter id) messages) (dict_keys (tn_validators n))) n (fun _ =>
    routed (cleared (dict_keys (tn_validators n)) (tn_validators n)) n (sent n)).
Proof.
  intros Hwf Hd. set (box id := deliverable (tn_validators n) id
    (default [] (vn_outbox <$> dict_get id (tn_validators n)))).
  apply (ensures_for_each _ _ _ (fun before =>
    routed (cleared before (tn_validators n)) n (concat (map box before)))).
  - split; try done.
    + intros id. unfold cleared. by destruct (dict_get id (tn_validators n)).
    + exists []. by rewrite app_nil_r.
  - intros before id after n1 El HI. pose proof HI as [Hn Hk _ _].
    assert (Hid : id ∉ before).
    { intros Hin. unfold dict_wf in Hwf. rewrite El in Hwf. apply NoDup_app in Hwf as (_ & Hx & _).
      apply (Hx id Hin). by left. }
    eapply ensures_mono; [apply route_node_ok|].
    + by apply (cleared_distances before n).
    + rewrite Hk, El. set_solver.
    + intros [] n2 H2. destruct (routed_trans _ _ _ _ _ _ _ HI H2) as [N2 K2 C2 Q2]. split; [|done..|].
      * intros j. rewrite N2. by apply cleared_app.
      * destruct Q2 as (new & Q2 & M2). exists new. split; [done|].
        rewrite M2, map_app, concat_app. simpl. rewrite app_nil_r. f_equal. unfold box, deliverable.
        rewrite Hk, Hn. unfold cleared. destruct (dict_get id (tn_validators n)); [|done].
        simpl. by rewrite decide_False.
Qed.

(** ** The queue in order of delivery *)

(** Delivery times in ascending order. *)
Definition not_later (m m' : QueuedMessage) : Prop :=
  cmp_ge (fun x y => float_cmp y x) (qm_delivery_time m) (qm_delivery_time m').

#[local] Instance not_later_trans : Transitive not_later.
Proof. intros x y z Hxy Hyz. by eapply (cmp_ge_trans float_cmp float_cmp_lawful); [exact Hyz|exact Hxy]. Qed.

Definition timed (queue : list QueuedMessage) : Prop :=
  Forall (fun m => qm_delivery_time m <> S754_nan) queue.

Definition in_order (queue : list QueuedMessage) : Prop := StronglySorted not_later queue.

Lemma float_lt_cmp x y : x <> S754_nan -> y <> S754_nan -> float_lt x y = bool_decide (float_cmp x y = Lt).
Proof.
  intros Hx Hy. unfold float_lt, SFltb. rewrite float_cmp_SFcompare by done. by destruct (float_cmp x y).
Qed.

Lemma float_le_mono x y z :
  x <> S754_nan -> y <> S754_nan -> float_cmp y x <> Lt -> float_le y z = true -> float_le x z = true.
Proof.
  intros Hx Hy Hxy. assert (z = S754_nan \/ z <> S754_nan) as [->|Hz] by (destruct z; by (left + right)); [by destruct x, y|].
  unfold float_le, SFleb. rewrite !float_cmp_SFcompare by done. intros Hyz.
  pose proof (cmp_ge_trans float_cmp float_cmp_lawful z y x) as Ht. unfold cmp_ge in Ht.
  rewrite (cmp_sym (cmp := float_cmp) y z), (cmp_sym (cmp := float_cmp) x z) in Ht. destruct (float_cmp x z); try done. exfalso.
  apply Ht; try done. by destruct (float_cmp y z).
Qed.

Lemma insert_by_time_perm m q : insert_by_time m q ≡ₚ m :: q.
Proof.
  induction q as [|m' q IH]; simpl; [done|]. case_match; [done|]. rewrite IH. apply Permutation_swap.
Qed.

Lemma sort_by_time_perm q : sort_by_time q ≡ₚ q.
Proof.
  unfold sort_by_time. change q with ([] ++ q) at 2. generalize (@nil QueuedMessage).
  induction q as [|m q IH]; intros acc; simpl; [by rewrite app_nil_r|].
  rewrite IH, insert_by_time_perm. simpl. apply Permutation_middle.
Qed.

Lemma insert_by_time_order m q :
  qm_delivery_time m <> S754_nan -> timed q -> in_order q -> in_order (insert_by_time m q).
Proof.
  intros Hm Ht Hq. induction Hq as [|m' q Hq IH Hall]; simpl; [by repeat constructor|].
  apply Forall_cons in Ht as [Hm' Ht]. rewrite float_lt_cmp by done. case_bool_decide as Hlt.
  - constructor; [by constructor|]. assert (Hle : not_later m m').
    { unfold not_later, cmp_ge. by rewrite (cmp_sym (cmp := float_cmp) (qm_delivery_time m)), Hlt. }
    constructor; [done|]. eapply Forall_impl; [exact Hall|]. intros z Hz. by etrans.
  - constructor; [by apply IH|]. rewrite insert_by_time_perm. by constructor.
Qed.

Lemma sort_by_time_order q : timed q -> in_order (sort_by_time q).
Proof.
  intros Ht. unfold sort_by_time.
  assert (Hacc : timed [] /\ in_order []) by (split; constructor). revert Hacc.
  generalize (@nil QueuedMessage). induction Ht as [|m q Hm Ht IH]; intros acc [Ha Ho]; simpl; [done|].
  apply IH. split; [|by apply insert_by_time_order].
  unfold timed. rewrite insert_by_time_perm. by constructor.
Qed.

Definition due (now : float64) (m : QueuedMessage) : Prop := float_le (qm_delivery_time m) now = true.

#[local] Instance due_dec now m : Decision (due now m).
Proof. unfold due. apply _. Defined.

(** The validator [id] after the messages of [delivered] for it have reached its inbox. *)
Definition received (delivered : list QueuedMessage) (id : bytes) (v : ValidatorNode) : ValidatorNode :=
  set_queues v (vn_inbox v ++ map qm_message (filter (fun m => qm_target m = id) delivered)) (vn_outbox v).

Lemma set_queues_id v : set_queues v (vn_inbox v) (vn_outbox v) = v.
Proof. by destruct v. Qed.

(** What the delivery of the due messages [ms] does. *)
Record delivered_to (ms : list QueuedMessage) (n n' : QRTBTestnet) : Prop := {
  de_nodes id : dict_get id (tn_validators n') = received ms id <$> dict_get id (tn_validators n);
  de_keys : dict_keys (tn_validators n') = dict_keys (tn_validators n);
}.

Lemma not_due_rest now m q :
  timed (m :: q) -> in_order (m :: q) -> ~ due now m -> filter (due now) q = [] /\ filter (fun x => ~ due now x) q = q.
Proof.
  intros [Hm Ht]%Forall_cons Ho Hnd. apply StronglySorted_inv in Ho as [_ Ho].
  assert (Hall : Forall (fun x => ~ due now x) q).
  { unfold timed in Ht. rewrite Forall_forall in Ht, Ho. apply Forall_forall. intros x Hx Hd. apply Hnd.
    eapply float_le_mono; [| |by apply Ho|]; eauto. }
  clear -Hall. induction Hall as [|x q Hx Hall [IH1 IH2]]; [done|].
  by rewrite filter_cons_False, filter_cons_True, IH1, IH2.
Qed.

(** The loop delivers exactly what is due. *)
Lemma deliver_ready_ok now queue k n :
  timed queue -> in_order queue -> tn_message_queue n = queue ->
  ensures (deliver_ready now queue k) n (fun c n' =>
    delivered_to (filter (due now) queue) n n' /\
    tn_message_queue n' = filter (fun m => ~ due now m) queue /\
    c = (k + Z.of_nat (length (filter (fun m => qm_target m ∈ dict_keys (tn_validators n))
                                 (filter (due now) queue))))%Z).
Proof.
  revert k n. induction queue as [|m q IH]; intros k n Ht Ho Hq; cbn [deliver_ready].
  { apply ensures_ret. rewrite !filter_nil. split; [|simpl; split; [done|lia]]. split; [|done].
    intros id. destruct (dict_get id (tn_validators n)) as [v|]; [|done]. simpl. unfold received.
    by rewrite filter_nil, app_nil_r, set_queues_id. }
  pose proof Ho as [Hoq _]%StronglySorted_inv. pose proof Ht as [_ Htq]%Forall_cons.
  destruct (float_le (qm_delivery_time m) now) eqn:Hd.
  - rewrite filter_cons_True by done. rewrite (filter_cons_False (fun m => ~ due now m)) by (intros Hn; by apply Hn).
    repeat (eapply ensures_step; [reflexivity|]).
    destruct (dict_get (qm_target m) (tn_validators n)) as [v|] eqn:Hv.
    + destruct (on_node_ok (qm_target m)
        (fun v => (set_queues v (vn_inbox v ++ [qm_message m]) (vn_outbox v), Ok tt)) (set_queue n q) v _ _ Hv eq_refl)
        as (n1 & E1 & [R1 A1 O1]). apply (ensures_step _ _ _ _ _ _ E1).
      eapply ensures_mono; [apply (IH (k + 1)%Z n1); [done..|by destruct R1 as (? & ? & -> & _)]|].
      intros c n2 ([N2 K2] & Q2 & ->). pose proof (rest_keys _ _ R1) as K1. simpl in K1, O1.
      rewrite filter_cons_True by (by eapply dict_get_keys). split; [|split; [done|]].
      * split; [|congruence]. intros id. rewrite N2. unfold received.
        destruct (decide (id = qm_target m)) as [->|Hne].
        -- rewrite A1, Hv. simpl. rewrite filter_cons_True by done. simpl. by rewrite <- app_assoc.
        -- rewrite O1 by done. by rewrite (filter_cons_False _ m) by congruence.
      * rewrite K1. simpl length. lia.
    + eapply ensures_mono; [apply (IH k (set_queue n q)); done|].
      intros c n2 ([N2 K2] & Q2 & ->). apply dict_get_None in Hv as Hk.
      rewrite (filter_cons_False _ m) by done. split; [|done]. split; [|done].
      intros id. rewrite N2. simpl. destruct (decide (id = qm_target m)) as [->|Hne]; [by rewrite Hv|].
      unfold received. by rewrite (filter_cons_False _ m) by congruence.
  - assert (Hnd : ~ due now m) by (unfold due; by rewrite Hd).
    rewrite filter_cons_False, (filter_cons_True (fun m => ~ due now m)) by done.
    destruct (not_due_rest now m q Ht Ho Hnd) as [-> ->]. apply ensures_ret. rewrite filter_nil.
    split; [|simpl; split; [done|lia]]. split; [|done]. intros id.
    destruct (dict_get id (tn_validators n)) as [v|]; [|done]. simpl. unfold received.
    by rewrite filter_nil, app_nil_r, set_queues_id.
Qed.

Lemma cleared_all n :
  (forall id, cleared (dict_keys (tn_validators n)) (tn_validators n) id =
     (fun v => set_queues v (vn_inbox v) []) <$> dict_get id (tn_validators n)).
Proof.
  intros id. unfold cleared. destruct (dict_get id (tn_validators n)) as [v|] eqn:E; [|done].
  simpl. by rewrite decide_True by (by eapply dict_get_keys).
Qed.

(** No message is lost, duplicated or overtaken.  When the distances can be computed, routing
    succeeds: every outbox is emptied, and the queue is a permutation of the old one and of
    exactly the messages for known validators.  If all delivery times are numbers, the queue
    is in order, and a delivery then takes exactly the due messages from it, appends to each
    inbox those addressed to it in order of their delivery times, and reports their number. *)
Theorem messages_delivered_in_order (jitter : nat -> float64) (n : QRTBTestnet)
    (Hwf : dict_wf (tn_validators n)) (Hdist : distances_ok n) :
  exists n1 new, route_messages jitter n = (n1, Ok tt) /\
    tn_message_queue n1 ≡ₚ tn_message_queue n ++ new /\ map unstamped new = sent n /\
    (forall id, dict_get id (tn_validators n1) =
       (fun v => set_queues v (vn_inbox v) []) <$> dict_get id (tn_validators n)) /\
    let now := tn_clock n1 (tn_ticks n1) in
    let ready := filter (due now) (tn_message_queue n1) in
    (timed (tn_message_queue n ++ new) ->
      in_order (tn_message_queue n1) /\
      exists n2, deliver_messages n1 = (n2, Ok (Z.of_nat (length
          (filter (fun m => qm_target m ∈ dict_keys (tn_validators n)) ready)))) /\
        tn_message_queue n2 = filter (fun m => ~ due now m) (tn_message_queue n1) /\
        forall id, dict_get id (tn_validators n2) = received ready id <$> dict_get id (tn_validators n1)).
Proof.
  destruct (route_loop_ok jitter n Hwf Hdist) as (n0 & [] & E & [N0 K0 C0 (new & Q0 & M0)]).
  set (n1 := set_queue n0 (sort_by_time (tn_message_queue n0))). exists n1, new.
  split.
  { unfold route_messages. rewrite (sim_bind_ok node_ids _ n n _ eq_refl).
    by rewrite (sim_bind_ok _ _ _ _ _ E). }
  split. { unfold n1. simpl. by rewrite sort_by_time_perm, Q0. }
  split; [done|]. split. { intros id. unfold n1. simpl. by rewrite N0, cleared_all. }
  intros now ready Ht. assert (Ho : in_order (tn_message_queue n1)).
  { apply sort_by_time_order. by rewrite Q0. }
  split; [done|]. set (n1' := set_ticks n1 (S (tn_ticks n1))).
  destruct (deliver_ready_ok now (tn_message_queue n1) 0 n1') as (n2 & c & E2 & [N2 K2] & Q2 & ->); try done.
  { unfold timed, n1. simpl. by rewrite sort_by_time_perm, Q0. }
  exists n2. unfold deliver_messages, mbind, sim_bind, sim_now, sim_get. fold now. fold n1'.
  change (tn_message_queue n1') with (tn_message_queue n1). rewrite E2.
  change (tn_validators n1') with (tn_validators n0). rewrite K0, Z.add_0_l. done.
Qed.

End Routing.

(** ** A sample network *)

Definition demo_pair : res QRTBTestnet :=
  v1 ← validator_new (H := toy_hashlib) (demo_config 600) (b: "a") [] [] None (lit 1 1);
  v2 ← validator_new (H := toy_hashlib) (demo_config 400) (b: "b") [] [] None (lit 1 1);
  let m := CommitmentMsg (mkCommitment (b: "a") 1 [] [] 1 []) in
  Ok (mkTestnet (mkNetworkConfig 1 2 1 1000 (lit 0 1) (lit 50 1)) (lit 1 1)
    [((b: "a"), set_queues v1 [] [((b: "b"), m); ((b: "z"), m)]); ((b: "b"), v2)]
    [] [] [] [] (fun k => lit (Z.of_nat k) 1) 1).

Lemma messages_delivered_in_order_witness :
  exists n, demo_pair = Ok n /\
    exists n1 new, @route_messages no_libm (fun _ => lit 1 1) n = (n1, Ok tt) /\
      map unstamped new =
        [((b: "a"), (b: "b"), CommitmentMsg (mkCommitment (b: "a") 1 [] [] 1 []))].
Proof.
  destruct demo_pair as [n|] eqn:E; [|discriminate]. exists n. split; [done|].
  unfold demo_pair in E. simpl in E. injection E as <-.
  set (n := mkTestnet _ _ _ _ _ _ _ _ _).
  destruct (@messages_delivered_in_order no_libm (fun _ => lit 1 1) n) as (n1 & new & R & _ & M & _).
  - unfold dict_wf. simpl. repeat constructor; set_solver.
  - intros a c va vc Ha Hc. simpl in Ha, Hc.
    assert (vn_config va = demo_config 600 \/ vn_config va = demo_config 400) as Hva
      by (repeat case_decide; simplify_eq; auto).
    assert (vn_config vc = demo_config 600 \/ vn_config vc = demo_config 400) as Hvc
      by (repeat case_decide; simplify_eq; auto).
    assert (El : forall v, vn_config v = demo_config 600 \/ vn_config v = demo_config 400 ->
      vc_location (vn_config v) = vc_location (demo_config 600)) by (intros v [-> | ->]; done).
    rewrite (El va Hva), (El vc Hvc). eexists. vm_compute. reflexivity.
  - exists n1, new. split; [exact R|]. rewrite M. reflexivity.
Defined.
