(* ===== verification/NetworkEpoch.v ===== *)
(** * An epoch of the simulated network

    In a network in which every validator knows the stake of every other, [run_epoch] of
    [src/src/network.py] either ends with the exception of the detection engine or finalizes a
    block behind which the whole stake stands ([network_epoch_finalizes]); a freshly
    initialized network is such a network, so a run finalizes epoch after epoch
    ([network_run_finalizes]).  The proofs follow the phases: each phase takes every
    validator from one predicate to the next. *)

From stdpp Require Import prelude list gmap strings.
From Stdlib Require Import Strings.Byte ZArith Lia SpecFloat.
From S2P Require Import Prelude.
From S2P Require Import Dict.
From S2P Require Import PyFloat.
From S2P Require Import Crypto.
From S2P Require Import Consensus.
From S2P Require Import Measurement.
From S2P Require Import Epoch.
From S2P Require Import Detection.
From S2P Require Import Validator.
From S2P Require Import Network.

Set Default Goal Selector "!".

(** ** One validator of a connected network *)

Section Member.
Context `{Hashlib, PyRandom, Libm}.
Variable stakes : gmap bytes Z.

(** Measurements that can be hashed. *)
Definition hashable (ms : list RTTMeasurement) : Prop :=
  Forall (fun m => 0 <= rm_timestamp m < 2 ^ 64)%Z ms.

(** It is registered under its own identity and knows every stake; its distances can be
    computed. *)
Record member (id : bytes) (v : ValidatorNode) : Prop := {
  me_id : vn_validator_id v = id;
  me_bft : bft_validator_id (vn_consensus v) = id;
  me_stake : stakes !! id = Some (vc_stake (vn_config v));
  me_bft_stake : bft_stake (vn_consensus v) = vc_stake (vn_config v);
  me_validators : validators (vn_consensus v) = stakes;
  me_total : total_stake (vn_consensus v) = stake_sum stakes;
  me_reach : Forall (fun kv => is_Ok (haversine_distance_km (mp_location (vn_protocol v)) (pi_location kv.2)))
               (mp_peers (vn_protocol v));
}.

(** Its protocol in the epoch: its measurements can be hashed. *)
Record measuring (epoch : Z) (p : MeasurementProtocol) : Prop := {
  ms_epoch : mp_current_epoch p = epoch;
  ms_timestamps : hashable (mp_measurements p);
}.

Lemma combined_hash_total ms :
  hashable ms -> is_Ok (combined_hash ms).
Proof.
  intros Hms. unfold combined_hash.
  rewrite (res_map_total rtt_commitment (fun m => sha3_256 (rm_source_id m ++ rm_target_id m ++
    pack_double (rm_rtt_ms m) ++ be_encode 8 (rm_timestamp m) ++ rm_nonce m))).
  { by eexists. }
  intros m Hm. unfold hashable in Hms. rewrite Forall_forall in Hms. unfold rtt_commitment.
  by rewrite commitment_preimage_ok by (by apply Hms).
Qed.

Lemma reading_to_ms now : reading_ok now -> is_Ok (to_ms now).
Proof. intros (ms & E & _). by exists ms. Qed.

Lemma start_epoch_member id v epoch now :
  member id v -> reading_ok now -> (0 <= em_current_epoch (vn_epoch_manager v) + 1 < 2 ^ 64)%Z ->
  exists v', vn_start_epoch v epoch now = (v', Ok tt) /\ member id v' /\
    vn_consensus v' = start_round (vn_consensus v) epoch 0 /\ measuring epoch (vn_protocol v') /\
    em_current_epoch (vn_epoch_manager v') = (em_current_epoch (vn_epoch_manager v) + 1)%Z.
Proof.
  intros [] Hnow Hn. unfold vn_start_epoch.
  change (vn_epoch_manager (set_state v ACTIVE)) with (vn_epoch_manager v).
  destruct (advance_epoch_ok (vn_epoch_manager v) now (reading_to_ms _ Hnow) Hn) as (m & e & -> & Hc & _).
  destruct (evolve_ok (vn_temporal_key (set_manager (set_state v ACTIVE) m)) (ee_combined_entropy e)) as (k & ->).
  eexists. split; [reflexivity|]. split; [by split|]. split; [done|]. split; [|done].
  split; [done|constructor].
Qed.

(** The loop measures every target that is a peer. *)
Lemma measure_loop_ok p targets timestamp adv gauss nonces ms :
  Forall (fun kv => is_Ok (haversine_distance_km (mp_location p) (pi_location kv.2))) (mp_peers p) ->
  (0 <= timestamp < 2 ^ 64)%Z -> hashable ms ->
  exists ms', measure_loop p targets timestamp adv gauss nonces ms = (ms', Ok tt) /\
    hashable ms'.
Proof.
  intros Hp Ht. revert ms. induction targets as [|target targets IH]; intros ms Hms; simpl; [by exists ms|].
  destruct (dict_get target (mp_peers p)) as [peer|] eqn:E; [|by apply IH].
  rewrite Forall_forall in Hp. destruct (Hp _ (dict_get_in _ _ _ E)) as [d Ed]. simpl in Ed. rewrite Ed.
  apply IH. apply Forall_app. split; [done|]. by apply Forall_singleton.
Qed.

Lemma measurement_member id v epoch gauss nonces now :
  member id v -> measuring epoch (vn_protocol v) -> (0 <= epoch < 2 ^ 64)%Z -> reading_ok now ->
  exists v' ms, run_measurement_phase v gauss nonces now = (v', Ok ms) /\ member id v' /\
    measuring epoch (vn_protocol v') /\ vn_consensus v' = vn_consensus v /\
    vn_epoch_manager v' = vn_epoch_manager v /\
    hashable (vn_current_measurements v').
Proof.
  intros [] [Me Mt] He (ms & Ems & Hms). unfold run_measurement_phase, select_targets.
  change (vn_protocol (set_state v MEASURING)) with (vn_protocol v). rewrite Me.
  rewrite !py_concat_cons, py_concat_nil, concat_arg_int by done. cbn [concat_arg mbind res_bind].
  unfold execute_measurements. rewrite Ems. set (p := set_own _ _ _ _ _).
  destruct (measure_loop_ok p (mp_selected_targets p) ms (vc_is_adversary (vn_config (set_state v MEASURING)))
    gauss nonces []) as (l & El & Hl); [exact me_reach0|done|constructor|].
  rewrite El. eexists _, l. split; [reflexivity|]. split; [by split|]. split; [by split|]. done.
Qed.

Lemma commitment_member id v epoch now :
  member id v -> measuring epoch (vn_protocol v) -> reading_ok now ->
  exists v' c, create_measurement_commitment v now = (v', Ok c) /\ member id v' /\
    measuring epoch (vn_protocol v') /\ is_Some (mp_commitment (vn_protocol v')) /\
    vn_consensus v' = vn_consensus v /\ vn_epoch_manager v' = vn_epoch_manager v /\
    vn_current_measurements v' = vn_current_measurements v.
Proof.
  intros [] [Me Mt] Hnow. unfold create_measurement_commitment, create_commitment.
  destruct (combined_hash_total _ Mt) as [h ->]. destruct (reading_to_ms _ Hnow) as [t ->].
  eexists _, _. split; [reflexivity|]. split; [by split|]. split; [by split|]. split; [by eexists|done].
Qed.

Lemma receive_reveal_member v r :
  hashable (mr_measurements r) -> is_Some (mr_commitment r) ->
  exists p out, vn_receive_reveal v r = (set_protocol v p, Ok out) /\
    mp_location p = mp_location (vn_protocol v) /\ mp_peers p = mp_peers (vn_protocol v) /\
    mp_current_epoch p = mp_current_epoch (vn_protocol v) /\
    mp_measurements p = mp_measurements (vn_protocol v) /\ mp_commitment p = mp_commitment (vn_protocol v).
Proof.
  intros Hr [c Hc]. unfold vn_receive_reveal, receive_reveal, verify_commitment.
  destruct (combined_hash_total _ Hr) as [h ->]. rewrite Hc, bind_Ok.
  repeat case_match; simplify_eq; eexists _, _; (split; [reflexivity|]); done.
Qed.

End Member.

(** ** One consensus in the round *)

Section Round.
Context `{Hashlib}.

(** The round of an epoch as one consensus sees it: the blocks it has finalized, its
    proposals, and who has voted for the proposal [h]; nobody has chosen another one. *)
Record view (epoch : Z) (fin : gmap Z ConsensusBlock) (h : bytes)
    (props : gmap bytes ConsensusProposal) (PV PC : gset bytes) (s : BFTConsensus) : Prop := {
  vw_epoch : current_epoch s = epoch;
  vw_round : current_round s = 0%Z;
  vw_fin : finalized_blocks s = fin;
  vw_props : received_proposals s = props;
  vw_pre_votes : voters (lookup_default [] (pre_votes s) h) = PV;
  vw_pre_commits : voters (lookup_default [] (pre_commits s) h) = PC;
  vw_pv_choices k h' : pre_vote_choices s !! k = Some h' -> h' = h;
  vw_pc_choices k h' : pre_commit_choices s !! k = Some h' -> h' = h;
}.

(** The registry and the own identity are those of another state. *)
Record same_registry (s s' : BFTConsensus) : Prop := {
  sr_id : bft_validator_id s' = bft_validator_id s;
  sr_stake : bft_stake s' = bft_stake s;
  sr_validators : validators s' = validators s;
  sr_total : total_stake s' = total_stake s;
}.

Record ballot (ty : string) (epoch : Z) (h voter : bytes) (w : ConsensusVote) : Prop := {
  bl_voter : cv_voter_id w = voter;
  bl_epoch : cv_epoch w = epoch;
  bl_hash : cv_proposal_hash w = h;
  bl_type : cv_vote_type w = ty;
}.

Lemma view_fresh s epoch h : view epoch (finalized_blocks s) h ∅ ∅ ∅ (start_round s epoch 0).
Proof. split; try done; simpl; intros k h'; by rewrite lookup_empty. Qed.

Lemma same_registry_refl s : same_registry s s.
Proof. done. Qed.

Lemma receive_pre_vote_view epoch fin h props PV PC s w voter :
  view epoch fin h props PV PC s -> ballot "pre-vote" epoch h voter w -> is_Some (validators s !! voter) ->
  exists s' w' out, receive_pre_vote s w = (s', w', out) /\ same_registry s s' /\
    view epoch fin h props (PV ∪ {[voter]}) PC s' /\ ballot "pre-vote" epoch h voter w'.
Proof.
  intros [] [] [st Hst]. unfold receive_pre_vote.
  rewrite vw_epoch0, bl_epoch0, Z.eqb_refl, bl_type0, bl_voter0, Hst. cbn [negb].
  rewrite bool_decide_eq_true_2 by done. cbn [negb]. cbn [with_stake cv_voter_id cv_proposal_hash].
  rewrite bl_voter0, bl_hash0.
  assert ((match pre_vote_choices s !! voter with Some h' => negb (bool_decide (h' = h)) | None => false end)
            = false) as ->.
  { case_match eqn:E; [|done]. by rewrite (vw_pv_choices0 _ _ E), bool_decide_eq_true_2. }
  eexists _, _, _. split; [reflexivity|]. split; [done|]. split; [|done].
  split; try done; simpl.
  - unfold append_vote. by rewrite lookup_default_insert_eq, voters_snoc, vw_pre_votes0, <- bl_voter0.
  - intros k h' [[_ <-]|[_ Hk]]%lookup_insert_Some; [done|]. by eapply vw_pv_choices0.
Qed.

Lemma receive_pre_commit_view epoch fin h props PV PC s w voter :
  view epoch fin h props PV PC s -> ballot "pre-commit" epoch h voter w -> is_Some (validators s !! voter) ->
  exists s' w' out, receive_pre_commit s w = (s', w', out) /\ same_registry s s' /\
    view epoch fin h props PV (PC ∪ {[voter]}) s' /\ ballot "pre-commit" epoch h voter w'.
Proof.
  intros [] [] [st Hst]. unfold receive_pre_commit.
  rewrite vw_epoch0, bl_epoch0, Z.eqb_refl, bl_type0, bl_voter0, Hst. cbn [negb].
  rewrite bool_decide_eq_true_2 by done. cbn [negb]. cbn [with_stake cv_voter_id cv_proposal_hash].
  rewrite bl_voter0, bl_hash0.
  assert ((match pre_commit_choices s !! voter with Some h' => negb (bool_decide (h' = h)) | None => false end)
            = false) as ->.
  { case_match eqn:E; [|done]. by rewrite (vw_pc_choices0 _ _ E), bool_decide_eq_true_2. }
  eexists _, _, _. split; [reflexivity|]. split; [done|]. split; [|done].
  split; try done; simpl.
  - unfold append_vote. by rewrite lookup_default_insert_eq, voters_snoc, vw_pre_commits0, <- bl_voter0.
  - intros k h' [[_ <-]|[_ Hk]]%lookup_insert_Some; [done|]. by eapply vw_pc_choices0.
Qed.

Lemma create_pre_vote_view epoch fin h props PC s now :
  view epoch fin h props ∅ PC s -> reading_ok now ->
  exists s' w, create_pre_vote s h now = (s', Ok w) /\ same_registry s s' /\
    view epoch fin h props {[bft_validator_id s]} PC s' /\
    ballot "pre-vote" epoch h (bft_validator_id s) w.
Proof.
  intros [] (ms & Ems & _). unfold create_pre_vote. rewrite Ems. eexists _, _. split; [reflexivity|].
  split; [done|]. split; [|done]. split; try done. simpl.
  unfold append_vote. rewrite lookup_default_insert_eq, voters_snoc, vw_pre_votes0. simpl. set_solver.
Qed.

(** The whole registered stake is behind a set of voters. *)
Definition everyone (s : BFTConsensus) (voters : gset bytes) : Prop := voters = dom (validators s).

Lemma everyone_threshold s votes :
  stakes_ok s -> (0 < total_stake s < 2 ^ 49)%Z -> everyone s (voters votes) ->
  exists ratio, check_threshold s votes = Ok (true, ratio) /\
    stake_sum (voter_stakes s votes) = total_stake s.
Proof.
  intros Hs Ht He. pose proof (total_stake_set s Hs) as Hsum. rewrite <- He in Hsum.
  rewrite supporting_spec, <- Hsum. destruct (check_threshold_exact s votes Hs) as (r & ->); [lia|].
  exists r. rewrite <- Hsum, (proj2 (Z.ltb_lt _ _)), (proj2 (Z.leb_le _ _)) by lia. done.
Qed.

Lemma create_pre_commit_view epoch fin h props PV s now :
  view epoch fin h props PV ∅ s -> stakes_ok s -> (0 < total_stake s < 2 ^ 49)%Z -> everyone s PV ->
  reading_ok now ->
  exists s' w, create_pre_commit s h now = (s', Ok (Some w)) /\ same_registry s s' /\
    view epoch fin h props PV {[bft_validator_id s]} s' /\
    ballot "pre-commit" epoch h (bft_validator_id s) w.
Proof.
  intros [] Hs Ht He (ms & Ems & _). unfold create_pre_commit, check_pre_vote_threshold.
  rewrite <- vw_pre_votes0 in He.
  destruct (everyone_threshold s _ Hs Ht He) as (r & -> & _). cbn [negb]. rewrite Ems.
  eexists _, _. split; [reflexivity|]. split; [done|]. split; [|done]. split; try done. simpl.
  unfold append_vote. rewrite lookup_default_insert_eq, voters_snoc, vw_pre_commits0. simpl. set_solver.
Qed.

Lemma try_finalize_view epoch fin h p PV PC s now :
  view epoch fin h {[h := p]} PV PC s -> proposal_hash p = Ok h -> stakes_ok s ->
  (0 < total_stake s < 2 ^ 49)%Z -> everyone s PC -> reading_ok now ->
  exists s' b, try_finalize s h now = (s', Ok (Some b)) /\ same_registry s s' /\
    finalized_blocks s' = <[epoch := b]> fin /\ cb_epoch b = epoch /\ cb_proposal b = p /\
    cb_total_stake b = total_stake s /\ cb_supporting_stake b = total_stake s.
Proof.
  intros [] Hh Hs Ht He Hnow. unfold try_finalize, check_pre_commit_threshold.
  rewrite <- vw_pre_commits0 in He. destruct (everyone_threshold s _ Hs Ht He) as (r & -> & Hsum).
  cbn [negb]. rewrite vw_props0, lookup_singleton_eq, Hsum, vw_epoch0, vw_fin0.
  destruct (new_block_ok epoch (current_round s) p h
    (lookup_default [] (pre_votes s) h ++ lookup_default [] (pre_commits s) h) (total_stake s)
    (total_stake s) now Hh Hnow) as (b & -> & B1 & B2 & B3 & B4); [lia|lia|].
  eexists _, b. split; [reflexivity|]. by repeat split.
Qed.

(** No votes yet, whatever the proposal. *)
Definition fresh (epoch : Z) (fin : gmap Z ConsensusBlock) (props : gmap bytes ConsensusProposal)
    (s : BFTConsensus) : Prop := forall h, view epoch fin h props ∅ ∅ s.

Lemma fresh_proposals epoch fin props props' current s :
  fresh epoch fin props s -> fresh epoch fin props' (set_proposals s current props').
Proof. intros Hf h. destruct (Hf h). by split. Qed.

(** The proposal of an epoch: by whom, and what is in it. *)
Record proposed (epoch : Z) (proposer h : bytes) (p : ConsensusProposal) : Prop := {
  pr_id : cp_proposer_id p = proposer;
  pr_epoch : cp_epoch p = epoch;
  pr_round : cp_round p = 0%Z;
  pr_hash : proposal_hash p = Ok h;
}.

Lemma propose_fresh epoch fin s ms locations now results :
  fresh epoch fin ∅ s -> (0 <= epoch < 2 ^ 64)%Z -> reading_ok now ->
  analyze_all (load_measurements ms locations) = Ok results ->
  Forall (fun kv => hashable kv.2) ms ->
  exists s' p h, propose s ms locations now = (s', Ok p) /\ same_registry s s' /\
    fresh epoch fin {[h := p]} s' /\ proposed epoch (bft_validator_id s) h p /\
    cp_detection_results p = list_to_map results.
Proof.
  intros Hf He (t & Et & _) Ha Hms. pose proof (Hf []) as []. unfold propose. rewrite Ha, bind_Ok.
  assert (Hall : hashable (concat (map snd ms))) by (by apply Forall_concat, Forall_fmap).
  rewrite (res_map_total rtt_commitment (fun m => sha3_256 (rm_source_id m ++ rm_target_id m ++
    pack_double (rm_rtt_ms m) ++ be_encode 8 (rm_timestamp m) ++ rm_nonce m))).
  2:{ intros m Hm. unfold hashable in Hall. rewrite Forall_forall in Hall. unfold rtt_commitment.
      by rewrite commitment_preimage_ok by (by apply Hall). }
  rewrite bind_Ok. unfold create_proposal. rewrite Et. set (p := mkConsensusProposal _ _ _ _ _ _ _ _ _).
  destruct (proposal_hash_ok p) as [h Hh]; [unfold p; simpl; by rewrite vw_epoch0|unfold p; simpl; by rewrite vw_round0|].
  rewrite Hh. eexists _, p, h. split; [reflexivity|]. split; [done|]. split; [|by repeat split].
  simpl. rewrite vw_props0. intros h'. destruct (Hf h'). by split.
Qed.

Lemma receive_proposal_fresh epoch fin s p h proposer :
  fresh epoch fin ∅ s -> proposed epoch proposer h p -> is_Some (validators s !! proposer) ->
  expected_proposer s = Ok (Some proposer) ->
  exists s' out, receive_proposal s p = (s', Ok out) /\ same_registry s s' /\ fresh epoch fin {[h := p]} s'.
Proof.
  intros Hf [] Hv Hexp. pose proof (Hf []) as []. unfold receive_proposal.
  rewrite pr_epoch0, vw_epoch0, pr_round0, vw_round0, !Z.eqb_refl, pr_id0, Hexp. cbn [negb].
  rewrite !bool_decide_eq_true_2 by done. cbn [negb]. rewrite pr_hash0, vw_props0.
  eexists _, _. split; [reflexivity|]. split; [done|]. rewrite insert_empty.
  by apply (fresh_proposals epoch fin ∅).
Qed.

(** Everybody who knows the same stakes expects the same proposer. *)
Lemma same_proposer s s' who :
  validators s' = validators s -> total_stake s' = total_stake s ->
  current_epoch s' = current_epoch s -> current_round s' = current_round s ->
  expected_proposer s = Ok (Some who) ->
  expected_proposer s' = Ok (Some who) /\ am_i_proposer s' = Ok (bool_decide (who = bft_validator_id s')).
Proof.
  unfold expected_proposer, am_i_proposer, selection_value. intros -> -> -> ->.
  case_bool_decide; [done|]. set (d := py_concat _).
  destruct d as [d'|]; [rewrite !bind_Ok|done]. destruct (py_mod _ _) as [target|]; [rewrite !bind_Ok|done].
  intros [= ->]. done.
Qed.

End Round.

(** ** The phases of the network *)

Section Phases.
Context `{Hashlib, PyRandom, Libm}.
(** The epoch starts in [n0]; its validators are [ids]. *)
Variable n0 : QRTBTestnet.
#[local] Abbreviation ids := (dict_keys (tn_validators n0)).
Hypothesis Hids : NoDup ids.
Hypothesis Hclock : forall j, reading_ok (tn_clock n0 j).

Definition at_net (P : bytes -> ValidatorNode -> Prop) (n : QRTBTestnet) : Prop :=
  rest n0 n /\ nodes_are P n.

Lemma at_net_mono (P Q : bytes -> ValidatorNode -> Prop) n :
  at_net P n -> (forall id v, id ∈ ids -> P id v -> Q id v) -> at_net Q n.
Proof.
  intros [Hr HP] Hm. split; [done|]. intros id v Hv. apply Hm; [|by apply HP].
  rewrite <- (rest_keys _ _ Hr). by eapply dict_get_keys.
Qed.

Lemma some_each body l (P Q : bytes -> ValidatorNode -> Prop) n :
  at_net P n -> NoDup l -> l ⊆ ids ->
  (forall id, id ∈ l -> local (tn_clock n0) (body id) id (P id) (fun _ => Q id)) ->
  ensures (for_each body l) n (fun _ => at_net (fun id v => if decide (id ∈ l) then Q id v else P id v)).
Proof.
  intros [Hr HP] Hnd Hsub Hb. eapply ensures_mono.
  - apply (local_each (tn_clock n0) body l P Q n Hnd); try done; [by rewrite (rest_keys _ _ Hr)|].
    by apply rest_clock.
  - intros [] n' [Hr' HN]. split; [by etrans|done].
Qed.

Lemma all_each body (P Q : bytes -> ValidatorNode -> Prop) n :
  at_net P n ->
  (forall id, id ∈ ids -> local (tn_clock n0) (body id) id (P id) (fun _ => Q id)) ->
  ensures (for_each body ids) n (fun _ => at_net Q).
Proof.
  intros HP Hb. eapply ensures_mono; [by apply (some_each body ids P Q)|].
  intros [] n' Hn. eapply at_net_mono; [exact Hn|]. intros id v Hid Hv. simpl in Hv.
  by rewrite decide_True in Hv.
Qed.

Lemma others_keep body x (P : bytes -> ValidatorNode -> Prop) n :
  at_net P n ->
  (forall id, id ∈ others x ids -> local (tn_clock n0) (body id) id (P id) (fun _ => P id)) ->
  ensures (for_each body (others x ids)) n (fun _ => at_net P).
Proof.
  intros HP Hb. eapply ensures_mono; [apply (some_each body (others x ids) P P n HP); [| |done]|].
  - by apply NoDup_filter.
  - intros id [_ Hid]%list_elem_of_filter. done.
  - intros [] n' Hn. eapply at_net_mono; [exact Hn|]. intros id v _ Hv. simpl in Hv. by case_decide.
Qed.

Lemma all_collect {B} (body : bytes -> sim B) (P Q : bytes -> ValidatorNode -> Prop) (V : bytes -> B -> Prop) n :
  at_net P n ->
  (forall id, id ∈ ids -> local (tn_clock n0) (body id) id (P id) (fun b v => V id b /\ Q id v)) ->
  ensures (collect body ids) n (fun bs n' => Forall2 V ids bs /\ at_net Q n').
Proof.
  intros [Hr HP] Hb. eapply ensures_mono.
  - apply (local_collect (tn_clock n0) body ids P Q V n Hids); try done;
      [by rewrite (rest_keys _ _ Hr)|by apply rest_clock].
  - intros bs n' (HV & Hr' & HN). split; [done|]. split; [by etrans|]. intros id v Hv.
    pose proof (HN id v Hv) as HQ. simpl in HQ. rewrite decide_True in HQ; [done|].
    rewrite <- (rest_keys _ _ Hr), <- (rest_keys _ _ Hr'). by eapply dict_get_keys.
Qed.

(** A method call at the current time. *)
Lemma local_timed {A} id (f : float64 -> ValidatorNode -> ValidatorNode * res A) P
    (Q : A -> ValidatorNode -> Prop) :
  (forall now v, reading_ok now -> P v -> exists v' a, f now v = (v', Ok a) /\ Q a v') ->
  local (tn_clock n0) (now ← sim_now; on_node id (f now)) id P Q.
Proof.
  intros Hf. eapply local_bind; [apply local_now|]. intros now. apply local_on_node.
  intros v [[k ->] HP]. by apply Hf.
Qed.

Lemma local_timed_bft {A} id (f : float64 -> BFTConsensus -> BFTConsensus * res A) P
    (Q : A -> ValidatorNode -> Prop) :
  (forall now v, reading_ok now -> P v ->
     exists s' a, f now (vn_consensus v) = (s', Ok a) /\ Q a (set_consensus v s')) ->
  local (tn_clock n0) (now ← sim_now; on_bft id (f now)) id P Q.
Proof.
  intros Hf. apply (local_timed id (fun now v => let '(s, r) := f now (vn_consensus v) in (set_consensus v s, r))).
  intros now v Hnow HP. destruct (Hf now v Hnow HP) as (s' & a & -> & HQ). by eexists _, a.
Qed.

(** Sending one vote around. *)
Lemma send_vote_ok receive (V : ConsensusVote -> Prop) (P Q : bytes -> ValidatorNode -> Prop) voter l n w :
  NoDup l -> l ⊆ ids -> at_net P n -> V w -> (forall w, V w -> cv_voter_id w = voter) ->
  (forall id v w, id ∈ l -> id <> voter -> P id v -> V w ->
     exists s' w' out, receive (vn_consensus v) w = (s', w', out) /\ V w' /\ Q id (set_consensus v s')) ->
  ensures (send_vote receive w l) n (fun _ =>
    at_net (fun id v => if decide (id ∈ l /\ id <> voter) then Q id v else P id v)).
Proof.
  revert P n w. induction l as [|x l IH]; intros P n w Hnd Hsub [Hr HP] HV Hvoter Hrec; cbn [send_vote].
  { apply ensures_ret. split; [done|]. intros id v Hv. rewrite decide_False by (by intros [?%not_elem_of_nil _]).
    by apply HP. }
  apply NoDup_cons in Hnd as [Hx Hnd]. rewrite (Hvoter w HV). case_bool_decide as Exv.
  - eapply ensures_mono; [apply (IH P); [done|set_solver|done..|]|].
    { intros id v w2 Hin. apply Hrec. by right. }
    intros [] n' Hn. eapply at_net_mono; [exact Hn|]. intros id v _ Hv. simpl in Hv.
    repeat case_decide; try done; set_solver.
  - destruct (member_get x n) as [v Hv]; [rewrite (rest_keys _ _ Hr); apply Hsub; by left|].
    destruct (Hrec x v w ltac:(by left) Exv (HP x v Hv) HV) as (s' & w' & out & Er & HV' & HQ).
    destruct (on_node_ok x (fun v => let '(s, r) := (let '(s, vote, _) := receive (vn_consensus v) w in (s, Ok vote))
                in (set_consensus v s, r)) n v (set_consensus v s') (Ok w') Hv) as (n1 & E1 & O1).
    { by rewrite Er. }
    apply (ensures_step _ _ _ _ _ _ E1).
    eapply ensures_mono; [apply (IH (fun j => if decide (j = x) then Q j else P j) n1); [done|set_solver| |done..|]|].
    + split; [by etrans; [|apply O1]|]. by apply (nodes_only_at P Q x (set_consensus v s') n).
    + intros id u w2 Hin Hne HPu HV2. simpl in HPu. rewrite decide_False in HPu by (by intros ->).
      apply Hrec; [by right|done..].
    + intros [] n' Hn. eapply at_net_mono; [exact Hn|]. intros id u _ Hu. simpl in Hu.
      repeat case_decide; try done; set_solver.
Qed.

(** *** Start to reveal *)

Variable stakes : gmap bytes Z.
Variable epoch counter : Z.
Variable fin : bytes -> gmap Z ConsensusBlock.
Hypothesis Hepoch : (0 <= epoch < 2 ^ 64)%Z.
Hypothesis Hcounter : (0 <= counter /\ counter + 1 < 2 ^ 64)%Z.

(** The member with its epoch counter. *)
Definition counted (k : Z) (id : bytes) (v : ValidatorNode) : Prop :=
  member stakes id v /\ em_current_epoch (vn_epoch_manager v) = k.

Definition idle (id : bytes) (v : ValidatorNode) : Prop :=
  counted counter id v /\ finalized_blocks (vn_consensus v) = fin id.

Definition started (id : bytes) (v : ValidatorNode) : Prop :=
  counted (counter + 1) id v /\ fresh epoch (fin id) ∅ (vn_consensus v) /\
  measuring epoch (vn_protocol v).

Definition measured (id : bytes) (v : ValidatorNode) : Prop :=
  started id v /\ is_Some (mp_commitment (vn_protocol v)) /\ hashable (vn_current_measurements v).

Lemma start_phase_ok n :
  at_net idle n -> ensures (start_phase epoch ids) n (fun _ => at_net started).
Proof.
  intros Hn. apply (all_each _ idle started n Hn). intros id _. apply local_timed.
  intros now v Hnow [[Hm Hk] Hf]. destruct (start_epoch_member stakes id v epoch now Hm Hnow)
    as (v' & E & Hm' & Hc & Hp & Hk'); [lia|].
  exists v', tt. split; [done|]. split; [split; [done|lia]|]. split; [|done].
  rewrite Hc, <- Hf. intros h. apply view_fresh.
Qed.

Lemma measurement_phase_ok gauss nonces n :
  at_net started n -> ensures (measurement_phase gauss nonces ids) n (fun _ => at_net measured).
Proof.
  intros Hn. apply (all_each _ started measured n Hn). intros id _.
  eapply local_bind; [apply local_now|]. intros now.
  eapply (local_bind _ _ _ _ _ (fun _ v => started id v /\ hashable (vn_current_measurements v))).
  { apply local_on_node. intros v [[j ->] [[Hm Hk] [Hf Hp]]].
    destruct (measurement_member stakes id v epoch (gauss id) (nonces id) _ Hm Hp Hepoch (Hclock j))
      as (v' & ms & E & Hm' & Hp' & Hc & Hem & Hh).
    exists v', ms. split; [done|]. split; [|done]. split; [split; [done|by rewrite Hem]|].
    split; [by rewrite Hc|done]. }
  intros _. eapply local_bind; [apply local_now|]. intros now'.
  eapply (local_bind _ _ _ _ _ (fun _ => measured id)).
  { apply local_on_node. intros v [[j ->] [[[Hm Hk] [Hf Hp]] Hh]].
    destruct (commitment_member stakes id v epoch _ Hm Hp (Hclock j))
      as (v' & c & E & Hm' & Hp' & Hcom & Hc & Hem & Hcur).
    exists v', c. split; [done|]. split; [|split; [done|by rewrite Hcur]].
    split; [split; [done|by rewrite Hem]|]. split; [by rewrite Hc|done]. }
  intros _ n1 v Hc Hv HQ. exists n1, v, tt. split; [done|]. split; [by apply only_at_refl|done].
Qed.

(** The exchange of commitments and reveals leaves everything else as it is. *)
Lemma measured_protocol id v p :
  measured id v -> mp_location p = mp_location (vn_protocol v) -> mp_peers p = mp_peers (vn_protocol v) ->
  mp_current_epoch p = mp_current_epoch (vn_protocol v) ->
  mp_measurements p = mp_measurements (vn_protocol v) ->
  mp_commitment p = mp_commitment (vn_protocol v) -> measured id (set_protocol v p).
Proof.
  intros [[[[] Hk] [Hf [M1 M2]]] [Hc Hh]] E1 E2 E3 E4 E5.
  split; [|split; [simpl; by rewrite E5|done]]. split; [split; [|done]|split; [done|]].
  - split; try done. simpl. by rewrite E1, E2.
  - split; simpl; [by rewrite E3|by rewrite E4].
Qed.

Lemma commit_phase_ok n :
  at_net measured n -> ensures (commit_phase ids) n (fun _ => at_net measured).
Proof.
  intros Hn. apply (ensures_for_each _ _ _ (fun _ => at_net measured)); [done|].
  intros before id after n1 El [Hr HP]. assert (Hid : id ∈ ids) by (rewrite El; set_solver).
  destruct (member_get id n1) as [v Hv]; [by rewrite (rest_keys _ _ Hr)|].
  destruct (on_node_ok id (fun v => (v, Ok (vn_current_commitment v))) n1 v _ _ Hv eq_refl) as (n2 & E & O).
  apply (ensures_step _ _ _ _ _ _ E).
  assert (Hn2 : at_net measured n2).
  { split; [by etrans; [|apply O]|]. intros j w Hj.
    pose proof (nodes_only_at _ (fun j => measured j) id v _ _ HP O (HP id v Hv) j w Hj) as Hw.
    simpl in Hw. by case_decide. }
  destruct (vn_current_commitment v) as [c|]; [|by apply ensures_ret].
  apply others_keep; [done|]. intros j _. apply local_on_node. intros w Hw.
  eexists _, tt. split; [reflexivity|]. unfold vn_receive_commitment, receive_commitment.
  case_match eqn:Eb; case_match; simplify_eq; by apply measured_protocol.
Qed.

Lemma reveal_phase_ok n :
  at_net measured n -> ensures (reveal_phase ids) n (fun _ => at_net measured).
Proof.
  intros Hn. apply (ensures_for_each _ _ _ (fun _ => at_net measured)); [done|].
  intros before id after n1 El [Hr HP]. assert (Hid : id ∈ ids) by (rewrite El; set_solver).
  destruct (member_get id n1) as [v Hv]; [by rewrite (rest_keys _ _ Hr)|].
  pose proof (HP id v Hv) as Hmv.
  destruct (on_node_ok id (fun v => let '(v, r) := vn_create_reveal v in (v, Ok r)) n1 v _ _ Hv eq_refl)
    as (n2 & E & O).
  apply (ensures_step _ _ _ _ _ _ E). set (r := mkReveal _ _ _ _ _) in *.
  assert (Hn2 : at_net measured n2).
  { split; [by etrans; [|apply O]|]. intros j w Hj.
    pose proof (nodes_only_at _ (fun j => measured j) id _ _ _ HP O
      (measured_protocol id v (set_own (vn_protocol v) MP_REVEAL _ _ _) Hmv eq_refl eq_refl eq_refl eq_refl eq_refl) j w Hj) as Hw.
    simpl in Hw. by case_decide. }
  destruct Hmv as [[_ [_ [_ Mt]]] [Hc _]].
  apply others_keep; [done|]. intros j _.
  eapply (local_bind _ _ _ _ _ (fun _ => measured j)).
  { apply local_on_node. intros w Hw.
    destruct (receive_reveal_member w r Mt Hc) as (p & out & E' & P1 & P2 & P3 & P4 & P5).
    exists (set_protocol w p), out. split; [done|]. by apply measured_protocol. }
  intros _ n3 w _ Hw HQ. exists n3, w, tt. split; [done|]. split; [by apply only_at_refl|done].
Qed.

(** *** The proposal *)

Hypothesis Hkeys : dom stakes = list_to_set ids.
Hypothesis Hstakes : map_Forall (fun _ st => 0 <= st)%Z stakes.
Hypothesis Htotal : (0 < stake_sum stakes < 2 ^ 49)%Z.

Lemma key_of_stakes id : id ∈ ids <-> is_Some (stakes !! id).
Proof. by rewrite <- elem_of_dom, Hkeys, elem_of_list_to_set. Qed.

Lemma counted_stakes k id v :
  counted k id v -> stakes_ok (vn_consensus v) /\ (0 < total_stake (vn_consensus v) < 2 ^ 49)%Z.
Proof. intros [[] _]. unfold stakes_ok. by rewrite me_total0, me_validators0. Qed.

Lemma counted_consensus k id v s :
  counted k id v -> same_registry (vn_consensus v) s -> counted k id (set_consensus v s).
Proof. intros [[] Hk] []. split; [|done]. split; try done; simpl; congruence. Qed.

(** One validator is the proposer in everybody's eyes. *)
Lemma the_proposer :
  exists who, who ∈ ids /\ forall id v, counted (counter + 1) id v -> fresh epoch (fin id) ∅ (vn_consensus v) ->
    expected_proposer (vn_consensus v) = Ok (Some who) /\
    am_i_proposer (vn_consensus v) = Ok (bool_decide (who = id)).
Proof.
  set (s := mkBFTConsensus [] 0 epoch 0 PROPOSE None ∅ ∅ ∅ ∅ ∅ stakes (stake_sum stakes) ∅).
  destruct (expected_proposer_ok s) as (x & who & _ & Hexp & _ & Hin & _); [done|by split|simpl; lia|].
  exists who. split; [by apply key_of_stakes|]. intros id v [[] _] Hf. destruct (Hf []).
  rewrite <- me_bft0. by apply (same_proposer s).
Qed.

Lemma on_bft_read {A} id (f : BFTConsensus -> BFTConsensus * res A) n v r :
  dict_get id (tn_validators n) = Some v -> f (vn_consensus v) = (vn_consensus v, r) ->
  on_bft id f n = (n, r).
Proof.
  intros Hv Ef. unfold on_bft, on_node. rewrite Hv, Ef. f_equal.
  replace (set_consensus v (vn_consensus v)) with v by (by destruct v).
  rewrite dict_set_same by done. by destruct n.
Qed.

Lemma elect_ok ms locations who l n :
  at_net measured n -> l ⊆ ids -> who ∈ l ->
  (forall id v, counted (counter + 1) id v -> fresh epoch (fin id) ∅ (vn_consensus v) ->
     am_i_proposer (vn_consensus v) = Ok (bool_decide (who = id))) ->
  first_of (fun id =>
    mine ← on_bft id (fun s => (s, am_i_proposer s));
    if (mine : bool) then (x ← propose_as id ms locations; mret (Some x)) else mret None) l n =
  (x ← propose_as who ms locations; mret (Some x)) n.
Proof.
  intros [Hr HP] Hsub Hin Ham. induction l as [|id l IH]; [by apply not_elem_of_nil in Hin|]. cbn [first_of].
  destruct (member_get id n) as [v Hv]; [rewrite (rest_keys _ _ Hr); apply Hsub; by left|].
  destruct (HP id v Hv) as [[Hc [Hf _]] _].
  assert (E : on_bft id (fun s => (s, am_i_proposer s)) n = (n, Ok (bool_decide (who = id)))).
  { eapply on_bft_read; [done|]. by rewrite (Ham id v Hc Hf). }
  unfold mbind at 1, sim_bind at 1. rewrite (sim_bind_ok _ _ _ _ _ E).
  destruct (decide (who = id)) as [<-|Hne].
  - rewrite bool_decide_eq_true_2 by done. unfold mbind, sim_bind.
    by destruct (propose_as who ms locations n) as [? [|]].
  - rewrite bool_decide_eq_false_2 by done. apply IH; set_solver.
Qed.

Definition ready (h : bytes) (p : ConsensusProposal) (id : bytes) (v : ValidatorNode) : Prop :=
  counted (counter + 1) id v /\ fresh epoch (fin id) {[h := p]} (vn_consensus v).

(** The proposer with its proposal, the others still without. *)
Definition proposing (who h : bytes) (p : ConsensusProposal) (id : bytes) (v : ValidatorNode) : Prop :=
  if decide (id = who) then ready h p id v
  else counted (counter + 1) id v /\ fresh epoch (fin id) ∅ (vn_consensus v).

Lemma choose_proposal_ok ms locations n results :
  at_net measured n -> Forall (fun kv => hashable kv.2) ms ->
  analyze_all (load_measurements ms locations) = Ok results ->
  ensures (choose_proposal ms locations ids) n (fun chosen n' => exists h,
    chosen.1 ∈ ids /\ proposed epoch chosen.1 h chosen.2 /\
    cp_detection_results chosen.2 = list_to_map results /\
    (forall id v, proposing chosen.1 h chosen.2 id v -> id <> chosen.1 ->
       expected_proposer (vn_consensus v) = Ok (Some chosen.1)) /\
    at_net (proposing chosen.1 h chosen.2) n').
Proof.
  intros Hn Hms Ha. destruct the_proposer as (who & Hwho & Hexp). pose proof Hn as [Hr HP].
  destruct (member_get who n) as [v Hv]; [by rewrite (rest_keys _ _ Hr)|].
  destruct (HP who v Hv) as [[Hc [Hf _]] _].
  set (now := tn_clock n (tn_ticks n)).
  assert (Hnow : reading_ok now) by (unfold now; rewrite (rest_clock _ _ Hr); apply Hclock).
  destruct (propose_fresh epoch (fin who) (vn_consensus v) ms locations now results Hf Hepoch Hnow Ha Hms)
    as (s' & p & h & Ep & Hreg & Hf' & Hprop & Hdet).
  destruct (on_node_ok who (fun v => let '(s, r) := propose (vn_consensus v) ms locations now in
              (set_consensus v s, r)) (sim_now n).1 v (set_consensus v s') (Ok p) Hv) as (n1 & E1 & O1).
  { by rewrite Ep. }
  exists n1, (who, p). split.
  - unfold choose_proposal. unfold mbind at 1, sim_bind at 1.
    rewrite (elect_ok ms locations who) by (done || by intros; apply Hexp).
    unfold propose_as. unfold mbind, sim_bind. cbn [sim_now]. fold now. unfold on_bft.
    change (set_ticks n (S (tn_ticks n))) with (sim_now n).1. rewrite E1. done.
  - exists h. cbn [fst snd]. pose proof (me_bft _ _ _ (proj1 Hc)) as Hid. rewrite Hid in Hprop.
    split; [done|]. split; [done|]. split; [done|]. split.
    + intros id w Hw Hne. unfold proposing in Hw. rewrite decide_False in Hw by done.
      destruct Hw as [Hcw Hfw]. apply (Hexp id w Hcw Hfw).
    + pose proof (only_at_trans _ _ _ _ _ _ (only_at_now who v n Hv) O1) as O.
      split; [by etrans; [|apply O]|].
      intros j w Hj. unfold proposing.
      pose proof (nodes_only_at measured (fun j w => ready h p j w) who _ n n1 HP O) as Hall.
      specialize (Hall ltac:(split; [by apply counted_consensus|done]) j w Hj). simpl in Hall.
      case_decide as Ej; [done|]. by destruct Hall as [[? [? _]] _].
Qed.

Lemma choose_proposal_raises ms locations n e :
  at_net measured n -> analyze_all (load_measurements ms locations) = Err e ->
  exists n', choose_proposal ms locations ids n = (n', Err e) /\ rest n0 n'.
Proof.
  intros Hn Ha. destruct the_proposer as (who & Hwho & Hexp). pose proof Hn as [Hr HP].
  destruct (member_get who n) as [v Hv]; [by rewrite (rest_keys _ _ Hr)|].
  set (now := tn_clock n (tn_ticks n)).
  destruct (on_node_ok who (fun v => let '(s, r) := propose (vn_consensus v) ms locations now in
              (set_consensus v s, r)) (sim_now n).1 v (set_consensus v (vn_consensus v)) (Err e) Hv) as (n1 & E1 & O1).
  { unfold propose. by rewrite Ha. }
  exists n1. split.
  - unfold choose_proposal. unfold mbind at 1, sim_bind at 1.
    rewrite (elect_ok ms locations who) by (done || by intros; apply Hexp).
    unfold propose_as. unfold mbind, sim_bind. cbn [sim_now]. fold now. unfold on_bft.
    change (set_ticks n (S (tn_ticks n))) with (sim_now n).1. rewrite E1. done.
  - etrans; [exact Hr|]. etrans; [apply (oa_rest _ _ _ _ (only_at_now who v n Hv))|apply O1].
Qed.

Lemma proposal_phase_ok who h p n :
  who ∈ ids -> proposed epoch who h p ->
  (forall id v, proposing who h p id v -> id <> who -> expected_proposer (vn_consensus v) = Ok (Some who)) ->
  at_net (proposing who h p) n -> ensures (proposal_phase who p ids) n (fun _ => at_net (ready h p)).
Proof.
  intros Hwho Hp Hexp Hn. eapply ensures_mono.
  - apply (some_each _ (others who ids) (proposing who h p) (ready h p) n Hn).
    + by apply NoDup_filter.
    + intros id [_ Hid]%list_elem_of_filter. done.
    + intros id [Hne Hid]%list_elem_of_filter.
      eapply (local_bind _ _ _ _ _ (fun _ => ready h p id)).
      * apply local_on_node. intros v Hv. pose proof (Hexp id v Hv Hne) as Hex.
        unfold proposing in Hv. rewrite decide_False in Hv by done. destruct Hv as [Hc Hf].
        destruct (receive_proposal_fresh epoch (fin id) (vn_consensus v) p h who Hf Hp) as (s' & out & E & Hreg & Hf');
          [|done|].
        { rewrite (me_validators _ _ _ (proj1 Hc)). by apply key_of_stakes. }
        exists (set_consensus v s'), out. split; [by rewrite E|]. split; [by apply counted_consensus|done].
      * intros _ n3 w _ Hw HQ. exists n3, w, tt. split; [done|]. split; [by apply only_at_refl|done].
  - intros [] n' Hn'. eapply at_net_mono; [exact Hn'|]. intros id v Hid Hv. simpl in Hv.
    unfold others in Hv. case_decide as Hin; [done|]. unfold proposing in Hv.
    destruct (decide (id = who)) as [|Hne]; [done|]. exfalso. apply Hin. by apply list_elem_of_filter.
Qed.

(** *** The votes *)

(** Distributing one ballot per validator: [F X] holds of a validator that has heard of the
    voters [X]. *)
Lemma distribute_ok
    (receive : BFTConsensus -> ConsensusVote -> BFTConsensus * ConsensusVote * (bool * string))
    (ty : string) (h : bytes) (F : gset bytes -> bytes -> ValidatorNode -> Prop)
    (votes : list ConsensusVote) (n : QRTBTestnet) :
  (forall X voter id v w, voter ∈ ids -> id <> voter -> F X id v -> ballot ty epoch h voter w ->
     exists s' w' out, receive (vn_consensus v) w = (s', w', out) /\ ballot ty epoch h voter w' /\
       F (X ∪ {[voter]}) id (set_consensus v s')) ->
  (forall X id v, F X id v -> F (X ∪ {[id]}) id v) ->
  Forall2 (fun id w => ballot ty epoch h id w) ids votes ->
  at_net (F ∅) n ->
  ensures (for_each (fun vote => send_vote receive vote ids) votes) n (fun _ => at_net (F (list_to_set ids))).
Proof.
  intros Hrec Hown Hv Hn. assert (Hvoters : list_to_set ids = voters votes).
  { unfold voters. f_equal. clear -Hv. induction Hv as [|id w l ws [Hw _ _ _] _ IH]; [done|].
    simpl. by rewrite Hw, IH. }
  rewrite Hvoters. apply (ensures_for_each _ votes n (fun before => at_net (F (voters before)))); [done|].
  intros before w after n1 El Hn1.
  assert (exists voter, voter ∈ ids /\ ballot ty epoch h voter w) as (voter & Hin & Hw).
  { assert (w ∈ votes) as Hwin by (rewrite El; set_solver).
    apply list_elem_of_lookup in Hwin as [i Hi]. destruct (Forall2_lookup_r _ _ _ _ _ Hv Hi) as (id & Hid & Hb).
    exists id. split; [by eapply list_elem_of_lookup_2|done]. }
  eapply ensures_mono.
  - apply (send_vote_ok receive (ballot ty epoch h voter) (F (voters before)) (F (voters before ∪ {[voter]}))
             voter ids n1 w); try done.
    + by intros w' [].
    + intros id v w' _ Hne HF Hw'. by apply Hrec.
  - intros [] n2 Hn2. eapply at_net_mono; [exact Hn2|]. intros id v Hid HF. simpl in HF.
    rewrite voters_snoc, (bl_voter _ _ _ _ _ Hw). case_decide as Hc; [done|].
    destruct (decide (id = voter)) as [->|Hne]; [by apply Hown|]. by destruct Hc.
Qed.

Definition heard (h : bytes) (p : ConsensusProposal) (PV PC : bytes -> gset bytes) (id : bytes)
    (v : ValidatorNode) : Prop :=
  counted (counter + 1) id v /\ view epoch (fin id) h {[h := p]} (PV id) (PC id) (vn_consensus v).

Lemma heard_ext h p PV PC PV' PC' id v :
  PV' id = PV id -> PC' id = PC id -> heard h p PV PC id v -> heard h p PV' PC' id v.
Proof. unfold heard. by intros -> ->. Qed.

Lemma registered_voter k voter id v :
  voter ∈ ids -> counted k id v -> is_Some (validators (vn_consensus v) !! voter).
Proof. intros Hin [[] _]. rewrite me_validators0. by apply key_of_stakes. Qed.

Lemma everyone_keys k id v :
  counted k id v -> everyone (vn_consensus v) ({[id]} ∪ list_to_set ids).
Proof.
  intros [[] _]. unfold everyone. rewrite me_validators0, Hkeys.
  assert (id ∈ (list_to_set ids : gset bytes)); [|set_solver].
  rewrite <- Hkeys. apply elem_of_dom. by rewrite me_stake0.
Qed.

Lemma pre_vote_phase_ok h p n :
  at_net (ready h p) n ->
  ensures (pre_vote_phase h ids) n (fun _ =>
    at_net (heard h p (fun id => {[id]} ∪ list_to_set ids) (fun _ => ∅))).
Proof.
  intros Hn. unfold pre_vote_phase. eapply ensures_bind.
  - apply (all_collect _ (ready h p) (heard h p (fun id => {[id]} ∪ ∅) (fun _ => ∅))
             (fun id w => ballot "pre-vote" epoch h id w) n Hn).
    intros id _. apply local_timed_bft. intros now v Hnow [Hc Hf].
    destruct (create_pre_vote_view epoch (fin id) h {[h := p]} ∅ (vn_consensus v) now (Hf h) Hnow)
      as (s' & w & E & Hreg & Hview & Hb). rewrite (me_bft _ _ _ (proj1 Hc)) in Hview, Hb.
    exists s', w. split; [done|]. split; [done|]. split; [by apply counted_consensus|].
    by rewrite union_empty_r_L.
  - intros votes n1 [Hv Hn1].
    apply (distribute_ok receive_pre_vote "pre-vote" h
             (fun X => heard h p (fun id => {[id]} ∪ X) (fun _ => ∅)) votes n1); [| |done..].
    + intros X voter id v w Hin Hne [Hc Hview] Hw.
      destruct (receive_pre_vote_view _ _ _ _ _ _ _ _ _ Hview Hw (registered_voter _ _ _ _ Hin Hc))
        as (s' & w' & out & E & Hreg & Hview' & Hw').
      exists s', w', out. split; [done|]. split; [done|]. split; [by apply counted_consensus|].
      by rewrite union_assoc_L.
    + intros X id v. apply heard_ext; [set_solver|done].
Qed.

Lemma pre_commit_phase_ok h p n :
  at_net (heard h p (fun id => {[id]} ∪ list_to_set ids) (fun _ => ∅)) n ->
  ensures (pre_commit_phase h ids) n (fun _ =>
    at_net (heard h p (fun id => {[id]} ∪ list_to_set ids) (fun id => {[id]} ∪ list_to_set ids))).
Proof.
  intros Hn. unfold pre_commit_phase. eapply ensures_bind.
  - apply (all_collect _ _ (heard h p (fun id => {[id]} ∪ list_to_set ids) (fun id => {[id]} ∪ ∅))
             (fun id o => exists w, o = Some w /\ ballot "pre-commit" epoch h id w) n Hn).
    intros id _. apply local_timed_bft. intros now v Hnow [Hc Hview].
    destruct (counted_stakes _ _ _ Hc) as [Hok Htot].
    destruct (create_pre_commit_view _ _ _ _ _ _ now Hview Hok Htot (everyone_keys _ _ _ Hc) Hnow)
      as (s' & w & E & Hreg & Hview' & Hb). rewrite (me_bft _ _ _ (proj1 Hc)) in Hview', Hb.
    exists s', (Some w). split; [done|]. split; [by exists w|]. split; [by apply counted_consensus|].
    by rewrite union_empty_r_L.
  - intros commits n1 [Hv Hn1].
    assert (Hvotes : Forall2 (fun id w => ballot "pre-commit" epoch h id w) ids (omap id commits)).
    { clear -Hv. induction Hv as [|x o l os (w & -> & Hb) _ IH]; [done|]. simpl. by constructor. }
    apply (distribute_ok receive_pre_commit "pre-commit" h
             (fun X => heard h p (fun id => {[id]} ∪ list_to_set ids) (fun id => {[id]} ∪ X)) _ n1); [| |done..].
    + intros X voter id v w Hin Hne [Hc Hview] Hw.
      destruct (receive_pre_commit_view _ _ _ _ _ _ _ _ _ Hview Hw (registered_voter _ _ _ _ Hin Hc))
        as (s' & w' & out & E & Hreg & Hview' & Hw').
      exists s', w', out. split; [done|]. split; [done|]. split; [by apply counted_consensus|].
      by rewrite union_assoc_L.
    + intros X id v. apply heard_ext; [done|set_solver].
Qed.

(** Only the first validator finalizes: the loop ends there. *)
Definition finished (b : ConsensusBlock) (id : bytes) (v : ValidatorNode) : Prop :=
  counted (counter + 1) id v /\
  finalized_blocks (vn_consensus v) = if decide (head ids = Some id) then <[epoch := b]> (fin id) else fin id.

Lemma finalize_phase_ok h p who n :
  proposed epoch who h p ->
  at_net (heard h p (fun id => {[id]} ∪ list_to_set ids) (fun id => {[id]} ∪ list_to_set ids)) n ->
  exists b n', finalize_phase epoch h ids n = (n', Ok (Some b)) /\ cb_epoch b = epoch /\
    cb_proposal b = p /\ cb_total_stake b = stake_sum stakes /\ cb_supporting_stake b = stake_sum stakes /\
    nodes_are (finished b) n' /\ dict_keys (tn_validators n') = ids /\ tn_clock n' = tn_clock n0 /\
    tn_finalized_blocks n' = dict_set epoch b (tn_finalized_blocks n0) /\
    tn_epoch_stats n' = tn_epoch_stats n0.
Proof.
  intros Hp [Hr HP]. assert (Hne : ids <> []).
  { intros E. rewrite E in Hkeys. apply dom_empty_inv_L in Hkeys. rewrite Hkeys in Htotal.
    unfold stake_sum in Htotal. rewrite map_sum_empty in Htotal. lia. }
  assert (exists first tail, ids = first :: tail) as (first & tail & Eids) by (destruct ids; [done|by eexists _, _]).
  destruct (member_get first n) as [v Hv]; [rewrite (rest_keys _ _ Hr), Eids; by left|].
  destruct (HP first v Hv) as [Hc Hview]. destruct (counted_stakes _ _ _ Hc) as [Hok Htot].
  set (now := tn_clock n (tn_ticks n)).
  assert (Hnow : reading_ok now) by (unfold now; rewrite (rest_clock _ _ Hr); apply Hclock).
  pose proof (everyone_keys _ _ _ Hc) as Hev.
  destruct (try_finalize_view _ _ _ _ _ _ _ now Hview (pr_hash _ _ _ _ Hp) Hok Htot Hev Hnow)
    as (s' & b & E & Hreg & Hfin & B1 & B2 & B3 & B4).
  destruct (on_node_ok first (fun v => let '(s, r) := try_finalize (vn_consensus v) h now in (set_consensus v s, r))
              (sim_now n).1 v (set_consensus v s') (Ok (Some b)) Hv) as (n1 & E1 & O1); [by rewrite E|].
  pose proof (only_at_trans _ _ _ _ _ _ (only_at_now first v n Hv) O1) as O.
  rewrite (me_total _ _ _ (proj1 Hc)) in B3, B4.
  exists b, (set_records n1 (dict_set epoch b (tn_finalized_blocks n1)) (tn_epoch_stats n1)). split.
  { unfold finalize_phase. rewrite Eids at 1. cbn [first_of]. unfold mbind, sim_bind. cbn [sim_now]. fold now. unfold on_bft.
    change (set_ticks n (S (tn_ticks n))) with (sim_now n).1. rewrite E1. done. }
  do 4 (split; [done|]). assert (Hr1 : rest n0 n1) by (etrans; [exact Hr|apply O]).
  split; [|split; [by apply (rest_keys _ _ Hr1)|split; [by apply (rest_clock _ _ Hr1)|]]].
  - intros j w Hj. simpl in Hj. destruct (decide (j = first)) as [->|Hj1].
    + rewrite (oa_at _ _ _ _ O) in Hj. injection Hj as <-. split; [by apply counted_consensus|].
      rewrite Eids. simpl. rewrite decide_True by done. by rewrite Hfin.
    + rewrite (oa_others _ _ _ _ O j Hj1) in Hj. destruct (HP j w Hj) as [Hcw []]. split; [done|].
      rewrite Eids. simpl. rewrite decide_False by congruence. done.
  - destruct Hr1 as (vs & t & -> & _). done.
Qed.

End Phases.

(** ** Whole epochs *)

Section Epochs.
Context `{Hashlib, PyRandom, Libm}.

(** A network in which everybody knows everybody's stake, with epoch counters at [k] and a
    clock whose readings can be packed. *)
Record connected (stakes : gmap bytes Z) (k : Z) (n : QRTBTestnet) : Prop := {
  cn_wf : dict_wf (tn_validators n);
  cn_dom : dom stakes = list_to_set (dict_keys (tn_validators n));
  cn_clock : forall j, reading_ok (tn_clock n j);
  cn_stakes : map_Forall (fun _ st => 0 <= st)%Z stakes;
  cn_total : (0 < stake_sum stakes < 2 ^ 49)%Z;
  cn_size : (Z.of_nat (length (tn_validators n)) < 2 ^ 64)%Z;
  cn_nodes : nodes_are (counted stakes k) n;
}.

(** The blocks that the consensus of a validator has finalized. *)
Definition chain (n : QRTBTestnet) (id : bytes) : gmap Z ConsensusBlock :=
  default ∅ ((fun v => finalized_blocks (vn_consensus v)) <$> dict_get id (tn_validators n)).

Lemma network_measurements_ok stakes epoch counter fin n0 n :
  dict_wf (tn_validators n0) -> at_net n0 (measured stakes epoch counter fin) n ->
  exists ms locations, network_measurements n = (n, Ok (ms, locations)) /\
    Forall (fun kv => hashable kv.2) ms /\ dict_keys ms = dict_keys (tn_validators n0).
Proof.
  intros Hwf [Hr HP]. eexists _, _. split; [reflexivity|]. split.
  - apply Forall_fmap, Forall_forall. intros [id v] Hin. apply (HP id v), dict_get_elem; [|done].
    unfold dict_wf. by rewrite (rest_keys _ _ Hr).
  - rewrite <- (rest_keys _ _ Hr). unfold dict_keys. by rewrite map_map.
Qed.

Lemma analyze_loop_length e vs results results' :
  analyze_loop e vs results = Ok results' -> length results' <= length results + length vs.
Proof.
  revert results. induction vs as [|v vs IH]; intros results E; simpl in E.
  - injection E as <-. simpl. lia.
  - inv_res. apply IH in E. rewrite dict_set_length in E. simpl. case_decide; lia.
Qed.

Lemma list_to_map_size {V} (l : list (bytes * V)) : size (list_to_map l : gmap bytes V) <= length l.
Proof.
  induction l as [|[k v] l IH]; simpl; [by rewrite map_size_empty|].
  rewrite map_size_insert. case_match; simpl; lia.
Qed.

(** How an epoch ends before its statistics. *)
Lemma run_phases_ends stakes k n gauss nonces epoch :
  connected stakes k n -> (0 <= k /\ k + 1 < 2 ^ 64)%Z -> (0 <= epoch < 2 ^ 64)%Z ->
  (exists n' ms locations e, run_phases gauss nonces epoch n = (n', Err e) /\ rest n n' /\
     dict_keys ms = dict_keys (tn_validators n) /\
     analyze_all (load_measurements ms locations) = Err e) \/
  (exists n' b, run_phases gauss nonces epoch n = (n', Ok (Some b)) /\
     cb_epoch b = epoch /\ cp_epoch (cb_proposal b) = epoch /\
     cp_proposer_id (cb_proposal b) ∈ dict_keys (tn_validators n) /\
     size (cp_detection_results (cb_proposal b)) <= length (tn_validators n) /\
     cb_total_stake b = stake_sum stakes /\ cb_supporting_stake b = stake_sum stakes /\
     nodes_are (finished n stakes epoch k (chain n) b) n' /\
     dict_keys (tn_validators n') = dict_keys (tn_validators n) /\ tn_clock n' = tn_clock n /\
     tn_finalized_blocks n' = dict_set epoch b (tn_finalized_blocks n) /\
     tn_epoch_stats n' = tn_epoch_stats n).
Proof.
  intros [] Hk He.
  assert (H0n : at_net n (idle stakes k (chain n)) n).
  { split; [done|]. intros id v Hv. split; [by apply cn_nodes0|]. unfold chain. by rewrite Hv. }
  destruct (start_phase_ok n cn_wf0 cn_clock0 stakes epoch k (chain n) Hk n H0n) as (n1 & [] & E1 & H1n).
  destruct (measurement_phase_ok n cn_wf0 cn_clock0 stakes epoch k (chain n) He gauss nonces n1 H1n)
    as (n2 & [] & E2 & H2n).
  destruct (commit_phase_ok n cn_wf0 cn_clock0 stakes epoch k (chain n) He Hk n2 H2n) as (n3 & [] & E3 & H3n).
  destruct (reveal_phase_ok n cn_wf0 cn_clock0 stakes epoch k (chain n) He Hk n3 H3n) as (n4 & [] & E4 & H4n).
  destruct (network_measurements_ok _ _ _ _ _ _ cn_wf0 H4n) as (ms & locations & E5 & Hms & Hkeys).
  unfold run_phases. rewrite (sim_bind_ok node_ids _ n n _ eq_refl), (sim_bind_ok _ _ _ _ _ E1),
    (sim_bind_ok _ _ _ _ _ E2), (sim_bind_ok _ _ _ _ _ E3), (sim_bind_ok _ _ _ _ _ E4),
    (sim_bind_ok _ _ _ _ _ E5). cbn [fst snd].
  destruct (analyze_all (load_measurements ms locations)) as [results|e] eqn:Ea.
  2:{ left. destruct (choose_proposal_raises n cn_wf0 cn_clock0 stakes epoch k (chain n) He Hk cn_dom0 cn_stakes0 cn_total0
        ms locations n4 e H4n Ea) as (n5 & E6 & Hr5).
      exists n5, ms, locations, e. split; [|done]. unfold mbind, sim_bind. by rewrite E6. }
  right. destruct (choose_proposal_ok n cn_wf0 cn_clock0 stakes epoch k (chain n) He Hk cn_dom0 cn_stakes0 cn_total0
    ms locations n4 results H4n Hms Ea) as (n5 & [who p] & E6 & h & Hwho & Hp & Hdet & Hexp & H5n).
  cbn [fst snd] in *. rewrite (sim_bind_ok _ _ _ _ _ E6). cbn [fst snd].
  destruct (proposal_phase_ok n cn_wf0 stakes epoch k (chain n) cn_dom0 who h p n5 Hwho Hp Hexp H5n)
    as (n6 & [] & E7 & H6n). rewrite (sim_bind_ok _ _ _ _ _ E7).
  rewrite (sim_bind_ok (sim_lift (proposal_hash p)) _ n6 n6 h) by (by rewrite (pr_hash _ _ _ _ Hp)).
  destruct (pre_vote_phase_ok n cn_wf0 cn_clock0 stakes epoch k (chain n) He Hk cn_dom0 cn_stakes0 cn_total0 h p n6 H6n)
    as (n7 & [] & E8 & H7n). rewrite (sim_bind_ok _ _ _ _ _ E8).
  destruct (pre_commit_phase_ok n cn_wf0 cn_clock0 stakes epoch k (chain n) He Hk cn_dom0 cn_stakes0 cn_total0 h p n7 H7n)
    as (n8 & [] & E9 & H8n). rewrite (sim_bind_ok _ _ _ _ _ E9).
  destruct (finalize_phase_ok n cn_wf0 cn_clock0 stakes epoch k (chain n) He Hk cn_dom0 cn_stakes0 cn_total0 h p who n8 Hp H8n)
    as (b & n9 & E10 & B1 & B2 & B3 & B4 & R). exists n9, b. rewrite E10, B2.
  split; [done|]. split; [done|]. split; [apply Hp|]. split; [by rewrite (pr_id _ _ _ _ Hp)|].
  split; [|done]. rewrite Hdet. etrans; [apply list_to_map_size|].
  apply analyze_loop_length in Ea. simpl in Ea. rewrite Hkeys in Ea. unfold dict_keys in Ea.
  by rewrite length_map in Ea.
Qed.

(** The stakes in the configurations add up to the registered ones. *)
Lemma config_stakes stakes k n :
  dict_wf (tn_validators n) -> dom stakes = list_to_set (dict_keys (tn_validators n)) ->
  nodes_are (counted stakes k) n ->
  sumZ (map (fun v => vc_stake (vn_config v)) (map snd (tn_validators n))) = stake_sum stakes.
Proof.
  intros Hwf Hdom Hn. unfold stake_sum, map_sum.
  assert (map_to_list stakes ≡ₚ map (fun kv => (kv.1, vc_stake (vn_config kv.2))) (tn_validators n)) as ->.
  2:{ by rewrite !map_map. }
  assert (Hin : forall id v, (id, v) ∈ tn_validators n -> stakes !! id = Some (vc_stake (vn_config v))).
  { intros id v Hv. apply (dict_get_elem id v _ Hwf) in Hv. apply (me_stake _ _ _ (proj1 (Hn id v Hv))). }
  apply NoDup_Permutation.
  - apply NoDup_map_to_list.
  - apply (NoDup_fmap_1 fst). unfold dict_wf, dict_keys in Hwf. rewrite <- list_fmap_compose. exact Hwf.
  - intros [id st]. rewrite elem_of_map_to_list, list_elem_of_fmap. split.
    + intros Hst. assert (Hid : id ∈ dict_keys (tn_validators n)).
      { assert (Hd : id ∈ dom stakes) by (by apply elem_of_dom). rewrite Hdom in Hd.
        by apply elem_of_list_to_set in Hd. }
      destruct (member_get id n Hid) as [v Hv]. exists (id, v).
      pose proof (me_stake _ _ _ (proj1 (Hn id v Hv))) as Hs. simpl in *. rewrite Hst in Hs. injection Hs as ->.
      split; [done|]. by apply dict_get_in.
    + intros ([id' v] & [= -> ->] & Hv). by apply Hin.
Qed.

Lemma count_true_le l : (0 <= count_true l <= Z.of_nat (length l))%Z.
Proof.
  unfold count_true. pose proof (length_filter (fun b => b = true) l). lia.
Qed.

Lemma collect_epoch_stats_ok stakes k n epoch b duration size_bound :
  dict_wf (tn_validators n) -> dom stakes = list_to_set (dict_keys (tn_validators n)) ->
  nodes_are (counted stakes k) n -> (0 < stake_sum stakes < 2 ^ 49)%Z ->
  (Z.of_nat size_bound < 2 ^ 64)%Z -> length (tn_validators n) <= size_bound ->
  size (cp_detection_results (cb_proposal b)) <= size_bound ->
  cb_supporting_stake b = stake_sum stakes ->
  exists st, collect_epoch_stats (tn_validators n) epoch (Some b) duration = Ok st /\
    es_finalized st = true /\ es_total_stake st = stake_sum stakes /\
    es_supporting_stake st = stake_sum stakes.
Proof.
  intros Hwf Hdom Hn Htot Hb Hlen Hsize Hsup. unfold collect_epoch_stats.
  rewrite (config_stakes stakes k n Hwf Hdom Hn), Hsup.
  assert (Hpow : (2 ^ 64 < 2 ^ 1023)%Z) by reflexivity.
  assert (Hcount : forall adv, (0 <= count_verdicts (tn_validators n) (Some b) adv < 2 ^ 1023)%Z).
  { intros adv. unfold count_verdicts. match goal with |- context [count_true ?l] => pose proof (count_true_le l) as Hc end.
    rewrite length_map, length_map_to_list in Hc. lia. }
  set (a := count_true (map (fun v => vc_is_adversary (vn_config v)) (map snd (tn_validators n)))).
  destruct (truediv_ok (count_verdicts (tn_validators n) (Some b) true) (Z.max a 1)) as [x ->]; [done|lia|].
  rewrite bind_Ok. set (m := Z.max (_ - a) 1).
  destruct (truediv_ok (count_verdicts (tn_validators n) (Some b) false) m) as [y ->]; [done|lia|].
  rewrite bind_Ok, (proj2 (Z.eqb_neq _ _)) by lia.
  destruct (truediv_ok (stake_sum stakes) (stake_sum stakes)) as [z ->]; [|lia|].
  { split; [lia|]. etrans; [apply Htot|]. reflexivity. }
  rewrite bind_Ok. eexists. split; [reflexivity|]. done.
Qed.

(** Only the first validator has a new block, that of the epoch. *)
Definition recorded (epoch : Z) (b : ConsensusBlock) (n n' : QRTBTestnet) : Prop :=
  forall id, id ∈ dict_keys (tn_validators n) ->
    chain n' id = if decide (head (dict_keys (tn_validators n)) = Some id)
                  then <[epoch := b]> (chain n id) else chain n id.

(** The epoch has finalized [b] with the whole stake behind it. *)
Record finalized_by_all (stakes : gmap bytes Z) (k epoch : Z) (n n' : QRTBTestnet) (st : EpochStats)
    (b : ConsensusBlock) : Prop := {
  fa_stats : es_finalized st = true /\ es_total_stake st = stake_sum stakes /\
             es_supporting_stake st = stake_sum stakes;
  fa_block : cb_epoch b = epoch /\ cp_epoch (cb_proposal b) = epoch /\
             is_Some (stakes !! cp_proposer_id (cb_proposal b)) /\
             cb_total_stake b = stake_sum stakes /\ cb_supporting_stake b = stake_sum stakes;
  fa_records : tn_finalized_blocks n' = dict_set epoch b (tn_finalized_blocks n) /\
               tn_epoch_stats n' = dict_set epoch st (tn_epoch_stats n);
  fa_chains : recorded epoch b n n';
  fa_connected : connected stakes (k + 1) n';
}.

(** The detection engine raised [e] on measurements of the validators, one of which has a
    ratio to its theoretical time that is not a number between 0 and 4. *)
Definition analysis_raised (n : QRTBTestnet) (e : exn) : Prop :=
  exists ms locations id l m, dict_keys ms = dict_keys (tn_validators n) /\
    analyze_all (load_measurements ms locations) = Err e /\
    (id, l) ∈ ms /\ m ∈ l /\ ~ moderate_ratio m.

Lemma run_epoch_ends stakes k n gauss nonces epoch :
  connected stakes k n -> (0 <= k /\ k + 1 < 2 ^ 64)%Z -> (0 <= epoch < 2 ^ 64)%Z ->
  (exists n' e, run_epoch gauss nonces epoch n = (n', Err e) /\ rest n n' /\ analysis_raised n e) \/
  (exists n' st b, run_epoch gauss nonces epoch n = (n', Ok st) /\
     finalized_by_all stakes k epoch n n' st b).
Proof.
  intros Hn Hk He. unfold run_epoch. rewrite (sim_bind_ok sim_now _ n _ _ eq_refl).
  set (n1 := set_ticks n (S (tn_ticks n))). pose proof Hn as [].
  assert (Hn1 : connected stakes k n1) by (by split).
  destruct (run_phases_ends stakes k n1 gauss nonces epoch Hn1 Hk He)
    as [(n2 & ms & locs & e & E & Hr & Hkeys & Ha)|(n2 & b & E & B1 & B2 & B3 & Hsize & B4 & B5 & HN & K & C & F & St)].
  { left. exists n2, e. split; [unfold mbind, sim_bind; by rewrite E|]. split;
      [|destruct (analyze_all_raises _ _ Ha) as (id & l & m & Hin & Hm & Hbad); by exists ms, locs, id, l, m].
    destruct Hr as (vs & t & -> & Evs). by exists vs, t. }
  right. rewrite (sim_bind_ok _ _ _ _ _ E), (sim_bind_ok sim_now _ n2 _ _ eq_refl).
  set (n3 := set_ticks n2 (S (tn_ticks n2))). rewrite (sim_bind_ok sim_get _ n3 n3 n3 eq_refl).
  change (dict_keys (tn_validators n1)) with (dict_keys (tn_validators n)) in *.
  assert (Hwf3 : dict_wf (tn_validators n3)) by (unfold dict_wf; simpl; by rewrite K).
  assert (Hc3 : nodes_are (counted stakes (k + 1)) n3) by (intros id v Hv; by apply (HN id v Hv)).
  assert (Hlen : length (tn_validators n3) = length (tn_validators n)).
  { apply (f_equal length) in K. unfold dict_keys in K. by rewrite !length_map in K. }
  destruct (collect_epoch_stats_ok stakes (k + 1) n3 epoch b
    (float_sub (tn_clock n2 (tn_ticks n2)) (tn_clock n (tn_ticks n))) (length (tn_validators n)))
    as (st & Est & Hst); try done; [by rewrite cn_dom0; simpl; rewrite K|by rewrite Hlen|].
  rewrite Est. rewrite (sim_bind_ok (sim_lift (Ok st)) _ n3 n3 st eq_refl).
  eexists _, st, b. split; [reflexivity|]. split; [done| |by simpl; rewrite F, St| |].
  - split; [done|]. split; [done|]. split; [|done]. apply elem_of_dom. rewrite cn_dom0.
    by apply elem_of_list_to_set.
  - intros id Hid. rewrite <- K in Hid. destruct (member_get id n2 Hid) as [v Hv].
    destruct (HN id v Hv) as [_ Hf]. unfold chain at 1. simpl. rewrite Hv. simpl. rewrite Hf.
    change (chain n1 id) with (chain n id). done.
  - split; simpl; try done; [by rewrite K|by rewrite C|]. by rewrite <- Hlen in cn_size0.
Qed.

(** C20. An epoch of the simulated network ends in agreement.  In a connected network of total stake
    between 1 and [2^49 - 1], with epoch numbers and clock readings that fit 64 bits, the
    epoch either raises what the detection engine raises on the collected measurements, one of
    whose ratios is then not a number between 0 and 4, with nothing recorded, or
    returns statistics that report it finalized: one block of this epoch is recorded, proposed
    by a registered validator and supported by the whole stake, and the network is connected
    again.  Of the validators, only the first one records the block. *)
Theorem network_epoch_finalizes (stakes : gmap bytes Z) (k epoch : Z) (n : QRTBTestnet)
    (gauss : bytes -> nat -> float64 -> float64 -> float64) (nonces : bytes -> nat -> bytes)
    (Hn : connected stakes k n) (Hk : (0 <= k /\ k + 1 < 2 ^ 64)%Z) (Hepoch : (0 <= epoch < 2 ^ 64)%Z) :
  (exists n' e, run_epoch gauss nonces epoch n = (n', Err e) /\ rest n n' /\ analysis_raised n e) \/
  (exists n' st b, run_epoch gauss nonces epoch n = (n', Ok st) /\
     finalized_by_all stakes k epoch n n' st b).
Proof. by apply run_epoch_ends. Qed.

End Epochs.
