(* ===== verification/NetworkRun.v ===== *)
(** * A run of the simulated network

    [initialize_network] of [src/src/network.py] creates a connected network in the sense of
    [NetworkEpoch.v], and [run] keeps it so: [network_run_finalizes] says that every epoch of
    a run is finalized with the whole stake, up to the first one, if any, in which the
    detection engine raises. *)

From stdpp Require Import prelude list gmap strings.
From Stdlib Require Import Strings.Byte ZArith Lia SpecFloat.
From S2P Require Import Prelude.
From S2P Require Import Dict.
From S2P Require Import PyFloat.
From S2P Require Import Crypto.
From S2P Require Import Consensus.
From S2P Require Import Measurement.
From S2P Require Import Epoch.
From S2P Require Import Detection.
From S2P Require Import Validator.
From S2P Require Import TemporalAuth.
From S2P Require Import Network.
From S2P Require Import NetworkEpoch.

Set Default Goal Selector "!".

(** ** Creation *)

Section Creation.
Context `{Hashlib, PyRandom, Libm}.
Variables (config : NetworkConfig) (draws : nat -> NodeDraw) (clock : nat -> float64).
(** The number of validators. *)
Variable total : nat.

(** A location of the table. *)
Definition city (l : location) : Prop := exists zone choice name, get_random_location zone choice = Some (name, l).

Lemma random_location zone choice : exists name l, get_random_location zone choice = Some (name, l).
Proof.
  unfold get_random_location. set (ls := default _ _).
  assert (Hls : 0 < length ls).
  { unfold ls, zone_locations. repeat case_match; simpl; lia. }
  destruct (lookup_lt_is_Some_2 ls (choice mod length ls)) as [[name l] E].
  { apply Nat.mod_upper_bound. lia. }
  by exists name, l.
Qed.

(** The [j]-th validator draws its identity and its part of the stakes. *)
Definition drawn_stake (j : nat) : Z := (base_stake config + dr_stake_offset (draws j))%Z.

Definition drawn_stakes : gmap bytes Z :=
  list_to_map (map (fun j => (dr_id (draws j), drawn_stake j)) (seq 0 total)).

Definition drawn_ids (i n : nat) : list bytes := map (fun j => dr_id (draws j)) (seq i n).

Hypothesis Hids : NoDup (drawn_ids 0 total).

Lemma drawn_lookup j : j < total -> drawn_stakes !! dr_id (draws j) = Some (drawn_stake j).
Proof.
  intros Hj. apply elem_of_list_to_map.
  - rewrite <- list_fmap_compose. exact Hids.
  - apply list_elem_of_fmap. exists j. split; [done|]. apply elem_of_seq. lia.
Qed.

Lemma drawn_dom : dom drawn_stakes = list_to_set (drawn_ids 0 total).
Proof. unfold drawn_stakes. rewrite dom_list_to_map_L, <- list_fmap_compose. done. Qed.

(** A validator that knows the stakes of itself and of [X]. *)
Record knows (X : gset bytes) (id : bytes) (v : ValidatorNode) : Prop := {
  kn_id : vn_validator_id v = id;
  kn_bft : bft_validator_id (vn_consensus v) = id;
  kn_stake : drawn_stakes !! id = Some (vc_stake (vn_config v));
  kn_bft_stake : bft_stake (vn_consensus v) = vc_stake (vn_config v);
  kn_validators k : validators (vn_consensus v) !! k = if decide (k ∈ {[id]} ∪ X) then drawn_stakes !! k else None;
  kn_total : total_stake (vn_consensus v) = stake_sum (validators (vn_consensus v));
  kn_city : city (vc_location (vn_config v));
  kn_location : mp_location (vn_protocol v) = vc_location (vn_config v);
  kn_peers : Forall (fun kv => city (pi_location kv.2)) (mp_peers (vn_protocol v));
  kn_epoch : em_current_epoch (vn_epoch_manager v) = 0%Z;
}.

(** What stays the same while the network is set up. *)
Record set_up (ids : list bytes) (P : bytes -> ValidatorNode -> Prop) (n : QRTBTestnet) : Prop := {
  su_keys : dict_keys (tn_validators n) = ids;
  su_clock : tn_clock n = clock;
  su_config : tn_config n = config;
  su_nodes : nodes_are P n;
}.

Lemma validator_new_knows j zone adv now genesis :
  j < total -> exists c v, validator_config zone (drawn_stake j) None None adv (dr_location (draws j)) = Some c /\
    validator_new c (dr_id (draws j)) (dr_key_seed (draws j)) (dr_entropy_seed (draws j)) genesis now = Ok v /\
    knows ∅ (dr_id (draws j)) v.
Proof.
  intros Hj. unfold validator_config. destruct (random_location zone (dr_location (draws j))) as (name & l & El).
  rewrite El. unfold validator_new, create. rewrite !py_concat_2. cbn [mbind option_bind res_bind].
  rewrite py_concat_2. eexists _, _. split; [reflexivity|]. split; [reflexivity|].
  split; try done; simpl.
  - by apply drawn_lookup.
  - intros k. rewrite lookup_insert, lookup_empty. destruct (decide (dr_id (draws j) = k)) as [<-|Hne].
    + rewrite decide_True by set_solver. symmetry. by apply drawn_lookup.
    + by rewrite decide_False by set_solver.
  - by exists zone, (dr_location (draws j)), name.
Qed.

Lemma add_validator_ok i zone adv n :
  i < total -> set_up (drawn_ids 0 i) (knows ∅) n ->
  ensures (add_validator zone adv (draws i)) n (fun _ => set_up (drawn_ids 0 (S i)) (knows ∅)).
Proof.
  intros Hi [Hk Hc Hcf Hn]. unfold add_validator. eapply ensures_step; [reflexivity|]. rewrite Hcf.
  fold (drawn_stake i).
  destruct (validator_new_knows i zone adv (tn_clock n (tn_ticks n)) (Some (tn_genesis_time n)) Hi)
    as (c & v & -> & Ev & Kv).
  eapply ensures_step; [reflexivity|]. unfold sim_lift. change (tn_genesis_time _) with (tn_genesis_time n).
  rewrite Ev. eapply ensures_step; [reflexivity|]. eapply ensures_step; [reflexivity|].
  eexists _, tt. split; [reflexivity|]. rewrite (kn_id _ _ _ Kv).
  assert (Hnew : dr_id (draws i) ∉ drawn_ids 0 i).
  { pose proof Hids as Hnd. unfold drawn_ids in Hnd. replace total with (i + S (total - S i)) in Hnd by lia.
    rewrite seq_app, map_app in Hnd. apply NoDup_app in Hnd as (_ & Hd & _). intros Hin. apply (Hd _ Hin).
    simpl. by left. }
  split; simpl; try done.
  - rewrite dict_set_keys, Hk, decide_False by done. unfold drawn_ids. by rewrite seq_S, map_app.
  - intros id w Hw. simpl in Hw. destruct (decide (dr_id (draws i) = id)) as [<-|Hne].
    + rewrite dict_get_set_eq in Hw. by injection Hw as <-.
    + rewrite dict_get_set_ne in Hw by done. by apply Hn.
Qed.

Lemma create_validators_ok adv zones i n :
  i + length zones <= total -> set_up (drawn_ids 0 i) (knows ∅) n ->
  ensures (create_validators draws adv zones i) n (fun _ => set_up (drawn_ids 0 (i + length zones)) (knows ∅)).
Proof.
  revert i n. induction zones as [|zone zones IH]; intros i n Hlen Hn; cbn [create_validators length] in *.
  { apply ensures_ret. by rewrite Nat.add_0_r. }
  eapply ensures_bind; [apply add_validator_ok; [lia|done]|].
  intros [] n1 Hn1. rewrite <- Nat.add_succ_comm. apply IH; [lia|done].
Qed.

(** ** Connection *)

Hypothesis Hdist : forall l l', city l -> city l' -> is_Ok (haversine_distance_km l l').

(** Learning the stake of one more peer. *)
Lemma add_peer_knows X id v peer p now :
  knows X id v -> peer <> id -> drawn_stakes !! peer = Some (vc_stake (vn_config p)) ->
  city (vc_location (vn_config p)) -> knows (X ∪ {[peer]}) id (vn_add_peer v peer (vn_config p) now).
Proof.
  intros [] Hne Hp Hc. split; try done; simpl.
  - intros k. rewrite lookup_insert. destruct (decide (peer = k)) as [<-|Hk].
    + by rewrite decide_True by set_solver.
    + rewrite kn_validators0. repeat case_decide; try done; set_solver.
  - unfold mp_add_peer. cbn [set_mp_peers mp_peers pi_validator_id].
    by apply (dict_set_Forall (fun peer => city (pi_location peer))).
Qed.

Lemma connect_node_ok ids id X n :
  id ∈ ids -> NoDup ids -> set_up ids (fun j => if decide (j ∈ X) then knows (list_to_set ids) j else knows ∅ j) n ->
  id ∉ X ->
  ensures (for_each (fun peer =>
      n ← sim_get;
      match dict_get peer (tn_validators n) with
      | None => sim_lift (Err KeyError)
      | Some p =>
          now ← sim_now;
          on_node id (fun v => (vn_add_peer v (vn_validator_id p) (vn_config p) now, Ok tt))
      end) (others id ids)) n
    (fun _ => set_up ids (fun j => if decide (j ∈ X ++ [id]) then knows (list_to_set ids) j else knows ∅ j)).
Proof.
  intros Hid Hnd Hn HX.
  apply ensures_mono with (fun _ => set_up ids (fun j => if decide (j = id) then knows (list_to_set (others id ids)) j
    else if decide (j ∈ X) then knows (list_to_set ids) j else knows ∅ j)).
  2:{ intros [] n' [K C F N]. split; try done. intros j w Hj. specialize (N j w Hj). simpl in N.
      destruct (decide (j = id)) as [->|Hne].
      - rewrite decide_True by set_solver. destruct N. split; try done. intros k. rewrite kn_validators0.
        assert (Hk : k ∈ ({[id]} ∪ list_to_set (others id ids) : gset bytes) <-> k ∈ ({[id]} ∪ list_to_set ids : gset bytes)).
        { rewrite !elem_of_union, !elem_of_list_to_set, elem_of_singleton. unfold others.
          rewrite list_elem_of_filter. destruct (decide (k = id)); naive_solver. }
        repeat case_decide; naive_solver.
      - repeat case_decide; try done; set_solver. }
  apply (ensures_for_each _ _ _ (fun before => set_up ids (fun j => if decide (j = id) then knows (list_to_set before) j
    else if decide (j ∈ X) then knows (list_to_set ids) j else knows ∅ j))).
  - destruct Hn as [K C F N]. split; try done. intros j w Hj. specialize (N j w Hj). simpl in N.
    destruct (decide (j = id)) as [->|]; [|done]. by rewrite decide_False in N.
  - intros before peer after n1 El [K C F N].
    assert (Hp : peer ∈ others id ids) by (rewrite El; set_solver).
    apply list_elem_of_filter in Hp as [Hne Hp].
    destruct (member_get peer n1) as [p Ep]; [by rewrite K|]. destruct (member_get id n1) as [v Ev]; [by rewrite K|].
    eapply ensures_step; [reflexivity|]. rewrite Ep. eapply ensures_step; [reflexivity|].
    destruct (on_node_ok id (fun v => (vn_add_peer v (vn_validator_id p) (vn_config p) (tn_clock n1 (tn_ticks n1)), Ok tt))
      (sim_now n1).1 v _ _ Ev eq_refl) as (n2 & E2 & O2).
    exists n2, tt. split; [exact E2|].
    pose proof (only_at_trans _ _ _ _ _ _ (only_at_now id v n1 Ev) O2) as O. pose proof (oa_rest _ _ _ _ O) as Hr.
    split; [by rewrite (rest_keys _ _ Hr)|by rewrite (rest_clock _ _ Hr)|by destruct Hr as (? & ? & -> & _)|].
    pose proof (N peer p Ep) as Np. simpl in Np. rewrite decide_False in Np by done.
    assert (Hpk : vn_validator_id p = peer /\ drawn_stakes !! peer = Some (vc_stake (vn_config p)) /\
      city (vc_location (vn_config p))) by (case_decide; by destruct Np).
    destruct Hpk as (Hp1 & Hp2 & Hp3). pose proof (N id v Ev) as Nv. simpl in Nv. rewrite decide_True in Nv by done.
    intros j w Hj. destruct (decide (j = id)) as [->|Hj'].
    + rewrite (oa_at _ _ _ _ O) in Hj. injection Hj as <-. rewrite Hp1, list_to_set_app_L. simpl.
      rewrite union_empty_r_L. by apply add_peer_knows.
    + rewrite (oa_others _ _ _ _ O j Hj') in Hj. pose proof (N j w Hj) as Nj. simpl in Nj.
      by rewrite decide_False in Nj.
Qed.

Lemma connect_ok ids n :
  NoDup ids -> set_up ids (knows ∅) n -> ensures connect_validators n (fun _ => set_up ids (knows (list_to_set ids))).
Proof.
  intros Hnd [K C F N]. unfold connect_validators. eapply ensures_step; [reflexivity|]. rewrite K.
  eapply ensures_mono.
  - apply (ensures_for_each _ ids n (fun before => set_up ids
      (fun j => if decide (j ∈ before) then knows (list_to_set ids) j else knows ∅ j))).
    + by split.
    + intros before id after n1 El Hn1. apply connect_node_ok; [rewrite El; set_solver|done..|].
      intros Hin. rewrite El in Hnd. apply NoDup_app in Hnd as (_ & Hd & _). apply (Hd id Hin). by left.
  - intros [] n' [K' C' F' N']. split; try done. intros j w Hj. specialize (N' j w Hj). simpl in N'.
    rewrite decide_True in N'; [done|]. rewrite <- K'. by eapply dict_get_keys.
Qed.

(** A validator that knows everybody is a member of the network. *)
Lemma knows_counted id v :
  knows (list_to_set (drawn_ids 0 total)) id v -> counted drawn_stakes 0 id v.
Proof.
  intros []. assert (Hv : validators (vn_consensus v) = drawn_stakes).
  { apply map_eq. intros k. rewrite kn_validators0. case_decide as Hk; [done|]. symmetry.
    apply not_elem_of_dom. rewrite drawn_dom. set_solver. }
  split; [|done]. split; try done; [by rewrite kn_total0, Hv|].
  eapply Forall_impl; [exact kn_peers0|]. intros kv Hkv. simpl in *. rewrite kn_location0. by apply Hdist.
Qed.

Lemma zone_plan_length :
  (0 <= num_zones config)%Z -> (0 <= validators_per_zone config)%Z ->
  Z.of_nat (length (zone_plan config)) = (num_zones config * validators_per_zone config)%Z.
Proof.
  intros Hz Hv. unfold zone_plan. rewrite (concat_length_same (Z.to_nat (validators_per_zone config))).
  - rewrite length_map, length_seq. nia.
  - apply Forall_map, Forall_forall. intros z _. apply length_replicate.
Qed.

Lemma initialize_ok adversaries a :
  (0 <= num_zones config)%Z -> (0 <= validators_per_zone config)%Z ->
  Z.of_nat total = (num_zones config * validators_per_zone config)%Z -> (forall j, reading_ok (clock j)) ->
  (forall j, j < total -> (0 <= drawn_stake j)%Z) -> (0 < stake_sum drawn_stakes < 2 ^ 49)%Z ->
  (Z.of_nat total < 2 ^ 64)%Z ->
  int_of_float (float_mul (float_of_Z (Z.of_nat total)) (adversary_percentage config)) = Ok a ->
  (0 <= a <= Z.of_nat total)%Z ->
  ensures (initialize_network adversaries draws) (testnet_new config clock) (fun _ => connected drawn_stakes 0).
Proof.
  intros Hz Hv Hplan Hclock Hst Htot Hsize Ha Har. pose proof (zone_plan_length Hz Hv) as Hlen.
  unfold initialize_network. eapply ensures_step; [reflexivity|].
  change (tn_config (testnet_new config clock)) with config. rewrite <- Hplan, Ha.
  eapply ensures_step; [reflexivity|].
  rewrite (proj2 (Z.ltb_ge _ _)), (proj2 (Z.ltb_ge _ _)) by lia. cbn [orb].
  eapply ensures_bind; [apply (create_validators_ok _ _ 0)|].
  - lia.
  - split; try done.
  - intros [] n1 Hn1. replace (0 + length (zone_plan config)) with total in Hn1 by lia.
    eapply ensures_mono; [by apply (connect_ok (drawn_ids 0 total))|].
    intros [] n [K C F N]. split; try done.
    + unfold dict_wf. by rewrite K.
    + by rewrite K, drawn_dom.
    + by rewrite C.
    + apply map_Forall_lookup. intros id st Hst'. assert (Hid : id ∈ dom drawn_stakes) by (by apply elem_of_dom).
      rewrite drawn_dom in Hid. apply elem_of_list_to_set, list_elem_of_fmap in Hid as (j & -> & Hj%elem_of_seq).
      rewrite drawn_lookup in Hst' by lia. injection Hst' as <-. apply Hst. lia.
    + apply (f_equal length) in K. unfold dict_keys, drawn_ids in K. rewrite !length_map, length_seq in K. lia.
    + intros id v Hv'. by apply knows_counted, N.
Qed.

End Creation.

(** ** Epoch after epoch *)

Section Run.
Context `{Hashlib, PyRandom, Libm}.

(** The records of the network show the epoch finalized with the whole stake. *)
Definition epoch_on_record (stakes : gmap bytes Z) (epoch : Z) (n : QRTBTestnet) : Prop :=
  exists b st, dict_get epoch (tn_finalized_blocks n) = Some b /\ cb_epoch b = epoch /\
    cb_total_stake b = stake_sum stakes /\ cb_supporting_stake b = stake_sum stakes /\
    dict_get epoch (tn_epoch_stats n) = Some st /\ es_finalized st = true.

Definition on_record_below (stakes : gmap bytes Z) (k : Z) (n : QRTBTestnet) : Prop :=
  forall epoch, (0 <= epoch < k)%Z -> epoch_on_record stakes epoch n.

Lemma on_record_next stakes k n n' st b :
  on_record_below stakes k n -> finalized_by_all stakes k k n n' st b -> on_record_below stakes (k + 1) n'.
Proof.
  intros Hn [(F1 & _) (B1 & _ & _ & B4 & B5) [R1 R2] _ _] epoch He. unfold epoch_on_record. rewrite R1, R2.
  destruct (decide (k = epoch)) as [<-|Hne].
  - exists b, st. by rewrite !dict_get_set_eq.
  - rewrite !dict_get_set_ne by done. apply Hn. lia.
Qed.

Lemma run_loop_ends stakes (gauss : nat -> bytes -> nat -> float64 -> float64 -> float64)
    (nonces : nat -> bytes -> nat -> bytes) m i n :
  connected stakes (Z.of_nat i) n -> on_record_below stakes (Z.of_nat i) n -> (Z.of_nat (i + m) < 2 ^ 64)%Z ->
  (exists n' all, collect (fun epoch => run_epoch (gauss epoch) (nonces epoch) (Z.of_nat epoch)) (seq i m) n
       = (n', Ok all) /\
     length all = m /\ Forall (fun st => es_finalized st = true) all /\
     on_record_below stakes (Z.of_nat (i + m)) n') \/
  (exists n' n1 j x, collect (fun epoch => run_epoch (gauss epoch) (nonces epoch) (Z.of_nat epoch)) (seq i m) n
       = (n', Err x) /\
     i <= j < i + m /\ connected stakes (Z.of_nat j) n1 /\ analysis_raised n1 x /\
     on_record_below stakes (Z.of_nat j) n').
Proof.
  revert i n. induction m as [|m IH]; intros i n Hc Hr Hlt; cbn [seq collect].
  { left. exists n, []. rewrite Nat.add_0_r. by repeat split. }
  destruct (run_epoch_ends stakes (Z.of_nat i) n (gauss i) (nonces i) (Z.of_nat i) Hc)
    as [(n' & x & E & Hrest & Ha)|(n1 & st & b & E & Hf)]; [lia|lia| |].
  { right. exists n', n, i, x. split; [unfold mbind, sim_bind; by rewrite E|]. split; [lia|].
    do 2 (split; [done|]). destruct Hrest as (vs & t & -> & _). exact Hr. }
  pose proof (on_record_next _ _ _ _ _ _ Hr Hf) as Hr1. pose proof (fa_connected _ _ _ _ _ _ _ Hf) as Hc1.
  replace (Z.of_nat i + 1)%Z with (Z.of_nat (S i)) in Hc1, Hr1 by lia.
  rewrite (sim_bind_ok _ _ _ _ _ E).
  destruct (IH (S i) n1 Hc1 Hr1) as [(n' & all & E' & Hlen & Hall & Hrec)|(n' & n2 & j & x & E' & Hj & Hrec)]; [lia|..].
  - left. exists n', (st :: all). rewrite (sim_bind_ok _ _ _ _ _ E'). split; [done|].
    split; [by rewrite <- Hlen|]. split; [constructor; [apply Hf|done]|].
    by rewrite <- Nat.add_succ_comm.
  - right. exists n', n2, j, x. split; [|split; [lia|done]]. unfold mbind at 1, sim_bind at 1. by rewrite E'.
Qed.

(** C10. A simulation run finalizes every epoch.  When the validators draw distinct identities and
    stakes that are not negative and add up to a positive total below [2^49], the number of
    adversaries is a possible one, the distances between the cities can be computed and the
    clock readings fit 64 bits, then [initialize_network] succeeds and creates exactly these
    validators, and a run of any number of epochs ends with each epoch on record as finalized
    with the whole stake - or it raises what the detection engine raises on a ratio that is
    not a number between 0 and 4, with all earlier epochs on record. *)
Theorem network_run_finalizes (config : NetworkConfig) (draws : nat -> NodeDraw) (clock : nat -> float64)
    (adversaries : list Z) (total : nat) (a : Z)
    (Hzones : (0 <= num_zones config)%Z) (Hper : (0 <= validators_per_zone config)%Z)
    (Htotal : Z.of_nat total = (num_zones config * validators_per_zone config)%Z)
    (Hsize : (Z.of_nat total < 2 ^ 64)%Z)
    (Hids : NoDup (drawn_ids draws 0 total))
    (Hpos : forall j, j < total -> (0 <= drawn_stake config draws j)%Z)
    (Hsum : (0 < stake_sum (drawn_stakes config draws total) < 2 ^ 49)%Z)
    (Hadv : int_of_float (float_mul (float_of_Z (Z.of_nat total)) (adversary_percentage config)) = Ok a)
    (Ha : (0 <= a <= Z.of_nat total)%Z)
    (Hclock : forall j, reading_ok (clock j))
    (Hdist : forall l l', city l -> city l' -> is_Ok (haversine_distance_km l l')) :
  exists n0, initialize_network adversaries draws (testnet_new config clock) = (n0, Ok tt) /\
    connected (drawn_stakes config draws total) 0 n0 /\
    forall gauss nonces (num_epochs : Z), (0 <= num_epochs < 2 ^ 64)%Z ->
      let stakes := drawn_stakes config draws total in
      let '(n', r) := run gauss nonces num_epochs n0 in
      (exists all_stats, r = aggregate_stats all_stats /\ Z.of_nat (length all_stats) = num_epochs /\
         Forall (fun st => es_finalized st = true) all_stats /\ on_record_below stakes num_epochs n') \/
      (exists j n1 x, r = Err x /\ (0 <= j < num_epochs)%Z /\ connected stakes j n1 /\
         analysis_raised n1 x /\ on_record_below stakes j n').
Proof.
  destruct (initialize_ok config draws clock total Hids Hdist adversaries a Hzones Hper Htotal Hclock Hpos Hsum
    Hsize Hadv Ha) as (n0 & [] & E & Hc).
  exists n0. do 2 (split; [done|]). intros gauss nonces num_epochs Hnum stakes. unfold run.
  destruct (run_loop_ends stakes gauss nonces (Z.to_nat num_epochs) 0 n0 Hc)
    as [(n' & all & E' & Hlen & Hall & Hrec)|(n' & n1 & j & x & E' & Hj & Hc1 & Hx & Hrec)]; [|lia|..].
  - intros epoch He. lia.
  - rewrite (sim_bind_ok _ _ _ _ _ E'). left. exists all. rewrite Hlen. split; [done|]. split; [lia|].
    split; [done|]. by rewrite Nat.add_0_l, Z2Nat.id in Hrec by lia.
  - unfold mbind, sim_bind. rewrite E'. right. exists (Z.of_nat j), n1, x. split; [done|]. split; [lia|done].
Qed.

End Run.

(** ** A sample run *)

Definition demo_network : NetworkConfig := mkNetworkConfig 1 3 1 1000 (lit 0 1) (lit 50 1).

Definition demo_draws (j : nat) : NodeDraw :=
  mkDraw (Z.of_nat j) j (replicate 32 (byte_of_Z (Z.of_nat j))) (replicate 64 Byte.x02) (replicate 64 Byte.x03).

Definition demo_clock (k : nat) : float64 := lit 2 1.

Definition demo_run (num_epochs : Z) : QRTBTestnet * res (option RunStats) :=
  let n := (@initialize_network toy_hashlib [] demo_draws (testnet_new demo_network demo_clock)).1 in
  @run toy_hashlib no_shuffle no_libm (fun _ _ _ m _ => m) (fun _ _ _ => []) num_epochs n.

Example demo_run_finalizes :
  match (demo_run 2).2 with Ok (Some r) => (rs_epochs_run r, rs_epochs_finalized r) | _ => (0, 0)%Z end = (2, 2)%Z.
Proof. vm_compute. reflexivity. Qed.

Lemma demo_readings j : reading_ok (demo_clock j).
Proof. exists 2000%Z. split; [vm_compute; reflexivity|lia]. Qed.

Lemma demo_ids : NoDup (drawn_ids demo_draws 0 3).
Proof. refine (bool_decide_unpack _ _). vm_compute. exact I. Qed.

Lemma demo_stakes : (0 < stake_sum (drawn_stakes demo_network demo_draws 3) < 2 ^ 49)%Z.
Proof. assert (stake_sum (drawn_stakes demo_network demo_draws 3) = 3003%Z) as -> by (vm_compute; reflexivity). lia. Qed.

Lemma demo_distances l l' : is_Ok (@haversine_distance_km no_libm l l').
Proof. eexists. reflexivity. Qed.

Lemma network_run_finalizes_witness :
  exists n0, @initialize_network toy_hashlib [] demo_draws (testnet_new demo_network demo_clock) = (n0, Ok tt) /\
    @connected no_libm (drawn_stakes demo_network demo_draws 3) 0 n0.
Proof.
  destruct (@network_run_finalizes toy_hashlib no_shuffle no_libm demo_network demo_draws demo_clock [] 3 0)
    as (n0 & E & Hc & _).
  - discriminate.
  - discriminate.
  - reflexivity.
  - reflexivity.
  - exact demo_ids.
  - intros j Hj. unfold drawn_stake. simpl. lia.
  - exact demo_stakes.
  - vm_compute. reflexivity.
  - lia.
  - exact demo_readings.
  - intros l l' _ _. apply demo_distances.
  - exists n0. split; [exact E|exact Hc].
Defined.

Lemma network_epoch_finalizes_witness :
  exists n, @connected no_libm (drawn_stakes demo_network demo_draws 3) 0 n /\
    ((exists n' e, @run_epoch toy_hashlib no_shuffle no_libm (fun _ _ m _ => m) (fun _ _ => []) 0 n = (n', Err e) /\
        rest n n' /\ analysis_raised n e) \/
     (exists n' st b, @run_epoch toy_hashlib no_shuffle no_libm (fun _ _ m _ => m) (fun _ _ => []) 0 n = (n', Ok st) /\
        @finalized_by_all no_libm (drawn_stakes demo_network demo_draws 3) 0 0 n n' st b)).
Proof.
  destruct (@initialize_ok toy_hashlib no_libm demo_network demo_draws demo_clock 3 demo_ids (fun l l' _ _ => demo_distances l l') [] 0)
    as (n & [] & _ & Hc).
  - discriminate.
  - discriminate.
  - reflexivity.
  - exact demo_readings.
  - intros j Hj. unfold drawn_stake. simpl. lia.
  - exact demo_stakes.
  - reflexivity.
  - vm_compute. reflexivity.
  - lia.
  - exists n. split; [exact Hc|].
    apply (@network_epoch_finalizes toy_hashlib no_shuffle no_libm (drawn_stakes demo_network demo_draws 3) 0 0 n); [exact Hc|lia|lia].
Defined.
