(* ===== verification/Testnet.v ===== *)
(** * The testnet runner

    [src/run_testnet.py] and the two helpers at the end of [src/src/network.py]: a test of the
    signatures and the key evolution, one of the detection engine on made-up measurements, one of a
    validator alone, and a run of a simulated network, whose finalization rate has to reach 80%.
    [main] runs the first three and one network, and its exit code says whether all passed.  What
    the runner prints is left out, but the lookups that printing makes are kept: they raise on the
    empty statistics of a run of no epochs.  Main result: with usable random draws and clocks the
    exit code is 0, unless the analysis of the network raises, or a signature of the first test
    is valid for two messages ([runner_passes]). *)

From stdpp Require Import prelude list gmap strings.
From Stdlib Require Import Strings.Byte ZArith Lia SpecFloat.
From S2P Require Import Prelude.
From S2P Require Import Dict.
From S2P Require Import PyFloat.
From S2P Require Import Crypto.
From S2P Require Import Wots.
From S2P Require Import TemporalAuth.
From S2P Require Import Consensus.
From S2P Require Import Measurement.
From S2P Require Import Epoch.
From S2P Require Import Detection.
From S2P Require Import Validator.
From S2P Require Import Network.
From S2P Require Import NetworkEpoch.
From S2P Require Import NetworkRun.

Set Default Goal Selector "!".

Section Testnet.
Context {hashlib : Hashlib} {random : PyRandom} {libm : Libm}.

(** ** Cryptographic primitives *)

Definition test_message : bytes := b: "Test transaction data".

(** [seed] is what [TemporalKey.create()] draws. *)
Definition test_cryptographic_primitives (seed : bytes) : res bool :=
  key ← create seed;
  '(priv, pub) ← get_signing_keypair key;
  let signature := wots_sign test_message priv in
  let valid := wots_verify test_message signature pub in
  let tampered := test_message ++ b: "x" in
  let invalid := wots_verify tampered signature pub in
  let initial_key := tk_current_key key in
  key ← evolve key (b: "epoch_entropy_1");
  let evolved := negb (bool_decide (tk_current_key key = initial_key)) in
  Ok (valid && negb invalid && evolved).

(** ** Detection engine *)

(** What [secure_random] and the clock supply for the measurements of one source. *)
Record SourceDraw := mkSourceDraw {
  sd_id : bytes;
  sd_targets : nat -> bytes;
  sd_nonces : nat -> bytes;
  sd_clock : nat -> float64;
}.

(** The loop over [range(5)]: the round trips are [ratio] times the theoretical ones. *)
Fixpoint made_measurements (d : SourceDraw) (ratio : float64) (range : list nat) : res (list RTTMeasurement) :=
  match range with
  | [] => Ok []
  | i :: range =>
      let theoretical := float_of_Z (50 + Z.of_nat i * 10) in
      let actual := float_mul theoretical ratio in
      timestamp ← to_ms (sd_clock d i);
      let m := mkRTT (sd_id d) (sd_targets d i) actual timestamp theoretical (sd_nonces d i) in
      ms ← made_measurements d ratio range;
      Ok (m :: ms)
  end.

(** [results[id]]. *)
Definition result_of (id : bytes) (results : dict bytes DetectionResult) : res DetectionResult :=
  match dict_get id results with Some r => Ok r | None => Err KeyError end.

(** A dictionary display with two keys. *)
Definition dict_of_two {V} (k1 : bytes) (v1 : V) (k2 : bytes) (v2 : V) : dict bytes V :=
  dict_set k2 v2 (dict_set k1 v1 []).

Definition test_detection_engine (honest adversary : SourceDraw) : res bool :=
  honest_measurements ← made_measurements honest (lit 115 100) (seq 0 5);
  adversary_measurements ← made_measurements adversary (lit 82 100) (seq 0 5);
  let engine := load_measurements
    (dict_of_two (sd_id honest) honest_measurements (sd_id adversary) adversary_measurements)
    (dict_of_two (sd_id honest) (at_degrees 407000 (-740000)) (sd_id adversary) (at_degrees 340000 (-1182000))) in
  results ← analyze_all engine;
  honest_result ← result_of (sd_id honest) results;
  adversary_result ← result_of (sd_id adversary) results;
  Ok (dr_is_suspicious adversary_result && negb (dr_is_suspicious honest_result)).

(** ** A single validator *)

(** What the constructor draws, and the readings, deviates and nonces of the epoch. *)
Record EpochDraw := mkEpochDraw {
  ed_node : NodeDraw;
  ed_created : float64;
  ed_gauss : nat -> float64 -> float64 -> float64;
  ed_nonces : nat -> bytes;
  ed_clock : nat -> float64;
}.

Definition test_single_validator (d : EpochDraw) : res bool :=
  match validator_config 0 1000 None None false (dr_location (ed_node d)) with
  | None => Err (IndexError "Cannot choose from an empty sequence")
  | Some config =>
      node ← validator_new config (dr_id (ed_node d)) (dr_key_seed (ed_node d)) (dr_entropy_seed (ed_node d))
               None (ed_created d);
      let node := set_consensus node
        (register_validator (vn_consensus node) (vn_validator_id node) (vc_stake (vn_config node))) in
      block ← (simulate_full_epoch node (ed_gauss d) (ed_nonces d) (ed_clock d)).2;
      Ok (match block with Some _ => true | None => false end)
  end.

(** ** Networks *)

(** What a network and its run draw and read. *)
Record NetworkDraw := mkNetworkDraw {
  nd_adversaries : list Z;
  nd_nodes : nat -> NodeDraw;
  nd_clock : nat -> float64;
  nd_gauss : nat -> bytes -> nat -> float64 -> float64 -> float64;
  nd_nonces : nat -> bytes -> nat -> bytes;
}.

Definition network_config (zones per_zone : Z) (adversaries : float64) : NetworkConfig :=
  mkNetworkConfig zones per_zone 1 1000 adversaries (lit 50 1).

(** Create, initialize and run. *)
Definition run_network (config : NetworkConfig) (num_epochs : Z) (d : NetworkDraw)
    : QRTBTestnet * res (option RunStats) :=
  (_ ← initialize_network (nd_adversaries d) (nd_nodes d); run (nd_gauss d) (nd_nonces d) num_epochs)
    (testnet_new config (nd_clock d)).

(** [results[...]], and [print_final_report(results)]. *)
Definition need_stats (results : option RunStats) : res RunStats :=
  match results with Some stats => Ok stats | None => Err KeyError end.

Definition rate_suffices (stats : RunStats) : bool := float_le (lit 8 10) (rs_finalization_rate stats).

Definition network_test (config : NetworkConfig) (num_epochs : Z) (d : NetworkDraw) : res bool :=
  results ← (run_network config num_epochs d).2;
  stats ← need_stats results;
  Ok (rate_suffices stats).

Definition test_multi_validator_network : NetworkDraw -> res bool :=
  network_test (network_config 3 5 (lit 2 10)) 5.

Definition test_full_scale : NetworkDraw -> res bool :=
  network_test (network_config 6 15 (lit 1 10)) 10.

Definition create_testnet (num_zones validators_per_zone : Z) (adversary_pct : float64) (d : NetworkDraw)
    : QRTBTestnet * res unit :=
  initialize_network (nd_adversaries d) (nd_nodes d)
    (testnet_new (network_config num_zones validators_per_zone adversary_pct) (nd_clock d)).

Definition run_quick_test (num_epochs : Z) (d : NetworkDraw) : res RunStats :=
  let '(n, created) := create_testnet 6 5 (lit 1 10) d in
  _ ← created;
  results ← (run (nd_gauss d) (nd_nonces d) num_epochs n).2;
  need_stats results.

(** ** The runner *)

(** The parsed arguments. *)
Record RunnerArgs := mkRunnerArgs {
  ra_quick : bool;
  ra_full : bool;
  ra_epochs : Z;
  ra_zones : Z;
  ra_validators : Z;
  ra_adversaries : float64;
}.

Definition default_args : RunnerArgs := mkRunnerArgs false false 5 6 15 (lit 1 10).

Record RunnerDraw := mkRunnerDraw {
  rd_key_seed : bytes;
  rd_honest : SourceDraw;
  rd_adversary : SourceDraw;
  rd_single : EpochDraw;
  rd_network : NetworkDraw;
}.

Definition runner_network_test (args : RunnerArgs) : NetworkDraw -> res bool :=
  if ra_quick args then test_multi_validator_network
  else if ra_full args then test_full_scale
  else network_test (network_config (ra_zones args) (ra_validators args) (ra_adversaries args)) (ra_epochs args).

(** [main]; [&=] on booleans evaluates every test. *)
Definition runner_main (args : RunnerArgs) (d : RunnerDraw) : res Z :=
  crypto ← test_cryptographic_primitives (rd_key_seed d);
  detection ← test_detection_engine (rd_honest d) (rd_adversary d);
  single ← test_single_validator (rd_single d);
  network ← runner_network_test args (rd_network d);
  Ok (if crypto && detection && single && network then 0 else 1)%Z.

(** ** The signatures *)

(** The first test passes, unless the signature of its message is valid for the altered one too,
    or the key evolves to itself. *)
Lemma crypto_test_passes seed : exists passed,
  test_cryptographic_primitives seed = Ok passed /\
  (passed = false ->
     wots_verify (test_message ++ b: "x") (wots_sign test_message (wots_sk seed)) (wots_pk seed) = true \/
     sha3_512 (seed ++ b: "epoch_entropy_1") = seed).
Proof.
  unfold test_cryptographic_primitives, create. rewrite !py_concat_2, bind_Ok, py_concat_2, bind_Ok, bind_Ok.
  unfold get_signing_keypair. cbn [tk_current_key]. rewrite keygen_spec, bind_Ok.
  unfold evolve. cbn [tk_current_key]. rewrite py_concat_2, bind_Ok, bind_Ok. cbn [tk_current_key].
  rewrite (wots_correct test_message seed _ _ (keygen_spec seed)).
  eexists. split; [reflexivity|]. cbn [andb]. intros [Hi|He]%andb_false_iff.
  - left. by apply negb_false_iff in Hi.
  - right. by apply negb_false_iff, bool_decide_eq_true in He.
Qed.

(** ** The detection engine *)

(** What the analysis says of ratios to targets that measured nothing themselves. *)
Definition verdict (rs : list float64) : res bool :=
  mean_ratio ← stat_mean rs;
  let sigma := float_div (float_sub HONEST_RTT_RATIO_MEAN mean_ratio) HONEST_RTT_RATIO_STD in
  variance ← stat_variance rs;
  let expected := float_mul HONEST_RTT_RATIO_STD HONEST_RTT_RATIO_STD in
  std_ratio ← stat_stdev rs;
  let cv := if float_lt (lit 0 1) mean_ratio then float_div std_ratio mean_ratio else lit 0 1 in
  let signals := count_true [float_lt DETECTION_THRESHOLD_SIGMA sigma && float_lt mean_ratio (lit 1 1);
                             float_lt variance (float_mul expected (lit 25 100)); false; float_lt (lit 15 100) cv] in
  Ok ((2 <=? signals)%Z || float_lt mean_ratio (lit 9 10)).

Lemma by_target_distinct f ms :
  NoDup (map rm_target_id ms) -> by_target f ms = map (fun m => (rm_target_id m, f m)) ms.
Proof.
  unfold by_target. enough (forall d, NoDup (dict_keys d ++ map rm_target_id ms) ->
    foldl (fun d m => dict_set (rm_target_id m) (f m) d) d ms = d ++ map (fun m => (rm_target_id m, f m)) ms) as H.
  { intros Hn. by apply (H []). }
  induction ms as [|m ms IH]; intros d Hn; cbn [foldl map]; [by rewrite app_nil_r|].
  rewrite dict_set_new.
  - rewrite IH; [by rewrite <- app_assoc|]. unfold dict_keys in *. cbn [map] in Hn.
    by rewrite map_app, <- app_assoc.
  - intros Hin. apply NoDup_app in Hn as (_ & Hni & _). apply (Hni _ Hin). by left.
Qed.

Lemma no_triangles g v :
  (forall m, m ∈ measurements_of g v -> measurements_of g (rm_target_id m) = []) ->
  NoDup (map rm_target_id (measurements_of g v)) -> check_triangles g v = [].
Proof.
  intros Hg Hn. unfold check_triangles. rewrite by_target_distinct by done.
  set (l := map _ _). assert (Hl : Forall (fun b => measurements_of g b.1 = []) l).
  { apply Forall_fmap, Forall_forall. exact Hg. }
  clearbody l. induction Hl as [|b l Hb Hl IH]; [done|]. cbn [pairs]. rewrite omap_app, IH, app_nil_r.
  clear IH Hl. induction l as [|c l IH]; [done|]. cbn. unfold triangle at 1. by rewrite Hb.
Qed.

Lemma signals_rate l : length l = 4 -> exists x, truediv (count_true l) 4 = Ok x.
Proof. intros Hl. pose proof (count_true_le l) as Hc. rewrite Hl in Hc. apply truediv_ok; lia. Qed.

Lemma analyze_isolated e v ms suspicious :
  measurements_of (de_measurement_graph e) v = ms -> 2 <= length ms -> NoDup (map rm_target_id ms) ->
  (forall m, m ∈ ms -> measurements_of (de_measurement_graph e) (rm_target_id m) = []) ->
  verdict (ratios ms) = Ok suspicious ->
  exists r, analyze_validator e v = Ok r /\ dr_is_suspicious r = suspicious.
Proof.
  intros Hms Hlen Hn Hg Hv. unfold verdict in Hv.
  destruct (stat_mean (ratios ms)) as [mean|] eqn:Em; [|discriminate Hv]. rewrite bind_Ok in Hv.
  destruct (stat_variance (ratios ms)) as [variance|] eqn:Ev; [|discriminate Hv]. rewrite bind_Ok in Hv.
  destruct (stat_stdev (ratios ms)) as [std|] eqn:Es; [|discriminate Hv]. rewrite bind_Ok in Hv.
  set (cv := if float_lt (lit 0 1) mean then float_div std mean else lit 0 1) in Hv.
  assert (Hpath : check_path_consistency (de_measurement_graph e) v = Ok (float_lt (lit 15 100) cv, cv)).
  { unfold check_path_consistency. rewrite Hms, (proj2 (Nat.ltb_ge _ _) Hlen), by_target_distinct by done.
    rewrite length_map, length_map, (proj2 (Nat.ltb_ge _ _) Hlen), map_map.
    change (map (fun m => (rm_target_id m, rtt_ratio m).2) ms) with (ratios ms).
    rewrite Em, bind_Ok, Es, bind_Ok. reflexivity. }
  assert (Hvar : check_variance ms = Ok (float_lt variance
     (float_mul (float_mul HONEST_RTT_RATIO_STD HONEST_RTT_RATIO_STD) (lit 25 100)), variance)).
  { unfold check_variance. rewrite (proj2 (Nat.ltb_ge _ _) Hlen), Ev, bind_Ok. reflexivity. }
  unfold analyze_validator. rewrite Hms, no_triangles by (by rewrite Hms).
  unfold check_ratios. destruct ms as [|m ms']; [cbn in Hlen; lia|].
  rewrite Em, bind_Ok, Hvar.
  assert (Hzero : truediv (count_true (map (fun t => negb (tc_is_valid t)) []))
    (Z.of_nat (@length TriangleCheck []) `max` 1) = Ok (S754_zero false)) by reflexivity.
  rewrite bind_Ok, Hzero, bind_Ok, bind_Ok, Hpath, bind_Ok, bind_Ok. cbn [fst].
  change (float_lt (lit 3 10) (S754_zero false)) with false.
  match goal with |- context [truediv (count_true ?l) 4] =>
    destruct (signals_rate l eq_refl) as (confidence & ->) end.
  rewrite bind_Ok. eexists. split; [reflexivity|].
  cbn [dr_is_suspicious]. apply Ok_inj. exact Hv.
Qed.

(** The ratio of the [i]-th made-up measurement. *)
Definition made_ratio (ratio : float64) (i : nat) : float64 :=
  let theoretical := float_of_Z (50 + Z.of_nat i * 10) in
  rtt_ratio (mkRTT [] [] (float_mul theoretical ratio) 0 theoretical []).

Lemma made_measurements_ok d ratio range : (forall i, is_Ok (to_ms (sd_clock d i))) ->
  exists ms, made_measurements d ratio range = Ok ms /\ ratios ms = map (made_ratio ratio) range /\
    map rm_target_id ms = map (sd_targets d) range.
Proof.
  intros Hclock. induction range as [|i range (ms & E & Hr & Ht)]; [by exists []|]. cbn [made_measurements].
  destruct (Hclock i) as (t & ->). rewrite bind_Ok, E, bind_Ok. eexists. split; [reflexivity|].
  unfold ratios in *. cbn [map]. rewrite Hr, Ht. split; reflexivity.
Qed.

(** The sources are two, the targets of each are five, and none of them is a source. *)
Definition sources_ready (honest adversary : SourceDraw) : Prop :=
  sd_id honest <> sd_id adversary /\
  forall d, d = honest \/ d = adversary ->
    (forall i, is_Ok (to_ms (sd_clock d i))) /\ NoDup (map (sd_targets d) (seq 0 5)) /\
    forall i, i < 5 -> sd_targets d i <> sd_id honest /\ sd_targets d i <> sd_id adversary.

Lemma dict_of_two_spec {V} k1 (v1 : V) k2 v2 : k1 <> k2 -> dict_of_two k1 v1 k2 v2 = [(k1, v1); (k2, v2)].
Proof. intros Hne. unfold dict_of_two. cbn. by rewrite decide_False by congruence. Qed.

Lemma honest_verdict : verdict (map (made_ratio (lit 115 100)) (seq 0 5)) = Ok false.
Proof. vm_compute. reflexivity. Qed.

Lemma adversary_verdict : verdict (map (made_ratio (lit 82 100)) (seq 0 5)) = Ok true.
Proof. vm_compute. reflexivity. Qed.

Lemma made_analysis e d ratio ms suspicious :
  measurements_of (de_measurement_graph e) (sd_id d) = ms ->
  ratios ms = map (made_ratio ratio) (seq 0 5) -> map rm_target_id ms = map (sd_targets d) (seq 0 5) ->
  NoDup (map (sd_targets d) (seq 0 5)) ->
  (forall i, i < 5 -> measurements_of (de_measurement_graph e) (sd_targets d i) = []) ->
  verdict (map (made_ratio ratio) (seq 0 5)) = Ok suspicious ->
  exists r, analyze_validator e (sd_id d) = Ok r /\ dr_is_suspicious r = suspicious.
Proof.
  intros Hms Hr Ht Hn Hg Hv. apply (analyze_isolated e _ ms); [done| |by rewrite Ht| |by rewrite Hr].
  - apply (f_equal length) in Ht. rewrite !length_map, length_seq in Ht. lia.
  - intros m Hm. assert (Hin : rm_target_id m ∈ map rm_target_id ms) by (apply list_elem_of_fmap; by exists m).
    rewrite Ht in Hin. apply list_elem_of_fmap in Hin as (i & -> & Hi%elem_of_seq). apply Hg. lia.
Qed.

(** The second test passes. *)
Lemma detection_test_passes honest adversary :
  sources_ready honest adversary -> test_detection_engine honest adversary = Ok true.
Proof.
  intros (Hne & Hd). destruct (Hd honest (or_introl eq_refl)) as (Hch & Hnh & Hih).
  destruct (Hd adversary (or_intror eq_refl)) as (Hca & Hna & Hia).
  unfold test_detection_engine.
  destruct (made_measurements_ok honest (lit 115 100) (seq 0 5) Hch) as (mh & -> & Rh & Th). rewrite bind_Ok.
  destruct (made_measurements_ok adversary (lit 82 100) (seq 0 5) Hca) as (ma & -> & Ra & Ta). rewrite bind_Ok.
  rewrite !dict_of_two_spec by done. set (e := load_measurements _ _).
  assert (Hg : forall x, measurements_of (de_measurement_graph e) x =
    if decide (x = sd_id honest) then mh else if decide (x = sd_id adversary) then ma else []).
  { intros x. unfold measurements_of, e. cbn [load_measurements de_measurement_graph dict_get].
    destruct (decide (x = sd_id honest)); [reflexivity|]. by destruct (decide (x = sd_id adversary)). }
  assert (Hfree : forall t, t <> sd_id honest /\ t <> sd_id adversary -> measurements_of (de_measurement_graph e) t = []).
  { intros t [H1 H2]. by rewrite Hg, !decide_False. }
  assert (Hgh : measurements_of (de_measurement_graph e) (sd_id honest) = mh) by (by rewrite Hg, decide_True).
  assert (Hga : measurements_of (de_measurement_graph e) (sd_id adversary) = ma)
    by (by rewrite Hg, decide_False, decide_True by (done || by apply not_eq_sym)).
  destruct (made_analysis e honest _ mh false Hgh Rh Th Hnh (fun i Hi => Hfree _ (Hih i Hi)) honest_verdict)
    as (rh & Eh & Sh).
  destruct (made_analysis e adversary _ ma true Hga Ra Ta Hna (fun i Hi => Hfree _ (Hia i Hi)) adversary_verdict)
    as (ra & Ea & Sa).
  unfold analyze_all. cbn [dict_keys map fst]. change (dict_keys (de_measurement_graph e)) with [sd_id honest; sd_id adversary].
  cbn [analyze_loop]. rewrite Eh, bind_Ok, Ea, bind_Ok, bind_Ok.
  change (de_results e) with (@nil (bytes * DetectionResult)).
  change (dict_set (sd_id adversary) ra (dict_set (sd_id honest) rh [])) with (dict_of_two (sd_id honest) rh (sd_id adversary) ra).
  rewrite dict_of_two_spec by done. unfold result_of. cbn [dict_get].
  destruct (decide (sd_id honest = sd_id honest)) as [_|]; [|done]. rewrite bind_Ok.
  destruct (decide (sd_id adversary = sd_id honest)) as [E|_]; [by destruct Hne|].
  destruct (decide (sd_id adversary = sd_id adversary)) as [_|]; [|done]. by rewrite bind_Ok, Sh, Sa.
Qed.

(** ** A single validator *)

(** The clock and the genesis fit the encodings. *)
Definition single_ready (d : EpochDraw) : Prop :=
  forall config v, validator_new config (dr_id (ed_node d)) (dr_key_seed (ed_node d)) (dr_entropy_seed (ed_node d))
      None (ed_created d) = Ok v -> epoch_clock_ok (vn_epoch_manager v) (ed_clock d).

(** Registering a validator with itself again changes nothing. *)
Lemma register_again v id stake :
  alone v id stake -> alone (set_consensus v (register_validator (vn_consensus v) id stake)) id stake.
Proof.
  intros [Hp Hi Hm [Hci Hcv Hct]]. split; [exact Hp|exact Hi|exact Hm|].
  split; cbn [set_consensus vn_consensus register_validator set_validators bft_validator_id validators total_stake].
  - exact Hci.
  - by rewrite Hcv, insert_singleton_eq.
  - rewrite Hcv, insert_singleton_eq. unfold stake_sum.
    rewrite <- insert_empty, map_sum_insert, map_sum_empty by apply lookup_empty. simpl. lia.
Qed.

(** The third test passes. *)
Lemma single_test_passes d : single_ready d -> test_single_validator d = Ok true.
Proof.
  intros Hready. unfold test_single_validator, validator_config.
  destruct (random_location 0 (dr_location (ed_node d))) as (name & l & ->). cbn [mbind option_bind].
  set (config := mkValidatorConfig 0 1000 l (Some name) false).
  destruct (validator_new config _ _ _ _ _) as [v|] eqn:Ev;
    [|unfold validator_new, create in Ev; by rewrite !py_concat_2, bind_Ok, py_concat_2, !bind_Ok in Ev].
  rewrite bind_Ok. destruct (new_alone _ _ _ _ _ _ _ Ev) as [Ha Hep]. pose proof (Hready config v Ev) as [Hr (e & He & Her)].
  assert (Econf : vn_config v = config /\ vn_validator_id v = dr_id (ed_node d)).
  { unfold validator_new in Ev. destruct (create _); [|done]. rewrite bind_Ok in Ev. by injection Ev as <-. }
  destruct Econf as [-> ->]. apply register_again in Ha.
  destruct (simulate_alone _ _ _ (ed_gauss d) (ed_nonces d) (ed_clock d) e Ha) as (v' & b & -> & _);
    [cbn; lia|exact Hr|exact He|exact Her|cbn [set_consensus vn_epoch_manager]; rewrite Hep; lia|].
  cbn [snd]. by rewrite bind_Ok.
Qed.

(** ** Networks *)

(** Distinct identities, possible stakes and adversaries, clock readings and distances that can
    be computed, for a network of [total] validators. *)
Record network_ready (config : NetworkConfig) (total : nat) (d : NetworkDraw) : Prop := {
  nr_zones : (0 <= num_zones config)%Z;
  nr_per : (0 <= validators_per_zone config)%Z;
  nr_total : Z.of_nat total = (num_zones config * validators_per_zone config)%Z;
  nr_size : (Z.of_nat total < 2 ^ 64)%Z;
  nr_ids : NoDup (drawn_ids (nd_nodes d) 0 total);
  nr_pos : forall j, j < total -> (0 <= drawn_stake config (nd_nodes d) j)%Z;
  nr_sum : (0 < stake_sum (drawn_stakes config (nd_nodes d) total) < 2 ^ 49)%Z;
  nr_adversaries : exists a, (0 <= a <= Z.of_nat total)%Z /\
    int_of_float (float_mul (float_of_Z (Z.of_nat total)) (adversary_percentage config)) = Ok a;
  nr_clock : forall j, reading_ok (nd_clock d j);
  nr_distance : forall l l', city l -> city l' -> is_Ok (haversine_distance_km l l');
}.

(** What stops a run: the analysis of an epoch, or the mean of the statistics. *)
Definition run_raised (e : exn) : Prop :=
  (exists n, analysis_raised n e) \/
  (exists all_stats, Forall (fun st => es_finalized st = true) all_stats /\ aggregate_stats all_stats = Err e).

Lemma run_network_ends config total num_epochs d :
  network_ready config total d -> (0 <= num_epochs < 2 ^ 64)%Z ->
  (exists e, (run_network config num_epochs d).2 = Err e /\ run_raised e) \/
  (exists all_stats, (run_network config num_epochs d).2 = aggregate_stats all_stats /\
     Z.of_nat (length all_stats) = num_epochs /\ Forall (fun st => es_finalized st = true) all_stats).
Proof.
  intros [Hz Hv Ht Hs Hids Hpos Hsum (a & Ha & Hadv) Hclock Hdist] Hn.
  destruct (initialize_ok config (nd_nodes d) (nd_clock d) total Hids Hdist (nd_adversaries d) a Hz Hv Ht Hclock
    Hpos Hsum Hs Hadv Ha) as (n0 & [] & E & Hc).
  unfold run_network. rewrite (sim_bind_ok _ _ _ _ _ E). unfold run.
  destruct (run_loop_ends _ (nd_gauss d) (nd_nonces d) (Z.to_nat num_epochs) 0 n0 Hc)
    as [(n' & all & E' & Hlen & Hall & _)|(n' & n1 & j & x & E' & _ & _ & Hx & _)]; [intros epoch He; lia|lia|..].
  - rewrite (sim_bind_ok _ _ _ _ _ E'). right. exists all. split; [done|]. split; [lia|done].
  - left. exists x. split; [|left; by exists n1]. unfold mbind, sim_bind. by rewrite E'.
Qed.

Lemma all_finalized_count all_stats :
  Forall (fun st => es_finalized st = true) all_stats ->
  count_true (map es_finalized all_stats) = Z.of_nat (length all_stats).
Proof.
  unfold count_true. intros Hall. f_equal. induction Hall as [|st all Hst Hall IH]; [done|].
  cbn [map]. rewrite filter_cons_True by done. cbn [length]. by rewrite IH.
Qed.

(** The rate of a run in which every epoch is finalized. *)
Lemma finalized_rate all_stats stats :
  Forall (fun st => es_finalized st = true) all_stats -> aggregate_stats all_stats = Ok (Some stats) ->
  rate_suffices stats = true.
Proof.
  intros Hall. destruct all_stats as [|st all] eqn:E; [done|]. rewrite <- E in *. unfold aggregate_stats.
  rewrite E at 1. rewrite (all_finalized_count _ Hall).
  assert (Hn : (0 < Z.of_nat (length all_stats))%Z) by (rewrite E; cbn; lia).
  intros Hr. inv_res. rewrite (truediv_self _ Hn) in *. inv_res. vm_compute. reflexivity.
Qed.

(** A network passes its test, unless its run raises. *)
Lemma network_test_passes config total num_epochs d :
  network_ready config total d -> (0 < num_epochs < 2 ^ 64)%Z ->
  network_test config num_epochs d = Ok true \/ exists e, network_test config num_epochs d = Err e /\ run_raised e.
Proof.
  intros Hr Hn. unfold network_test.
  destruct (run_network_ends config total num_epochs d Hr) as [(e & -> & He)|(all & -> & Hlen & Hall)]; [lia|..].
  { right. exists e. by split. }
  destruct (aggregate_stats all) as [[stats|]|e] eqn:E.
  - left. rewrite bind_Ok. cbn [need_stats]. rewrite bind_Ok. by rewrite (finalized_rate all).
  - destruct all as [|st all']; [cbn in Hlen; lia|]. unfold aggregate_stats in E. by inv_res.
  - right. exists e. split; [done|]. right. by exists all.
Qed.

(** A run of no epochs has no statistics, and printing its report raises. *)
Lemma no_epochs_raises config total d :
  network_ready config total d -> network_test config 0 d = Err KeyError \/
  exists e, network_test config 0 d = Err e /\ run_raised e.
Proof.
  intros Hr. unfold network_test.
  destruct (run_network_ends config total 0 d Hr) as [(e & -> & He)|(all & -> & Hlen & Hall)]; [lia|..].
  { right. exists e. by split. }
  destruct all; [|cbn in Hlen; lia]. by left.
Qed.

(** ** The runner *)

(** The network that the arguments select, and its epochs. *)
Definition runner_config (args : RunnerArgs) : NetworkConfig :=
  if ra_quick args then network_config 3 5 (lit 2 10)
  else if ra_full args then network_config 6 15 (lit 1 10)
  else network_config (ra_zones args) (ra_validators args) (ra_adversaries args).

Definition runner_epochs (args : RunnerArgs) : Z :=
  if ra_quick args then 5 else if ra_full args then 10 else ra_epochs args.

(** C39. The runner reports success.  Let the clocks fit the encodings, the made-up measurements be
    of distinct targets that are not the sources, and the network be one that the arguments allow,
    with at least one epoch.  Then the exit code is 0, unless the run of the network raises, or the
    signature of the test message is valid for the altered message too, or the first key evolves to
    itself. *)
Theorem runner_passes (args : RunnerArgs) (d : RunnerDraw) (total : nat)
    (Hsources : sources_ready (rd_honest d) (rd_adversary d)) (Hsingle : single_ready (rd_single d))
    (Hnetwork : network_ready (runner_config args) total (rd_network d))
    (Hepochs : (0 < runner_epochs args < 2 ^ 64)%Z) :
  runner_main args d = Ok 0%Z \/
  (exists e, runner_main args d = Err e /\ run_raised e) \/
  wots_verify (test_message ++ b: "x") (wots_sign test_message (wots_sk (rd_key_seed d))) (wots_pk (rd_key_seed d)) = true \/
  sha3_512 (rd_key_seed d ++ b: "epoch_entropy_1") = rd_key_seed d.
Proof.
  unfold runner_main. destruct (crypto_test_passes (rd_key_seed d)) as ([] & -> & Hc).
  2:{ destruct (Hc eq_refl) as [?|?]; auto. }
  rewrite bind_Ok, detection_test_passes, bind_Ok, single_test_passes, bind_Ok by done.
  assert (E : runner_network_test args (rd_network d) = network_test (runner_config args) (runner_epochs args) (rd_network d)).
  { unfold runner_network_test, runner_config, runner_epochs. by destruct (ra_quick args), (ra_full args). }
  rewrite E. destruct (network_test_passes _ _ _ _ Hnetwork Hepochs) as [->|(e & -> & He)].
  - by left.
  - right. left. by exists e.
Qed.

End Testnet.

(** ** A sample run *)

Section Samples.
#[local] Existing Instance toy_hashlib.
#[local] Existing Instance no_libm.
#[local] Existing Instance no_shuffle.

Definition sample_source (id first : Z) : SourceDraw :=
  mkSourceDraw (replicate 32 (byte_of_Z id)) (fun i => replicate 32 (byte_of_Z (first + Z.of_nat i)))
    (fun _ => []) demo_clock.

Definition sample_runner : RunnerDraw :=
  mkRunnerDraw (replicate 64 Byte.x01) (sample_source 1 10) (sample_source 2 20)
    (mkEpochDraw (demo_draws 0) (lit 2 1) (fun _ m _ => m) (fun _ => []) demo_clock)
    (mkNetworkDraw [] demo_draws demo_clock (fun _ _ _ m _ => m) (fun _ _ _ => [])).

(** [--zones 1 --validators 3 --epochs 2 --adversaries 0]. *)
Definition sample_args : RunnerArgs := mkRunnerArgs false false 2 1 3 (lit 0 1).

Example sample_runner_passes : runner_main sample_args sample_runner = Ok 0%Z.
Proof. vm_compute. reflexivity. Qed.

Lemma sample_sources : sources_ready (rd_honest sample_runner) (rd_adversary sample_runner).
Proof.
  split; [by apply (bool_decide_eq_false_1 _)|]. intros d [-> | ->];
    (split; [intros i; by eexists|split; [by apply (bool_decide_eq_true_1 _)|]]);
    intros i Hi; (do 5 (destruct i as [|i]; [by split; apply (bool_decide_eq_false_1 _)|])); lia.
Qed.

Lemma sample_single : single_ready (rd_single sample_runner).
Proof.
  intros config v Hv. split; [intros k; exact (demo_readings k)|]. unfold validator_new in Hv.
  destruct (create _); [|discriminate Hv]. rewrite bind_Ok in Hv. injection Hv as <-.
  exists 0%Z. split; [vm_compute; reflexivity|lia].
Qed.

Lemma sample_network : network_ready (runner_config sample_args) 3 (rd_network sample_runner).
Proof.
  constructor; cbn [runner_config sample_args ra_quick ra_full network_config num_zones validators_per_zone rd_network
    sample_runner nd_nodes nd_clock].
  - discriminate.
  - discriminate.
  - reflexivity.
  - reflexivity.
  - exact demo_ids.
  - intros j Hj. unfold drawn_stake. simpl. lia.
  - exact demo_stakes.
  - exists 0%Z. split; [lia|]. vm_compute. reflexivity.
  - exact demo_readings.
  - intros l l' _ _. apply demo_distances.
Qed.

Lemma runner_passes_witness :
  runner_main sample_args sample_runner = Ok 0%Z \/
  (exists e, runner_main sample_args sample_runner = Err e /\ run_raised e) \/
  wots_verify (test_message ++ b: "x") (wots_sign test_message (wots_sk (replicate 64 Byte.x01)))
    (wots_pk (replicate 64 Byte.x01)) = true \/
  sha3_512 (replicate 64 Byte.x01 ++ b: "epoch_entropy_1") = replicate 64 Byte.x01.
Proof.
  apply (runner_passes sample_args sample_runner 3); [exact sample_sources|exact sample_single|exact sample_network|].
  cbn. lia.
Defined.

End Samples.
