(* ===== verification/NodeEpoch.v ===== *)
(** * An epoch of the node under arbitrary traffic

    [Node.run_epoch] waits five times, and anything may reach the node meanwhile.  The segments
    between the waits are composed by [bind_call], so a property of the whole is a property of
    the segments ([keeps]) and of the call that makes the block ([finalizes]).  Main result:
    whatever happens during the epoch, the block it returns is of the clock's epoch, hashes to
    what was voted on, has at least 67% of the registered stake behind it and is recorded
    ([run_epoch_sound]). *)

From stdpp Require Import prelude list gmap strings.
From Stdlib Require Import Strings.Byte ZArith Lia.
From S2P Require Import Prelude.
From S2P Require Import Dict.
From S2P Require Import PyFloat.
From S2P Require Import Crypto.
From S2P Require Import TemporalAuth.
From S2P Require Import Consensus.
From S2P Require Import Peers.
From S2P Require Import P2P.
From S2P Require Import P2PTrace.
From S2P Require Import Measurement.
From S2P Require Import Epoch.
From S2P Require Import Detection.
From S2P Require Import NodeCodec.
From S2P Require Import Validator.
From S2P Require Import Node.

Set Default Goal Selector "!".

Definition nd_consensus (n : Node) : BFTConsensus := vn_consensus (nd_validator n).
Definition nd_announced (n : Node) : Prop := announced (pn_manager (nd_p2p n)).

Section Keeps.
Context `{Hashlib}.

(** Within a round: the consensus moves by its own operations, provided the stakes in the peer
    table were announced. *)
Definition node_steps (n n' : Node) : Prop :=
  nd_announced n -> nd_announced n' /\ round_steps (nd_consensus n) (nd_consensus n').

#[export] Instance node_steps_preorder : PreOrder node_steps.
Proof.
  split; [by intros n Hn|]. intros n1 n2 n3 H1 H2 Hn.
  destruct (H1 Hn) as [Ha S1], (H2 Ha) as [Hb S2]. split; [done|by transitivity (nd_consensus n2)].
Qed.

(** A call keeps to the round. *)
Definition keeps {A} (m : call A) : Prop := forall n, node_steps n (m n).1.

Lemma keeps_bind {A B} (m : call A) (k : A -> call B) :
  keeps m -> (forall x, keeps (k x)) -> keeps (bind_call m k).
Proof.
  intros Hm Hk n. unfold bind_call. pose proof (Hm n) as Hn.
  destruct (m n) as [n' [x|e]]; [|done]. transitivity n'; [done|apply Hk].
Qed.

(** A call that leaves the consensus and the table alone. *)
Lemma keeps_same {A} (m : call A) :
  (forall n, nd_consensus (m n).1 = nd_consensus n /\ pn_manager (nd_p2p (m n).1) = pn_manager (nd_p2p n)) ->
  keeps m.
Proof. intros Hm n Hn. destruct (Hm n) as [E1 E2]. unfold nd_announced. by rewrite E1, E2. Qed.

Lemma keeps_ret {A} (x : A) : keeps (ret_call x).
Proof. by apply keeps_same. Qed.

Lemma keeps_lift {A} (r : res A) : keeps (lift_res r).
Proof. by apply keeps_same. Qed.

Lemma keeps_now : keeps now_call.
Proof. by apply keeps_same. Qed.

Lemma keeps_broadcast t payload : keeps (broadcast_call t payload).
Proof.
  apply keeps_same. intros n. split; [done|]. simpl. apply broadcast_same.
Qed.

(** A function of the validator. *)
Lemma keeps_validator {A} (f : ValidatorNode -> ValidatorNode * res A) :
  (forall v, round_steps (vn_consensus v) (vn_consensus (f v).1)) -> keeps (on_validator f).
Proof.
  intros Hf n Hn. unfold on_validator. pose proof (Hf (nd_validator n)) as Hs.
  by destruct (f (nd_validator n)) as [v r].
Qed.

Lemma keeps_consensus {A} (f : BFTConsensus -> BFTConsensus * res A) :
  (forall s, round_steps s (f s).1) -> keeps (on_consensus f).
Proof.
  intros Hf. apply keeps_validator. intros v. pose proof (Hf (vn_consensus v)) as Hs.
  by destruct (f (vn_consensus v)) as [s r].
Qed.

(** Waiting: the traffic that is handled meanwhile. *)
Lemma keeps_during events : Forall event_ok events -> keeps (during events).
Proof.
  intros Hes n Hn. unfold during. set (x := (nd_app n, nd_p2p n)).
  pose proof (p2p_run_announced x events Hes Hn) as Ha.
  assert (Hs : round_steps (nd_consensus n) (vn_consensus (na_validator (p2p_run x events).1))).
  { apply (p2p_run_app (fun a => round_steps (nd_consensus n) (vn_consensus (na_validator a)))); [|done].
    intros f a s peer_id t payload [= <-] Hc. transitivity (vn_consensus (na_validator a)); [done|].
    apply handle_message_steps. }
  by destruct (p2p_run x events) as [a s].
Qed.

Lemma propose_steps s measurements locations now :
  round_steps s (propose s measurements locations now).1.
Proof.
  unfold propose. destruct (results ← _; _) as [[results hs]|e]; [|done]. apply create_proposal_steps.
Qed.

(** Registering the connected peers with the stakes that they announced. *)
Lemma sync_fold_steps l v addresses :
  Forall (fun kv => 0 <= pc_stake kv.2)%Z l ->
  round_steps (vn_consensus v) (vn_consensus (foldl sync_peer (v, addresses) l).1).
Proof.
  intros Hl. revert v addresses. induction Hl as [|[vid conn] l Hc Hl IH]; intros v addresses; [done|].
  cbn [foldl]. unfold sync_peer at 2. case_match; [apply IH|].
  set (v1 := set_consensus _ _). transitivity (vn_consensus v1); [|apply IH].
  by apply register_steps.
Qed.

Lemma keeps_sync : keeps (fun n => (sync_peers n, Ok tt)).
Proof.
  intros n Hn. unfold sync_peers.
  pose proof (sync_fold_steps (pm_peers (pn_manager (nd_p2p n))) (nd_validator n) (nd_peer_addresses n) Hn) as Hs.
  by destruct (foldl sync_peer _ _) as [v addresses].
Qed.

End Keeps.

#[export] Hint Resolve keeps_bind keeps_ret keeps_lift keeps_now keeps_broadcast keeps_during : keeps.
#[export] Hint Resolve create_pre_vote_steps create_pre_commit_steps try_finalize_steps propose_steps : keeps.

Section Segments.
Context `{Hashlib}.

Lemma keeps_measure `{PyRandom, Libm} gauss nonces probes : keeps (measure_peers gauss nonces probes).
Proof.
  unfold measure_peers. apply keeps_bind; [|intros targets; apply keeps_bind; [apply keeps_now|intros now;
    apply keeps_bind; [apply keeps_lift|intros ts; by apply keeps_same]]].
  apply keeps_validator. intros v. unfold select_targets. by repeat case_match.
Qed.

Lemma keeps_record ms : keeps (record_measurements ms).
Proof. by apply keeps_validator. Qed.

Lemma keeps_commit : keeps epoch_commit.
Proof.
  unfold epoch_commit. apply keeps_bind; [apply keeps_now|]. intros now. apply keeps_bind; [|auto with keeps].
  apply keeps_validator. intros v. unfold create_measurement_commitment. by repeat case_match.
Qed.

Lemma keeps_reveal : keeps epoch_reveal.
Proof. unfold epoch_reveal. apply keeps_bind; [by apply keeps_validator|auto with keeps]. Qed.

Lemma keeps_own_vote t vote : keeps (broadcast_own_vote t vote).
Proof.
  unfold broadcast_own_vote. apply keeps_bind; [apply keeps_lift|]. intros payload.
  apply keeps_bind; [apply keeps_broadcast|]. intros []. by apply keeps_validator.
Qed.

Lemma keeps_propose : keeps epoch_propose.
Proof.
  unfold epoch_propose. apply keeps_bind; [apply keeps_now|]. intros now.
  apply keeps_bind; [intros n; apply (keeps_consensus _ (fun s => propose_steps s _ _ _) n)|]. intros p.
  apply keeps_bind; [by apply keeps_validator|]. intros _. apply keeps_bind; [apply keeps_lift|]. intros payload.
  apply keeps_bind; [apply keeps_broadcast|]. intros _. apply keeps_bind; [apply keeps_lift|]. intros h.
  apply keeps_bind; [apply keeps_now|]. intros now'.
  apply keeps_bind; [apply keeps_consensus; intros; apply create_pre_vote_steps|]. intros vote.
  apply keeps_bind; [apply keeps_own_vote|]. intros _. apply keeps_ret.
Qed.

Lemma keeps_pre_commit h : keeps (epoch_pre_commit h).
Proof.
  unfold epoch_pre_commit. apply keeps_bind; [apply keeps_now|]. intros now.
  apply keeps_bind; [apply keeps_consensus; intros; apply create_pre_commit_steps|].
  intros [vote|]; [apply keeps_own_vote|apply keeps_ret].
Qed.

Lemma keeps_finalize h : keeps (epoch_finalize h).
Proof.
  unfold epoch_finalize. apply keeps_bind; [apply keeps_now|]. intros now.
  apply keeps_consensus. intros. apply try_finalize_steps.
Qed.

End Segments.

(** ** The call that makes the block *)

Section Finalizes.
Context `{Hashlib}.

(** A block comes out only of [try_finalize], in a state that the round can reach. *)
Definition finalizes (m : call (option ConsensusBlock)) : Prop :=
  forall n n' b, nd_announced n -> m n = (n', Ok (Some b)) ->
    exists s h now, round_steps (nd_consensus n) s /\
      try_finalize s h now = (nd_consensus n', Ok (Some b)) /\ nd_announced n'.

Lemma finalizes_bind {A} (m : call A) (k : A -> call (option ConsensusBlock)) :
  keeps m -> (forall x, finalizes (k x)) -> finalizes (bind_call m k).
Proof.
  intros Hm Hk n n' b Hn E. unfold bind_call in E. pose proof (Hm n Hn) as [Ha Hs].
  destruct (m n) as [n1 [x|e]]; [|done].
  destruct (Hk x n1 n' b Ha E) as (s & h & now & S1 & E1 & A1). exists s, h, now.
  split; [by transitivity (nd_consensus n1)|done].
Qed.

Lemma finalizes_finalize h : finalizes (epoch_finalize h).
Proof.
  intros n n' b Hn E. unfold epoch_finalize, bind_call, now_call, on_consensus, on_validator in E. simpl in E.
  exists (nd_consensus n), h, (na_clock (nd_app n) (na_ticks (nd_app n))). split; [done|].
  change (nd_validator (set_app n _ _)) with (nd_validator n) in E. fold (nd_consensus n) in E.
  destruct (try_finalize (nd_consensus n) h _) as [s [[b'|]|e]]; simplify_eq. split; [done|exact Hn].
Qed.

Lemma finalizes_any hs : finalizes (finalize_any hs).
Proof.
  induction hs as [|h hs IH]; [done|]. intros n n' b Hn E. cbn [finalize_any] in E. unfold bind_call in E.
  pose proof (keeps_finalize h n Hn) as [Ha Hs]. pose proof (finalizes_finalize h n) as Hf.
  destruct (epoch_finalize h n) as [n1 [[b'|]|e]]; [|clear Hf|done].
  - injection E as <- <-. by apply Hf.
  - destruct (IH n1 n' b Ha E) as (s & h' & now & S1 & E1 & A1). exists s, h', now.
    split; [by transitivity (nd_consensus n1)|done].
Qed.

Lemma epoch_block_finalizes `{PyRandom, Libm} `{!SetOrder bytes} gauss nonces probes events :
  (forall k, Forall event_ok (events k)) -> finalizes (epoch_block gauss nonces probes events).
Proof.
  intros He. unfold epoch_block.
  apply finalizes_bind; [apply keeps_measure|]. intros ms.
  apply finalizes_bind; [by apply keeps_during|]. intros _.
  apply finalizes_bind; [apply keeps_record|]. intros _.
  apply finalizes_bind; [apply keeps_commit|]. intros _.
  apply finalizes_bind; [by apply keeps_during|]. intros _.
  apply finalizes_bind; [apply keeps_reveal|]. intros _.
  apply finalizes_bind; [by apply keeps_during|]. intros _.
  apply finalizes_bind; [by apply keeps_same|]. intros [].
  - apply finalizes_bind; [apply keeps_propose|]. intros h.
    apply finalizes_bind; [by apply keeps_during|]. intros _.
    apply finalizes_bind; [apply keeps_pre_commit|]. intros _.
    apply finalizes_bind; [by apply keeps_during|]. intros _. apply finalizes_finalize.
  - apply finalizes_bind; [by apply keeps_during|]. intros _ n n' b Hn E.
    by apply (finalizes_any _ n n' b Hn E).
Qed.

(** The start of the epoch resets the round; the epoch is the clock's. *)
Lemma epoch_open_ok n n1 e :
  bft_inv (nd_consensus n) -> nd_announced n -> epoch_open n = (n1, Ok e) ->
  get_current_epoch (vn_epoch_manager (nd_validator n)) (na_clock (nd_app n) (na_ticks (nd_app n))) = Ok e /\
  bft_inv (nd_consensus n1) /\ nd_announced n1 /\ current_epoch (nd_consensus n1) = e.
Proof.
  intros Hi Ha E. unfold epoch_open, bind_call, now_call, on_validator, lift_res in E. simpl in E.
  set (n0 := set_app n _ _) in E. change (nd_validator n0) with (nd_validator n) in E.
  destruct (get_current_epoch _ _) as [epoch|]; [|done].
  set (n2 := set_app n0 _ _) in E. change (nd_validator n2) with (nd_validator n) in E.
  set (now := na_clock _ _) in E.
  assert (Hs : forall v, vn_start_epoch (nd_validator n) epoch now = (v, Ok tt) ->
    vn_consensus v = start_round (nd_consensus n) epoch 0).
  { intros v. unfold vn_start_epoch. destruct (advance_epoch _ _) as [m [[? entropy]|]]; [|done].
    destruct (evolve _ _); [|done]. by intros [= <-]. }
  destruct (vn_start_epoch _ epoch now) as [v [[]|]]; [|done]. injection E as <- <-.
  specialize (Hs v eq_refl). set (n3 := set_validator n2 v).
  assert (H3 : nd_announced n3) by exact Ha. assert (E3 : nd_consensus n3 = start_round (nd_consensus n) epoch 0) by done.
  pose proof (keeps_sync n3 H3) as [H4 Hr]. simpl in *. destruct (round_steps_inv _ _ Hr) as (I & C & _ & _).
  split; [done|]. split; [|split; [done|by rewrite C, E3]].
  apply I. rewrite E3. by apply (bft_step_inv _ (BStartRound epoch 0)).
Qed.

Lemma epoch_close_ok n n' r b :
  epoch_close r n = (n', Ok (Some b)) ->
  r = Some b /\ nd_consensus n' = nd_consensus n /\ vn_state (nd_validator n') = ACTIVE /\
  (nd_announced n -> nd_announced n').
Proof.
  destruct r as [b'|]; [|done]. unfold epoch_close, bind_call, on_validator, broadcast_call. simpl.
  intros [= <- <-]. split; [done|]. split; [done|]. split; [done|].
  unfold nd_announced. simpl. pose proof (broadcast_same (nd_p2p n) BLOCK (serialize_block_hash b')) as [Hm _].
  intros Ha. by rewrite Hm.
Qed.

(** A finalization changes the phase and the table of blocks only. *)
Lemma try_finalize_rest s h now s' b :
  try_finalize s h now = (s', Ok (Some b)) ->
  s' = set_phase (set_finalized s (<[current_epoch s := b]> (finalized_blocks s))) FINALIZED.
Proof.
  unfold try_finalize. destruct (check_pre_commit_threshold s h) as [[[] ?]|]; [|done..].
  destruct (received_proposals s !! h); [|done]. destruct (new_block _ _ _ _ _ _ _); [|done].
  by intros [= <- <-].
Qed.

(** A new node satisfies what the theorem below asks for. *)
Lemma node_new_ok config choice id own_id key_seed entropy_seed now clock n :
  node_new config choice id own_id key_seed entropy_seed now clock = Ok n ->
  (0 <= nc_stake config)%Z -> bft_inv (nd_consensus n) /\ nd_announced n.
Proof.
  unfold node_new. intros E Hs. destruct (validator_config _ _ _ _ _ _) as [vconfig|]; [|done].
  destruct (validator_new _ _ _ _ _ _) as [v|] eqn:Ev; [|done]. unfold validator_new in Ev. inv_res.
  split.
  - split; cbn.
    + split; [done|]. apply map_Forall_insert_2; [done|]. apply map_Forall_empty.
    + by rewrite lookup_insert_eq.
    + apply votes_recorded_empty.
    + apply votes_recorded_empty.
    + intros h p Hp. by rewrite lookup_empty in Hp.
  - unfold nd_announced, announced. cbn.
    destruct (add_seed_nodes_peers (peer_manager_new id (nc_zone_id config) (nc_stake config))
      (nc_seed_nodes config)) as (-> & _ & _). constructor.
Qed.

Context `{!PyRandom, !Libm, !SetOrder bytes}.

(** C5. An epoch is safe under any traffic.  Whatever the peers send and whenever connections come
    and go while it runs, the block that [run_epoch] returns is of the epoch the clock was in
    when it started, contains a proposal of that epoch that hashes to what was pre-committed,
    reports the registered stakes of exactly the distinct pre-committers, at least 67% of the
    total, and is recorded under its epoch; the node is active, and its state is again one that
    the theorem applies to. *)
Theorem run_epoch_sound (n n' : Node) (b : ConsensusBlock)
    (gauss : nat -> float64 -> float64 -> float64) (nonces : nat -> bytes)
    (probes : nat -> list (option (float64 * float64))) (events : nat -> list p2p_event)
    (Hinv : bft_inv (nd_consensus n)) (Hann : nd_announced n)
    (Hevents : forall k, Forall event_ok (events k))
    (Hrun : run_epoch gauss nonces probes events n = (n', Ok (Some b)))
    (Htot : (total_stake (nd_consensus n') < 2 ^ 49)%Z) :
  let s := nd_consensus n' in
  get_current_epoch (vn_epoch_manager (nd_validator n)) (na_clock (nd_app n) (na_ticks (nd_app n)))
    = Ok (cb_epoch b) /\
  (exists h, proposal_hash (cb_proposal b) = Ok h /\ cp_epoch (cb_proposal b) = cb_epoch b /\
     cb_total_stake b = total_stake s /\
     cb_supporting_stake b = set_sum (stake_of s) (voters (lookup_default [] (pre_commits s) h))) /\
  (0 < cb_total_stake b)%Z /\ (67 * cb_total_stake b <= 100 * cb_supporting_stake b)%Z /\
  finalized_blocks s !! cb_epoch b = Some b /\ vn_state (nd_validator n') = ACTIVE /\
  bft_inv s /\ nd_announced n'.
Proof.
  unfold run_epoch, bind_call in Hrun.
  destruct (epoch_open n) as [n1 [e|]] eqn:Eo; [|done].
  destruct (epoch_open_ok n n1 e Hinv Hann Eo) as (Hc & I1 & A1 & C1).
  destruct (epoch_block _ _ _ _ n1) as [n2 [r|]] eqn:Eb; [|done].
  apply epoch_close_ok in Hrun as (-> & E2 & Hst & HA).
  destruct (epoch_block_finalizes gauss nonces probes events Hevents n1 n2 b A1 Eb) as (s & h & now & Hs & Ef & A2).
  destruct (round_steps_inv _ _ Hs) as (I & C & _ & _). pose proof (try_finalize_rest _ _ _ _ _ Ef) as Er.
  pose proof (proj1 (round_steps_inv _ _ (try_finalize_steps s h now))) as I3. rewrite Ef in I3. simpl in I3.
  rewrite E2 in *. clear E2.
  assert (Ht : total_stake (nd_consensus n2) = total_stake s) by by rewrite Er.
  assert (Hst' : stake_of (nd_consensus n2) = stake_of s) by (unfold stake_of; by rewrite Er).
  assert (Hpc : pre_commits (nd_consensus n2) = pre_commits s) by by rewrite Er.
  destruct (try_finalize_sound s h now (nd_consensus n2) b (I I1)) as
    (B1 & B2 & _ & B4 & _ & B6 & B7 & B8 & B9 & _ & B11); [by rewrite <- Ht|done|].
  cbv zeta. rewrite Hc, Ht, Hst', Hpc, B2, C, C1. split; [done|]. split; [exists h; by rewrite B4, C, C1|].
  split; [by rewrite B6|]. split; [done|]. split; [by rewrite B11, C, C1, lookup_insert_eq|].
  split; [done|]. split; [apply I3; by apply I|by apply HA].
Qed.

End Finalizes.
