(* ===== verification/NodeLone.v ===== *)
(** * A node without peers

    [Node.run_epoch] for a node that nobody has connected to: the node proposes, votes and
    finalizes by itself, and everything it would send is serialized without error.  Main result:
    it finalizes a block in every epoch it runs ([lone_node_finalizes]). *)

From stdpp Require Import prelude list gmap strings.
From Stdlib Require Import Strings.Byte ZArith Lia.
From S2P Require Import Prelude.
From S2P Require Import Dict.
From S2P Require Import PyFloat.
From S2P Require Import Crypto.
From S2P Require Import TemporalAuth.
From S2P Require Import Consensus.
From S2P Require Import Peers.
From S2P Require Import P2P.
From S2P Require Import P2PTrace.
From S2P Require Import Measurement.
From S2P Require Import Epoch.
From S2P Require Import Detection.
From S2P Require Import NodeCodec.
From S2P Require Import Validator.
From S2P Require Import Node.
From S2P Require Import NodeEpoch.

Set Default Goal Selector "!".

(** ** The round *)

Section Round.
Context `{Hashlib}.

Lemma vote_serialized id e r h ty st ts :
  (0 <= e < 2 ^ 64)%Z -> (0 <= r < 2 ^ 32)%Z -> (0 <= st < 2 ^ 64)%Z -> (0 <= ts < 2 ^ 64)%Z ->
  is_Ok (serialize_vote (mkConsensusVote id e r h ty st ts [])).
Proof.
  intros He Hr Hst Hts. unfold serialize_vote. cbn [cv_epoch cv_round cv_stake cv_timestamp].
  destruct (unpack_QI_ok e r He Hr) as (er & -> & _). rewrite !pack_uint_ok by (simpl; lia).
  by eexists.
Qed.

(** The node's own proposal, pre-vote and pre-commit are enough. *)
Lemma solo_node_round s id stake results t1 t2 t3 t4 :
  solo s id stake -> bft_stake s = stake -> fresh_round s -> (0 < stake < 2 ^ 49)%Z ->
  (0 <= current_epoch s < 2 ^ 64)%Z -> (0 <= current_round s < 2 ^ 32)%Z ->
  reading_ok t1 -> reading_ok t2 -> reading_ok t3 -> reading_ok t4 ->
  exists s1 p h s2 vote s3 c s4 b,
    create_proposal s [] results [] [] t1 = (s1, Ok p) /\ proposal_hash p = Ok h /\
    is_Ok (serialize_proposal p) /\
    create_pre_vote s1 h t2 = (s2, Ok vote) /\ is_Ok (serialize_vote vote) /\
    create_pre_commit s2 h t3 = (s3, Ok (Some c)) /\ is_Ok (serialize_vote c) /\
    try_finalize s3 h t4 = (s4, Ok (Some b)) /\
    Forall (fun s => solo s id stake /\ bft_stake s = stake) [s1; s2; s3; s4] /\
    cb_epoch b = current_epoch s /\ cb_total_stake b = stake /\ cb_supporting_stake b = stake.
Proof.
  intros Hs Hbs [F1 F2 F3 F4] Hst He Hr (m1 & E1 & R1) (m2 & E2 & R2) (m3 & E3 & R3) Ht4.
  pose proof Hs as [Hid Hv Ht]. unfold create_proposal. rewrite E1. set (p := mkConsensusProposal _ _ _ _ _ _ _ _ _).
  destruct (proposal_hash_ok p) as [h Hh]; [exact He|simpl; lia|]. rewrite Hh.
  set (s1 := Consensus.set_phase _ _). exists s1, p, h.
  unfold create_pre_vote. rewrite E2. set (vote := mkConsensusVote _ _ _ _ _ _ _ _).
  set (s2 := set_pre_votes _ _ _). exists s2, vote.
  assert (Hpv : lookup_default [] (pre_votes s2) h = [vote]).
  { unfold s2, append_vote. cbn [set_pre_votes pre_votes]. rewrite lookup_default_insert_eq.
    change (pre_votes s1) with (pre_votes s). rewrite F1. unfold lookup_default. by rewrite lookup_empty. }
  unfold create_pre_commit, check_pre_vote_threshold. rewrite Hpv.
  destruct (solo_threshold s2 id stake [vote]) as (r3 & -> & _); [by split|done|done|by repeat constructor|].
  cbn [negb]. rewrite E3. set (c := mkConsensusVote _ _ _ _ _ _ _ _). set (s3 := Consensus.set_phase _ _).
  exists s3, c.
  assert (Hpc : lookup_default [] (pre_commits s3) h = [c]).
  { unfold s3, append_vote. cbn [Consensus.set_phase set_pre_commits pre_commits].
    rewrite lookup_default_insert_eq. change (pre_commits s2) with (pre_commits s). rewrite F2.
    unfold lookup_default. by rewrite lookup_empty. }
  unfold try_finalize, check_pre_commit_threshold. rewrite Hpc.
  destruct (solo_threshold s3 id stake [c]) as (r4 & -> & Sup); [by split|done|done|by repeat constructor|].
  cbn [negb]. change (received_proposals s3) with (<[h := p]> (received_proposals s)).
  rewrite lookup_insert_eq, Sup. change (total_stake s3) with (total_stake s). rewrite Ht.
  destruct (new_block_ok (current_epoch s3) (current_round s3) p h
    (lookup_default [] (pre_votes s3) h ++ [c]) stake stake t4 Hh Ht4) as (b & -> & B1 & _ & B3 & B4); [lia..|].
  eexists _, b. split; [reflexivity|]. split; [done|]. split.
  { unfold serialize_proposal, pack_timestamp. cbn [cp_epoch cp_round cp_timestamp p].
    destruct (unpack_QI_ok _ _ He Hr) as (er & -> & _). rewrite pack_uint_ok by (simpl; lia). by eexists. }
  split; [reflexivity|]. split; [apply vote_serialized; simpl; try done; rewrite Hbs; lia|].
  split; [reflexivity|]. split; [apply vote_serialized; simpl; try done; rewrite Hbs; lia|].
  split; [reflexivity|]. split; [by repeat constructor|]. by rewrite B1.
Qed.

End Round.

(** ** The calls of a lone node *)

Section Lone.
Context `{Hashlib}.

(** Nobody is connected or known; every clock reading comes from [clock]. *)
Record lone (n : Node) (id : bytes) (stake : Z) (clock : nat -> float64) : Prop := {
  ln_validator : alone (nd_validator n) id stake;
  ln_protocol_id : mp_validator_id (vn_protocol (nd_validator n)) = id;
  ln_bft_stake : bft_stake (nd_consensus n) = stake;
  ln_id : nd_validator_id n = id;
  ln_table : pm_peers (pn_manager (nd_p2p n)) = [];
  ln_clock : na_clock (nd_app n) = clock;
}.

(** What the segments before the proposal leave as it is. *)
Record same_round (n n' : Node) : Prop := {
  sr_consensus : nd_consensus n' = nd_consensus n;
  sr_manager : vn_epoch_manager (nd_validator n') = vn_epoch_manager (nd_validator n);
  sr_epoch : mp_current_epoch (vn_protocol (nd_validator n')) = mp_current_epoch (vn_protocol (nd_validator n));
  sr_reveals : mp_received_reveals (vn_protocol (nd_validator n')) =
               mp_received_reveals (vn_protocol (nd_validator n));
}.

#[export] Instance same_round_preorder : PreOrder same_round.
Proof. split; [by split|]. intros ? ? ? [] []. split; congruence. Qed.

Lemma bind_call_ok {A B} (m : call A) (k : A -> call B) n n' x :
  m n = (n', Ok x) -> bind_call m k n = k x n'.
Proof. unfold bind_call. by intros ->. Qed.

Lemma set_app_id n : set_app n (nd_app n) (nd_p2p n) = n.
Proof. by destruct n. Qed.

Lemma lone_broadcast n id stake clock t payload :
  lone n id stake clock -> broadcast_call t payload n = (n, Ok tt).
Proof.
  intros Hn. unfold broadcast_call, broadcast. rewrite (ln_table _ _ _ _ Hn). cbn [dict_keys map foldl fst].
  by rewrite set_app_id.
Qed.

Lemma during_nothing n : during [] n = (n, Ok tt).
Proof. unfold during, p2p_run. cbn [foldl]. by rewrite set_app_id. Qed.

Lemma lone_now n id stake clock :
  lone n id stake clock ->
  exists n' k, now_call n = (n', Ok (clock k)) /\ lone n' id stake clock /\ nd_validator n' = nd_validator n.
Proof.
  intros [L1 L2 L3 L4 L5 L6]. unfold now_call, tick. rewrite L6.
  eexists _, _. split; [reflexivity|]. split; [by split|done].
Qed.

(** The same with the count of readings. *)
Lemma lone_tick n id stake clock T :
  lone n id stake clock -> na_ticks (nd_app n) = T ->
  exists n', now_call n = (n', Ok (clock T)) /\ lone n' id stake clock /\
    nd_validator n' = nd_validator n /\ na_ticks (nd_app n') = S T /\
    nd_validator_config n' = nd_validator_config n.
Proof.
  intros [L1 L2 L3 L4 L5 L6] HT. unfold now_call, tick. rewrite L6, HT.
  eexists. split; [reflexivity|]. split; [by split|done].
Qed.

(** A new state of the consensus. *)
Lemma lone_consensus n id stake clock s :
  lone n id stake clock -> solo s id stake -> bft_stake s = stake ->
  lone (set_validator n (set_consensus (nd_validator n) s)) id stake clock.
Proof. intros [[A1 A2 A3 A4] P B I T C] Hs Hb. split; [by split|done..]. Qed.

Lemma on_consensus_ok {A} (f : BFTConsensus -> BFTConsensus * res A) n s r :
  f (nd_consensus n) = (s, r) -> on_consensus f n = (set_validator n (set_consensus (nd_validator n) s), r).
Proof. unfold on_consensus, on_validator, nd_consensus. by intros ->. Qed.

Lemma lift_ok {A} (r : res A) n x : r = Ok x -> lift_res r n = (n, Ok x).
Proof. by intros ->. Qed.

(** Statistics of the validator. *)
Lemma lone_count n id stake clock a b c d e :
  lone n id stake clock ->
  lone (set_validator n (count_stats (nd_validator n) a b c d e)) id stake clock.
Proof. intros [[A1 A2 A3 A4] P B I T C]. split; [by split|done..]. Qed.

Lemma lone_own_vote n id stake clock t vote :
  lone n id stake clock -> is_Ok (serialize_vote vote) ->
  broadcast_own_vote t vote n = (set_validator n (count_stats (nd_validator n) 0 0 1 0 0), Ok tt).
Proof.
  intros Hn [data Hd]. unfold broadcast_own_vote.
  rewrite (bind_call_ok _ _ n n data), (bind_call_ok _ _ n n tt); [done|by eapply lone_broadcast|by apply lift_ok].
Qed.

Lemma on_validator_ok {A} (f : ValidatorNode -> ValidatorNode * res A) n v r :
  f (nd_validator n) = (v, r) -> on_validator f n = (set_validator n v, r).
Proof. unfold on_validator. by intros ->. Qed.

Context (id : bytes) (stake : Z) (clock : nat -> float64) (genesis : EpochManager).
Hypothesis Hid : length id = 32.
Hypothesis Hstake : (0 < stake < 2 ^ 49)%Z.
Hypothesis Hclock : forall k, epoch_clock_ok genesis (fun i => clock (k + i)).

Lemma clock_ok k : reading_ok (clock k).
Proof. destruct (Hclock k) as [Hr _]. specialize (Hr 0). by rewrite Nat.add_0_r in Hr. Qed.

Lemma clock_to_ms k : is_Ok (to_ms (clock k)).
Proof. destruct (clock_ok k) as (ms & E & _). by exists ms. Qed.

Lemma clock_epoch m k :
  em_genesis_time m = em_genesis_time genesis ->
  exists e, get_current_epoch m (clock k) = Ok e /\ (0 <= e < 2 ^ 64)%Z.
Proof.
  intros Hg. destruct (Hclock k) as [_ (e & E & Hr)]. rewrite Nat.add_0_r in E. exists e.
  unfold get_current_epoch in *. by rewrite Hg.
Qed.

Lemma lone_open n :
  lone n id stake clock ->
  em_genesis_time (vn_epoch_manager (nd_validator n)) = em_genesis_time genesis ->
  (0 <= em_current_epoch (vn_epoch_manager (nd_validator n)) + 1 < 2 ^ 64)%Z ->
  exists n' e, epoch_open n = (n', Ok e) /\ lone n' id stake clock /\ (0 <= e < 2 ^ 64)%Z /\
    fresh_round (nd_consensus n') /\ current_epoch (nd_consensus n') = e /\
    current_round (nd_consensus n') = 0%Z /\
    mp_current_epoch (vn_protocol (nd_validator n')) = e /\
    mp_received_reveals (vn_protocol (nd_validator n')) = [] /\
    em_current_epoch (vn_epoch_manager (nd_validator n')) =
      (em_current_epoch (vn_epoch_manager (nd_validator n)) + 1)%Z /\
    em_genesis_time (vn_epoch_manager (nd_validator n')) = em_genesis_time genesis.
Proof.
  intros Hn Hg Hr. unfold epoch_open.
  destruct (lone_now n id stake clock Hn) as (n1 & k1 & E1 & L1 & V1). rewrite (bind_call_ok _ _ _ _ _ E1).
  rewrite <- V1 in Hg, Hr. destruct (clock_epoch _ k1 Hg) as (e & Ee & He).
  rewrite (bind_call_ok _ _ n1 n1 e) by (unfold lift_res; by rewrite Ee).
  destruct (lone_now n1 id stake clock L1) as (n2 & k2 & E2 & L2 & V2). rewrite (bind_call_ok _ _ _ _ _ E2).
  rewrite <- V2 in Hg, Hr. pose proof L2 as [A2 P2 B2 I2 T2 C2].
  destruct (start_epoch_alone (nd_validator n2) id stake e (clock k2) A2 (clock_to_ms k2) Hr)
    as (v3 & E3 & A3 & F3 & C3 & R3 & M3 & N3 & G3).
  assert (Hv3 : mp_validator_id (vn_protocol v3) = id /\ bft_stake (vn_consensus v3) = stake /\
    mp_received_reveals (vn_protocol v3) = []).
  { unfold vn_start_epoch in E3. destruct (advance_epoch _ _) as [m [[? entropy]|]]; [|done].
    destruct (evolve _ _); [|done]. injection E3 as <-. done. }
  destruct Hv3 as (P3 & B3 & RV3).
  rewrite (bind_call_ok _ _ n2 (set_validator n2 v3) tt) by (by apply on_validator_ok).
  exists (sync_peers (set_validator n2 v3)), e. split; [done|].
  unfold sync_peers. change (nd_p2p (set_validator n2 v3)) with (nd_p2p n2). rewrite T2. cbn [foldl].
  split; [by split|]. rewrite <- V1, <- V2. cbn. by rewrite G3.
Qed.

Context `{PyRandom, Libm}.

Lemma lone_measure n gauss nonces probes :
  lone n id stake clock -> (0 <= mp_current_epoch (vn_protocol (nd_validator n)) < 2 ^ 64)%Z ->
  exists n', measure_peers gauss nonces probes n = (n', Ok []) /\ lone n' id stake clock /\ same_round n n' /\
    mp_selected_targets (vn_protocol (nd_validator n')) = [].
Proof.
  intros Hn He. pose proof Hn as [[A1 A2 A3 A4] P B I T C]. unfold measure_peers.
  rewrite (bind_call_ok _ _ n (set_validator n (set_protocol (nd_validator n)
    (set_own (vn_protocol (nd_validator n)) (mp_phase (vn_protocol (nd_validator n))) []
      (mp_measurements (vn_protocol (nd_validator n))) (mp_commitment (vn_protocol (nd_validator n)))))) []);
    cycle 1.
  { apply on_validator_ok. unfold select_targets. rewrite A3, !py_concat_cons, py_concat_nil, concat_arg_int by done.
    cbn [concat_arg mbind res_bind dict_keys map length Nat.ltb Nat.leb MIN_PEERS take]. done. }
  set (n1 := set_validator n _).
  assert (L1 : lone n1 id stake clock) by (split; [by split|done..]).
  destruct (lone_now n1 id stake clock L1) as (n2 & k & E2 & L2 & V2). rewrite (bind_call_ok _ _ _ _ _ E2).
  destruct (clock_to_ms k) as [ms Ems].
  rewrite (bind_call_ok _ _ n2 n2 ms) by (unfold lift_res; by rewrite Ems).
  exists n2. split; [done|]. split; [done|]. split; [split; unfold nd_consensus; by rewrite V2|by rewrite V2].
Qed.

(** Recording and committing to no measurements. *)
Lemma lone_commit n :
  lone n id stake clock -> (0 <= mp_current_epoch (vn_protocol (nd_validator n)) < 2 ^ 64)%Z ->
  mp_selected_targets (vn_protocol (nd_validator n)) = [] ->
  exists n1 n' c, record_measurements [] n = (n1, Ok tt) /\ epoch_commit n1 = (n', Ok tt) /\
    lone n' id stake clock /\ same_round n n' /\
    mp_measurements (vn_protocol (nd_validator n')) = [] /\
    mp_commitment (vn_protocol (nd_validator n')) = Some c /\
    exists data, serialize_commitment c = Ok data /\ (Z.of_nat (length data) < 256 ^ 4)%Z.
Proof.
  intros Hn He Hsel.
  assert (Hrec : exists n1, record_measurements [] n = (n1, Ok tt) /\ lone n1 id stake clock /\ same_round n n1 /\
    mp_measurements (vn_protocol (nd_validator n1)) = [] /\
    mp_selected_targets (vn_protocol (nd_validator n1)) = []).
  { destruct Hn as [[A1 A2 A3 A4] P B I T C]. eexists. split; [reflexivity|].
    split; [split; [by split|done..]|by split]. }
  destruct Hrec as (n1 & Er & L1 & S1 & M1 & T1). unfold epoch_commit.
  destruct (lone_now n1 id stake clock L1) as (n2 & k & E2 & L2 & V2).
  pose proof L2 as [[A1 A2 A3 A4] P B I T C]. destruct (clock_ok k) as (ms & Ems & Hms).
  rewrite <- V2 in M1, T1. set (p := vn_protocol (nd_validator n2)) in *.
  assert (Hp : mp_current_epoch p = mp_current_epoch (vn_protocol (nd_validator n))).
  { unfold p. rewrite V2. apply S1. }
  set (c := mkCommitment (mp_validator_id p) (mp_current_epoch p) (mp_selected_targets p)
              (sha3_256 (concat (sort_hashes []))) ms []).
  set (v3 := set_current (set_protocol (nd_validator n2) (set_own p MP_COMMIT (mp_selected_targets p)
              (mp_measurements p) (Some c))) (vn_current_measurements (nd_validator n2)) (Some c)).
  assert (E3 : create_measurement_commitment (nd_validator n2) (clock k) = (v3, Ok c)).
  { unfold create_measurement_commitment, create_commitment. fold p. unfold v3. rewrite M1, Ems. reflexivity. }
  assert (Hser : exists data, serialize_commitment c = Ok data /\ (Z.of_nat (length data) < 256 ^ 4)%Z).
  { unfold serialize_commitment. cbn [c mc_epoch mc_target_ids mc_timestamp mc_validator_id mc_commitment_hash].
    rewrite Hp, T1, !pack_uint_ok by (simpl; lia). cbn [mbind res_bind]. eexists. split; [reflexivity|].
    rewrite !length_app, !be_encode_length. change (length (concat [])) with 0.
    rewrite (ln_protocol_id _ _ _ _ L2 : mp_validator_id p = id), Hid.
    unfold sha3_256. rewrite hashlib_sha3_256_length. lia. }
  destruct Hser as (data & Hd & Hl).
  exists n1, (set_validator n2 v3), c. split; [done|].
  rewrite (bind_call_ok _ _ _ _ _ E2), (bind_call_ok _ _ n2 (set_validator n2 v3) c) by (by apply on_validator_ok).
  rewrite (bind_call_ok _ _ (set_validator n2 v3) (set_validator n2 v3) data) by (unfold lift_res; by rewrite Hd).
  assert (L3 : lone (set_validator n2 v3) id stake clock) by (split; [by split|done..]).
  rewrite (lone_broadcast _ _ _ _ _ _ L3). split; [done|]. split; [done|]. split.
  { transitivity n1; [done|]. split.
    - exact (f_equal vn_consensus V2).
    - exact (f_equal vn_epoch_manager V2).
    - exact (f_equal (fun v => mp_current_epoch (vn_protocol v)) V2).
    - exact (f_equal (fun v => mp_received_reveals (vn_protocol v)) V2). }
  split; [exact M1|]. split; [done|]. by exists data.
Qed.

Lemma lone_reveal n c data :
  lone n id stake clock -> (0 <= mp_current_epoch (vn_protocol (nd_validator n)) < 2 ^ 64)%Z ->
  mp_measurements (vn_protocol (nd_validator n)) = [] ->
  mp_commitment (vn_protocol (nd_validator n)) = Some c ->
  serialize_commitment c = Ok data -> (Z.of_nat (length data) < 256 ^ 4)%Z ->
  exists n', epoch_reveal n = (n', Ok tt) /\ lone n' id stake clock /\ same_round n n' /\
    mp_measurements (vn_protocol (nd_validator n')) = [].
Proof.
  intros Hn He Hms Hc Hd Hl. pose proof Hn as [[A1 A2 A3 A4] P B I T C]. unfold epoch_reveal.
  set (p := vn_protocol (nd_validator n)) in *.
  set (r := mkReveal (mp_validator_id p) (mp_current_epoch p) (mp_measurements p) (mp_commitment p) []).
  set (v1 := set_protocol (nd_validator n) (set_own p MP_REVEAL (mp_selected_targets p) (mp_measurements p) (mp_commitment p))).
  rewrite (bind_call_ok _ _ n (set_validator n v1) r) by (by apply on_validator_ok).
  assert (Hr : exists out, serialize_reveal r = Ok out).
  { unfold serialize_reveal. cbn [r mr_epoch mr_measurements mr_commitment]. rewrite Hms, Hc.
    rewrite !pack_uint_ok by (simpl; lia). cbn [mbind res_bind res_map]. rewrite Hd. cbn [mbind res_bind].
    rewrite pack_uint_ok by (split; [lia|exact Hl]). by eexists. }
  destruct Hr as [out Hr].
  rewrite (bind_call_ok _ _ (set_validator n v1) (set_validator n v1) out) by (unfold lift_res; by rewrite Hr).
  assert (L1 : lone (set_validator n v1) id stake clock) by (split; [by split|done..]).
  rewrite (lone_broadcast _ _ _ _ _ _ L1). eexists. split; [reflexivity|]. split; [done|]. by split.
Qed.

(** The only validator is the proposer. *)
Lemma solo_proposer s : solo s id stake -> round_ok s -> am_i_proposer s = Ok true.
Proof.
  intros Hs Hr. destruct (expected_proposer_ok s) as (v & vid & _ & _ & _ & [st Hin] & ->).
  - apply (solo_stakes_ok s id stake Hs). lia.
  - done.
  - rewrite (so_total _ _ _ Hs). lia.
  - destruct Hs as [S1 S2 S3]. rewrite S2 in Hin. apply lookup_singleton_Some in Hin as [<- _].
    by rewrite S1, bool_decide_eq_true_2.
Qed.

(** From the proposal to the block. *)
Lemma lone_round n :
  lone n id stake clock -> fresh_round (nd_consensus n) ->
  (0 <= current_epoch (nd_consensus n) < 2 ^ 64)%Z -> current_round (nd_consensus n) = 0%Z ->
  mp_measurements (vn_protocol (nd_validator n)) = [] ->
  mp_received_reveals (vn_protocol (nd_validator n)) = [] ->
  exists n1 h n2 n3 b, epoch_propose n = (n1, Ok h) /\ epoch_pre_commit h n1 = (n2, Ok tt) /\
    epoch_finalize h n2 = (n3, Ok (Some b)) /\ lone n3 id stake clock /\
    vn_epoch_manager (nd_validator n3) = vn_epoch_manager (nd_validator n) /\
    cb_epoch b = current_epoch (nd_consensus n) /\ cb_total_stake b = stake /\ cb_supporting_stake b = stake.
Proof.
  intros Hn HF He Hr Hms Hrev. set (T := na_ticks (nd_app n)). pose proof Hn as [[A1 A2 A3 A4] P B I Tb C].
  destruct (propose_alone (nd_consensus n) id (vc_location (nd_validator_config n)) (clock T)) as (results & Hprop).
  destruct (solo_node_round (nd_consensus n) id stake results (clock T) (clock (S T)) (clock (S (S T)))
    (clock (S (S (S T))))) as (s1 & p & h & s2 & vote & s3 & c & s4 & b & P1 & Ph & Ps & P2 & Vs & P3 & Cs & P4 & HS & R);
    try done; try apply clock_ok; [by rewrite Hr|].
  rewrite !Forall_cons in HS. destruct HS as ((S1 & B1) & (S2 & B2) & (S3 & B3) & (S4 & B4) & _).
  destruct Ps as [pd Hpd].
  (* the proposal *)
  destruct (lone_tick n id stake clock T Hn eq_refl) as (n1 & E1 & L1 & V1 & T1 & K1).
  pose proof (lone_consensus n1 id stake clock s1 L1 S1 B1) as L2.
  set (n2 := set_validator n1 (set_consensus (nd_validator n1) s1)) in *.
  pose proof (lone_count n2 id stake clock 0 1 0 0 0 L2) as L3.
  set (n3 := set_validator n2 _) in L3.
  destruct (lone_tick n3 id stake clock (S T) L3 T1) as (n4 & E4 & L4 & V4 & T4 & K4).
  assert (C4 : nd_consensus n4 = s1) by (unfold nd_consensus; by rewrite V4).
  pose proof (lone_consensus n4 id stake clock s2 L4 S2 B2) as L5.
  set (n5 := set_validator n4 _) in L5.
  pose proof (lone_count n5 id stake clock 0 0 1 0 0 L5) as L6.
  set (n6 := set_validator n5 _) in L6.
  (* the pre-commit *)
  destruct (lone_tick n6 id stake clock (S (S T)) L6 T4) as (n7 & E7 & L7 & V7 & T7 & K7).
  assert (C7 : nd_consensus n7 = s2) by (unfold nd_consensus; by rewrite V7).
  pose proof (lone_consensus n7 id stake clock s3 L7 S3 B3) as L8.
  set (n8 := set_validator n7 _) in L8.
  pose proof (lone_count n8 id stake clock 0 0 1 0 0 L8) as L9.
  set (n9 := set_validator n8 _) in L9.
  (* the block *)
  destruct (lone_tick n9 id stake clock (S (S (S T))) L9 T7) as (n10 & E10 & L10 & V10 & T10 & K10).
  assert (C10 : nd_consensus n10 = s3) by (unfold nd_consensus; by rewrite V10).
  pose proof (lone_consensus n10 id stake clock s4 L10 S4 B4) as L11.
  exists n6, h, n9, (set_validator n10 (set_consensus (nd_validator n10) s4)), b.
  split.
  { unfold epoch_propose. rewrite (bind_call_ok _ _ _ _ _ E1), (bind_call_ok _ _ n1 n2 p).
    2:{ apply on_consensus_ok. unfold nd_consensus. rewrite V1, K1. unfold get_all_measurements.
        rewrite Hrev, Hms, A1, (ln_id _ _ _ _ L1), (ln_protocol_id _ _ _ _ Hn). cbn [foldl].
        unfold nd_consensus in Hprop, P1. by rewrite Hprop. }
    rewrite (bind_call_ok _ _ n2 n3 tt) by done.
    rewrite (bind_call_ok _ _ n3 n3 pd) by (by apply lift_ok).
    rewrite (bind_call_ok _ _ n3 n3 tt) by (by eapply lone_broadcast).
    rewrite (bind_call_ok _ _ n3 n3 h) by (by apply lift_ok).
    rewrite (bind_call_ok _ _ _ _ _ E4), (bind_call_ok _ _ n4 n5 vote) by (apply on_consensus_ok; by rewrite C4).
    by rewrite (bind_call_ok _ _ n5 n6 tt) by (by eapply lone_own_vote). }
  split.
  { unfold epoch_pre_commit.
    rewrite (bind_call_ok _ _ _ _ _ E7), (bind_call_ok _ _ n7 n8 (Some c)) by (apply on_consensus_ok; by rewrite C7).
    by eapply lone_own_vote. }
  split.
  { unfold epoch_finalize. rewrite (bind_call_ok _ _ _ _ _ E10). apply on_consensus_ok. by rewrite C10. }
  split; [done|]. split; [|done].
  transitivity (vn_epoch_manager (nd_validator n10)); [done|]. rewrite V10.
  transitivity (vn_epoch_manager (nd_validator n7)); [done|]. rewrite V7.
  transitivity (vn_epoch_manager (nd_validator n4)); [done|]. rewrite V4.
  transitivity (vn_epoch_manager (nd_validator n1)); [done|]. by rewrite V1.
Qed.

Context `{!SetOrder bytes}.

(** One epoch without traffic. *)
Lemma lone_epoch n gauss nonces probes :
  lone n id stake clock ->
  em_genesis_time (vn_epoch_manager (nd_validator n)) = em_genesis_time genesis ->
  (0 <= em_current_epoch (vn_epoch_manager (nd_validator n)) + 1 < 2 ^ 64)%Z ->
  exists n' b, run_epoch gauss nonces probes (fun _ => []) n = (n', Ok (Some b)) /\
    lone n' id stake clock /\ cb_total_stake b = stake /\ cb_supporting_stake b = stake /\
    em_genesis_time (vn_epoch_manager (nd_validator n')) = em_genesis_time genesis /\
    em_current_epoch (vn_epoch_manager (nd_validator n')) =
      (em_current_epoch (vn_epoch_manager (nd_validator n)) + 1)%Z.
Proof.
  intros Hn Hg Hr. unfold run_epoch.
  destruct (lone_open n Hn Hg Hr) as (n1 & e & E1 & L1 & He & F1 & C1 & R1 & M1 & V1 & N1 & G1).
  rewrite (bind_call_ok _ _ _ _ _ E1).
  destruct (lone_measure n1 gauss nonces probes L1) as (n2 & E2 & L2 & S2 & T2); [by rewrite M1|].
  destruct (lone_commit n2 L2) as (n3 & n4 & c & E3 & E4 & L4 & S4 & Ms4 & Mc4 & data & Hd & Hl);
    [by rewrite (sr_epoch _ _ S2), M1|done|].
  assert (S14 : same_round n1 n4) by by transitivity n2.
  destruct (lone_reveal n4 c data L4) as (n5 & E5 & L5 & S5 & Ms5); [by rewrite (sr_epoch _ _ S14), M1|done..|].
  assert (S15 : same_round n1 n5) by by transitivity n4.
  pose proof (sr_consensus _ _ S15) as C5.
  destruct (lone_round n5 L5) as (n6 & h & n7 & n8 & b & E6 & E7 & E8 & L8 & M8 & B1 & B2 & B3).
  { by rewrite C5. } { by rewrite C5, C1. } { by rewrite C5. } { done. } { by rewrite (sr_reveals _ _ S15). }
  rewrite (bind_call_ok _ _ n1 n8 (Some b)).
  2:{ unfold epoch_block. rewrite (bind_call_ok _ _ _ _ _ E2), (bind_call_ok _ _ _ _ _ (during_nothing n2)).
      rewrite (bind_call_ok _ _ _ _ _ E3), (bind_call_ok _ _ _ _ _ E4), (bind_call_ok _ _ _ _ _ (during_nothing n4)).
      rewrite (bind_call_ok _ _ _ _ _ E5), (bind_call_ok _ _ _ _ _ (during_nothing n5)).
      rewrite (bind_call_ok _ _ n5 n5 true).
      2:{ apply lift_ok. fold (nd_consensus n5). apply solo_proposer; [apply L5|].
          rewrite C5. unfold round_ok. rewrite C1, R1. lia. }
      rewrite (bind_call_ok _ _ _ _ _ E6), (bind_call_ok _ _ _ _ _ (during_nothing n6)).
      by rewrite (bind_call_ok _ _ _ _ _ E7), (bind_call_ok _ _ _ _ _ (during_nothing n7)). }
  unfold epoch_close. rewrite (bind_call_ok _ _ n8 (set_validator n8 (on_block_finalized (nd_validator n8) b)) tt) by done.
  assert (L9 : lone (set_validator n8 (on_block_finalized (nd_validator n8) b)) id stake clock).
  { destruct L8 as [[A1 A2 A3 A4] P B I T C]. split; [by split|done..]. }
  rewrite (bind_call_ok _ _ _ _ _ (lone_broadcast _ _ _ _ _ _ L9)).
  eexists _, b. split; [reflexivity|]. split; [done|]. split; [done|]. split; [done|].
  destruct (finalize_epoch_clock (vn_epoch_manager (nd_validator n8)) (cb_epoch b) (cb_block_hash b)) as [Q1 Q2].
  cbn. rewrite Q1, Q2. change (na_validator (nd_app n8)) with (nd_validator n8).
  by rewrite M8, (sr_manager _ _ S15), N1, G1.
Qed.

(** Successive epochs. *)
Fixpoint run_lone (gauss : nat -> float64 -> float64 -> float64) (nonces : nat -> bytes)
    (probes : nat -> list (option (float64 * float64))) (epochs : nat) (n : Node)
    : list (res (option ConsensusBlock)) :=
  match epochs with
  | O => []
  | S k =>
      let '(n, r) := run_epoch gauss nonces probes (fun _ => []) n in
      r :: run_lone gauss nonces probes k n
  end.

Lemma run_lone_blocks gauss nonces probes epochs n :
  lone n id stake clock ->
  em_genesis_time (vn_epoch_manager (nd_validator n)) = em_genesis_time genesis ->
  (0 <= em_current_epoch (vn_epoch_manager (nd_validator n)))%Z ->
  (em_current_epoch (vn_epoch_manager (nd_validator n)) + Z.of_nat epochs < 2 ^ 64)%Z ->
  length (run_lone gauss nonces probes epochs n) = epochs /\
  Forall (fun r => exists b, r = Ok (Some b) /\ cb_total_stake b = stake /\ cb_supporting_stake b = stake)
    (run_lone gauss nonces probes epochs n).
Proof.
  revert n. induction epochs as [|k IH]; intros n Hn Hg Hpos Hb; [done|]. cbn [run_lone].
  destruct (lone_epoch n gauss nonces probes Hn Hg) as (n' & b & -> & L' & B1 & B2 & G' & N'); [lia|].
  destruct (IH n' L' G') as [IH1 IH2]; [lia..|]. cbn [length]. split; [by rewrite IH1|].
  constructor; [by exists b|done].
Qed.

End Lone.

Section LoneNode.
Context `{Hashlib, PyRandom, Libm} `{!SetOrder bytes}.

Lemma node_new_lone config choice id own_id key_seed entropy_seed now clock n :
  node_new config choice id own_id key_seed entropy_seed now clock = Ok n ->
  lone n id (nc_stake config) clock /\ em_current_epoch (vn_epoch_manager (nd_validator n)) = 0%Z.
Proof.
  unfold node_new. intros Hnew.
  destruct (validator_config _ _ _ _ _ _) as [vconfig|] eqn:Ec; [|done].
  assert (Hst : vc_stake vconfig = nc_stake config).
  { unfold validator_config in Ec. case_match; [by injection Ec as <-|].
    destruct (get_random_location _ _) as [[c l]|]; [|done]. by injection Ec as <-. }
  destruct (validator_new _ _ _ _ _ _) as [v|] eqn:Ev; [|done]. unfold validator_new in Ev. inv_res.
  destruct (add_seed_nodes_peers (peer_manager_new id (nc_zone_id config) (nc_stake config))
    (nc_seed_nodes config)) as (Hp & _ & _). split; [|done].
  split; try done. split; [done..|]. split; [done|cbn; by rewrite insert_empty|cbn].
  unfold stake_sum. rewrite map_sum_insert, map_sum_empty by apply lookup_empty. simpl. lia.
Qed.

(** C17. A node that nobody joins makes progress.  A freshly constructed node with a 32-byte
    identity and a positive stake below [2^49] finalizes a block in every epoch it runs, for any
    number of epochs and any clock readings that fit the encodings; each block has the whole
    stake behind it, and nothing it serializes on the way raises. *)
Theorem lone_node_finalizes (config : NodeConfig) (choice epochs : nat)
    (id own_id key_seed entropy_seed : bytes) (now : float64) (clock : nat -> float64) (n : Node)
    (gauss : nat -> float64 -> float64 -> float64) (nonces : nat -> bytes)
    (probes : nat -> list (option (float64 * float64)))
    (Hnew : node_new config choice id own_id key_seed entropy_seed now clock = Ok n)
    (Hid : length id = 32) (Hstake : (0 < nc_stake config < 2 ^ 49)%Z)
    (Hclock : forall k, epoch_clock_ok (vn_epoch_manager (nd_validator n)) (fun i => clock (k + i)))
    (Hepochs : (Z.of_nat epochs < 2 ^ 64)%Z) :
  length (run_lone gauss nonces probes epochs n) = epochs /\
  Forall (fun r => exists b, r = Ok (Some b) /\ cb_total_stake b = nc_stake config /\
                     cb_supporting_stake b = nc_stake config)
    (run_lone gauss nonces probes epochs n).
Proof.
  destruct (node_new_lone _ _ _ _ _ _ _ _ _ Hnew) as [Hl Hz].
  by apply (run_lone_blocks id (nc_stake config) clock _ Hid Hstake Hclock); rewrite ?Hz.
Qed.

End LoneNode.

(** ** Sample runs *)

Section Samples.
#[local] Existing Instance toy_hashlib.
#[local] Existing Instances no_libm no_shuffle.
#[local] Instance sample_order : SetOrder bytes := elements_order.

Definition sample_config : NodeConfig :=
  mkNodeConfig (b: "0.0.0.0") 9000 0 100 (Some (at_degrees 407128 (-740060))) [(b: "10.0.0.9", 9000%Z)]
    None true.

(** The clock stands at two seconds. *)
Definition sample_clock (k : nat) : float64 := lit 2 1.

Definition sample_node : res Node :=
  node_new sample_config 0 (replicate 32 Byte.x01) (replicate 32 Byte.x09) (replicate 64 Byte.x02)
    (replicate 64 Byte.x03) (lit 1 1) sample_clock.

Lemma sample_clock_ok n k :
  sample_node = Ok n ->
  epoch_clock_ok (vn_epoch_manager (nd_validator n)) (fun i => sample_clock (k + i)).
Proof.
  intros [= <-]. split.
  - intros i. eexists. split; [vm_compute; reflexivity|]. split; [discriminate|reflexivity].
  - exists 0%Z. split; [vm_compute; reflexivity|]. split; [discriminate|reflexivity].
Qed.

Lemma lone_node_finalizes_witness :
  exists n, sample_node = Ok n /\
    length (run_lone (fun _ m _ => m) (fun _ => []) (fun _ => []) 3 n) = 3 /\
    Forall (fun r => exists b, r = Ok (Some b) /\ cb_total_stake b = 100%Z /\ cb_supporting_stake b = 100%Z)
      (run_lone (fun _ m _ => m) (fun _ => []) (fun _ => []) 3 n).
Proof.
  eexists. split; [reflexivity|].
  apply (lone_node_finalizes sample_config 0 3 (replicate 32 Byte.x01) (replicate 32 Byte.x09)
    (replicate 64 Byte.x02) (replicate 64 Byte.x03) (lit 1 1) sample_clock).
  - reflexivity.
  - reflexivity.
  - split; reflexivity.
  - intros k. by apply sample_clock_ok.
  - reflexivity.
Defined.

Lemma run_epoch_sound_witness :
  exists n n' b, sample_node = Ok n /\
    run_epoch (fun _ m _ => m) (fun _ => []) (fun _ => []) (fun _ => []) n = (n', Ok (Some b)) /\
    let s := nd_consensus n' in
    get_current_epoch (vn_epoch_manager (nd_validator n)) (na_clock (nd_app n) (na_ticks (nd_app n)))
      = Ok (cb_epoch b) /\
    (exists h, proposal_hash (cb_proposal b) = Ok h /\ cp_epoch (cb_proposal b) = cb_epoch b /\
       cb_total_stake b = total_stake s /\
       cb_supporting_stake b = set_sum (stake_of s) (voters (lookup_default [] (pre_commits s) h))) /\
    (0 < cb_total_stake b)%Z /\ (67 * cb_total_stake b <= 100 * cb_supporting_stake b)%Z /\
    finalized_blocks s !! cb_epoch b = Some b /\ vn_state (nd_validator n') = ACTIVE /\
    bft_inv s /\ nd_announced n'.
Proof.
  assert (Hn : exists n, sample_node = Ok n) by (eexists; reflexivity).
  destruct Hn as [n Hn]. exists n.
  destruct (node_new_lone _ _ _ _ _ _ _ _ _ Hn) as [Hl Hz].
  destruct (lone_epoch (replicate 32 Byte.x01) 100 sample_clock (vn_epoch_manager (nd_validator n)) eq_refl
    (conj eq_refl eq_refl) (fun k => sample_clock_ok n k Hn) n (fun _ m _ => m) (fun _ => []) (fun _ => []) Hl eq_refl)
    as (n' & b & Hrun & Hl' & _); [rewrite Hz; lia|].
  exists n', b. split; [exact Hn|]. split; [exact Hrun|].
  destruct (node_new_ok _ _ _ _ _ _ _ _ _ Hn) as [Hi Ha]; [discriminate|].
  apply (run_epoch_sound n n' b (fun _ m _ => m) (fun _ => []) (fun _ => []) (fun _ => [])).
  - exact Hi.
  - exact Ha.
  - intros k. constructor.
  - exact Hrun.
  - pose proof (so_total _ _ _ (al_consensus _ _ _ (ln_validator _ _ _ _ Hl'))) as Ht.
    unfold nd_consensus. cbn [nc_stake sample_config] in Ht. rewrite Ht. reflexivity.
Defined.

End Samples.
