(* ===== verification/NodeMessages.v ===== *)
(** * What the node does with the messages of its peers

    Three properties of [Node.handle_message], the callback that the TCP layer runs.  A valid
    proposal is recorded and answered with one pre-vote to every live peer
    ([proposal_answered]).  Over any traffic the node writes no frames but handshakes, peer
    lists, heartbeats and pre-votes: the pre-commits that [ValidatorNode] makes are queued for
    the validator's own peers, of which a node has none ([pre_commits_stay_local]).  Votes are
    not authenticated: one connection can deliver the pre-commits of everybody
    ([forged_votes_finalize]). *)

From stdpp Require Import prelude list gmap strings.
From Stdlib Require Import Strings.Byte ZArith Lia.
From S2P Require Import Prelude.
From S2P Require Import Dict.
From S2P Require Import PyFloat.
From S2P Require Import Crypto.
From S2P Require Import TemporalAuth.
From S2P Require Import Consensus.
From S2P Require Import Peers.
From S2P Require Import P2P.
From S2P Require Import P2PTrace.
From S2P Require Import Measurement.
From S2P Require Import Epoch.
From S2P Require Import NodeCodec.
From S2P Require Import Validator.
From S2P Require Import Node.
From S2P Require Import NodeEpoch.
From S2P Require Import NodeLone.

Set Default Goal Selector "!".

(** ** Pre-commits stay local *)

Section Local.
Context `{Hashlib}.

(** No peers of the validator itself, and the given outbox. *)
Definition quiet (o : list (bytes * Message)) (v : ValidatorNode) : Prop :=
  vn_peers v = [] /\ vn_outbox v = o.

Lemma quiet_queue o v m : quiet o v -> quiet o (queue_to_peers v m).
Proof.
  intros [Hp Ho]. unfold queue_to_peers, quiet. cbn. rewrite Hp. cbn. by rewrite app_nil_r.
Qed.

Lemma quiet_receive_proposal o v p now : quiet o v -> quiet o (vn_receive_proposal v p now).1.
Proof.
  intros Hv. unfold vn_receive_proposal.
  destruct (receive_proposal _ p) as [s [[[] reason]|e]]; [|done..].
  destruct (proposal_hash p); [|done]. destruct (create_pre_vote s _ now) as [s' [vote|e]]; [|done].
  by apply (quiet_queue o (set_consensus v s')).
Qed.

Lemma quiet_receive_vote o v vote now : quiet o v -> quiet o (receive_vote v vote now).1.
Proof.
  intros Hv. unfold receive_vote. case_match.
  - unfold receive_pre_vote_msg. destruct (receive_pre_vote _ vote) as [[s w] [valid reason]]. case_match; [done|].
    destruct (check_pre_vote_threshold s _) as [[[] ?]|]; [|done..].
    destruct (create_pre_commit s _ now) as [s' [[c|]|]]; [|done..].
    by apply (quiet_queue o (set_consensus (set_consensus v s) s')).
  - unfold receive_pre_commit_msg. destruct (receive_pre_commit _ vote) as [[s w] [valid reason]]. case_match; [done|].
    destruct (check_pre_commit_threshold s _) as [[[] ?]|]; [|done..].
    by destruct (try_finalize s _ now) as [s' [[c|]|]].
Qed.

Lemma quiet_handle o a s peer_id t payload :
  quiet o (na_validator a) -> quiet o (na_validator (handle_message a s peer_id t payload).1.1).
Proof.
  intros Hv. unfold handle_message. destruct t; try done.
  - destruct (deserialize_commitment payload) as [c|]; [|done]. unfold vn_receive_commitment.
    by destruct (receive_commitment _ c).
  - destruct (deserialize_reveal payload) as [r|]; [|done]. unfold vn_receive_reveal.
    by destruct (receive_reveal _ r).
  - destruct (deserialize_proposal payload) as [p|]; [|done]. unfold tick.
    pose proof (quiet_receive_proposal o (na_validator a) p (na_clock a (na_ticks a)) Hv) as Hq.
    destruct (vn_receive_proposal _ p _) as [v [[[] r]|e]]; [|done..].
    destruct (proposal_hash p) as [h|]; [|done]. cbn [mbind res_bind].
    destruct (create_pre_vote _ h _) as [c [vote|e]]; [|done]. by destruct (serialize_vote vote).
  - destruct (deserialize_vote payload _) as [vote|]; [|done]. unfold tick.
    pose proof (quiet_receive_vote o (na_validator a) vote (na_clock a (na_ticks a)) Hv).
    by destruct (receive_vote _ vote _).
  - destruct (deserialize_vote payload _) as [vote|]; [|done]. unfold tick.
    pose proof (quiet_receive_vote o (na_validator a) vote (na_clock a (na_ticks a)) Hv).
    by destruct (receive_vote _ vote _).
Qed.

Lemma handle_message_writes T a s peer_id t payload :
  T Peers.PRE_VOTE -> writes T s (handle_message a s peer_id t payload).1.2.
Proof.
  intros HT. unfold handle_message. destruct t; simpl; repeat case_match; simplify_eq; simpl; try done.
  by apply broadcast_writes.
Qed.

(** The types of the frames a node sends between the segments of its epochs. *)
Definition answers : list MessageType := [PING; PONG; PEER_DISCOVERY; PEER_LIST; Peers.PRE_VOTE].

Definition no_broadcast (e : p2p_event) : Prop :=
  match e with EvBroadcast _ _ => False | _ => True end.

(** C37. Pre-commits stay local.  Whatever the peers of a node send, and however connections,
    heartbeats and losses are interleaved with it, the node writes whole frames only, none of
    them a pre-commit, a block or a proposal, and its validator's outbox does not change: a
    pre-commit that the validator makes when it sees a quorum of pre-votes reaches nobody. *)
Theorem pre_commits_stay_local (a : NodeApp) (s : P2PNode) (events : list p2p_event)
    (Hpeers : vn_peers (na_validator a) = []) (Hevents : Forall no_broadcast events) :
  let '(a', s') := p2p_run (a, s) events in
  vn_outbox (na_validator a') = vn_outbox (na_validator a) /\ vn_peers (na_validator a') = [] /\
  forall c, exists msgs frames, res_map (fun m => encode_message m.1 m.2) msgs = Ok frames /\
    cn_out (conn_of s' c) = cn_out (conn_of s c) ++ concat frames /\
    Forall (fun m : MessageType * bytes => m.1 ∈ answers) msgs.
Proof.
  pose proof (p2p_run_app (fun a' => quiet (vn_outbox (na_validator a)) (na_validator a')) (a, s) events) as Hq.
  pose proof (p2p_run_writes (fun t => t ∈ answers) (a, s) events) as Hw.
  destruct (p2p_run (a, s) events) as [a' s']. simpl in *.
  destruct Hq as [Hq1 Hq2].
  { intros f a0 s0 peer_id t payload [= <-]. apply quiet_handle. }
  { done. }
  split; [done|]. split; [done|]. intros c.
  destruct Hw with c as (data & E & msgs & frames & Em & -> & Hall).
  - intros f a0 s0 peer_id t payload [= <-]. apply handle_message_writes. by compute_done.
  - by compute_done.
  - by compute_done.
  - by compute_done.
  - by compute_done.
  - eapply Forall_impl; [exact Hevents|]. by intros [].
  - by exists msgs, frames.
Qed.

End Local.

(** ** Forged votes *)

Section Forged.
Context `{Hashlib}.

(** A pre-commit in the name of [voter], as anybody can write it. *)
Definition forged_vote (s : BFTConsensus) (h voter : bytes) : ConsensusVote :=
  mkConsensusVote voter (current_epoch s) (current_round s) h "pre-commit" 0 0 [].

(** The messages of one connection, in order. *)
Definition deliver (a : NodeApp) (s : P2PNode) (peer_id : bytes) (t : MessageType)
    (payloads : list bytes) : NodeApp * P2PNode :=
  foldl (fun x payload => (handle_message x.1 x.2 peer_id t payload).1) (a, s) payloads.

(** One forged vote: the step of the induction below. *)
Lemma forged_step a s peer_id voter p h :
  let c := vn_consensus (na_validator a) in
  (forall k, reading_ok (na_clock a k)) -> stakes_ok c -> (0 < total_stake c < 2 ^ 49)%Z ->
  received_proposals c !! h = Some p -> proposal_hash p = Ok h -> length h = 32 ->
  (0 <= current_epoch c < 2 ^ 64)%Z -> (0 <= current_round c < 2 ^ 32)%Z ->
  length voter = 32 -> is_Some (validators c !! voter) ->
  (forall h', pre_commit_choices c !! voter = Some h' -> h' = h) ->
  exists data a', serialize_vote (forged_vote c h voter) = Ok data /\
    handle_message a s peer_id Peers.PRE_COMMIT data = (a', s, Ok tt) /\
    na_clock a' = na_clock a /\
    let c' := vn_consensus (na_validator a') in
    validators c' = validators c /\ total_stake c' = total_stake c /\
    received_proposals c' = received_proposals c /\ current_epoch c' = current_epoch c /\
    current_round c' = current_round c /\
    voters (lookup_default [] (pre_commits c') h) =
      voters (lookup_default [] (pre_commits c) h) ∪ {[voter]} /\
    pre_commit_choices c' = <[voter := h]> (pre_commit_choices c) /\
    ((67 * total_stake c <= 100 * set_sum (stake_of c)
        (voters (lookup_default [] (pre_commits c) h) ∪ {[voter]}))%Z ->
     exists b, finalized_blocks c' !! current_epoch c = Some b /\ cb_proposal b = p).
Proof.
  intros c Hclk Hok Htot Hp Hh Hlen He Hr Hv Hin Hch.
  destruct (vote_wire (forged_vote c h voter)) as (data & Es & Ed); [by split; try done; simpl; lia|].
  cbn [cv_vote_type forged_vote] in Ed.
  destruct (receive_pre_commit_vote (na_validator a) (forged_vote c h voter) p (na_clock a (na_ticks a)))
    as (v' & E & R1 & R2 & R3 & R4 & R5 & R6 & R7 & R8); [by split|done..|by apply Hclk|].
  exists data. eexists. split; [done|]. unfold handle_message. rewrite Ed. unfold tick. rewrite E.
  split; [reflexivity|]. split; [done|]. cbn.
  do 7 (split; [done|]). intros Hq. destruct (R8 Hq) as (b & B1 & _ & B3 & _). by exists b.
Qed.

Lemma forged_run ids a s peer_id p h :
  let c := vn_consensus (na_validator a) in
  ids <> [] -> (forall k, reading_ok (na_clock a k)) -> stakes_ok c -> (0 < total_stake c < 2 ^ 49)%Z ->
  received_proposals c !! h = Some p -> proposal_hash p = Ok h -> length h = 32 ->
  (0 <= current_epoch c < 2 ^ 64)%Z -> (0 <= current_round c < 2 ^ 32)%Z ->
  Forall (fun id => length id = 32 /\ is_Some (validators c !! id) /\
    forall h', pre_commit_choices c !! id = Some h' -> h' = h) ids ->
  (67 * total_stake c <= 100 * set_sum (stake_of c)
     (voters (lookup_default [] (pre_commits c) h) ∪ list_to_set ids))%Z ->
  exists payloads, res_map (fun id => serialize_vote (forged_vote c h id)) ids = Ok payloads /\
    let '(a', s') := deliver a s peer_id Peers.PRE_COMMIT payloads in
    s' = s /\ exists b, cb_proposal b = p /\
      finalized_blocks (vn_consensus (na_validator a')) !! current_epoch c = Some b.
Proof.
  intros c Hne Hclk Hok Htot Hp Hh Hlen He Hr Hids Hq. subst c. revert a Hne Hclk Hok Htot Hp He Hr Hids Hq.
  induction ids as [|id ids IH]; intros a Hne Hclk Hok Htot Hp He Hr Hids Hq; [done|]. clear Hne.
  set (c := vn_consensus (na_validator a)) in *.
  apply Forall_cons in Hids as [(Hid & Hin & Hch) Hids].
  destruct (forged_step a s peer_id id p h) as (d & a1 & Ed & Eh & Hc & R1 & R2 & R3 & R4 & R5 & R6 & R7 & R8); [done..|].
  fold c in Ed, R1, R2, R3, R4, R5, R6, R7, R8. set (c1 := vn_consensus (na_validator a1)) in *.
  cbn [res_map]. rewrite Ed. destruct ids as [|id2 ids].
  - exists [d]. split; [done|]. unfold deliver. cbn [foldl fst snd]. rewrite Eh. cbn [fst snd].
    split; [done|]. destruct R8 as (b & B1 & B2).
    { by rewrite (list_to_set_singleton_L (C := gset bytes)) in Hq. }
    by exists b.
  - destruct (IH a1) as (ds & Eds & Hds); try done.
    + intros k. by rewrite Hc.
    + unfold stakes_ok. fold c1. by rewrite R1, R2.
    + fold c1. by rewrite R2.
    + fold c1. by rewrite R3.
    + fold c1. by rewrite R4.
    + fold c1. by rewrite R5.
    + fold c1. eapply Forall_impl; [exact Hids|]. intros x (Hx1 & Hx2 & Hx3). rewrite R1, R7.
      split; [done|]. split; [done|]. intros h'. destruct (decide (id = x)) as [<-|Hx].
      * rewrite lookup_insert_eq. by intros [= <-].
      * rewrite lookup_insert_ne by done. apply Hx3.
    + fold c1. unfold stake_of. rewrite R1, R2, R6. fold (stake_of c).
      etransitivity; [exact Hq|]. apply Z.eq_le_incl. f_equal. f_equal.
      change (list_to_set (id :: id2 :: ids) : gset bytes) with ({[id]} ∪ list_to_set (id2 :: ids) : gset bytes).
      set_solver.
    + fold c1 in Eds, Hds. exists (d :: ds). split.
      * unfold forged_vote in *. rewrite R4, R5 in Eds. cbn [mbind res_bind]. by rewrite Eds.
      * unfold deliver in *. cbn [foldl fst snd]. rewrite Eh. cbn [fst snd]. by rewrite R4 in Hds.
Qed.

(** C18. Votes need no key.  A node that has a proposal of the current round counts a pre-commit for
    every validator that a message names: one peer, whoever it is, that sends one 92-byte
    message per validator with 67% of the stake among them makes the node finalize the
    proposal, unless one of these validators has already pre-committed to another. *)
Theorem forged_votes_finalize (a : NodeApp) (s : P2PNode) (peer_id h : bytes)
    (p : ConsensusProposal) (ids : list bytes)
    (Hclk : forall k, reading_ok (na_clock a k))
    (Hok : stakes_ok (vn_consensus (na_validator a)))
    (Htot : (0 < total_stake (vn_consensus (na_validator a)) < 2 ^ 49)%Z)
    (Hp : received_proposals (vn_consensus (na_validator a)) !! h = Some p)
    (Hh : proposal_hash p = Ok h)
    (He : (0 <= current_epoch (vn_consensus (na_validator a)) < 2 ^ 64)%Z)
    (Hr : (0 <= current_round (vn_consensus (na_validator a)) < 2 ^ 32)%Z)
    (Hids : Forall (fun id => length id = 32 /\
      is_Some (validators (vn_consensus (na_validator a)) !! id) /\
      forall h', pre_commit_choices (vn_consensus (na_validator a)) !! id = Some h' -> h' = h) ids)
    (Hquorum : (67 * total_stake (vn_consensus (na_validator a)) <=
      100 * set_sum (stake_of (vn_consensus (na_validator a))) (list_to_set ids : gset bytes))%Z) :
  exists payloads,
    res_map (fun id => serialize_vote (forged_vote (vn_consensus (na_validator a)) h id)) ids = Ok payloads /\
    Forall (fun d => length d = 92) payloads /\
    let '(a', s') := deliver a s peer_id Peers.PRE_COMMIT payloads in
    s' = s /\ exists b, cb_proposal b = p /\
      finalized_blocks (vn_consensus (na_validator a')) !!
        current_epoch (vn_consensus (na_validator a)) = Some b.
Proof.
  set (c := vn_consensus (na_validator a)) in *.
  assert (Hlen : length h = 32) by (unfold proposal_hash in Hh; inv_res; apply hashlib_sha3_256_length).
  assert (Hne : ids <> []).
  { intros ->. change (set_sum (stake_of c) (list_to_set [])) with 0%Z in Hquorum. lia. }
  destruct (forged_run ids a s peer_id p h) as (ds & Eds & Hds); try done.
  { fold c. etransitivity; [exact Hquorum|]. apply Z.mul_le_mono_nonneg_l; [lia|].
    apply set_sum_mono; [intros; by apply stake_of_nonneg|set_solver]. }
  exists ds. split; [exact Eds|]. split; [|exact Hds].
  clear Hds Hne Hquorum. fold c in Eds. revert ds Eds. induction ids as [|id ids IH]; intros ds Eds; cbn [res_map] in Eds.
  { injection Eds as <-. constructor. }
  apply Forall_cons in Hids as [(Hid & _) Hids].
  destruct (serialize_vote (forged_vote c h id)) as [d|] eqn:Ed; cbn [mbind res_bind] in Eds; [|done].
  destruct (res_map _ ids) as [ds'|]; cbn [mbind res_bind] in Eds; [|done]. injection Eds as <-. constructor; [|by apply IH].
  by eapply serialize_vote_length.
Qed.

End Forged.

(** ** Proposals are answered *)

Section Answered.
Context `{Hashlib}.

(** The node's own pre-vote for [h], made at the [k]-th reading of the clock. *)
Definition own_pre_vote (a : NodeApp) (h : bytes) (k : nat) (vote : ConsensusVote) : Prop :=
  exists t, to_ms (na_clock a k) = Ok t /\
    vote = mkConsensusVote (bft_validator_id (vn_consensus (na_validator a)))
      (current_epoch (vn_consensus (na_validator a))) (current_round (vn_consensus (na_validator a)))
      h "pre-vote" (bft_stake (vn_consensus (na_validator a))) t [].

(** A proposal as the receiver of [serialize_proposal] expects it. *)
Record acceptable_proposal (s : BFTConsensus) (p : ConsensusProposal) : Prop := {
  ap_fits : proposal_fits p;
  ap_transaction_root : length (cp_transaction_root p) = 32;
  ap_state_root : length (cp_state_root p) = 32;
  ap_epoch : cp_epoch p = current_epoch s;
  ap_round : cp_round p = current_round s;
  ap_known : is_Some (validators s !! cp_proposer_id p);
  ap_selected : expected_proposer s = Ok (Some (cp_proposer_id p));
}.

Lemma root_or_zero_32 root : length root = 32 -> root_or_zero root = root.
Proof. by destruct root. Qed.

Lemma create_pre_vote_reads s h now t :
  to_ms now = Ok t ->
  let vote := mkConsensusVote (bft_validator_id s) (current_epoch s) (current_round s) h "pre-vote"
    (bft_stake s) t [] in
  create_pre_vote s h now = (set_pre_votes s (append_vote (pre_votes s) h vote) (pre_vote_choices s), Ok vote).
Proof. intros E. unfold create_pre_vote. by rewrite E. Qed.

(** What the validator does with it. *)
Lemma receive_acceptable_proposal v p now t :
  acceptable_proposal (vn_consensus v) p -> to_ms now = Ok t ->
  exists h v' vote, proposal_hash p = Ok h /\ length h = 32 /\ proposal_hash (on_the_wire p) = Ok h /\
    vn_receive_proposal v (on_the_wire p) now = (v', Ok (true, "valid"%string)) /\
    create_pre_vote (set_proposals (vn_consensus v) (current_proposal (vn_consensus v))
      (<[h := on_the_wire p]> (received_proposals (vn_consensus v)))) h now = (vn_consensus v', Ok vote) /\
    vs_votes_cast (vn_stats v') = (vs_votes_cast (vn_stats v) + 1)%Z.
Proof.
  intros [Hf Htr Hsr He Hr Hin Hexp] Hnow. destruct (proposal_hash_ok p) as [h Hh].
  { apply Hf. } { split; [apply Hf|]. etransitivity; [apply Hf|done]. }
  assert (Hh' : proposal_hash (on_the_wire p) = Ok h).
  { rewrite <- Hh. unfold proposal_hash, on_the_wire. cbn. by rewrite !root_or_zero_32. }
  assert (Hlen : length h = 32).
  { unfold proposal_hash in Hh. inv_res. apply hashlib_sha3_256_length. }
  unfold vn_receive_proposal, receive_proposal.
  change (cp_epoch (on_the_wire p)) with (cp_epoch p). change (cp_round (on_the_wire p)) with (cp_round p).
  change (cp_proposer_id (on_the_wire p)) with (cp_proposer_id p).
  rewrite He, Hr, !Z.eqb_refl, bool_decide_eq_true_2, Hexp, bool_decide_eq_true_2, Hh' by done.
  cbn [negb]. rewrite (create_pre_vote_reads _ _ _ _ Hnow). eexists h, _, _.
  split; [done|]. split; [done|]. split; [done|]. split; [reflexivity|].
  split; [exact (create_pre_vote_reads _ _ _ _ Hnow)|]. cbn. lia.
Qed.

(** C24. A valid proposal is answered.  When the message of a proposal of the current epoch and
    round, made by the selected proposer, arrives, the node stores the proposal under the hash
    that its sender computes, and every peer with an open connection gets exactly one frame,
    whose payload decodes to the node's pre-vote for that hash; no other connection changes.
    The node records two pre-votes of its own and counts two votes: the validator makes one,
    which stays in its outbox, and the node makes the one it sends. *)
Theorem proposal_answered (a : NodeApp) (s : P2PNode) (peer_id : bytes) (p : ConsensusProposal)
    (Hclk : forall k, reading_ok (na_clock a k))
    (Hp : acceptable_proposal (vn_consensus (na_validator a)) p)
    (Hid : length (bft_validator_id (vn_consensus (na_validator a))) = 32)
    (Hstake : (0 <= bft_stake (vn_consensus (na_validator a)) < 2 ^ 64)%Z)
    (Htable : table_ok (pn_manager s)) (Hw : NoDup (writers (pm_peers (pn_manager s)))) :
  exists data h a' s' vote1 vote2 payload frame,
    serialize_proposal p = Ok data /\ proposal_hash p = Ok h /\
    handle_message a s peer_id PROPOSAL data = (a', s', Ok tt) /\
    own_pre_vote a h (na_ticks a) vote1 /\ own_pre_vote a h (S (na_ticks a)) vote2 /\
    vn_consensus (na_validator a') =
      set_pre_votes
        (set_proposals (vn_consensus (na_validator a)) (current_proposal (vn_consensus (na_validator a)))
           (<[h := on_the_wire p]> (received_proposals (vn_consensus (na_validator a)))))
        (append_vote (append_vote (pre_votes (vn_consensus (na_validator a))) h vote1) h vote2)
        (pre_vote_choices (vn_consensus (na_validator a))) /\
    vs_votes_cast (vn_stats (na_validator a')) = (vs_votes_cast (vn_stats (na_validator a)) + 2)%Z /\
    deserialize_vote payload "pre-vote" = Some vote2 /\
    encode_message Peers.PRE_VOTE payload = Ok frame /\ pn_manager s' = pn_manager s /\
    forall c, conn_of s' c =
      if bool_decide (c ∈ writers (pm_peers (pn_manager s))) && negb (is_closing s c)
      then mkConn (cn_out (conn_of s c) ++ frame) false false else conn_of s c.
Proof.
  destruct (Hclk (na_ticks a)) as (t1 & E1 & _). destruct (Hclk (S (na_ticks a))) as (t2 & E2 & Ht2).
  destruct (receive_acceptable_proposal (na_validator a) p _ t1 Hp E1)
    as (h & v' & vote1 & Hh & Hlen & Hh' & Er & Ev & Hs1).
  destruct (proposal_wire p (ap_fits _ _ Hp)) as (data & Ed & Dd).
  { rewrite root_or_zero_32; apply Hp. } { rewrite root_or_zero_32; apply Hp. }
  set (c := vn_consensus (na_validator a)) in *.
  rewrite (create_pre_vote_reads _ _ _ _ E1) in Ev. injection Ev as Ec <-.
  destruct (vote_wire (mkConsensusVote (bft_validator_id c) (current_epoch c) (current_round c) h
    "pre-vote" (bft_stake c) t2 [])) as (payload & Es & Ds).
  { destruct (ap_fits _ _ Hp) as [_ He Hr _ _]. rewrite (ap_epoch _ _ Hp) in He.
    rewrite (ap_round _ _ Hp) in Hr. by split. }
  pose proof (serialize_vote_length _ _ Es Hid Hlen) as Hpl.
  assert (Ef : exists frame, encode_message Peers.PRE_VOTE payload = Ok frame).
  { eexists. apply encode_message_ok. by rewrite Hpl. }
  destruct Ef as [frame Ef].
  destruct (broadcast_conns s Peers.PRE_VOTE payload frame Ef Htable Hw) as [_ Hconns].
  pose proof (broadcast_same s Peers.PRE_VOTE payload) as [Hm _].
  exists data, h. eexists _, _, _, _, payload, frame. split; [done|]. split; [done|].
  unfold handle_message. rewrite Dd. unfold tick. rewrite Er. cbn [na_clock na_ticks na_validator].
  rewrite Hh'. cbn [mbind res_bind]. rewrite (create_pre_vote_reads _ _ _ _ E2), <- Ec.
  cbn [bft_validator_id current_epoch current_round bft_stake set_pre_votes set_proposals].
  rewrite Es. split; [reflexivity|]. split; [by exists t1|]. split; [by exists t2|].
  split; [reflexivity|]. split; [cbn; lia|]. done.
Qed.

End Answered.

(** ** Sample runs *)

(** A node with 30 of 130, which holds the proposal of the validator with 100. *)
Definition pending_app : NodeApp := mkApp (set_peers pending_node []) (fun _ => lit 9 1) 0.

Definition peer_pre_vote : bytes :=
  match serialize_vote (mkConsensusVote peer_id 0 0 pending_hash "pre-vote" 100 5 []) with
  | Ok d => d
  | Err _ => []
  end.

(** A peer connects and sends the pre-vote of the validator with 100. *)
Definition quorum_events : list p2p_event :=
  crossing ++ [EvRead (crossed_peer 2 6 true) (Ok (Peers.PRE_VOTE, peer_pre_vote)) (lit 9 1)].

Lemma pre_commits_stay_local_witness :
  let '(a', s') := p2p_run (AppHandler0 := @node_handler toy_hashlib) (pending_app, p2p_new demo_id 0 500) quorum_events in
  match pre_commits (vn_consensus (na_validator a')) !! pending_hash with
  | Some l => map cv_voter_id l = [replicate 32 Byte.x01]
  | None => False
  end /\
  vn_outbox (na_validator a') = [] /\ vn_peers (na_validator a') = [] /\
  forall c, exists msgs frames, res_map (fun m => encode_message m.1 m.2) msgs = Ok frames /\
    cn_out (conn_of s' c) = concat frames /\
    Forall (fun m : MessageType * bytes => m.1 ∈ answers) msgs.
Proof.
  pose proof (@pre_commits_stay_local toy_hashlib pending_app (p2p_new demo_id 0 500) quorum_events) as W.
  specialize (W eq_refl ltac:(repeat constructor)).
  destruct (p2p_run _ _) as [a' s'] eqn:E. split; [|exact W].
  assert (Ea : a' = (p2p_run (AppHandler0 := @node_handler toy_hashlib) (pending_app, p2p_new demo_id 0 500) quorum_events).1)
    by (by rewrite E).
  rewrite Ea. vm_compute. reflexivity.
Defined.

Lemma forged_votes_finalize_witness :
  exists payloads,
    res_map (fun id => serialize_vote (forged_vote (vn_consensus (na_validator pending_app)) pending_hash id))
      [peer_id] = Ok payloads /\
    Forall (fun d => length d = 92) payloads /\
    let '(a', s') := deliver (H := toy_hashlib) pending_app (p2p_new demo_id 0 500) other_id Peers.PRE_COMMIT payloads in
    s' = p2p_new demo_id 0 500 /\ exists b, cb_proposal b = pending_proposal /\
      finalized_blocks (vn_consensus (na_validator a')) !!
        current_epoch (vn_consensus (na_validator pending_app)) = Some b.
Proof.
  apply (@forged_votes_finalize toy_hashlib pending_app (p2p_new demo_id 0 500) other_id pending_hash pending_proposal [peer_id]).
  - intros k. eexists. split; [vm_compute; reflexivity|]. split; [discriminate|reflexivity].
  - apply (stakes_ok_register (bft_new (replicate 32 Byte.x01) 30) peer_id 100); [|lia].
    apply (stakes_ok_register (mkBFTConsensus (replicate 32 Byte.x01) 30 0 0 IDLE None ∅ ∅ ∅ ∅ ∅ ∅ 0 ∅)); [|lia].
    split; [reflexivity|]. apply map_Forall_empty.
  - split; reflexivity.
  - vm_compute. reflexivity.
  - vm_compute. reflexivity.
  - split; [discriminate|reflexivity].
  - split; [discriminate|reflexivity].
  - constructor; [|constructor]. split; [reflexivity|]. split; [exists 100%Z; reflexivity|].
    intros h E. discriminate E.
  - vm_compute. discriminate.
Defined.

(** A proposal of the validator with 100, with both roots. *)
Definition rooted_proposal : ConsensusProposal :=
  mkConsensusProposal peer_id 0 0 (replicate 32 Byte.x06) ∅ (replicate 32 Byte.x04)
    (replicate 32 Byte.x05) (PInt 5) [].

Definition consensus_of (a : NodeApp) : BFTConsensus := vn_consensus (na_validator a).

(** The last connection of [crossed] is open and gets the pre-vote. *)
Lemma proposal_answered_witness :
  exists data h a' s' vote1 vote2 payload frame,
    serialize_proposal rooted_proposal = Ok data /\ proposal_hash (H := toy_hashlib) rooted_proposal = Ok h /\
    handle_message (H := toy_hashlib) pending_app crossed other_id PROPOSAL data = (a', s', Ok tt) /\
    own_pre_vote pending_app h 0 vote1 /\ own_pre_vote pending_app h 1 vote2 /\
    consensus_of a' =
      set_pre_votes
        (set_proposals (consensus_of pending_app) (current_proposal (consensus_of pending_app))
           (<[h := on_the_wire rooted_proposal]> (received_proposals (consensus_of pending_app))))
        (append_vote (append_vote (pre_votes (consensus_of pending_app)) h vote1) h vote2)
        (pre_vote_choices (consensus_of pending_app)) /\
    vs_votes_cast (vn_stats (na_validator a')) = 2%Z /\
    deserialize_vote payload "pre-vote" = Some vote2 /\
    encode_message Peers.PRE_VOTE payload = Ok frame /\ pn_manager s' = pn_manager crossed /\
    forall c, conn_of s' c =
      if bool_decide (c ∈ writers (pm_peers (pn_manager crossed))) && negb (is_closing crossed c)
      then mkConn (cn_out (conn_of crossed c) ++ frame) false false else conn_of crossed c.
Proof.
  apply (@proposal_answered toy_hashlib pending_app crossed other_id rooted_proposal).
  - intros k. eexists. split; [vm_compute; reflexivity|]. split; [discriminate|reflexivity].
  - split; try reflexivity.
    + split; try reflexivity; try (split; [discriminate|reflexivity]).
      exists 5%Z. split; [reflexivity|]. split; [discriminate|reflexivity].
    + exists 100%Z. reflexivity.
  - reflexivity.
  - split; [discriminate|reflexivity].
  - exact crossed_table.
  - assert (E : writers (pm_peers (pn_manager crossed)) = [2]) by (vm_compute; reflexivity).
    rewrite E. apply NoDup_singleton.
Defined.
